(* ===== verification/_CoqProject ===== *)
-Q . S2P
Prelude.v
GoStd.v
GoFloat.v
Regex.v
Errors.v
Utf8.v
GoJson.v
JsonDecode.v
Paths.v
FileStore.v
Selector.v
ApiTypes.v
GoHeap.v
DeepCopy.v
Scheme.v
Steps.v
Validate.v
Rules.v
RuleFiles.v
Configuration.v
Cluster.v
PhysicalMeasurement.v
PhysicalMeasurementController.v
DataCenterResourceController.v
Sha256.v
Snmp.v
MeasurementDeviceJob.v
MeasurementDeviceController.v
DeviceLife.v
Guard.v
ObjectSystem.v
Caches.v
Threads.v
System.v
MeasurementThread.v
Turns.v
Settling.v
ResourceSystem.v
ResourceSettling.v
ResourceThread.v
DeviceSystem.v
DeviceThread.v
SharedVolume.v
WholeSystem.v
Interleaving.v
Webapp.v
WebappServer.v
Operator.v
Simulation.v
StressTest.v
StressTestResources.v
Observability.v
PostMortem.v
