(* ===== verification/Prelude.v ===== *)
(** * Chantico: a verification development

    Chantico is a Kubernetes operator, written in Go, that monitors the energy
    use of a data centre.  It watches three custom resources and keeps files on
    a volume in step with them, which Prometheus and the SNMP exporter read:

    - a [PhysicalMeasurement] becomes a scrape target of Prometheus;
    - a [DataCenterResource] (a PDU, a server, a virtual machine, ...) is a node
      of a graph along which power is attributed; it becomes a file of
      recording rules of Prometheus;
    - a [MeasurementDevice] becomes a generator file, a Kubernetes job that turns
      it into an SNMP configuration, its share of one merged configuration, and
      a reload of the exporter.

    The development follows the packages of the program (paths are those of the
    repository, under src/).

    ** The files

    - [Prelude]: Go computations as a state monad with panics, frames (what a
      computation leaves alone) and their automation, generic tactics and lemmas.
    - [GoStd]: what the program uses of the Go standard library: strings,
      strconv, UTF-8, path/filepath.  [Paths]: cleaned paths as lists of
      elements, with [Rel] and the relation "lies below".  [Utf8]: runes and
      their encoding.
      [GoJson], [JsonDecode]: the JSON text of strings and maps, the scanner and
      the decoding of such text.  [Sha256]: SHA-256 and hexadecimal, with test vectors.
      [GoFloat]: float64 over SpecFloat, and what the program prints and parses of
      it.  [Regex]: regular expressions by derivatives.
    - [Errors] (internal/errors and the error types of the packages): one type for
      every error the program builds, with Error, Unwrap, Is and As.
    - [FileStore] (internal/filestore): a file system whose calls may be refused,
      the interface [FileStore] as a class with its laws [FileStoreLaws], and
      [VolumeFileStore], shown to keep them.
    - [Selector] (internal/k8s): value selectors, templates, deployments.
    - [ApiTypes] (api/v1alpha1): the resources, their conditions; the class
      [Conditioned] is the method the three resources share.  [GoHeap]: pointers,
      slices and maps over a heap, with the fragment of it a value owns.
      [DeepCopy] (zz_generated.deepcopy.go of api/v1alpha1 and internal/k8s): the
      types as they are in memory and their generated copies.  [Scheme]
      (groupversion_info.go, the init functions): the kinds that are registered.
    - [Steps] (internal/steps): the runner, as a function and as a relation.
    - [Validate] (internal/datacenterresource/validate.go): the validation of a
      resource and of the graph it belongs to.
    - [Rules] (internal/datacenterresource/template.go, rules_pure.go): rendered
      expressions and the recording rules built from them.  [RuleFiles]: what
      Prometheus asks of the names in them.
    - [Configuration] (internal/configuration, and configureWatchNamespace of
      cmd/operator/main.go): the environment.
    - [Cluster]: the world of a controller (object, volume, API) and the shape of
      the three Reconcile methods, with the patch that is deferred.
    - [PhysicalMeasurement], [PhysicalMeasurementController],
      [DataCenterResourceController], [Snmp], [MeasurementDeviceJob],
      [MeasurementDeviceController]: internal/physicalmeasurement,
      internal/controller, internal/snmp, internal/measurementdevice (with
      internal/images and internal/volumes).  [DeviceLife]: the turns of one device,
      from any state of its job to Ready, in a cluster that refuses nothing.
    - [Guard]: the protocol of finalizers as a machine of its own: files that are
      only written under guard.  [ObjectSystem]: the API server as a class with
      laws, users, and the system they make with any controller that follows the
      protocol (the class [FollowsProtocol]).
    - [System], [ResourceSystem], [DeviceSystem]: the controllers of the
      measurements, the resources and the devices among users that create, edit,
      delete and purge, and others that write to the volume: step relations, and
      what holds in every state they reach.
      [SharedVolume]: the passes of the other two controllers are such others to
      the system of the measurements.  [WholeSystem]: all three controllers and all
      users over one volume and one API, each step of it a step of each system.
    - [Caches]: the versions of the objects of a kind, from the one that a
      controller reads to the one that is stored; what the finalizer makes of the
      versions of an object, and what an object that was read says of the versions
      since ([held]).
    - [Threads]: a pass one step at a time, on a copy of an object that others
      change meanwhile, with crashes; what the protocol asks of a step (the class
      [SafeSteps]).  [MeasurementThread], [ResourceThread], [DeviceThread]: the steps
      of the three controllers are so.  [Interleaving]: the three workers with their
      caches, the users and everyone else, step by step; a pass that nothing
      interrupts is a run of it.
    - [Turns]: a machine whose keys take turns, and what a key can count on after
      some of its own.  [Settling], [ResourceSettling]: the measurements and the
      resources as such machines, once users leave them alone.
    - [Webapp], [WebappServer] (internal/webapp, cmd/webapp): the page over the
      cluster, its graph, the configuration; the connection, the server and the
      application from start to end.
    - [Operator] (cmd/operator/main.go, SetupWithManager of the controllers): the
      options made of the flags, what is registered, and the calls of the start.
    - [Simulation] (dev/mocks): random walks, the SNMP agent and the exporter that
      serve them.  [StressTest], [StressTestResources] (dev/stresstest): the MIB
      parser, the generation, creation and removal of the objects of a stress
      test; what is shown of the generated objects.  [Observability]
      (dev/stresstest-observability): the start of the program, and the loop that
      counts what is reconciled.
      [PostMortem] (internal/postmortem): the report of a failure and its file.

    ** How the code is modelled

    A method that changes state is a [Go] computation over a [World]: the object
    under reconciliation, the file system [Fs] and the API [A].  Its definition
    has the calls, the guards and the early returns of the method in their order.
    A pure function of the program is a function.  A nil pointer that the code
    dereferences is a panic; a deferred call runs on the state a panic leaves.

    Code the repository does not contain is a class the definitions take: the
    Kubernetes client one verb at a time ([Getter], [Patcher], [SelectorClient],
    [DcrLister], [JobClient], [DeploymentClient]), [HttpPost], [TextTemplate], the
    YAML library ([RuleYaml], [SnmpYaml]), renameio, the helpers of apimachinery
    on conditions and finalizers, the order in which Go ranges over a map
    ([MapOrder]), [sort.Slice], the refusals of the operating system ([Os]).
    Documented behaviour a theorem needs is a class of laws beside it
    ([MetaConditionsLaws], [FinalizerUtilLaws], [RenameioLaws], ...), and every such
    class has an instance that the witnesses compute with.

    ** What is shown

    - The controllers of physical measurements and of data centre resources
      refine an abstract controller, an inductive relation [pass] with one
      constructor per outcome ([Reconcile_PhysicalMeasurement_refines],
      [Reconcile_DataCenterResource_refines]); the generator job follows its own
      state machine [job_pass] ([reconcileSNMPGeneratorJob_refines]).
    - Ready is truthful in all three: what a Ready resource says is in the files,
      and Prometheus or the exporter has been told ([..._ready_truthful]).
    - A finalizer is given up last, when what it protects is cleaned up
      ([..._finalizer_last]); a pass is confined to the files of its object
      ([..._confined]); a settled object is left alone ([..._idempotent],
      [MeasurementDevice_stable], [created_job_kept]); with nothing in the way
      one pass succeeds ([PhysicalMeasurement_converges], [DataCenterResource_converges]),
      while a device takes three turns and the end of its job, after which the next
      pass leaves it Ready ([MeasurementDevice_converges]).
    - In every state that users and controller reach from an empty cluster, a
      measurement that is Ready for its present spec is published as that spec
      says, in any number of namespaces and although types are edited, as long as no
      two measurements have one target file at one time ([system_published]); without
      that it fails ([namespaces_collide]).  With one namespace and types that are not
      edited, which is what the other theorems on measurements take, a measurement
      that is gone has left no target behind either ([system_no_orphans]).
    - All three controllers follow one protocol, so that in every reached state no
      rule file and no generator file is without its object
      ([resources_no_orphans], [devices_no_orphans]); the system of the
      measurements is an instance of the same machine.  What holds of the three
      holds of the operator as a whole ([operator_files_owned]), also while its
      passes are under way and their objects are edited, deleted or purged, when it
      crashes, and when its passes work on objects that were overtaken before they
      were read ([operator_interleaved_owned]).  All this is for users who give no two
      stored objects of a kind one file (measurements: one namespace, types that are
      not edited; resources: one name in one namespace only; devices: their UIDs), of
      which the operator checks nothing.  In the last, users also create objects without
      the finalizers of the operator: of one that is created with it, under the name
      of one that is being cleaned up, a lagging cache would show a guard that the
      cleaning has already taken away.
    - Left alone, and with nothing refused, every measurement is as it should be
      after two turns, in whatever order the turns come ([measurements_settle]), and
      so is every resource, although the pass of one also patches others: the live
      ones are Ready exactly when the graph and their spec are valid and their
      templates render ([resources_settle]).
    - The walk of the graph terminates, accepts exactly the resources whose
      ancestors are there and not in a cycle, visits exactly the ancestors, and
      its errors are true; if every resource passes it, the graph has no cycle
      ([validated_graph_acyclic]).
    - The rules define the power of a resource once, their labels cannot be
      overridden, and they do not depend on the order of the parents; the file of an
      accepted resource is well typed, but for one label that the validation lets
      through ([rule_file_typed_iff]).
    - The merged SNMP configuration is the union of those of the devices, a
      later name taking precedence ([GetMergedSortedSNMPConfig_spec]).
    - A deep copy stands for the same resource and shares no memory with it
      ([DeepCopyObject_independent]), which is why the other files may take the
      resources for values.
    - Writes to the volume happen entirely or not at all; job and operator mean
      the same files; a generation written into a job is read back, and so are
      the targets of a file ([LoadFileSDTargets_reads_back]).
    - The environment is accepted exactly when each variable is set and valid; the
      manager starts only with such an environment, with a cache that covers the
      namespaces the operator works in, protected servers, and everything
      registered ([operator_starts_complete]).
    - The page of the web application draws exactly the resources and their
      parents ([HomePage_spec]), and a server is started exactly with the
      configuration, templates and connection in order ([webapp_serves_iff]).
    - Simulated values stay within their bounds ([Walk_stays_within],
      [agent_answers_in_range]); a stress test is generated whole, and the
      operator's own validation accepts every resource of it
      ([stress_test_generates]); it asks nothing of a cluster without consent
      ([main_asks_its_own]); the gauges of its observation count what they say.

    ** Bounds and fuel

    Go integers are [Z], with the range of int64 written out where a number is
    parsed ([ParseInt]); generations are in that range by hypothesis.  The walk
    of [validateGraph] takes fuel: the number of parent references of the
    resources and of the resource itself, and one more; [validateGraph_terminates]
    shows that it is enough and that more changes nothing.  SHA-256 takes one
    unit per word of the padded message, of which it consumes sixteen at a time.
    Floats are those of SpecFloat at 53 bits; the MIB scanner refuses a line of
    64 KiB, as bufio does; the JSON scanner takes a byte at a time and nests at
    most ten thousand deep, as that of encoding/json.  Loops over counts recurse
    on the count itself.

    ** What is not modelled

    Logging; the parsing of flags; symbolic links and file modes; time.  Each
    controller has one worker, which is why a pass is a sequential computation.  In
    [System], [ResourceSystem], [DeviceSystem] and [WholeSystem] a pass is one step;
    in [Threads] and [Interleaving] a step of a pass is, and what happens between the
    calls of one step is not looked at.  In all but [Interleaving] reads are of the
    object as it is stored; there they are from caches that lag behind by any number
    of versions but never go back, also not in a restart, which may happen when a
    cluster has several API servers.  What the libraries do behind their calls (controller-runtime, client-go,
    the HTTP server but for its one route, [html/template], gosnmp, Prometheus) is
    left to them, and so are the sizes of memory and the fusing of floating-point
    operations some processors allow.

    Some things are shown of less than the whole: the fair turns of [Settling] and
    [ResourceSettling] are passes that read the object as it is stored, and those of
    [DeviceLife] are of one device, whose namesakes in the cluster are its own jobs;
    that a turn comes at all is for the work queue of controller-runtime, and that a
    job ends is for Kubernetes. *)
From stdpp Require Export base tactics list gmap strings sorting fin_maps.
From Stdlib Require Export Ascii ZArith Lia.

(** * Go computations

    A Go function that mutates a state [S] and may panic is a function from
    the state to an outcome and the state it leaves behind.  A panic keeps the
    state reached so far, because deferred calls still run on it. *)

Inductive outcome (A : Type) : Type :=
| Done (a : A)
| Panicked.
Arguments Done {A} a.
Arguments Panicked {A}.

Definition Go (S A : Type) : Type := S → outcome A * S.

#[export] Instance Go_ret {S} : MRet (Go S) := λ A a s, (Done a, s).
#[export] Instance Go_bind {S} : MBind (Go S) := λ A B f m s,
  match m s with
  | (Done a, s') => f a s'
  | (Panicked, s') => (Panicked, s')
  end.

(** The state operations every handler is written with. *)
Definition gets {S A} (f : S → A) : Go S A := λ s, (Done (f s), s).
Definition modify {S} (f : S → S) : Go S unit := λ s, (Done tt, f s).
Definition panic {S A} : Go S A := λ s, (Panicked, s).

(** A step of the state that also answers a value. *)
Definition action {S A} (f : S → A * S) : Go S A :=
  λ s, let '(a, s') := f s in (Done a, s').

(** An outcome of a pure function: its panic is the handler's panic. *)
Definition lift_outcome {S A} (o : outcome A) : Go S A := λ s, (o, s).

(** ** Rewriting equations of the monad *)
Section GoEquations.
Context {S : Type}.

Lemma run_ret {A} (a : A) (s : S) : mret (M:=Go S) a s = (Done a, s).
Proof. reflexivity. Qed.

Lemma run_bind {A B} (m : Go S A) (f : A → Go S B) (s : S) :
  (m ≫= f) s = match m s with
               | (Done a, s') => f a s'
               | (Panicked, s') => (Panicked, s')
               end.
Proof. reflexivity. Qed.

Lemma run_bind_done {A B} (m : Go S A) (f : A → Go S B) (s s' : S) a :
  m s = (Done a, s') → (m ≫= f) s = f a s'.
Proof. intros H. by rewrite run_bind, H. Qed.

Lemma run_gets {A} (f : S → A) (s : S) : gets f s = (Done (f s), s).
Proof. reflexivity. Qed.

Lemma run_modify (f : S → S) (s : S) : modify f s = (Done tt, f s).
Proof. reflexivity. Qed.
End GoEquations.

(** ** Frames: what a computation leaves alone

    [frame R m]: whatever the outcome of [m], the state before and the state
    after are related by [R].  For a preorder [R] frames compose along the
    monad, so that a handler's frame follows from those of its calls. *)
Definition frame {S A} (R : relation S) (m : Go S A) : Prop :=
  ∀ s, R s (m s).2.

Create HintDb go discriminated.

Section Frames.
Context {S : Type} (R : relation S) `{!PreOrder R}.

Lemma frame_ret {A} (a : A) : frame R (mret (M:=Go S) a).
Proof. intros s. reflexivity. Qed.

Lemma frame_bind {A B} (m : Go S A) (f : A → Go S B) :
  frame R m → (∀ a, frame R (f a)) → frame R (m ≫= f).
Proof.
  intros Hm Hf s. rewrite run_bind. pose proof (Hm s) as Hs.
  destruct (m s) as [[a|] s']; [|done]. by transitivity s'; [|apply Hf].
Qed.

Lemma frame_gets {A} (f : S → A) : frame R (gets f).
Proof. intros s. reflexivity. Qed.

Lemma frame_panic {A} : frame R (panic (S:=S) (A:=A)).
Proof. intros s. reflexivity. Qed.

Lemma frame_lift_outcome {A} (o : outcome A) : frame R (lift_outcome o).
Proof. intros s. reflexivity. Qed.

Lemma frame_modify (f : S → S) : (∀ s, R s (f s)) → frame R (modify f).
Proof. intros Hf s. apply Hf. Qed.

Lemma frame_action {A} (f : S → A * S) : (∀ s, R s (f s).2) → frame R (action f).
Proof. intros Hf s. unfold action. specialize (Hf s). by destruct (f s). Qed.
End Frames.

#[export] Hint Resolve frame_ret frame_bind frame_gets frame_panic
  frame_lift_outcome frame_modify frame_action : go.

(** ** Tactics *)

(** Split the first [match] of a hypothesis or of the goal, keeping the
    equation, and clean up. *)
Ltac case_inner t :=
  lazymatch t with
  | context [match ?x with _ => _ end] =>
      lazymatch x with
      | context [match ?y with _ => _ end] => case_inner x
      | _ => let E := fresh "E" in destruct x eqn:E
      end
  end.

Ltac go_case :=
  match goal with
  | |- ?g => case_inner g
  end; simplify_eq/=.

Ltac go_case_in H :=
  match type of H with
  | ?g => case_inner g
  end; simplify_eq/=.

(** Walk through the syntax of a handler to prove a frame. *)
Ltac frame_step :=
  lazymatch goal with
  | |- frame _ (_ ≫= _) => apply frame_bind; [try apply _ | | intros ?]
  | |- frame _ (match ?x with _ => _ end) => destruct x
  | |- frame _ (mret _) => apply frame_ret; apply _
  | |- frame _ (gets _) => apply frame_gets; apply _
  | |- frame _ panic => apply frame_panic; apply _
  | |- frame _ (lift_outcome _) => apply frame_lift_outcome; apply _
  | |- frame _ (let '_ := ?x in _) => destruct x
  end.

Ltac frame_auto := repeat (frame_step || (progress eauto with go)).

(** ** Lists *)

Lemma elem_of_take_S {A} (l : list A) n x y :
  l !! n = Some x → y ∈ take (S n) l ↔ y ∈ take n l ∨ y = x.
Proof. intros H. rewrite (take_S_r _ _ _ H). set_solver. Qed.

Lemma drop_S_lookup {A} (l : list A) n x : l !! n = Some x → drop n l = x :: drop (S n) l.
Proof. apply drop_S. Qed.
