(* ===== verification/GoStd.v ===== *)
(** What the program uses of the language's standard library: UTF-8 decoding,
    [strings], [strconv], [path/filepath] (Unix), [sort] and [maps].

    A Go string, and a byte slice, is a [string]: a list of bytes. *)
From stdpp Require Import pretty.
From S2P Require Import Prelude.

(** ** Bytes and runes *)

Definition byte_val (c : ascii) : Z := Z.of_N (Ascii.N_of_ascii c).

Fixpoint string_of_chars (l : list ascii) : string :=
  match l with
  | [] => EmptyString
  | c :: l' => String c (string_of_chars l')
  end.

Fixpoint chars (s : string) : list ascii :=
  match s with
  | EmptyString => []
  | String c s' => c :: chars s'
  end.

(** A single byte string from its code: quotes and control characters. *)
Definition byte_str (n : N) : string := String (Ascii.ascii_of_N n) EmptyString.

(** The double quote. *)
Definition dquote : string := byte_str 34.
Definition newline : string := byte_str 10.

Definition RuneError : Z := 65533.

Definition in_range (lo hi x : Z) : bool := (lo <=? x)%Z && (x <=? hi)%Z.

Definition cont (c : ascii) : bool := in_range 128 191 (byte_val c).

(** [utf8.DecodeRuneInString] on a non-empty string: the rune and its width. *)
Definition DecodeRune (c0 : ascii) (rest : string) : Z * nat :=
  let b0 := byte_val c0 in
  let low (c : ascii) (k : Z) := Z.land (byte_val c) (2 ^ k - 1) in
  let bad := (RuneError, 1) in
  if (b0 <? 128)%Z then (b0, 1)
  else if in_range 194 223 b0 then
    match rest with
    | String c1 _ =>
        if cont c1 then ((Z.lor (Z.shiftl (low c0 5) 6) (low c1 6))%Z, 2) else bad
    | _ => bad
    end
  else if in_range 224 239 b0 then
    match rest with
    | String c1 (String c2 _) =>
        let lo := if (b0 =? 224)%Z then 160%Z else 128%Z in
        let hi := if (b0 =? 237)%Z then 159%Z else 191%Z in
        if in_range lo hi (byte_val c1) && cont c2
        then ((Z.lor (Z.shiftl (low c0 4) 12)
                 (Z.lor (Z.shiftl (low c1 6) 6) (low c2 6)))%Z, 3)
        else bad
    | _ => bad
    end
  else if in_range 240 244 b0 then
    match rest with
    | String c1 (String c2 (String c3 _)) =>
        let lo := if (b0 =? 240)%Z then 144%Z else 128%Z in
        let hi := if (b0 =? 244)%Z then 143%Z else 191%Z in
        if in_range lo hi (byte_val c1) && cont c2 && cont c3
        then ((Z.lor (Z.shiftl (low c0 3) 18)
                 (Z.lor (Z.shiftl (low c1 6) 12)
                    (Z.lor (Z.shiftl (low c2 6) 6) (low c3 6))))%Z, 4)
        else bad
    | _ => bad
    end
  else bad.

(** The runes [for _, r := range s] yields; [skip] counts the bytes of the
    current rune still to pass over. *)
Fixpoint runes_from (skip : nat) (s : string) : list Z :=
  match s with
  | EmptyString => []
  | String c s' =>
      match skip with
      | S k => runes_from k s'
      | O => let '(r, w) := DecodeRune c s' in r :: runes_from (w - 1) s'
      end
  end.
Definition runes : string → list Z := runes_from 0.

(** [unicode.IsSpace]. *)
Definition IsSpace (r : Z) : bool :=
  in_range 9 13 r || (r =? 32)%Z || (r =? 133)%Z || (r =? 160)%Z ||
  (r =? 5760)%Z || in_range 8192 8202 r || (r =? 8232)%Z || (r =? 8233)%Z ||
  (r =? 8239)%Z || (r =? 8287)%Z || (r =? 12288)%Z.

(** [len(bytes.TrimSpace(s)) == 0]: trimming both ends leaves nothing exactly
    when every rune is white space. *)
Definition trims_to_empty (s : string) : bool := forallb IsSpace (runes s).

(** ** package strings *)
Module strings.
Fixpoint Join (elems : list string) (sep : string) : string :=
  match elems with
  | [] => ""
  | [e] => e
  | e :: es => e +:+ sep +:+ Join es sep
  end.

Fixpoint HasPrefix (s prefix : string) {struct prefix} : bool :=
  match prefix, s with
  | EmptyString, _ => true
  | String p prefix', String c s' =>
      if decide (p = c) then HasPrefix s' prefix' else false
  | String _ _, EmptyString => false
  end.

(** [strings.Map] for a mapping that yields one byte for every rune. *)
Definition MapBytes (mapping : Z → ascii) (s : string) : string :=
  string_of_chars (mapping <$> runes s).

(** [strings.ReplaceAll] of one byte by another. *)
Definition ReplaceByte (s : string) (old new : ascii) : string :=
  string_of_chars ((λ c, if decide (c = old) then new else c) <$> chars s).

(** [strings.Fields]: the runs of runes that are no white space.  [cur] is the
    field so far, last byte first; [skip] counts the bytes of the current rune
    still to come, which belong to the field when [keep]. *)
Definition end_field (cur : list ascii) : list string :=
  if decide (cur = []) then [] else [string_of_chars (reverse cur)].
Fixpoint fields_from (skip : nat) (keep : bool) (cur : list ascii) (s : string) : list string :=
  match s with
  | EmptyString => end_field cur
  | String c s' =>
      match skip with
      | S k => fields_from k keep (if keep then c :: cur else cur) s'
      | O =>
          let '(r, w) := DecodeRune c s' in
          if IsSpace r then end_field cur ++ fields_from (w - 1) false [] s'
          else fields_from (w - 1) true (c :: cur) s'
      end
  end.
Definition Fields : string → list string := fields_from 0 false [].
End strings.

(** ** package strconv *)
Inductive num_error := ErrSyntax | ErrRange.
#[export] Instance num_error_eq_dec : EqDecision num_error.
Proof. solve_decision. Defined.

Module strconv.
Definition maxUint64 : Z := 2 ^ 64 - 1.

Definition FormatInt (i : Z) : string := pretty i.

Definition digit (c : ascii) : option Z :=
  let v := byte_val c in
  if in_range 48 57 v then Some (v - 48)%Z else None.

(** The loop of [ParseUint] in base 10: it stops at the first byte that is
    not a digit or that takes the number past [maxVal]. *)
Fixpoint parse_digits (maxVal n : Z) (s : string) : num_error + Z :=
  match s with
  | EmptyString => inr n
  | String c s' =>
      match digit c with
      | None => inl ErrSyntax
      | Some d =>
          let n1 := (n * 10 + d)%Z in
          if (maxVal <? n1)%Z then inl ErrRange else parse_digits maxVal n1 s'
      end
  end.

Definition ParseUint (s : string) (bitSize : Z) : num_error + Z :=
  match s with
  | EmptyString => inl ErrSyntax
  | _ => parse_digits (2 ^ bitSize - 1) 0 s
  end.

(** [ParseInt(s, 10, 64)]: the value is returned beside the error, clamped
    on overflow and 0 on a syntax error. *)
Definition ParseInt (s : string) : Z * option num_error :=
  match s with
  | EmptyString => (0%Z, Some ErrSyntax)
  | String c s' =>
      let neg := bool_decide (c = "-"%char) in
      let body := if bool_decide (c = "+"%char ∨ c = "-"%char) then s' else s in
      let cutoff := (2 ^ 63)%Z in
      match ParseUint body 64 with
      | inl ErrSyntax => (0%Z, Some ErrSyntax)
      | inl ErrRange =>
          (if neg then (- cutoff)%Z else (cutoff - 1)%Z, Some ErrRange)
      | inr un =>
          if negb neg && (cutoff <=? un)%Z then ((cutoff - 1)%Z, Some ErrRange)
          else if neg && (cutoff <? un)%Z then ((- cutoff)%Z, Some ErrRange)
          else (if neg then (- un)%Z else un, None)
      end
  end.

(** [int] has 64 bits on the supported platforms. *)
Definition Atoi (s : string) : Z * option num_error := ParseInt s.
End strconv.

(** ** package path/filepath on Unix *)
Module filepath.
Definition slash : ascii := "/"%char.

(** The elements between the slashes. *)
Fixpoint split_slash (s : string) : list string :=
  match s with
  | EmptyString => [""]
  | String c s' =>
      if decide (c = slash) then "" :: split_slash s'
      else match split_slash s' with
           | [] => [String c ""]
           | e :: es => String c e :: es
           end
  end.

(** One element of a path against the elements kept so far (last first). *)
Definition clean_step (rooted : bool) (out : list string) (e : string) : list string :=
  if decide (e = "" ∨ e = ".") then out
  else if decide (e = "..") then
    match out with
    | top :: out' => if decide (top = "..") then e :: out else out'
    | [] => if rooted then [] else [e]
    end
  else e :: out.

Definition IsAbs (path : string) : bool := strings.HasPrefix path "/".

Definition Clean (path : string) : string :=
  let rooted := IsAbs path in
  let kept := reverse (foldl (clean_step rooted) [] (split_slash path)) in
  let body := strings.Join kept "/" in
  if rooted then "/" +:+ body
  else if decide (kept = []) then "." else body.

(** [Join]: empty leading elements are ignored. *)
Fixpoint Join (elem : list string) : string :=
  match elem with
  | [] => ""
  | e :: es => if decide (e = "") then Join es else Clean (strings.Join elem "/")
  end.

Definition last_elem (path : string) : string :=
  default "" (last (split_slash path)).

Fixpoint drop_trailing (l : list string) : list string :=
  match l with
  | "" :: l' => drop_trailing l'
  | _ => l
  end.

(** [Base]: the last element after the trailing slashes. *)
Definition Base (path : string) : string :=
  if decide (path = "") then "."
  else match drop_trailing (reverse (split_slash path)) with
       | [] => "/"
       | e :: _ => e
       end.

(** [Ext]: from the last dot of the last element. *)
Fixpoint ext_from (s : string) : option string :=
  match s with
  | EmptyString => None
  | String c s' =>
      match ext_from s' with
      | Some e => Some e
      | None => if decide (c = "."%char) then Some s else None
      end
  end.
Definition Ext (path : string) : string := default "" (ext_from (last_elem path)).

(** [Dir]: all but the last element, cleaned. *)
Definition Dir (path : string) : string :=
  let dirs := take (length (split_slash path) - 1) (split_slash path) in
  Clean (if decide (dirs = []) then "" else strings.Join dirs "/" +:+ "/").
End filepath.

(** * Lemmas *)

(** ** String concatenation *)
Lemma str_app_nil_l (s : string) : "" +:+ s = s.
Proof. reflexivity. Qed.
Lemma str_app_cons (c : ascii) (s t : string) : String c s +:+ t = String c (s +:+ t).
Proof. reflexivity. Qed.
Lemma str_app_nil_r (s : string) : s +:+ "" = s.
Proof. induction s as [|c s IH]; [done|]. by rewrite str_app_cons, IH. Qed.
Lemma str_app_assoc (s t u : string) : (s +:+ t) +:+ u = s +:+ (t +:+ u).
Proof. induction s as [|c s IH]; [done|]. by rewrite !str_app_cons, IH. Qed.

Create Rewrite HintDb gostr.
#[export] Hint Rewrite str_app_nil_l str_app_cons str_app_nil_r str_app_assoc : gostr.

Lemma chars_app s t : chars (s +:+ t) = chars s ++ chars t.
Proof. induction s as [|c s IH]; [done|]. rewrite str_app_cons. simpl. by rewrite IH. Qed.
Lemma string_of_chars_chars s : string_of_chars (chars s) = s.
Proof. induction s as [|c s IH]; simpl; [done|by rewrite IH]. Qed.
Lemma chars_string_of_chars l : chars (string_of_chars l) = l.
Proof. induction l as [|c l IH]; simpl; [done|by rewrite IH]. Qed.

#[export] Instance chars_inj : Inj (=) (=) chars.
Proof. intros s t H. by rewrite <-(string_of_chars_chars s), H, string_of_chars_chars. Qed.

(** A common suffix is cancelled. *)
Lemma app_inj_suffix (s t u : string) : s +:+ u = t +:+ u → s = t.
Proof.
  intros H. apply (f_equal chars) in H. rewrite !chars_app in H.
  apply app_inv_tail in H. by apply (inj chars).
Qed.

(** ** Runes of ASCII strings *)
Definition is_ascii (c : ascii) : Prop := (byte_val c < 128)%Z.

Lemma DecodeRune_ascii c s : is_ascii c → DecodeRune c s = (byte_val c, 1).
Proof. intros H. unfold DecodeRune. by rewrite (proj2 (Z.ltb_lt _ _) H). Qed.

Lemma runes_ascii s : Forall is_ascii (chars s) → runes s = byte_val <$> chars s.
Proof.
  unfold runes. induction s as [|c s IH]; simpl; [done|].
  intros [Hc Hs]%Forall_cons. rewrite DecodeRune_ascii by done. simpl. by rewrite IH.
Qed.

Lemma byte_val_bounds c : (0 ≤ byte_val c < 256)%Z.
Proof. destruct c as [[] [] [] [] [] [] [] []]; compute; split; congruence. Qed.

Lemma ascii_of_byte_val c : Ascii.ascii_of_N (Z.to_N (byte_val c)) = c.
Proof. unfold byte_val. by rewrite N2Z.id, Ascii.ascii_N_embedding. Qed.

(** ** Numbers *)
Module strconv_facts.
Import strconv.

Lemma parse_digits_bounds m s : ∀ n v,
  (0 ≤ n ≤ m)%Z → parse_digits m n s = inr v → (0 ≤ v ≤ m)%Z.
Proof.
  induction s as [|c s IH]; intros n v Hn H; simplify_eq/=; [done|].
  destruct (digit c) as [d|] eqn:Hd; [|done].
  destruct (Z.ltb_spec m (n * 10 + d)); [done|].
  eapply IH; [|done]. unfold digit, in_range in Hd.
  destruct (_ && _) eqn:E in Hd; [|done]. simplify_eq.
  apply andb_prop in E as [?%Z.leb_le ?%Z.leb_le]. lia.
Qed.

(** A parsed port, or any other unsigned number, fits its width. *)
Lemma ParseUint_bounds s b v :
  (0 ≤ b)%Z → ParseUint s b = inr v → (0 ≤ v < 2 ^ b)%Z.
Proof.
  intros Hb H. destruct s as [|c s]; [done|].
  assert (0 < 2 ^ b)%Z by (apply Z.pow_pos_nonneg; lia).
  unfold ParseUint in H. apply parse_digits_bounds in H; lia.
Qed.

Lemma ParseInt_bounds s : (- 2 ^ 63 ≤ (ParseInt s).1 < 2 ^ 63)%Z.
Proof.
  destruct s as [|c s]; [cbn; lia|]. unfold ParseInt.
  set (body := if bool_decide _ then s else _). clearbody body.
  destruct (ParseUint body 64) as [[]|v] eqn:E; [cbn; lia|case_bool_decide; simpl; lia|].
  apply ParseUint_bounds in E; [|lia].
  destruct (bool_decide (c = "-"%char)); simpl.
  - destruct (Z.ltb_spec (2 ^ 63) v); cbn [fst]; lia.
  - destruct (Z.leb_spec (2 ^ 63) v); cbn [fst]; lia.
Qed.

Lemma digit_pretty (x : N) : (x < 10)%N → digit (pretty_N_char x) = Some (Z.of_N x).
Proof.
  intros H.
  assert (x = 0 ∨ x = 1 ∨ x = 2 ∨ x = 3 ∨ x = 4 ∨ x = 5 ∨ x = 6 ∨ x = 7 ∨ x = 8 ∨ x = 9)%N
    as Hx by lia.
  by repeat (destruct Hx as [->|Hx]; [reflexivity|]); subst.
Qed.

Lemma parse_pretty_N_go m (x : N) : ∀ s,
  (Z.of_N x ≤ m)%Z →
  parse_digits m 0 (pretty_N_go x s) = parse_digits m (Z.of_N x) s.
Proof.
  induction (N.lt_wf_0 x) as [x _ IH]; intros s Hx.
  destruct (decide (0 < x)%N) as [Hpos|]; [|by replace x with 0%N by lia].
  rewrite pretty_N_go_step by done.
  assert (Hdiv : (x = 10 * (x / 10) + x mod 10)%N) by (apply N.div_mod; lia).
  assert (x mod 10 < 10)%N by (apply N.mod_lt; lia).
  assert (x / 10 < x)%N by (apply N.div_lt; lia).
  rewrite IH by lia. simpl. rewrite digit_pretty by done.
  replace (Z.of_N (x / 10) * 10 + Z.of_N (x mod 10))%Z with (Z.of_N x) by lia.
  destruct (Z.ltb_spec m (Z.of_N x)); [lia|done].
Qed.

Lemma parse_pretty_N m (x : N) :
  (Z.of_N x ≤ m)%Z → parse_digits m 0 (pretty x) = inr (Z.of_N x).
Proof.
  intros H. unfold pretty, pretty_N. case_decide as Hx.
  - subst. change (parse_digits m 0 "0") with (if (m <? 0)%Z then inl ErrRange else inr 0%Z).
    by destruct (Z.ltb_spec m 0); [lia|].
  - by rewrite parse_pretty_N_go.
Qed.

(** The first byte of a number is no sign. *)
Lemma pretty_N_head (x : N) :
  ∃ c s, pretty x = String c s ∧ c ≠ "-"%char ∧ c ≠ "+"%char.
Proof.
  assert (parse_digits (Z.of_N x) 0 (pretty x) = inr (Z.of_N x)) as H
    by (by apply parse_pretty_N).
  destruct (pretty x) as [|c s] eqn:E.
  - exfalso. unfold pretty, pretty_N in E. case_decide; [done|].
    assert (∀ y t, t ≠ "" → pretty_N_go y t ≠ "") as Hne.
    { intros y. induction (N.lt_wf_0 y) as [y _ IH]; intros t Ht.
      destruct (decide (0 < y)%N).
      - rewrite pretty_N_go_step by done. apply IH; [apply N.div_lt; lia|done].
      - by replace y with 0%N by lia. }
    rewrite pretty_N_go_step in E by lia. by apply Hne in E.
  - exists c, s. split; [done|]. split; intros ->; simpl in H; discriminate.
Qed.

(** [ParseInt] reads back what [FormatInt] prints, over all of [int64]. *)
Lemma ParseInt_FormatInt (z : Z) :
  (- 2 ^ 63 ≤ z < 2 ^ 63)%Z → ParseInt (FormatInt z) = (z, None).
Proof.
  intros Hz. unfold FormatInt.
  assert (∀ n : N, ∃ c s, pretty n = String c s ∧ c ≠ "-"%char ∧ c ≠ "+"%char ∧
    ((Z.of_N n < 2 ^ 64)%Z → ParseUint (String c s) 64 = inr (Z.of_N n))) as Hn.
  { intros n. destruct (pretty_N_head n) as (c & s & E & ? & ?).
    exists c, s. repeat split; [done..|]. intros. unfold ParseUint.
    rewrite <-E. apply parse_pretty_N. lia. }
  assert (∀ n : N, (Z.of_N n < 2 ^ 63)%Z → ParseInt (pretty n) = (Z.of_N n, None)) as Hpos.
  { intros n Hb. destruct (Hn n) as (c & s & -> & Hc1 & Hc2 & Hp). unfold ParseInt.
    rewrite (bool_decide_eq_false_2 _ Hc1), bool_decide_eq_false_2 by (intros [?|?]; done).
    rewrite Hp by lia. cbn [negb andb].
    by rewrite (proj2 (Z.leb_gt _ _)) by lia. }
  destruct z as [|p|p].
  - reflexivity.
  - exact (Hpos (Npos p) ltac:(lia)).
  - change (pretty (Zneg p)) with (String "-"%char (pretty (Npos p))).
    destruct (Hn (Npos p)) as (c & s & -> & _ & _ & Hp). unfold ParseInt.
    rewrite (bool_decide_eq_true_2 (_ ∨ _)) by auto.
    rewrite Hp by lia. rewrite bool_decide_eq_true_2 by done. cbn [negb andb].
    rewrite (proj2 (Z.ltb_ge _ _)) by lia. f_equal.
Qed.
End strconv_facts.

(** ** Paths *)
Module filepath_facts.
Import filepath.

(** A name that is one element of a path and stands for itself. *)
Definition simple_elem (e : string) : Prop :=
  (slash ∉ chars e) ∧ e ≠ "" ∧ e ≠ "." ∧ e ≠ "..".

Lemma split_slash_ne s : split_slash s ≠ [].
Proof. destruct s as [|c s]; simpl; [done|]. repeat case_match; done. Qed.

Lemma split_slash_app d e :
  split_slash (d +:+ String slash e) = split_slash d ++ split_slash e.
Proof.
  induction d as [|c d IH].
  - rewrite str_app_nil_l. reflexivity.
  - rewrite str_app_cons. cbn [split_slash]. rewrite IH. case_decide; [done|].
    destruct (split_slash d) eqn:E; [by apply split_slash_ne in E|done].
Qed.

Lemma split_slash_single e : slash ∉ chars e → split_slash e = [e].
Proof.
  induction e as [|c e IH]; simpl; [done|]. intros [Hc He]%not_elem_of_cons.
  rewrite IH by done. by case_decide.
Qed.

Lemma Join_snoc l e :
  strings.Join (l ++ [e]) "/" =
  (if decide (l = []) then "" else (strings.Join l "/" +:+ "/")) +:+ e.
Proof.
  induction l as [|x l IH]; [reflexivity|].
  destruct l as [|y l]; [by rewrite decide_False by done; autorewrite with gostr|].
  change (strings.Join ((x :: y :: l) ++ [e]) "/")
    with (x +:+ "/" +:+ strings.Join ((y :: l) ++ [e]) "/").
  rewrite IH, !decide_False by done.
  change (strings.Join (x :: y :: l) "/") with (x +:+ "/" +:+ strings.Join (y :: l) "/").
  by rewrite !str_app_assoc.
Qed.

(** The cleaned directory [d], up to and including the slash before a file. *)
Definition dir_prefix (d : string) : string :=
  let rooted := IsAbs (d +:+ "/") in
  let l := reverse (foldl (clean_step rooted) [] (split_slash d)) in
  (if rooted then "/" else "") +:+
  (if decide (l = []) then "" else strings.Join l "/" +:+ "/").

Lemma IsAbs_file d e : IsAbs (d +:+ "/" +:+ e) = IsAbs (d +:+ "/").
Proof. by destruct d. Qed.

Lemma clean_step_simple rooted out e :
  simple_elem e → clean_step rooted out e = e :: out.
Proof.
  intros (_ & ? & ? & ?). unfold clean_step.
  rewrite decide_False by (intros [?|?]; done). by rewrite decide_False.
Qed.

Lemma Clean_file d e :
  simple_elem e → Clean (d +:+ "/" +:+ e) = dir_prefix d +:+ e.
Proof.
  intros He. destruct (He) as [Hs _]. unfold Clean, dir_prefix.
  rewrite IsAbs_file.
  change ("/" +:+ e) with (String slash e).
  rewrite split_slash_app, (split_slash_single e), foldl_app by done. simpl.
  rewrite !clean_step_simple, reverse_cons, Join_snoc by done.
  destruct (IsAbs _); [by rewrite str_app_assoc|].
  by rewrite decide_False by (by intros [_ ?]%app_nil).
Qed.

(** A file in a directory: [Join] keeps the file's name. *)
Lemma Join_file d s :
  s ≠ "" → ∃ pre, ∀ e, simple_elem e → Join [d; s; e] = pre +:+ e.
Proof.
  intros Hs. destruct (decide (d = "")) as [->|Hd].
  - exists (dir_prefix s). intros e He.
    change (Join [""; s; e]) with (Join [s; e]). cbn [Join].
    rewrite decide_False by done. by apply Clean_file.
  - exists (dir_prefix (d +:+ "/" +:+ s)). intros e He. cbn [Join].
    rewrite decide_False, <-Clean_file by done. by rewrite !str_app_assoc.
Qed.

(** A file name made of a name without slash and an extension. *)
Lemma simple_ext n ext :
  slash ∉ chars n → slash ∉ chars ext → 3 ≤ length (chars ext) → simple_elem (n +:+ ext).
Proof.
  intros Hn Hext Hlen. unfold simple_elem. rewrite chars_app.
  split; [rewrite elem_of_app; tauto|].
  repeat split; intros E; apply (f_equal (length ∘ chars)) in E; simpl in E;
    rewrite chars_app, length_app in E; simpl in E; lia.
Qed.

(** Files of one directory are told apart by their names. *)
Lemma Join_file_inj d s ext n m :
  s ≠ "" → slash ∉ chars n → slash ∉ chars m →
  slash ∉ chars ext → 3 ≤ length (chars ext) →
  Join [d; s; n +:+ ext] = Join [d; s; m +:+ ext] → n = m.
Proof.
  intros Hs Hn Hm Hext Hlen E.
  destruct (Join_file d s Hs) as [pre Hpre].
  rewrite !Hpre in E by (by apply simple_ext).
  apply (inj (String.append pre)) in E. by apply app_inj_suffix in E.
Qed.
End filepath_facts.
