(* ===== verification/GoFloat.v ===== *)
(** [float64] of the language: binary64 numbers with the operators, [min], [max]
    and the conversions the program uses, [strconv.ParseFloat] and the verbs [%f]
    and [%.6f] of [fmt]; and that the operators stay among the numbers of the
    format. *)
From Stdlib Require Import SpecFloat.
From stdpp Require Import pretty.
From S2P Require Import Prelude GoStd.

(** * Numbers and operators *)
Abbreviation float64 := spec_float.

Module float64.
Definition prec : Z := 53.
Definition emax : Z := 1024.

Definition of_int (z : Z) : float64 := binary_normalize prec emax z 0 false.
Definition add : float64 → float64 → float64 := SFadd prec emax.
Definition sub : float64 → float64 → float64 := SFsub prec emax.
Definition mul : float64 → float64 → float64 := SFmul prec emax.
Definition div : float64 → float64 → float64 := SFdiv prec emax.

(** The numbers of the format: mantissas of 53 bits, or fewer at the least
    exponent. *)
Definition valid (x : float64) : Prop := valid_binary prec emax x = true.
Definition is_nan (x : float64) : bool := match x with S754_nan => true | _ => false end.
Definition finite (x : float64) : bool :=
  match x with S754_zero _ | S754_finite _ _ _ => true | _ => false end.
Definition sign (x : float64) : bool :=
  match x with S754_zero s | S754_infinity s | S754_finite s _ _ => s | S754_nan => false end.

(** The comparisons [x <= y] and [x < y] of the language: false on a NaN. *)
Definition le (x y : float64) : bool := SFleb x y.
Definition lt (x y : float64) : bool := SFltb x y.

(** The built-in [min] and [max]: a NaN is passed on, and negative zero is less
    than positive zero. *)
Definition min (x y : float64) : float64 :=
  if is_nan x || is_nan y then S754_nan
  else match SFcompare x y with
       | Some Lt => x
       | Some Gt => y
       | _ => if sign x then x else y
       end.
Definition max (x y : float64) : float64 :=
  if is_nan x || is_nan y then S754_nan
  else match SFcompare x y with
       | Some Lt => y
       | Some Gt => x
       | _ => if sign x then y else x
       end.

(** What a finite number is worth, rounded towards zero. *)
Definition trunc (x : float64) : Z :=
  match x with
  | S754_finite s m e =>
      let n := if (0 <=? e)%Z then (Zpos m * 2 ^ e)%Z else (Zpos m / 2 ^ (- e))%Z in
      if s then (- n)%Z else n
  | _ => 0%Z
  end.
End float64.

(** The conversion [int(x)] is up to the implementation when the value is no [int]. *)
Class FloatToInt := { int_unrepresentable : float64 → Z }.

Definition int_of_float `{FloatToInt} (x : float64) : Z :=
  if float64.finite x && (- 2 ^ 63 <=? float64.trunc x)%Z && (float64.trunc x <? 2 ^ 63)%Z
  then float64.trunc x else int_unrepresentable x.

(** * Text *)

(** A quotient, rounded correctly. *)
Definition float_of_ratio (neg : bool) (num den : positive) : float64 :=
  let '(m, e, l) := SFdiv_core_binary float64.prec float64.emax (Zpos num) 0 (Zpos den) 0 in
  binary_round_aux float64.prec float64.emax neg m e l.

(** [M * b^e], rounded correctly. *)
Definition float_of_scaled (neg : bool) (m base e : Z) : float64 :=
  match m with
  | Zpos p =>
      if (0 <=? e)%Z then float_of_ratio neg (Z.to_pos (Zpos p * base ^ e)) 1
      else float_of_ratio neg p (Z.to_pos (base ^ (- e)))
  | _ => S754_zero neg
  end.

Module parse_float.
(** [c | ('x' - 'X')]. *)
Definition lower (c : ascii) : Z := Z.lor (byte_val c) 32.
Definition is_underscore (c : ascii) : bool := bool_decide (c = "_"%char).
Definition digit_of (hex : bool) (c : ascii) : option Z :=
  let v := byte_val c in
  if in_range 48 57 v then Some (v - 48)%Z
  else if hex && in_range 97 102 (lower c) then Some (lower c - 87)%Z
  else None.

(** The mantissa read so far, its digits after the point, and what was seen. *)
Record mantissa := mkMantissa {
  value : Z;
  fraction : Z;
  sawdot : bool;
  sawdigits : bool
}.

Fixpoint scan_mantissa (hex : bool) (acc : mantissa) (s : string) : mantissa * string :=
  match s with
  | EmptyString => (acc, s)
  | String c s' =>
      if is_underscore c then scan_mantissa hex acc s'
      else if bool_decide (c = "."%char) then
        if sawdot acc then (acc, s)
        else scan_mantissa hex (mkMantissa (value acc) 0 true (sawdigits acc)) s'
      else match digit_of hex c with
           | Some d =>
               scan_mantissa hex
                 (mkMantissa (value acc * (if hex then 16 else 10) + d)%Z
                    (if sawdot acc then (fraction acc + 1)%Z else 0%Z) (sawdot acc) true) s'
           | None => (acc, s)
           end
  end.

(** The digits of the exponent: those past ten thousand are not added up. *)
Fixpoint scan_exponent (e : Z) (s : string) : Z * string :=
  match s with
  | EmptyString => (e, s)
  | String c s' =>
      if is_underscore c then scan_exponent e s'
      else match digit_of false c with
           | Some d => scan_exponent (if (e <? 10000)%Z then e * 10 + d else e)%Z s'
           | None => (e, s)
           end
  end.

(** [underscoreOK]: underscores stand between digits, or after a base prefix. *)
Inductive seen := SawStart | SawDigit | SawUnderscore | SawOther.
Fixpoint underscores_from (hex : bool) (saw : seen) (s : string) : bool :=
  match s with
  | EmptyString => match saw with SawUnderscore => false | _ => true end
  | String c s' =>
      match digit_of hex c with
      | Some _ => underscores_from hex SawDigit s'
      | None =>
          if is_underscore c then
            match saw with SawDigit => underscores_from hex SawUnderscore s' | _ => false end
          else match saw with
               | SawUnderscore => false
               | _ => underscores_from hex SawOther s'
               end
      end
  end.

Definition strip_sign (s : string) : bool * string :=
  match s with
  | String c s' =>
      if bool_decide (c = "-"%char) then (true, s')
      else if bool_decide (c = "+"%char) then (false, s') else (false, s)
  | EmptyString => (false, s)
  end.

Definition base_prefix (s : string) (letters : list Z) : option (Z * string) :=
  match s with
  | String c0 (String c s') =>
      if bool_decide (c0 = "0"%char ∧ lower c ∈ letters) then Some (lower c, s') else None
  | _ => None
  end.

Definition underscoreOK (s : string) : bool :=
  let '(_, s) := strip_sign s in
  match base_prefix s [98; 111; 120]%Z with
  | Some (letter, s') => underscores_from (letter =? 120)%Z SawDigit s'
  | None => underscores_from false SawStart s
  end.

(** The exponent, with the sign that may precede it; it must be there in base 16. *)
Definition read_exponent (hex : bool) (s : string) : option Z :=
  match s with
  | String c s' =>
      if (lower c =? if hex then 112 else 101)%Z then
        let '(neg, s'') := strip_sign s' in
        match s'' with
        | String d _ =>
            match digit_of false d with
            | Some _ =>
                match scan_exponent 0 s'' with
                | (e, EmptyString) => Some (if neg then - e else e)%Z
                | _ => None
                end
            | None => None
            end
        | EmptyString => None
        end
      else None
  | EmptyString => if hex then None else Some 0%Z
  end.

(** [readFloat] on the whole of [s]. *)
Definition readFloat (s : string) : option float64 :=
  let '(neg, body) := strip_sign s in
  let '(hex, digits) :=
    match base_prefix body [120%Z] with
    | Some (_, String c rest) => (true, String c rest)
    | _ => (false, body)
    end in
  let '(m, rest) := scan_mantissa hex (mkMantissa 0 0 false false) digits in
  if negb (sawdigits m) then None
  else match read_exponent hex rest with
       | None => None
       | Some e =>
           if existsb is_underscore (chars s) && negb (underscoreOK s) then None
           else if hex then Some (float_of_scaled neg (value m) 2 (e - 4 * fraction m))
           else Some (float_of_scaled neg (value m) 10 (e - fraction m))
       end.

(** [special]: infinities and NaN, whatever the case of their letters. *)
Definition special (s : string) : option float64 :=
  let '(neg, body) := strip_sign s in
  let letters := lower <$> chars body in
  if decide (letters = [105; 110; 102]%Z ∨
             letters = [105; 110; 102; 105; 110; 105; 116; 121]%Z)
  then Some (S754_infinity neg)
  else if decide (lower <$> chars s = [110; 97; 110]%Z) then Some S754_nan
  else None.
End parse_float.

Definition ParseFloat (s : string) : num_error + float64 :=
  match parse_float.special s with
  | Some f => inr f
  | None =>
      match parse_float.readFloat s with
      | None => inl ErrSyntax
      | Some (S754_infinity _) => inl ErrRange
      | Some f => inr f
      end
  end.

(** [fmt]'s verb [%.6f], which is also [%f]: the nearest decimal of six places,
    the even one of two. *)
Definition round_half_even (num den : Z) : Z :=
  let q := (num / den)%Z in
  let r := (num mod den)%Z in
  match (2 * r ?= den)%Z with
  | Lt => q
  | Gt => (q + 1)%Z
  | Eq => if Z.even q then q else (q + 1)%Z
  end.

(** Six digits, with leading zeros. *)
Fixpoint pad_digits (width : nat) (n : Z) : string :=
  match width with
  | O => ""
  | S w => pad_digits w (n / 10)%Z +:+ pretty (n mod 10)%Z
  end.

Definition format_fixed6 (x : float64) : string :=
  let number (s : bool) (n : Z) :=
    (if s then "-" else "") +:+ pretty (n / 10 ^ 6)%Z +:+ "." +:+ pad_digits 6 (n mod 10 ^ 6)%Z in
  match x with
  | S754_nan => "NaN"
  | S754_infinity s => if s then "-Inf" else "+Inf"
  | S754_zero s => number s 0%Z
  | S754_finite s m e =>
      number s (if (0 <=? e)%Z then (Zpos m * 2 ^ e * 10 ^ 6)%Z
                else round_half_even (Zpos m * 10 ^ 6) (2 ^ (- e)))
  end.

(** ** Text, computed *)
Module FloatSample.
Definition parsed (s : string) : option float64 :=
  match ParseFloat s with inr f => Some f | inl _ => None end.

Example parse_decimal :
  parsed "0.5" = Some (S754_finite false 4503599627370496 (-53)) ∧
  parsed "1_23.50_0_0e+1_2" = parsed "1.235e14" ∧
  parsed "-0" = Some (S754_zero true) ∧
  parsed "0x1p-2" = parsed ".25" ∧
  parsed "0.1" = Some (float64.div (float64.of_int 1) (float64.of_int 10)) ∧
  parsed "4.9e-324" = Some (S754_finite false 1 (-1074)) ∧
  parsed "-iNf" = Some (S754_infinity true) ∧ parsed "nan" = Some S754_nan.
Proof. split_and!; vm_compute; reflexivity. Qed.

Example parse_refused :
  ParseFloat "1e400" = inl ErrRange ∧ ParseFloat "1e" = inl ErrSyntax ∧
  ParseFloat "0x1" = inl ErrSyntax ∧ ParseFloat "1__0" = inl ErrSyntax ∧
  ParseFloat "-nan" = inl ErrSyntax ∧ ParseFloat "12 " = inl ErrSyntax ∧ ParseFloat "." = inl ErrSyntax.
Proof. split_and!; vm_compute; reflexivity. Qed.

Example format_numbers :
  format_fixed6 (float64.div (float64.of_int 1) (float64.of_int 3)) = "0.333333" ∧
  format_fixed6 (float64.div (float64.of_int (-2)) (float64.of_int 3)) = "-0.666667" ∧
  format_fixed6 (float64.of_int 1234) = "1234.000000" ∧
  format_fixed6 (float64.div (float64.of_int 1) (float64.of_int 0)) = "+Inf".
Proof. split_and!; vm_compute; reflexivity. Qed.
End FloatSample.

(** * The operators stay in the format *)
Module float64_facts.
Import float64.

Lemma digits2_pos_log2 p : Zpos (digits2_pos p) = (Z.log2 (Zpos p) + 1)%Z.
Proof.
  induction p as [p IH|p IH|]; cbn [digits2_pos]; [..|done]; rewrite Pos2Z.inj_succ, IH.
  - rewrite (Pos2Z.inj_xI p), Z.log2_succ_double by lia. lia.
  - rewrite (Pos2Z.inj_xO p), Z.log2_double by lia. lia.
Qed.

Lemma Zdigits2_bounds m : (0 < m)%Z →
  (0 < Zdigits2 m ∧ 2 ^ (Zdigits2 m - 1) ≤ m < 2 ^ Zdigits2 m)%Z.
Proof.
  intros Hm. destruct m as [|p|p]; [lia| |lia]. cbn [Zdigits2]. rewrite digits2_pos_log2.
  pose proof (Z.log2_nonneg (Zpos p)). pose proof (Z.log2_spec (Zpos p) ltac:(lia)).
  replace (Z.log2 (Zpos p) + 1 - 1)%Z with (Z.log2 (Zpos p)) by lia.
  replace (Z.log2 (Zpos p) + 1)%Z with (Z.succ (Z.log2 (Zpos p))) by lia. lia.
Qed.

Lemma Zdigits2_unique m d : (0 < d → 2 ^ (d - 1) ≤ m < 2 ^ d → Zdigits2 m = d)%Z.
Proof.
  intros Hd Hm. assert (0 < m)%Z as Hpos by (pose proof (Z.pow_pos_nonneg 2 (d - 1)); lia).
  destruct m as [|p|p]; [lia| |lia]. cbn [Zdigits2]. rewrite digits2_pos_log2.
  rewrite (Z.log2_unique (Zpos p) (d - 1)); [lia..|].
  split; [lia|]. replace (Z.succ (d - 1)) with d by lia. lia.
Qed.

(** Shifting a mantissa is dividing it. *)
Lemma shr_1_div r : (0 ≤ shr_m r → shr_m (shr_1 r) = shr_m r / 2)%Z.
Proof.
  destruct r as [[|p|p] b c]; cbn [shr_m]; intros H; [done| |lia].
  destruct p as [p|p|]; cbn [shr_1 shr_m]; [..|done].
  - rewrite Pos2Z.inj_xI. apply (Z.div_unique _ _ _ 1); lia.
  - rewrite Pos2Z.inj_xO. apply (Z.div_unique _ _ _ 0); lia.
Qed.

Lemma iter_shr_div n : ∀ r, (0 ≤ shr_m r →
  shr_m (SpecFloat.iter_pos shr_1 n r) = shr_m r / 2 ^ Zpos n)%Z.
Proof.
  assert (∀ a k, 0 ≤ a → 0 ≤ a / 2 ^ Zpos k)%Z as Hge by (intros; apply Z.div_pos; lia).
  induction n as [n IH|n IH|]; intros r Hr; cbn [SpecFloat.iter_pos].
  - assert (0 ≤ shr_m (shr_1 r))%Z by (rewrite shr_1_div by done; apply Z.div_pos; lia).
    rewrite !IH, shr_1_div by (rewrite ?IH by done; auto).
    rewrite !Z.div_div by lia. f_equal. rewrite (Pos2Z.inj_xI n), Z.pow_add_r, Z.pow_twice_r by lia.
    lia.
  - rewrite !IH by (rewrite ?IH by done; auto). rewrite Z.div_div by lia. f_equal.
    rewrite (Pos2Z.inj_xO n), Z.pow_twice_r. lia.
  - by apply shr_1_div.
Qed.

Lemma shr_fexp_spec m e l :
  (0 ≤ m)%Z →
  let n := Z.max 0 (fexp prec emax (Zdigits2 m + e) - e) in
  shr_m (shr_fexp prec emax m e l).1 = (m / 2 ^ n)%Z ∧ (shr_fexp prec emax m e l).2 = (e + n)%Z.
Proof.
  intros Hm. assert (shr_m (shr_record_of_loc m l) = m) as Hr by (by destruct l as [|[]]).
  unfold shr_fexp, shr. destruct (fexp prec emax (Zdigits2 m + e) - e)%Z as [|p|p]; cbn [Z.max fst snd].
  - rewrite Hr, Z.pow_0_r, Z.div_1_r. split; [done|lia].
  - rewrite iter_shr_div by (by rewrite Hr). by rewrite Hr.
  - change (0 `max` Zneg p)%Z with 0%Z. rewrite Hr, Z.pow_0_r, Z.div_1_r. split; [done|lia].
Qed.

Lemma round_nearest_even_cases m l :
  round_nearest_even m l = m ∨ round_nearest_even m l = (m + 1)%Z.
Proof. destruct l as [|[]]; simpl; auto. destruct (Z.even m); auto. Qed.

Lemma fexp_max x : fexp prec emax x = Z.max (x - 53) (-1074).
Proof. reflexivity. Qed.

(** A mantissa after the first shift: at most 53 bits, and all of them unless
    the exponent is the least. *)
Lemma shifted_bounds m e :
  (0 < m → e ≤ fexp prec emax (Zdigits2 m + e) →
   let E := fexp prec emax (Zdigits2 m + e) in
   0 ≤ m / 2 ^ (E - e) < 2 ^ 53 ∧ -1074 ≤ E ∧
   (-1074 < E → 2 ^ 52 ≤ m / 2 ^ (E - e)))%Z.
Proof.
  intros Hm He. destruct (Zdigits2_bounds m Hm) as (Hd & Hlo & Hhi).
  set (d := Zdigits2 m) in *. set (E := fexp prec emax (d + e)) in *. cbv zeta.
  assert (E = Z.max (d + e - 53) (-1074)) as HE by apply fexp_max.
  set (n := (E - e)%Z). assert (0 ≤ n)%Z by lia.
  assert (0 < 2 ^ n)%Z by (apply Z.pow_pos_nonneg; lia).
  assert (d ≤ 53 + n)%Z as Hdn by lia.
  split; [|split; [lia|]].
  - split; [apply Z.div_pos; lia|]. apply Z.div_lt_upper_bound; [done|].
    rewrite <-Z.pow_add_r by lia. eapply Z.lt_le_trans; [done|].
    apply Z.pow_le_mono_r; lia.
  - intros Hlt. apply Z.div_le_lower_bound; [done|]. rewrite <-Z.pow_add_r by lia.
    replace (n + 52)%Z with (d - 1)%Z by lia. done.
Qed.

(** A rounded mantissa, of 53 bits or exactly the next power of two. *)
Lemma canonical_after m E :
  (0 < m ≤ 2 ^ 53 → -1074 ≤ E → (-1074 < E → 2 ^ 52 ≤ m) →
   let n := Z.max 0 (fexp prec emax (Zdigits2 m + E) - E) in
   0 < m / 2 ^ n ∧ fexp prec emax (Zdigits2 (m / 2 ^ n) + (E + n)) = E + n)%Z.
Proof.
  intros Hm HE Hfull. cbv zeta. destruct (decide (m = 2 ^ 53)%Z) as [->|Hne].
  - rewrite (Zdigits2_unique (2 ^ 53) 54) by lia.
    replace (Z.max 0 (fexp prec emax (54 + E) - E))%Z with 1%Z by (rewrite fexp_max; lia).
    change (2 ^ 53 / 2 ^ 1)%Z with (2 ^ 52)%Z. rewrite (Zdigits2_unique (2 ^ 52) 53) by lia.
    rewrite fexp_max; lia.
  - destruct (Zdigits2_bounds m ltac:(lia)) as (Hd & Hlo & Hhi).
    assert (Zdigits2 m ≤ 53)%Z as Hd53.
    { destruct (Z.le_gt_cases (Zdigits2 m) 53) as [|Hgt]; [done|].
      assert (2 ^ 53 ≤ 2 ^ (Zdigits2 m - 1))%Z by (apply Z.pow_le_mono_r; lia). lia. }
    assert (-1074 < E → Zdigits2 m = 53)%Z as Hnorm.
    { intros Hlt. apply Zdigits2_unique; [lia|]. specialize (Hfull Hlt).
      change (53 - 1)%Z with 52%Z. lia. }
    replace (Z.max 0 (fexp prec emax (Zdigits2 m + E) - E))%Z with 0%Z
      by (rewrite fexp_max; lia).
    rewrite Z.pow_0_r, Z.div_1_r. split; [lia|]. rewrite fexp_max; lia.
Qed.

Definition number (x : float64) : Prop := valid x ∧ is_nan x = false.

Lemma binary_round_aux_number s m e l :
  (0 < m → e ≤ fexp prec emax (Zdigits2 m + e) →
   number (binary_round_aux prec emax s m e l))%Z.
Proof.
  intros Hm He. unfold binary_round_aux.
  destruct (shr_fexp_spec m e l ltac:(lia)) as [Hm1 He1].
  destruct (shr_fexp prec emax m e l) as [r1 e1]. cbn [fst snd] in *.
  rewrite Z.max_r in Hm1, He1 by lia.
  replace (e + (fexp prec emax (Zdigits2 m + e) - e))%Z
    with (fexp prec emax (Zdigits2 m + e)) in He1 by lia.
  destruct (shifted_bounds m e Hm He) as (Hb & Hmin & Hfull). rewrite <-Hm1 in Hb, Hfull.
  rewrite <-He1 in Hmin, Hfull.
  set (m2 := round_nearest_even _ _).
  assert (m2 = shr_m r1 ∨ m2 = shr_m r1 + 1)%Z as Hm2 by apply round_nearest_even_cases.
  destruct (shr_fexp_spec m2 e1 loc_Exact ltac:(lia)) as [Hm3 He3].
  destruct (shr_fexp prec emax m2 e1 loc_Exact) as [r3 e3]. cbn [fst snd] in *.
  destruct (decide (m2 = 0)%Z) as [Hz|Hz].
  { rewrite Hz, Z.div_0_l in Hm3 by lia. by rewrite Hm3. }
  destruct (canonical_after m2 e1) as [Hpos Hcan]; [lia|done|intros; lia|].
  rewrite <-Hm3, <-He3 in Hcan. rewrite <-Hm3 in Hpos.
  destruct (shr_m r3) as [|p|p]; [lia| |lia].
  destruct (Z.leb_spec e3 (emax - prec)); [|done]. split; [|done].
  unfold valid, valid_binary, bounded, canonical_mantissa. apply andb_true_intro.
  split; [|by apply Z.leb_le]. by apply Z.eqb_eq.
Qed.

Lemma iter_xO m d : (Zpos (Pos.iter xO m d) = Zpos m * 2 ^ Zpos d)%Z.
Proof.
  induction d as [|d IH] using Pos.peano_ind; [by rewrite Z.mul_comm|].
  rewrite Pos.iter_succ, Pos2Z.inj_xO, IH, Pos2Z.inj_succ, Z.pow_succ_r by lia. lia.
Qed.

Lemma Zdigits2_shift m d : (0 < m → 0 ≤ d → Zdigits2 (m * 2 ^ d) = Zdigits2 m + d)%Z.
Proof.
  intros Hm Hd. destruct (Zdigits2_bounds m Hm) as (? & ? & ?).
  assert (0 < 2 ^ d)%Z by (apply Z.pow_pos_nonneg; lia).
  apply Zdigits2_unique; [lia|].
  replace (Zdigits2 m + d - 1)%Z with (Zdigits2 m - 1 + d)%Z by lia.
  rewrite !Z.pow_add_r by lia. nia.
Qed.

Lemma binary_round_number s m e : number (binary_round prec emax s m e).
Proof.
  unfold binary_round, shl_align.
  set (ex := fexp prec emax (Zpos (digits2_pos m) + e)).
  destruct (ex - e)%Z as [|k|k] eqn:Ek; cbn [fst snd]; apply binary_round_aux_number; try lia.
  - change (Zdigits2 (Zpos m)) with (Zpos (digits2_pos m)). lia.
  - change (Zdigits2 (Zpos m)) with (Zpos (digits2_pos m)). lia.
  - rewrite iter_xO, Zdigits2_shift by lia. change (Zdigits2 (Zpos m)) with (Zpos (digits2_pos m)).
    replace (Zpos (digits2_pos m) + Zpos k + ex)%Z with (Zpos (digits2_pos m) + e)%Z by lia. lia.
Qed.

Lemma binary_normalize_number m e s : number (binary_normalize prec emax m e s).
Proof. destruct m; [done|apply binary_round_number..]. Qed.

Lemma of_int_number z : number (of_int z).
Proof. apply binary_normalize_number. Qed.

(** A sum with a finite term is a number. *)
Lemma add_number x y : number x → number y → finite x = true → number (add x y).
Proof.
  intros Hx Hy Hf. destruct x as [[]| | |], y as [[]| | |]; try done; apply binary_normalize_number.
Qed.

(** In the format, a mantissa has 53 bits or the exponent is the least. *)
Lemma valid_finite s m e :
  valid (S754_finite s m e) → (Zdigits2 (Zpos m) ≤ 53 ∧ -1074 ≤ e ∧ (-1074 < e → Zdigits2 (Zpos m) = 53))%Z.
Proof.
  unfold valid, valid_binary, bounded, canonical_mantissa. intros [Hc _]%andb_prop.
  apply Z.eqb_eq in Hc. rewrite fexp_max in Hc. change (Zdigits2 (Zpos m)) with (Zpos (digits2_pos m)). lia.
Qed.

Lemma Zdigits2_mono p q : (p ≤ q)%positive → (Zdigits2 (Zpos p) ≤ Zdigits2 (Zpos q))%Z.
Proof.
  intros H. cbn [Zdigits2]. rewrite !digits2_pos_log2. apply Z.add_le_mono_r, Z.log2_le_mono. lia.
Qed.

Lemma mul_number x y : number x → number y → finite x = true → finite y = true → number (mul x y).
Proof.
  intros [Hx _] [Hy _] Hfx Hfy. destruct x as [[]| | |sx mx ex], y as [[]| | |sy my ey]; try done.
  apply valid_finite in Hx as (? & ? & Hx), Hy as (? & ? & Hy).
  unfold mul, SFmul. apply binary_round_aux_number; [done|]. rewrite fexp_max.
  destruct (Zdigits2_bounds (Zpos mx) ltac:(lia)) as (? & Hlx & ?).
  destruct (Zdigits2_bounds (Zpos my) ltac:(lia)) as (? & Hly & ?).
  pose proof (Zdigits2_mono mx (mx * my) ltac:(nia)).
  pose proof (Zdigits2_mono my (mx * my) ltac:(nia)).
  destruct (decide (-1074 < ex)%Z); [lia|]. destruct (decide (-1074 < ey)%Z); lia.
Qed.

(** ** Comparison *)
Lemma compare_swap x y : SFcompare y x = CompOpp <$> SFcompare x y.
Proof.
  destruct x as [[]|[]| |[] m1 e1], y as [[]|[]| |[] m2 e2]; try done; simpl; do 2 f_equal;
    rewrite (Z.compare_antisym e1 e2); destruct (e1 ?= e2)%Z; simpl; try done;
    change (Pos.compare_cont Eq ?a ?b) with (Pos.compare a b);
    by rewrite (Pos.compare_antisym m1 m2), ?CompOpp_involutive.
Qed.

Lemma compare_refl x : is_nan x = false → SFcompare x x = Some Eq.
Proof.
  destruct x as [[]|[]| |[] m e]; try done; simpl; intros _; rewrite Z.compare_refl;
    change (Pos.compare_cont Eq m m) with (Pos.compare m m); by rewrite Pos.compare_refl.
Qed.

Lemma compare_total x y : is_nan x = false → is_nan y = false → SFcompare x y ≠ None.
Proof. by destruct x, y. Qed.

Lemma le_numbers x y : le x y = true → is_nan x = false ∧ is_nan y = false.
Proof. unfold le, SFleb. by destruct x, y. Qed.

Lemma le_refl x : is_nan x = false → le x x = true.
Proof. intros H. unfold le, SFleb. by rewrite compare_refl. Qed.

(** Clamping: within the bounds, and one of the bounds or the value itself. *)
Lemma clamp_bounds lo hi x :
  le lo hi = true → is_nan x = false →
  le lo (max lo (min hi x)) = true ∧ le (max lo (min hi x)) hi = true ∧
  (max lo (min hi x) = lo ∨ max lo (min hi x) = hi ∨ max lo (min hi x) = x).
Proof.
  intros Hb Hx. destruct (le_numbers _ _ Hb) as [Hlo Hhi].
  assert (∃ m, min hi x = m ∧ le m hi = true ∧ is_nan m = false ∧ (m = hi ∨ m = x))
    as (m & -> & Hm & Hmn & Hcase).
  { exists (min hi x). split; [done|]. unfold min. rewrite Hhi, Hx. simpl.
    pose proof (compare_swap hi x) as Hs. pose proof (compare_total hi x Hhi Hx).
    pose proof (le_refl hi Hhi). unfold le, SFleb in *.
    destruct (SFcompare hi x) as [[]|]; simpl in Hs; [destruct (sign hi)|..]; rewrite ?Hs; auto; congruence. }
  unfold max. rewrite Hlo, Hmn. simpl. pose proof (compare_total lo m Hlo Hmn).
  pose proof (le_refl lo Hlo). unfold le, SFleb in *.
  destruct (SFcompare lo m) as [[]|] eqn:E; [destruct (sign lo)|..]; rewrite ?E; naive_solver.
Qed.

(** ** The worth of a finite number, in units of the least one *)
Definition units (x : float64) : Z :=
  match x with
  | S754_finite s m e => let n := (Zpos m * 2 ^ (e + 1074))%Z in if s then (- n)%Z else n
  | _ => 0%Z
  end.

Lemma trunc_units x : valid x → trunc x = (units x ÷ 2 ^ 1074)%Z.
Proof.
  destruct x as [s|s| |s m e]; intros Hv; try reflexivity.
  apply valid_finite in Hv as (_ & He & _).
  assert ((if (0 <=? e)%Z then Zpos m * 2 ^ e else Zpos m / 2 ^ (- e))
          = Zpos m * 2 ^ (e + 1074) ÷ 2 ^ 1074)%Z as Hn.
  { assert (0 < 2 ^ (e + 1074))%Z by (apply Z.pow_pos_nonneg; lia).
    rewrite Z.quot_div_nonneg by lia. destruct (Z.leb_spec 0 e).
    - rewrite Z.pow_add_r, Z.mul_assoc, Z.div_mul by lia. done.
    - replace (2 ^ 1074)%Z with (2 ^ (- e) * 2 ^ (e + 1074))%Z
        by (rewrite <-Z.pow_add_r by lia; f_equal; lia).
      rewrite Z.div_mul_cancel_r; [done|apply Z.pow_nonzero; lia|lia]. }
  unfold trunc, units. rewrite Hn. destruct s; [by rewrite Z.quot_opp_l by lia|done].
Qed.

Lemma finite_order m1 e1 m2 e2 s1 s2 :
  valid (S754_finite s1 m1 e1) → valid (S754_finite s2 m2 e2) → (e1 < e2)%Z →
  (Zpos m1 * 2 ^ (e1 + 1074) < Zpos m2 * 2 ^ (e2 + 1074))%Z.
Proof.
  intros (Hd1 & He1 & _)%valid_finite (_ & He2 & Hfull)%valid_finite Hlt.
  destruct (Zdigits2_bounds (Zpos m1) ltac:(lia)) as (_ & _ & H1).
  destruct (Zdigits2_bounds (Zpos m2) ltac:(lia)) as (_ & H2 & _).
  rewrite Hfull in H2 by lia.
  assert (2 ^ Zdigits2 (Zpos m1) ≤ 2 ^ 53)%Z by (apply Z.pow_le_mono_r; lia).
  assert (0 < 2 ^ (e1 + 1074))%Z by (apply Z.pow_pos_nonneg; lia).
  assert (2 * 2 ^ (e1 + 1074) ≤ 2 ^ (e2 + 1074))%Z.
  { rewrite <-Z.pow_succ_r by lia. apply Z.pow_le_mono_r; lia. }
  change (2 ^ (53 - 1))%Z with (2 ^ 52)%Z in H2. nia.
Qed.

Lemma le_units x y :
  valid x → valid y → finite x = true → finite y = true → le x y = true → (units x ≤ units y)%Z.
Proof.
  intros Hx Hy Hfx Hfy. unfold le, SFleb.
  assert (∀ m e, 0 ≤ Zpos m * 2 ^ (e + 1074))%Z as Hge
    by (intros; apply Z.mul_nonneg_nonneg; [lia|apply Z.pow_nonneg; lia]).
  destruct x as [sx|sx| |sx m1 e1], y as [sy|sy| |sy m2 e2]; try done; cbn [units SFcompare].
  - pose proof (Hge m2 e2). destruct sy; [done|lia].
  - pose proof (Hge m1 e1). destruct sx; [lia|done].
  - pose proof (Hge m1 e1). pose proof (Hge m2 e2).
    pose proof (finite_order m1 e1 m2 e2 _ _ Hx Hy). pose proof (finite_order m2 e2 m1 e1 _ _ Hy Hx).
    destruct sx, sy; [|lia|done|]; destruct (Z.compare_spec e1 e2) as [->| |]; try lia; try done;
      change (Pos.compare_cont Eq m1 m2) with (Pos.compare m1 m2);
      destruct (Pos.compare_spec m1 m2); try done; nia.
Qed.

Lemma trunc_le x y :
  valid x → valid y → finite x = true → finite y = true → le x y = true → (trunc x ≤ trunc y)%Z.
Proof.
  intros Hx Hy Hfx Hfy Hle. rewrite !trunc_units by done.
  apply Z.quot_le_mono; [lia|]. by apply le_units.
Qed.

(** ** Numbers of bounded size: less than [2 ^ k] *)
Definition below (k : Z) (x : float64) : Prop :=
  match x with
  | S754_zero _ => True
  | S754_finite _ m e => (Zdigits2 (Zpos m) + e ≤ k)%Z
  | _ => False
  end.

Lemma below_finite k x : below k x → finite x = true.
Proof. by destruct x. Qed.

Lemma binary_round_aux_below s m e l k :
  (0 < m → e ≤ fexp prec emax (Zdigits2 m + e) → Zdigits2 m + e ≤ k → -1000 ≤ k ≤ 1000 →
   below (k + 1) (binary_round_aux prec emax s m e l))%Z.
Proof.
  intros Hm He Hk Hr. unfold binary_round_aux.
  destruct (shr_fexp_spec m e l ltac:(lia)) as [Hm1 He1].
  destruct (shr_fexp prec emax m e l) as [r1 e1]. cbn [fst snd] in *.
  rewrite Z.max_r in Hm1, He1 by lia.
  destruct (shifted_bounds m e Hm He) as (Hb & _). rewrite <-Hm1 in Hb.
  set (m2 := round_nearest_even _ _).
  assert (m2 = shr_m r1 ∨ m2 = shr_m r1 + 1)%Z as Hm2 by apply round_nearest_even_cases.
  destruct (shr_fexp_spec m2 e1 loc_Exact ltac:(lia)) as [Hm3 He3].
  destruct (shr_fexp prec emax m2 e1 loc_Exact) as [r3 e3]. cbn [fst snd] in *.
  rewrite fexp_max in He1, He3, Hm3.
  assert (0 ≤ shr_m r3)%Z as Hge by (rewrite Hm3; apply Z.div_pos; [lia|apply Z.pow_pos_nonneg; lia]).
  destruct (shr_m r3) as [|p|p] eqn:Ep; [done| |lia].
  assert (0 < m2)%Z as Hpos.
  { destruct (decide (m2 = 0)%Z) as [Hz|]; [|lia]. rewrite Hz in Hm3.
    rewrite Z.div_0_l in Hm3; [lia|apply Z.pow_nonzero; lia]. }
  destruct (Zdigits2_bounds m2 Hpos) as (? & Hlo & ?).
  assert (Zdigits2 m2 ≤ 54)%Z.
  { destruct (Z.le_gt_cases (Zdigits2 m2) 54) as [|Hgt]; [done|].
    assert (2 ^ 54 ≤ 2 ^ (Zdigits2 m2 - 1))%Z by (apply Z.pow_le_mono_r; lia). lia. }
  rewrite (proj2 (Z.leb_le e3 (emax - prec))) by (change (emax - prec)%Z with 971%Z; lia).
  cbn [below]. set (n := Z.max 0 (Z.max (Zdigits2 m2 + e1 - 53) (-1074) - e1)) in *.
  assert (Zdigits2 (Zpos p) + n ≤ Zdigits2 m2)%Z; [|lia].
  destruct (Zdigits2_bounds (Zpos p) ltac:(lia)) as (? & Hplo & _).
  assert (0 < 2 ^ n)%Z by (apply Z.pow_pos_nonneg; lia).
  assert (Zpos p * 2 ^ n ≤ m2)%Z by (rewrite Hm3, Z.mul_comm; by apply Z.mul_div_le).
  rewrite <-(Zdigits2_shift (Zpos p) n) by lia.
  assert (∃ q, Zpos q = Zpos p * 2 ^ n)%Z as [q Hq]
    by (exists (Z.to_pos (Zpos p * 2 ^ n)); rewrite Z2Pos.id; nia).
  rewrite <-Hq in *. destruct m2; [lia|apply Zdigits2_mono; lia|lia].
Qed.

Lemma binary_round_below s m e k :
  (Zdigits2 (Zpos m) + e ≤ k → -1000 ≤ k ≤ 1000 → below (k + 1) (binary_round prec emax s m e))%Z.
Proof.
  intros Hk Hr. unfold binary_round, shl_align. change (Zpos (digits2_pos m)) with (Zdigits2 (Zpos m)).
  set (ex := fexp prec emax (Zdigits2 (Zpos m) + e)).
  destruct (ex - e)%Z as [|d|d] eqn:Ed; cbn [fst snd]; apply binary_round_aux_below; try lia;
    rewrite iter_xO, Zdigits2_shift by lia; [|lia].
  replace (Zdigits2 (Zpos m) + Zpos d + ex)%Z with (Zdigits2 (Zpos m) + e)%Z by lia. lia.
Qed.

Lemma Zdigits2_below m k : (0 < m < 2 ^ k → Zdigits2 m ≤ k)%Z.
Proof.
  intros Hm. destruct (Zdigits2_bounds m ltac:(lia)) as (? & Hlo & _).
  destruct (Z.le_gt_cases (Zdigits2 m) k) as [|Hgt]; [done|].
  assert (0 ≤ k)%Z by (destruct (decide (k < 0)%Z); [rewrite Z.pow_neg_r in Hm by done|]; lia).
  assert (2 ^ k ≤ 2 ^ (Zdigits2 m - 1))%Z by (apply Z.pow_le_mono_r; lia). lia.
Qed.

Lemma mul_below x y a b :
  number x → number y → below a x → below b y → (-500 ≤ a ≤ 500 → -500 ≤ b ≤ 500 →
  below (a + b + 1) (mul x y))%Z.
Proof.
  intros [Hx _] [Hy _] Ha Hb ??. destruct x as [sx|?| |sx mx ex], y as [sy|?| |sy my ey]; try done.
  cbn [below] in Ha, Hb. apply valid_finite in Hx as (? & ? & Hx), Hy as (? & ? & Hy).
  pose proof (Zdigits2_mono mx (mx * my) ltac:(nia)).
  pose proof (Zdigits2_mono my (mx * my) ltac:(nia)).
  unfold mul, SFmul. apply binary_round_aux_below; [done| | |lia].
  - rewrite fexp_max. destruct (decide (-1074 < ex)%Z); [lia|]. destruct (decide (-1074 < ey)%Z); lia.
  - destruct (Zdigits2_bounds (Zpos mx) ltac:(lia)) as (? & _ & ?).
    destruct (Zdigits2_bounds (Zpos my) ltac:(lia)) as (? & _ & ?).
    assert (Zdigits2 (Zpos (mx * my)) ≤ Zdigits2 (Zpos mx) + Zdigits2 (Zpos my))%Z; [|lia].
    apply Zdigits2_below. split; [lia|]. rewrite Pos2Z.inj_mul, Z.pow_add_r by lia. nia.
Qed.

(** An aligned mantissa. *)
Lemma shl_align_below m e ez k :
  (ez ≤ e → Zdigits2 (Zpos m) + e ≤ k → Zpos (shl_align m e ez).1 < 2 ^ (k - ez))%Z.
Proof.
  intros Hez Hk. destruct (Zdigits2_bounds (Zpos m) ltac:(lia)) as (? & _ & Hm).
  assert (Zpos (shl_align m e ez).1 = Zpos m * 2 ^ (e - ez))%Z as ->.
  { unfold shl_align. destruct (ez - e)%Z as [|d|d] eqn:Ed; cbn [fst]; [|lia|].
    - replace (e - ez)%Z with 0%Z by lia. lia.
    - rewrite iter_xO. by replace (e - ez)%Z with (Zpos d) by lia. }
  assert (0 < 2 ^ (e - ez))%Z by (apply Z.pow_pos_nonneg; lia).
  eapply Z.lt_le_trans; [apply Z.mul_lt_mono_pos_r; [done|exact Hm]|].
  rewrite <-Z.pow_add_r by lia. apply Z.pow_le_mono_r; lia.
Qed.

Lemma binary_normalize_below z e s k :
  (Z.abs z < 2 ^ (k - e) → -1000 ≤ k ≤ 1000 → below (k + 1) (binary_normalize prec emax z e s))%Z.
Proof.
  intros Hz Hk. destruct z as [|m|m]; [done|..]; apply binary_round_below; try done;
    pose proof (Zdigits2_below (Zpos m) (k - e)); lia.
Qed.

Lemma below_mono k k' x : (k ≤ k')%Z → below k x → below k' x.
Proof. destruct x; simpl; [done..|lia]. Qed.

Lemma sub_below x y k :
  below k x → below k y → (-500 ≤ k ≤ 500 → below (k + 2) (sub x y))%Z.
Proof.
  intros Hx Hy Hk. destruct x as [sx|?| |sx mx ex], y as [sy|?| |sy my ey]; try done; cbn [below] in *.
  1: by destruct sx, sy. 1-2: simpl in *; lia.
  unfold sub, SFsub. set (ez := (ex `min` ey)%Z).
  pose proof (shl_align_below mx ex ez k ltac:(lia) Hx) as Hmx.
  pose proof (shl_align_below my ey ez k ltac:(lia) Hy) as Hmy.
  replace (k + 2)%Z with (k + 1 + 1)%Z by lia. apply binary_normalize_below; [|lia].
  assert (0 ≤ k - ez)%Z.
  { destruct (decide (k - ez < 0)%Z); [rewrite Z.pow_neg_r in Hmx by done|]; lia. }
  replace (k + 1 - ez)%Z with (Z.succ (k - ez)) by lia. rewrite Z.pow_succ_r by done.
  unfold cond_Zopp. destruct sx, sy; lia.
Qed.

Lemma sub_number x y : number x → number y → finite x = true → finite y = true → number (sub x y).
Proof.
  intros Hx Hy Hf Hg. destruct x as [[]| | |], y as [[]| | |]; try done; apply binary_normalize_number.
Qed.

(** ** From the interval of zero and one to that of minus one and one *)
Lemma units_below k x : valid x → finite x = true → (Z.abs (units x) < 2 ^ (k + 1074))%Z → below k x.
Proof.
  destruct x as [|?| |s m e]; try done. intros (? & ? & _)%valid_finite _ Hu. cbn [below].
  assert (Zpos m * 2 ^ (e + 1074) < 2 ^ (k + 1074))%Z as Hlt by (destruct s; simpl in Hu; lia).
  assert (Zdigits2 (Zpos m * 2 ^ (e + 1074)) ≤ k + 1074)%Z as Hd.
  { apply Zdigits2_below. split; [|done]. apply Z.mul_pos_pos; [lia|apply Z.pow_pos_nonneg; lia]. }
  rewrite Zdigits2_shift in Hd by lia. lia.
Qed.

Lemma le_between_finite lo hi x :
  finite lo = true → finite hi = true → le lo x = true → le x hi = true → finite x = true.
Proof. unfold le, SFleb. destruct x as [|[]| |]; try done; by destruct lo, hi. Qed.

Lemma centred_finite f :
  number f → le (of_int 0) f = true → lt f (of_int 1) = true →
  let c := sub (mul f (of_int 2)) (of_int 1) in number c ∧ finite c = true.
Proof.
  intros Hf H0 H1. assert (le f (of_int 1) = true) as Hle.
  { unfold lt, SFltb in H1. unfold le, SFleb. by destruct (SFcompare f (of_int 1)) as [[]|]. }
  pose proof (le_between_finite (of_int 0) (of_int 1) f eq_refl eq_refl H0 Hle) as Hfin.
  destruct (of_int_number 0) as [Hv0 _], (of_int_number 1) as [Hv1 _], Hf as [Hvf Hnf].
  assert (below 1 f) as Hb.
  { apply units_below; [done..|].
    pose proof (le_units _ _ Hv0 Hvf eq_refl Hfin H0) as Hl.
    pose proof (le_units _ _ Hvf Hv1 Hfin eq_refl Hle) as Hh.
    change (units (of_int 0)) with 0%Z in Hl. change (units (of_int 1)) with (2 ^ 1074)%Z in Hh.
    rewrite Z.abs_eq by done. eapply Z.le_lt_trans; [exact Hh|]. apply Z.pow_lt_mono_r; lia. }
  assert (below 4 (mul f (of_int 2))) as H2.
  { apply (mul_below f (of_int 2) 1 2); [done|apply of_int_number|done|vm_compute; discriminate|lia..]. }
  cbv zeta. split.
  - apply sub_number; [|apply of_int_number|by eapply below_finite|done].
    apply mul_number; [done|apply of_int_number|done..].
  - eapply (below_finite 6), (sub_below _ _ 4); [done| |lia].
    eapply (below_mono 1); [lia|vm_compute; discriminate].
Qed.
End float64_facts.
