(* ===== verification/Regex.v ===== *)
(** Regular expressions over bytes, matched by derivatives, and the words of a
    pattern: what package [regexp] decides for the patterns of the program. *)
From S2P Require Import Prelude GoStd.

Inductive regex :=
| re_none
| re_eps
| re_class (p : ascii → bool)
| re_seq (r1 r2 : regex)
| re_alt (r1 r2 : regex)
| re_star (r : regex).
Definition re_plus (r : regex) : regex := re_seq r (re_star r).

Fixpoint nullable (r : regex) : bool :=
  match r with
  | re_none | re_class _ => false
  | re_eps | re_star _ => true
  | re_seq r1 r2 => nullable r1 && nullable r2
  | re_alt r1 r2 => nullable r1 || nullable r2
  end.

Fixpoint deriv (c : ascii) (r : regex) : regex :=
  match r with
  | re_none | re_eps => re_none
  | re_class p => if p c then re_eps else re_none
  | re_seq r1 r2 =>
      let d := re_seq (deriv c r1) r2 in
      if nullable r1 then re_alt d (deriv c r2) else d
  | re_alt r1 r2 => re_alt (deriv c r1) (deriv c r2)
  | re_star r' => re_seq (deriv c r') (re_star r')
  end.

(** A pattern anchored at both ends, against all the bytes of a string. *)
Definition re_match (r : regex) (s : string) : bool :=
  nullable (foldl (λ r c, deriv c r) r (chars s)).

(** * Theorems *)

(** The words of a pattern. *)
Inductive re_lang : regex → list ascii → Prop :=
| lang_eps : re_lang re_eps []
| lang_class p c : p c = true → re_lang (re_class p) [c]
| lang_seq r1 r2 s1 s2 : re_lang r1 s1 → re_lang r2 s2 → re_lang (re_seq r1 r2) (s1 ++ s2)
| lang_alt_l r1 r2 s : re_lang r1 s → re_lang (re_alt r1 r2) s
| lang_alt_r r1 r2 s : re_lang r2 s → re_lang (re_alt r1 r2) s
| lang_star_nil r : re_lang (re_star r) []
| lang_star_app r s1 s2 : re_lang r s1 → re_lang (re_star r) s2 → re_lang (re_star r) (s1 ++ s2).

Lemma nullable_spec r : nullable r = true ↔ re_lang r [].
Proof.
  split.
  - induction r as [| |p|r1 IH1 r2 IH2|r1 IH1 r2 IH2|r IH]; simpl; intros Hn; try done.
    + constructor.
    + apply andb_prop in Hn as [? ?]. apply (lang_seq r1 r2 [] []); auto.
    + apply orb_prop in Hn as [?|?]; [apply lang_alt_l|apply lang_alt_r]; auto.
    + constructor.
  - remember [] as s. intros Hl. revert Heqs.
    induction Hl as [| |r1 r2 s1 s2 _ IH1 _ IH2|r1 r2 s _ IH|r1 r2 s _ IH| |]; intros E; simpl; try done.
    + apply app_nil in E as [E1 E2]. by rewrite IH1, IH2.
    + by rewrite IH.
    + rewrite IH by done. apply orb_true_r.
Qed.

(** A non-empty word of a starred pattern starts with a non-empty factor. *)
Lemma lang_star_cons r c s :
  re_lang (re_star r) (c :: s) →
  ∃ s1 s2, s = s1 ++ s2 ∧ re_lang r (c :: s1) ∧ re_lang (re_star r) s2.
Proof.
  remember (re_star r) as q. remember (c :: s) as t. intros Hl. revert Heqq Heqt.
  induction Hl as [| | | | | |r' s1 s2 H1 _ H2 IH2]; intros Eq Et; simplify_eq.
  destruct s1 as [|c' s1]; simplify_eq/=; [by apply IH2|]. eauto.
Qed.

Lemma deriv_spec c r s : re_lang (deriv c r) s ↔ re_lang r (c :: s).
Proof.
  revert s. induction r as [| |p|r1 IH1 r2 IH2|r1 IH1 r2 IH2|r IH]; intros s; simpl.
  - split; inversion 1.
  - split; inversion 1.
  - destruct (p c) eqn:E; split; inversion 1; subst; by constructor || congruence.
  - assert (re_lang (re_seq (deriv c r1) r2) s ↔
      ∃ s1 s2, s = s1 ++ s2 ∧ re_lang r1 (c :: s1) ∧ re_lang r2 s2) as Hd.
    { split.
      - inversion 1; subst. eexists _, _. split; [done|]. by rewrite <-IH1.
      - intros (s1 & s2 & -> & ? & ?). constructor; [by apply IH1|done]. }
    assert (re_lang (re_seq r1 r2) (c :: s) ↔
      (∃ s1 s2, s = s1 ++ s2 ∧ re_lang r1 (c :: s1) ∧ re_lang r2 s2) ∨
      re_lang r1 [] ∧ re_lang r2 (c :: s)) as ->.
    { split.
      - inversion 1 as [| |? ? s1 s2 H1 H2 E1 E2| | | |]; subst.
        destruct s1 as [|c' s1]; simplify_eq/=; [by right|left; eauto].
      - intros [(s1 & s2 & -> & ? & ?)|[? ?]].
        + by apply (lang_seq r1 r2 (c :: s1) s2).
        + by apply (lang_seq r1 r2 [] (c :: s)). }
    rewrite <-Hd, <-nullable_spec, <-IH2.
    destruct (nullable r1).
    + split; [inversion 1; subst; auto|].
      intros [?|[_ ?]]; [by apply lang_alt_l|by apply lang_alt_r].
    + split; [auto|]. by intros [?|[? _]].
  - split.
    + inversion 1; subst; [apply lang_alt_l, IH1|apply lang_alt_r, IH2]; done.
    + inversion 1; subst; [apply lang_alt_l, IH1|apply lang_alt_r, IH2]; done.
  - split.
    + inversion 1 as [| |? ? s1 s2 H1 H2 E1 E2| | | |]; subst.
      apply (lang_star_app r (c :: s1) s2); [by apply IH|done].
    + intros (s1 & s2 & -> & ? & ?)%lang_star_cons. constructor; [by apply IH|done].
Qed.

(** The matcher decides the pattern's words. *)
Lemma re_match_spec r s : re_match r s = true ↔ re_lang r (chars s).
Proof.
  unfold re_match. generalize (chars s). intros l. revert r.
  induction l as [|c l IH]; intros r; simpl; [apply nullable_spec|].
  by rewrite IH, deriv_spec.
Qed.

Lemma lang_star_class p l : re_lang (re_star (re_class p)) l ↔ Forall (λ c, p c = true) l.
Proof.
  split.
  - remember (re_star (re_class p)) as q. intros Hl. revert Heqq.
    induction Hl as [| | | | | |r s1 s2 H1 _ _ IH]; intros E; simplify_eq; [constructor|].
    inversion H1; subst. constructor; auto.
  - induction 1 as [|c l Hc _ IH]; [constructor|].
    apply (lang_star_app (re_class p) [c] l); [by constructor|done].
Qed.
