(* ===== verification/Errors.v ===== *)
(** Go error values: the concrete error types of [internal/errors],
    [internal/configuration] and [internal/datacenterresource], what the
    standard library and the Kubernetes client return, and their messages. *)
From S2P Require Import Prelude GoStd.

(** [unicode.IsPrint] beyond ASCII is a table of the Unicode standard. *)
Class UnicodeTables := { IsPrint : Z → bool }.

(** ** fmt verbs *)
Definition hex_digit (n : Z) : ascii :=
  Ascii.ascii_of_N (Z.to_N (if (n <? 10)%Z then 48 + n else 87 + n)).

(** [width] lower-case hexadecimal digits. *)
Fixpoint hex_digits (width : nat) (n : Z) : string :=
  match width with
  | O => ""
  | S k => hex_digits k (Z.shiftr n 4) +:+ String (hex_digit (Z.land n 15)) ""
  end.

Section Quote.
Context `{UnicodeTables}.

Definition backslash (c : ascii) : string := String "\"%char (String c "").

(** One rune of [strconv.Quote]; [raw] is its bytes. *)
Definition quote_rune (r : Z) (w : nat) (raw : string) : string :=
  if (r =? RuneError)%Z && bool_decide (w = 1) then
    match raw with
    | String c _ => backslash "x" +:+ hex_digits 2 (byte_val c)
    | _ => ""
    end
  else if (r =? 34)%Z || (r =? 92)%Z then String "\"%char raw
  else if in_range 32 126 r then raw
  else if (128 <=? r)%Z && IsPrint r then raw
  else if (r =? 7)%Z then backslash "a"
  else if (r =? 8)%Z then backslash "b"
  else if (r =? 12)%Z then backslash "f"
  else if (r =? 10)%Z then backslash "n"
  else if (r =? 13)%Z then backslash "r"
  else if (r =? 9)%Z then backslash "t"
  else if (r =? 11)%Z then backslash "v"
  else if (r <? 32)%Z || (r =? 127)%Z then backslash "x" +:+ hex_digits 2 r
  else if (r <? 65536)%Z then backslash "u" +:+ hex_digits 4 r
  else backslash "U" +:+ hex_digits 8 r.

Fixpoint take_bytes (n : nat) (s : string) : string :=
  match n, s with
  | S k, String c s' => String c (take_bytes k s')
  | _, _ => ""
  end.

Fixpoint quote_from (skip : nat) (s : string) : string :=
  match s with
  | EmptyString => ""
  | String c s' =>
      match skip with
      | S k => quote_from k s'
      | O => let '(r, w) := DecodeRune c s' in
             quote_rune r w (take_bytes w s) +:+ quote_from (w - 1) s'
      end
  end.

(** [strconv.Quote], the verb %q. *)
Definition Quote (s : string) : string := dquote +:+ quote_from 0 s +:+ dquote.
End Quote.

(** The verb %v of a slice of strings. *)
Definition fmt_strings (l : list string) : string := "[" +:+ strings.Join l " " +:+ "]".

(** ** Error types of the program *)

(** *** internal/errors *)
Definition KindConfigMap : string := "configmap".
Definition KindSecret : string := "secret".

Record GetError (E : Type) := mkGetError {
  GetError_Kind : string;
  GetError_Name : string;
  GetError_Err : E
}.
Record MissingKeyError := mkMissingKeyError {
  MissingKeyError_Kind : string;
  MissingKeyError_Name : string;
  MissingKeyError_Key : string
}.
Record MissingOptionError := mkMissingOptionError {
  MissingOptionError_Parent : string;
  MissingOptionError_Options : list string
}.
Record NotImplementedError := mkNotImplementedError {}.

(** *** internal/configuration *)
Record UnsetError := mkUnsetError { UnsetError_VarName : string }.
Record EmptyError := mkEmptyError { EmptyError_VarName : string }.
Record InvalidError (E : Type) := mkInvalidError {
  InvalidError_VarName : string;
  InvalidError_Value : string;
  InvalidError_Reason : string;
  InvalidError_Err : option E
}.
Inductive ConnectErrorType :=
| ConnectErrorTypeHost
| ConnectErrorTypePort
| ConnectErrorTypeAddress.
Record ConnectError (E : Type) := mkConnectError {
  ConnectError_Type : ConnectErrorType;
  ConnectError_VarNames : list string;
  ConnectError_Value : string;
  ConnectError_Reason : string;
  ConnectError_Err : option E
}.

(** *** internal/datacenterresource *)
Record ErrorResourceNotFound := mkErrorResourceNotFound { NotFound_InvolvedResource : string }.
Record ErrorCycleDetected := mkErrorCycleDetected { Cycle_InvolvedResource : string }.
Record ErrorUnknownType := mkErrorUnknownType { UnknownType_Type : string }.
Record ErrorServiceDefinedOnParent := mkErrorServiceDefinedOnParent { Service_InvolvedResource : string }.
Record ErrorInvalidLabelName := mkErrorInvalidLabelName { InvalidLabel_LabelName : string }.

Arguments mkGetError {E}.
Arguments GetError_Kind {E}.
Arguments GetError_Name {E}.
Arguments GetError_Err {E}.
Arguments mkInvalidError {E}.
Arguments InvalidError_VarName {E}.
Arguments InvalidError_Value {E}.
Arguments InvalidError_Reason {E}.
Arguments InvalidError_Err {E}.
Arguments mkConnectError {E}.
Arguments ConnectError_Type {E}.
Arguments ConnectError_VarNames {E}.
Arguments ConnectError_Value {E}.
Arguments ConnectError_Reason {E}.
Arguments ConnectError_Err {E}.

(** The interface [error]: the types above, and the errors of the packages the
    program calls, known by their text and by the question the program asks
    of them (does the file exist, does the object exist). *)
Inductive error :=
| errorString (msg : string)
| wrapError (msg : string) (err : error)
| joinError (e1 e2 : error)
| PathError (notExist : bool) (msg : string)
| StatusError (notFound : bool) (msg : string)
| NumError (fn num : string) (e : num_error)
| err_GetError (e : GetError error)
| err_MissingKey (e : MissingKeyError)
| err_MissingOption (e : MissingOptionError)
| err_NotImplemented (e : NotImplementedError)
| err_Unset (e : UnsetError)
| err_Empty (e : EmptyError)
| err_Invalid (e : InvalidError error)
| err_Connect (e : ConnectError error)
| err_ResourceNotFound (e : ErrorResourceNotFound)
| err_CycleDetected (e : ErrorCycleDetected)
| err_UnknownType (e : ErrorUnknownType)
| err_ServiceDefinedOnParent (e : ErrorServiceDefinedOnParent)
| err_InvalidLabelName (e : ErrorInvalidLabelName).

(** ** Messages: the methods [Error] *)
Section Messages.
Context `{UnicodeTables}.

Definition GetError_Error {E} (txt : E → string) (e : GetError E) : string :=
  "get " +:+ GetError_Kind e +:+ " " +:+ Quote (GetError_Name e) +:+ ": " +:+ txt (GetError_Err e).
Definition MissingKeyError_Error (e : MissingKeyError) : string :=
  MissingKeyError_Kind e +:+ " " +:+ Quote (MissingKeyError_Name e) +:+
  " does not contain key " +:+ Quote (MissingKeyError_Key e).
Definition MissingOptionError_Error (e : MissingOptionError) : string :=
  MissingOptionError_Parent e +:+ " must specify one of: " +:+ fmt_strings (MissingOptionError_Options e).
Definition NotImplementedError_Error (e : NotImplementedError) : string := "not implemented".

Definition UnsetError_Error (e : UnsetError) : string :=
  "environment variable " +:+ UnsetError_VarName e +:+ " is not set".
Definition EmptyError_Error (e : EmptyError) : string :=
  "environment variable " +:+ EmptyError_VarName e +:+ " is an empty string".
Definition InvalidError_Error {E} (txt : E → string) (e : InvalidError E) : string :=
  let msg := "environment variable " +:+ InvalidError_VarName e +:+ " ('" +:+
             InvalidError_Value e +:+ "') is not valid: " +:+ InvalidError_Reason e in
  match InvalidError_Err e with
  | Some err => msg +:+ ". " +:+ txt err
  | None => msg
  end.
Definition ConnectErrorType_string (t : ConnectErrorType) : string :=
  match t with
  | ConnectErrorTypeHost => "host"
  | ConnectErrorTypePort => "port"
  | ConnectErrorTypeAddress => "address"
  end.
(** A nil error prints as the verb does: <nil>. *)
Definition ConnectError_Error {E} (txt : E → string) (e : ConnectError E) : string :=
  "cannot connect to " +:+ ConnectErrorType_string (ConnectError_Type e) +:+ " " +:+
  ConnectError_Value e +:+ " (from environment variable " +:+
  fmt_strings (ConnectError_VarNames e) +:+ "): " +:+
  match ConnectError_Err e with Some err => txt err | None => "<nil>" end +:+
  ". " +:+ ConnectError_Reason e.

Definition ErrorResourceNotFound_Error (e : ErrorResourceNotFound) : string :=
  "could not locate resource: " +:+ NotFound_InvolvedResource e.
Definition ErrorCycleDetected_Error (e : ErrorCycleDetected) : string :=
  "cyclic loop detected in data center resources from child " +:+ Cycle_InvolvedResource e.
Definition ErrorUnknownType_Error (e : ErrorUnknownType) : string :=
  "unknown type: " +:+ UnknownType_Type e.
Definition ErrorServiceDefinedOnParent_Error (e : ErrorServiceDefinedOnParent) : string :=
  "service ID must not be defined on " +:+ Service_InvolvedResource e +:+ " with children (no leaf node)".
Definition ErrorInvalidLabelName_Error (e : ErrorInvalidLabelName) : string :=
  "invalid additional label name: " +:+ InvalidLabel_LabelName e.

Definition num_error_text (e : num_error) : string :=
  match e with ErrSyntax => "invalid syntax" | ErrRange => "value out of range" end.

Fixpoint Error (e : error) : string :=
  match e with
  | errorString msg => msg
  | wrapError msg err => msg +:+ Error err
  | joinError e1 e2 => Error e1 +:+ newline +:+ Error e2
  | PathError _ msg | StatusError _ msg => msg
  | NumError fn num k =>
      "strconv." +:+ fn +:+ ": parsing " +:+ Quote num +:+ ": " +:+ num_error_text k
  | err_GetError e => GetError_Error Error e
  | err_MissingKey e => MissingKeyError_Error e
  | err_MissingOption e => MissingOptionError_Error e
  | err_NotImplemented e => NotImplementedError_Error e
  | err_Unset e => UnsetError_Error e
  | err_Empty e => EmptyError_Error e
  | err_Invalid e => InvalidError_Error Error e
  | err_Connect e => ConnectError_Error Error e
  | err_ResourceNotFound e => ErrorResourceNotFound_Error e
  | err_CycleDetected e => ErrorCycleDetected_Error e
  | err_UnknownType e => ErrorUnknownType_Error e
  | err_ServiceDefinedOnParent e => ErrorServiceDefinedOnParent_Error e
  | err_InvalidLabelName e => ErrorInvalidLabelName_Error e
  end.
End Messages.

(** ** The chain an error wraps: the methods [Unwrap] *)
Definition GetError_Unwrap {E} (e : GetError E) : option E := Some (GetError_Err e).
Definition InvalidError_Unwrap {E} (e : InvalidError E) : option E := InvalidError_Err e.
Definition ConnectError_Unwrap {E} (e : ConnectError E) : option E := ConnectError_Err e.

(** Does some error of the chain (of the tree, for a joined error) satisfy a
    test?  [errors.Is] and [errors.As] search this way. *)
Fixpoint chain_exists (test : error → bool) (e : error) : bool :=
  test e ||
  match e with
  | wrapError _ err => chain_exists test err
  | joinError e1 e2 => chain_exists test e1 || chain_exists test e2
  | err_GetError g =>
      match GetError_Unwrap g with Some err => chain_exists test err | None => false end
  | err_Invalid i =>
      match InvalidError_Unwrap i with Some err => chain_exists test err | None => false end
  | err_Connect c =>
      match ConnectError_Unwrap c with Some err => chain_exists test err | None => false end
  | _ => false
  end.

(** [errors.Is(err, fs.ErrNotExist)] follows the chain; [os.IsNotExist] looks
    at the error itself. *)
Definition is_not_exist (e : error) : bool :=
  match e with PathError b _ => b | _ => false end.
Definition Is_ErrNotExist : error → bool := chain_exists is_not_exist.
Definition os_IsNotExist : error → bool := is_not_exist.

(** [apierrors.IsNotFound] follows the chain to an API status. *)
Definition IsNotFound : error → bool :=
  chain_exists (λ e, match e with StatusError b _ => b | _ => false end).

Definition As_ErrorResourceNotFound : error → bool :=
  chain_exists (λ e, match e with err_ResourceNotFound _ => true | _ => false end).

Definition Is_UnsetError (name : string) : error → bool :=
  chain_exists (λ e, match e with
                     | err_Unset u => bool_decide (UnsetError_VarName u = name)
                     | _ => false
                     end).
