(* ===== verification/Utf8.v ===== *)
(** UTF-8 ([unicode/utf8], [unicode/utf16]): the encoding of runes, the strings it is
    the inverse of decoding on, and what decoding depends on. *)
From S2P Require Import Prelude GoStd Errors.

Definition chr (z : Z) : ascii := Ascii.ascii_of_N (Z.to_N z).

(** [utf8.AppendRune]: a number that is no rune is encoded as [RuneError]. *)
Definition EncodeRune (r : Z) : string :=
  let tail (x : Z) : ascii := chr (Z.lor 128 (Z.land x 63)) in
  let three (x : Z) : string :=
    String (chr (Z.lor 224 (Z.shiftr x 12))) (String (tail (Z.shiftr x 6)) (String (tail x) "")) in
  if in_range 0 127 r then String (chr r) ""
  else if in_range 128 2047 r then String (chr (Z.lor 192 (Z.shiftr r 6))) (String (tail r) "")
  else if (r <? 0)%Z || in_range 55296 57343 r || (1114111 <? r)%Z then three RuneError
  else if (r <? 65536)%Z then three r
  else String (chr (Z.lor 240 (Z.shiftr r 18)))
         (String (tail (Z.shiftr r 12)) (String (tail (Z.shiftr r 6)) (String (tail r) ""))).

(** [utf16.IsSurrogate] and [utf16.DecodeRune]. *)
Definition IsSurrogate (r : Z) : bool := in_range 55296 57343 r.
Definition DecodeSurrogates (r1 r2 : Z) : Z :=
  if in_range 55296 56319 r1 && in_range 56320 57343 r2
  then ((r1 - 55296) * 1024 + (r2 - 56320) + 65536)%Z else RuneError.

(** A string with every invalid byte replaced by U+FFFD: [strings.ToValidUTF8] with
    one replacement a byte. *)
Definition encode_runes (rs : list Z) : string := strings.Join (EncodeRune <$> rs) "".
Definition to_valid (s : string) : string := encode_runes (runes s).
(** [utf8.ValidString]. *)
Definition ValidString (s : string) : bool := bool_decide (to_valid s = s).

(** ** Bits *)
Lemma lor_shiftl a b k : (0 ≤ k)%Z → (0 ≤ b < 2 ^ k)%Z → Z.lor (Z.shiftl a k) b = (a * 2 ^ k + b)%Z.
Proof.
  intros Hk Hb. rewrite Z.shiftl_mul_pow2 by done.
  assert (Z.land (a * 2 ^ k) b = 0%Z) as Hand.
  { apply Z.bits_inj'. intros n Hn. rewrite Z.land_spec, Z.bits_0.
    destruct (decide (n < k)%Z).
    - by rewrite Z.mul_pow2_bits_low.
    - rewrite <- (Z.mod_small b (2 ^ k)) by done. rewrite Z.mod_pow2_bits_high by lia. apply andb_false_r. }
  pose proof (Z.add_lor_land (a * 2 ^ k) b). lia.
Qed.

Lemma lor_multiple m a b k : (0 ≤ k)%Z → (0 ≤ b < 2 ^ k)%Z → m = (a * 2 ^ k)%Z → Z.lor m b = (m + b)%Z.
Proof. intros Hk Hb ->. rewrite <- Z.shiftl_mul_pow2 by done. rewrite lor_shiftl by done. by rewrite Z.shiftl_mul_pow2. Qed.

Lemma land_low x k : (0 ≤ k)%Z → Z.land x (2 ^ k - 1) = (x mod 2 ^ k)%Z.
Proof. intros Hk. rewrite <- Z.land_ones by done. by rewrite Z.ones_equiv, Z.sub_1_r. Qed.

Lemma chr_byte_val c : chr (byte_val c) = c.
Proof. apply ascii_of_byte_val. Qed.

(** ** Decoding *)
Lemma in_range_true lo hi x : in_range lo hi x = true ↔ (lo ≤ x ≤ hi)%Z.
Proof. unfold in_range. rewrite andb_true_iff, !Z.leb_le. done. Qed.
Lemma in_range_false lo hi x : in_range lo hi x = false ↔ (x < lo ∨ hi < x)%Z.
Proof. unfold in_range. rewrite andb_false_iff, !Z.leb_gt. lia. Qed.

Ltac ranges :=
  repeat match goal with
  | H : in_range _ _ _ = true |- _ => apply in_range_true in H
  | H : in_range _ _ _ = false |- _ => apply in_range_false in H
  | H : cont _ = true |- _ => apply in_range_true in H
  | H : (_ && _)%bool = true |- _ => apply andb_true_iff in H as [? H]
  | H : (_ <? _)%Z = true |- _ => apply Z.ltb_lt in H
  | H : (_ <? _)%Z = false |- _ => apply Z.ltb_ge in H
  end.

(** A byte of a rune: the mark of the byte and its share of the bits. *)
Lemma marked_byte c mark k x :
  (0 ≤ k)%Z → (mark mod 2 ^ k = 0)%Z → (0 ≤ x < 2 ^ k)%Z → (mark + x)%Z = byte_val c →
  chr (Z.lor mark x) = c.
Proof.
  intros Hk Hm Hx Hc. rewrite (lor_multiple mark (mark / 2 ^ k) x k); [|done..|].
  - by rewrite Hc, chr_byte_val.
  - pose proof (Z.div_mod mark (2 ^ k)). lia.
Qed.

(** The number two, three or four bytes stand for. *)
Lemma two_bits a b : (0 ≤ b < 64)%Z → Z.lor (Z.shiftl a 6) b = (a * 64 + b)%Z.
Proof. intros. by rewrite (lor_shiftl a b 6). Qed.
Lemma three_bits a b c : (0 ≤ b < 64)%Z → (0 ≤ c < 64)%Z →
  Z.lor (Z.shiftl a 12) (Z.lor (Z.shiftl b 6) c) = (a * 4096 + b * 64 + c)%Z.
Proof. intros. rewrite two_bits, (lor_shiftl a _ 12) by lia. lia. Qed.
Lemma four_bits a b c d : (0 ≤ b < 64)%Z → (0 ≤ c < 64)%Z → (0 ≤ d < 64)%Z →
  Z.lor (Z.shiftl a 18) (Z.lor (Z.shiftl b 12) (Z.lor (Z.shiftl c 6) d)) =
  (a * 262144 + b * 4096 + c * 64 + d)%Z.
Proof. intros. rewrite three_bits, (lor_shiftl a _ 18) by lia. lia. Qed.

Lemma cont_bits c : (128 ≤ byte_val c ≤ 191)%Z → Z.land (byte_val c) 63 = (byte_val c - 128)%Z.
Proof.
  intros H. change 63%Z with (2 ^ 6 - 1)%Z. rewrite land_low by done.
  change (2 ^ 6)%Z with 64%Z. Z.div_mod_to_equations; lia.
Qed.
Lemma lead_bits c k m : (0 ≤ k)%Z → (m mod 2 ^ k = 0)%Z → (m ≤ byte_val c < m + 2 ^ k)%Z →
  Z.land (byte_val c) (2 ^ k - 1) = (byte_val c - m)%Z.
Proof.
  intros Hk Hm Hc. rewrite land_low by done. pose proof (Z.div_mod m (2 ^ k)).
  replace (byte_val c) with (byte_val c - m + (m / 2 ^ k) * 2 ^ k)%Z at 1 by lia.
  rewrite Z.mod_add by lia. by apply Z.mod_small; lia.
Qed.

Lemma tail_byte c x : (0 ≤ x < 64)%Z → (128 + x)%Z = byte_val c → chr (Z.lor 128 x) = c.
Proof. intros. by apply (marked_byte c 128 6). Qed.
Lemma low6 x : Z.land x 63 = (x mod 64)%Z.
Proof. exact (land_low x 6 ltac:(lia)). Qed.
Lemma shiftr_div x k d : (0 ≤ k)%Z → (2 ^ k)%Z = d → Z.shiftr x k = (x / d)%Z.
Proof. intros Hk <-. by apply Z.shiftr_div_pow2. Qed.

(** The bytes of a rune from the number they stand for. *)
Lemma encode_two c0 c1 :
  (194 ≤ byte_val c0 ≤ 223)%Z → (128 ≤ byte_val c1 ≤ 191)%Z →
  EncodeRune ((byte_val c0 - 192) * 64 + (byte_val c1 - 128)) = String c0 (String c1 "").
Proof.
  intros H0 H1. set (r := (_ + _)%Z). unfold EncodeRune.
  rewrite (proj2 (in_range_false 0 127 r)), (proj2 (in_range_true 128 2047 r)) by lia.
  rewrite low6, (shiftr_div r 6 64) by done.
  repeat f_equal.
  - apply (marked_byte c0 192 5); [lia|done|..]; Z.div_mod_to_equations; lia.
  - apply tail_byte; Z.div_mod_to_equations; lia.
Qed.

Lemma encode_three c0 c1 c2 r :
  r = ((byte_val c0 - 224) * 4096 + (byte_val c1 - 128) * 64 + (byte_val c2 - 128))%Z →
  (224 ≤ byte_val c0 ≤ 239)%Z → (128 ≤ byte_val c1 ≤ 191)%Z → (128 ≤ byte_val c2 ≤ 191)%Z →
  (byte_val c0 = 224 → 160 ≤ byte_val c1)%Z → (byte_val c0 = 237 → byte_val c1 ≤ 159)%Z →
  EncodeRune r = String c0 (String c1 (String c2 "")).
Proof.
  intros Hr H0 H1 H2 H3 H4. unfold EncodeRune.
  rewrite (proj2 (in_range_false 0 127 r)), (proj2 (in_range_false 128 2047 r)) by lia.
  rewrite (proj2 (Z.ltb_ge r 0)), (proj2 (in_range_false 55296 57343 r)), (proj2 (Z.ltb_ge 1114111 r)) by lia.
  rewrite (proj2 (Z.ltb_lt r 65536)) by lia. cbn [orb].
  rewrite !low6, (shiftr_div r 6 64), (shiftr_div r 12 4096) by done.
  repeat f_equal.
  - apply (marked_byte c0 224 4); [lia|done|..]; Z.div_mod_to_equations; lia.
  - apply tail_byte; Z.div_mod_to_equations; lia.
  - apply tail_byte; Z.div_mod_to_equations; lia.
Qed.

Lemma encode_four c0 c1 c2 c3 r :
  r = ((byte_val c0 - 240) * 262144 + (byte_val c1 - 128) * 4096 + (byte_val c2 - 128) * 64 +
       (byte_val c3 - 128))%Z →
  (240 ≤ byte_val c0 ≤ 244)%Z → (128 ≤ byte_val c1 ≤ 191)%Z → (128 ≤ byte_val c2 ≤ 191)%Z →
  (128 ≤ byte_val c3 ≤ 191)%Z →
  (byte_val c0 = 240 → 144 ≤ byte_val c1)%Z → (byte_val c0 = 244 → byte_val c1 ≤ 143)%Z →
  EncodeRune r = String c0 (String c1 (String c2 (String c3 ""))).
Proof.
  intros Hr H0 H1 H2 H3 H4 H5. unfold EncodeRune.
  rewrite (proj2 (in_range_false 0 127 r)), (proj2 (in_range_false 128 2047 r)) by lia.
  rewrite (proj2 (Z.ltb_ge r 0)), (proj2 (in_range_false 55296 57343 r)), (proj2 (Z.ltb_ge 1114111 r)) by lia.
  rewrite (proj2 (Z.ltb_ge r 65536)) by lia. cbn [orb].
  rewrite !low6, (shiftr_div r 6 64), (shiftr_div r 12 4096), (shiftr_div r 18 262144) by done.
  repeat f_equal.
  - apply (marked_byte c0 240 3); [lia|done|..]; Z.div_mod_to_equations; lia.
  - apply tail_byte; Z.div_mod_to_equations; lia.
  - apply tail_byte; Z.div_mod_to_equations; lia.
  - apply tail_byte; Z.div_mod_to_equations; lia.
Qed.

(** The runes of more than one byte: [raw] is the bytes after the first. *)
Definition high (c : ascii) : Prop := (128 ≤ byte_val c)%Z.
Record multi (c : ascii) (raw : string) (r : Z) : Prop := {
  multi_high : Forall high (c :: chars raw);
  multi_more : raw ≠ "";
  multi_rune : (128 ≤ r)%Z;
  multi_encode : EncodeRune r = String c raw;
  multi_decode t : DecodeRune c (raw +:+ t) = (r, S (String.length raw))
}.

(** What is decoded: one byte for an invalid or an ASCII rune, or what it takes. *)
Inductive rune_at (c : ascii) (s : string) : Z → nat → Prop :=
| at_invalid : rune_at c s RuneError 1
| at_ascii : is_ascii c → rune_at c s (byte_val c) 1
| at_multi raw rest r : s = raw +:+ rest → multi c raw r → rune_at c s r (S (String.length raw)).

(** Decoding what is well formed. *)
Lemma decode_two c0 c1 t :
  (194 ≤ byte_val c0 ≤ 223)%Z → (128 ≤ byte_val c1 ≤ 191)%Z →
  DecodeRune c0 (String c1 t) = (((byte_val c0 - 192) * 64 + (byte_val c1 - 128))%Z, 2).
Proof.
  intros H0 H1. unfold DecodeRune, cont.
  rewrite (proj2 (Z.ltb_ge (byte_val c0) 128)), (proj2 (in_range_true 194 223 _)) by lia.
  rewrite (proj2 (in_range_true 128 191 (byte_val c1))) by lia.
  rewrite (lead_bits c0 5 192) by (done || lia). change (2 ^ 6 - 1)%Z with 63%Z.
  by rewrite cont_bits, two_bits by lia.
Qed.

Lemma decode_three c0 c1 c2 t :
  (224 ≤ byte_val c0 ≤ 239)%Z → (128 ≤ byte_val c1 ≤ 191)%Z → (128 ≤ byte_val c2 ≤ 191)%Z →
  (byte_val c0 = 224 → 160 ≤ byte_val c1)%Z → (byte_val c0 = 237 → byte_val c1 ≤ 159)%Z →
  DecodeRune c0 (String c1 (String c2 t)) =
    (((byte_val c0 - 224) * 4096 + (byte_val c1 - 128) * 64 + (byte_val c2 - 128))%Z, 3).
Proof.
  intros H0 H1 H2 H3 H4. unfold DecodeRune, cont.
  rewrite (proj2 (Z.ltb_ge (byte_val c0) 128)), (proj2 (in_range_false 194 223 _)) by lia.
  rewrite (proj2 (in_range_true 224 239 _)), (proj2 (in_range_true 128 191 (byte_val c2))) by lia.
  rewrite (proj2 (in_range_true _ _ (byte_val c1)))
    by (destruct (Z.eqb_spec (byte_val c0) 224), (Z.eqb_spec (byte_val c0) 237); lia).
  rewrite (lead_bits c0 4 224) by (done || lia). change (2 ^ 6 - 1)%Z with 63%Z.
  by rewrite !cont_bits, three_bits by lia.
Qed.

Lemma decode_four c0 c1 c2 c3 t :
  (240 ≤ byte_val c0 ≤ 244)%Z → (128 ≤ byte_val c1 ≤ 191)%Z → (128 ≤ byte_val c2 ≤ 191)%Z →
  (128 ≤ byte_val c3 ≤ 191)%Z →
  (byte_val c0 = 240 → 144 ≤ byte_val c1)%Z → (byte_val c0 = 244 → byte_val c1 ≤ 143)%Z →
  DecodeRune c0 (String c1 (String c2 (String c3 t))) =
    (((byte_val c0 - 240) * 262144 + (byte_val c1 - 128) * 4096 + (byte_val c2 - 128) * 64 +
      (byte_val c3 - 128))%Z, 4).
Proof.
  intros H0 H1 H2 H3 H4 H5. unfold DecodeRune, cont.
  rewrite (proj2 (Z.ltb_ge (byte_val c0) 128)), (proj2 (in_range_false 194 223 _)) by lia.
  rewrite (proj2 (in_range_false 224 239 _)), (proj2 (in_range_true 240 244 _)) by lia.
  rewrite (proj2 (in_range_true 128 191 (byte_val c2))), (proj2 (in_range_true 128 191 (byte_val c3))) by lia.
  rewrite (proj2 (in_range_true _ _ (byte_val c1)))
    by (destruct (Z.eqb_spec (byte_val c0) 240), (Z.eqb_spec (byte_val c0) 244); lia).
  rewrite (lead_bits c0 3 240) by (done || lia). change (2 ^ 6 - 1)%Z with 63%Z.
  by rewrite !cont_bits, four_bits by lia.
Qed.

Ltac all_high := repeat (apply Forall_cons; split); [unfold high; lia..|by apply Forall_nil].

Lemma DecodeRune_view c s : rune_at c s (DecodeRune c s).1 (DecodeRune c s).2.
Proof.
  destruct (decide (byte_val c < 128)%Z) as [Ha|Ha]; [rewrite DecodeRune_ascii by done; by constructor 2|].
  pose proof (byte_val_bounds c) as Hb.
  destruct (in_range 194 223 (byte_val c)) eqn:H2;
    [|destruct (in_range 224 239 (byte_val c)) eqn:H3; [|destruct (in_range 240 244 (byte_val c)) eqn:H4]].
  - destruct s as [|c1 t]; [|destruct (cont c1) eqn:Hc];
      try (unfold DecodeRune; rewrite (proj2 (Z.ltb_ge _ _)), H2, ?Hc by lia; constructor).
    ranges. rewrite decode_two by lia. cbn [fst snd].
    apply (at_multi c (String c1 t) (String c1 "") t); [done|].
    split; [all_high|done|lia|by apply encode_two|intros; by apply decode_two].
  - destruct s as [|c1 [|c2 t]];
      try (unfold DecodeRune; rewrite (proj2 (Z.ltb_ge _ _)), H2, H3 by lia; constructor).
    destruct (in_range (if (byte_val c =? 224)%Z then 160 else 128)
                (if (byte_val c =? 237)%Z then 159 else 191) (byte_val c1) && cont c2) eqn:Hc;
      [|unfold DecodeRune; rewrite (proj2 (Z.ltb_ge _ _)), H2, H3, Hc by lia; constructor].
    apply andb_true_iff in Hc as [Hc1 Hc2]. ranges.
    destruct (Z.eqb_spec (byte_val c) 224), (Z.eqb_spec (byte_val c) 237); try lia.
    all: rewrite decode_three by lia; cbn [fst snd].
    all: apply (at_multi c (String c1 (String c2 t)) (String c1 (String c2 "")) t); [done|].
    all: split; [all_high|done|lia|by apply encode_three; try lia|intros; by apply decode_three; lia].
  - destruct s as [|c1 [|c2 [|c3 t]]];
      try (unfold DecodeRune; rewrite (proj2 (Z.ltb_ge _ _)), H2, H3, H4 by lia; constructor).
    destruct (in_range (if (byte_val c =? 240)%Z then 144 else 128)
                (if (byte_val c =? 244)%Z then 143 else 191) (byte_val c1) && cont c2 && cont c3) eqn:Hc;
      [|unfold DecodeRune; rewrite (proj2 (Z.ltb_ge _ _)), H2, H3, H4, Hc by lia; constructor].
    apply andb_true_iff in Hc as [Hc Hc3]. apply andb_true_iff in Hc as [Hc1 Hc2]. ranges.
    destruct (Z.eqb_spec (byte_val c) 240), (Z.eqb_spec (byte_val c) 244); try lia.
    all: rewrite decode_four by lia; cbn [fst snd].
    all: apply (at_multi c (String c1 (String c2 (String c3 t))) (String c1 (String c2 (String c3 ""))) t); [done|].
    all: split; [all_high|done|lia|by apply encode_four; try lia|intros; by apply decode_four; lia].
  - unfold DecodeRune. rewrite (proj2 (Z.ltb_ge _ _)), H2, H3, H4 by lia. constructor.
Qed.

Lemma length_append s t : String.length (s +:+ t) = String.length s + String.length t.
Proof. induction s as [|c s IH]; [done|exact (f_equal S IH)]. Qed.

(** Induction over the runes of a string. *)
Lemma rune_ind (P : string → Prop) :
  P "" →
  (∀ c s, DecodeRune c s = (RuneError, 1) → P s → P (String c s)) →
  (∀ c s, is_ascii c → P s → P (String c s)) →
  (∀ c raw rest r, multi c raw r → P rest → P (String c (raw +:+ rest))) →
  ∀ s, P s.
Proof.
  intros H0 Hi Ha Hm s. remember (String.length s) as n eqn:Hn. revert s Hn.
  induction (lt_wf n) as [n _ IH]. intros [|c s] ->; [done|].
  destruct (DecodeRune c s) as [r w] eqn:Hd. pose proof (DecodeRune_view c s) as Hv.
  rewrite Hd in Hv. cbn [fst snd] in Hv. destruct Hv as [|Hc|raw rest r -> Hr].
  - apply Hi; [done|]. by eapply IH; [|reflexivity]; cbn; lia.
  - apply Ha; [done|]. by eapply IH; [|reflexivity]; cbn; lia.
  - apply (Hm c raw rest r); [done|]. eapply (IH (String.length rest)); [|done]. cbn [String.length]. rewrite length_append. lia.
Qed.

(** ** Runes and their encoding *)
Lemma runes_skip raw rest : runes_from (String.length raw) (raw +:+ rest) = runes rest.
Proof. by induction raw as [|c raw IH]. Qed.
Lemma runes_multi c raw rest r : multi c raw r → runes (String c (raw +:+ rest)) = r :: runes rest.
Proof.
  intros Hm. unfold runes at 1. cbn [runes_from]. rewrite (multi_decode c raw r Hm). cbn [Nat.sub].
  by rewrite Nat.sub_0_r, runes_skip.
Qed.
Lemma runes_one c s r : DecodeRune c s = (r, 1) → runes (String c s) = r :: runes s.
Proof. intros Hd. unfold runes at 1. cbn [runes_from]. by rewrite Hd. Qed.

Lemma join_empty_cons x l : strings.Join (x :: l) "" = x +:+ strings.Join l "".
Proof. destruct l; cbn; [by rewrite str_app_nil_r|done]. Qed.
Lemma encode_runes_cons r rs : encode_runes (r :: rs) = EncodeRune r +:+ encode_runes rs.
Proof. apply join_empty_cons. Qed.

Lemma EncodeRune_ascii c : is_ascii c → EncodeRune (byte_val c) = String c "".
Proof.
  intros Hc. unfold EncodeRune. pose proof (byte_val_bounds c).
  rewrite (proj2 (in_range_true 0 127 (byte_val c))) by (unfold is_ascii in Hc; lia).
  by rewrite chr_byte_val.
Qed.

Lemma to_valid_invalid c s : DecodeRune c s = (RuneError, 1) →
  to_valid (String c s) = EncodeRune RuneError +:+ to_valid s.
Proof. intros Hd. unfold to_valid. by rewrite (runes_one _ _ _ Hd), encode_runes_cons. Qed.
Lemma to_valid_ascii c s : is_ascii c → to_valid (String c s) = String c (to_valid s).
Proof.
  intros Hc. unfold to_valid. rewrite (runes_one _ _ _ (DecodeRune_ascii c s Hc)), encode_runes_cons.
  by rewrite EncodeRune_ascii.
Qed.
Lemma to_valid_multi c raw rest r : multi c raw r →
  to_valid (String c (raw +:+ rest)) = String c (raw +:+ to_valid rest).
Proof.
  intros Hm. unfold to_valid. rewrite (runes_multi c raw rest r Hm), encode_runes_cons.
  by rewrite (multi_encode c raw r Hm).
Qed.
