(* ===== verification/GoJson.v ===== *)
(** What the program uses of [encoding/json]: the indented text of strings,
    slices of strings and maps of strings. *)
From S2P Require Import Prelude GoStd Errors.

Module json.
Definition newline_indent (depth : nat) : string :=
  newline +:+ strings.Join (replicate depth "  ") "".

(** One rune of a string; [raw] is its bytes.  HTML characters are escaped. *)
Definition escape_rune (r : Z) (w : nat) (raw : string) : string :=
  let short (c : ascii) := String "\"%char (String c "") in
  let long (width_digits : string) := String "\"%char (String "u"%char width_digits) in
  if (128 <=? r)%Z then
    if (r =? RuneError)%Z && bool_decide (w = 1) then long "fffd"
    else if (r =? 8232)%Z || (r =? 8233)%Z then long (hex_digits 4 r)
    else raw
  else if (r =? 34)%Z || (r =? 92)%Z then String "\"%char raw
  else if (r =? 8)%Z then short "b"%char
  else if (r =? 12)%Z then short "f"%char
  else if (r =? 10)%Z then short "n"%char
  else if (r =? 13)%Z then short "r"%char
  else if (r =? 9)%Z then short "t"%char
  else if (r <? 32)%Z || (r =? 60)%Z || (r =? 62)%Z || (r =? 38)%Z then long (hex_digits 4 r)
  else raw.

Fixpoint escape_from (skip : nat) (s : string) : string :=
  match s with
  | EmptyString => ""
  | String c s' =>
      match skip with
      | S k => escape_from k s'
      | O => let '(r, w) := DecodeRune c s' in
             escape_rune r w (take_bytes w s) +:+ escape_from (w - 1) s'
      end
  end.

Definition string_text (s : string) : string := dquote +:+ escape_from 0 s +:+ dquote.

(** The items of an array or an object whose closing bracket is at [depth]. *)
Definition bracket (opening closing : string) (depth : nat) (items : list string) : string :=
  match items with
  | [] => opening +:+ closing
  | _ =>
      opening +:+ newline_indent (S depth) +:+
      strings.Join items ("," +:+ newline_indent (S depth)) +:+
      newline_indent depth +:+ closing
  end.

Definition strings_text (depth : nat) (l : list string) : string :=
  bracket "[" "]" depth (string_text <$> l).

(** A member of an object, with its separator. *)
Definition member (key value : string) : string := string_text key +:+ ": " +:+ value.

Definition key_before (p q : string * string) : Prop := String.leb p.1 q.1 = true.
Global Instance key_before_dec : RelDecision key_before.
Proof. intros p q. unfold key_before. apply _. Defined.

(** The keys of a map are sorted. *)
Definition map_text (depth : nat) (m : gmap string string) : string :=
  bracket "{" "}" depth
    ((λ kv, member kv.1 (string_text kv.2)) <$> merge_sort key_before (map_to_list m)).
End json.
