(* ===== verification/JsonDecode.v ===== *)
(** What the program uses of [json.Unmarshal]: the scanner of [encoding/json], a
    machine with a stack that takes one byte at a time, with the values it
    recognises.  [GoJson] is what it reads back. *)
From S2P Require Import Prelude GoStd Errors Utf8 GoJson.

Module scanner.
Inductive value :=
| JNull
| JBool (b : bool)
| JNumber (text : string)
| JString (s : string)
| JArray (items : list value)
| JObject (members : list (string * value)).

(** An open array or object, with what it has so far: before a key, or at the value
    of a key. *)
Inductive frame :=
| InArray (items : list value)
| AtKey (members : list (string * value))
| AtValue (members : list (string * value)) (key : string).

(** The step functions of the scanner (state1 is [Digits], state0 [Zero], stateDot0
    [Fraction], stateE0 [ExponentDigits]); [acc] is the text so far, last byte first. *)
Inductive mode :=
| BeginValue
| BeginValueOrEmpty
| BeginString
| BeginStringOrEmpty
| InString (acc : list ascii)
| InStringEsc (acc : list ascii)
| InStringEscU (left_digits : nat) (acc : list ascii)
| Word (expected : string) (v : value)
| Minus (acc : list ascii)
| Digits (acc : list ascii)
| Zero (acc : list ascii)
| Dot (acc : list ascii)
| Fraction (acc : list ascii)
| Exponent (acc : list ascii)
| ExponentSign (acc : list ascii)
| ExponentDigits (acc : list ascii)
| EndValue (v : value).

Definition code (c : ascii) : Z := byte_val c.
Definition isSpace (c : ascii) : bool :=
  (code c =? 32)%Z || (code c =? 9)%Z || (code c =? 13)%Z || (code c =? 10)%Z.
Definition isDigit (c : ascii) : bool := in_range 48 57 (code c).
Definition hex_value (c : ascii) : option Z :=
  if isDigit c then Some (code c - 48)%Z
  else if in_range 97 102 (code c) then Some (code c - 87)%Z
  else if in_range 65 70 (code c) then Some (code c - 55)%Z
  else None.

(** ** [unquote]: the text between the quotes of a scanned string *)
Definition getu4 (s : string) : option Z :=
  match s with
  | String b (String u (String h1 (String h2 (String h3 (String h4 _))))) =>
      if bool_decide (b = "\"%char) && bool_decide (u = "u"%char) then
        d1 ← hex_value h1; d2 ← hex_value h2; d3 ← hex_value h3; d4 ← hex_value h4;
        Some (((d1 * 16 + d2) * 16 + d3) * 16 + d4)%Z
      else None
  | _ => None
  end.
Fixpoint drop_bytes (n : nat) (s : string) : string :=
  match n, s with S k, String _ s' => drop_bytes k s' | _, _ => s end.

Definition escaped_char (e : ascii) : ascii :=
  if bool_decide (e = "b"%char) then chr 8
  else if bool_decide (e = "f"%char) then chr 12
  else if bool_decide (e = "n"%char) then chr 10
  else if bool_decide (e = "r"%char) then chr 13
  else if bool_decide (e = "t"%char) then chr 9
  else e.

(** What is written and how many more bytes it takes, at a byte and those after. *)
Definition unquote_at (c : ascii) (s : string) : string * nat :=
  if bool_decide (c = "\"%char) then
    match s with
    | String e _ =>
        if bool_decide (e = "u"%char) then
          match getu4 (String c s) with
          | Some rr =>
              if IsSurrogate rr then
                let dec := DecodeSurrogates rr (default (-1)%Z (getu4 (drop_bytes 5 s))) in
                if (dec =? RuneError)%Z then (EncodeRune RuneError, 5) else (EncodeRune dec, 11)
              else (EncodeRune rr, 5)
          | None => ("", 0)
          end
        else (String (escaped_char e) "", 1)
    | EmptyString => ("", 0)
    end
  else if (code c <? 128)%Z then (String c "", 0)
  else let '(rr, size) := DecodeRune c s in (EncodeRune rr, size - 1).

Fixpoint unquote_from (skip : nat) (s : string) : string :=
  match s with
  | EmptyString => ""
  | String c s' =>
      match skip with
      | S k => unquote_from k s'
      | O => let '(out, n) := unquote_at c s' in out +:+ unquote_from n s'
      end
  end.
Definition unquote : string → string := unquote_from 0.

(** ** The steps *)
Definition state : Type := mode * list frame.
Definition text_of (acc : list ascii) : string := string_of_chars (reverse acc).
Definition maxNestingDepth : nat := Z.to_nat 10000.

Definition push (m : mode) (f : frame) (st : list frame) : option state :=
  if decide (length (f :: st) ≤ maxNestingDepth) then Some (m, f :: st) else None.

Definition stateEndValue (v : value) (st : list frame) (c : ascii) : option state :=
  if isSpace c then Some (EndValue v, st)
  else
    match st with
    | [] => None
    | AtKey members :: st' =>
        match v with
        | JString key => if bool_decide (c = ":"%char) then Some (BeginValue, AtValue members key :: st') else None
        | _ => None
        end
    | AtValue members key :: st' =>
        let members := members ++ [(key, v)] in
        if bool_decide (c = ","%char) then Some (BeginString, AtKey members :: st')
        else if bool_decide (c = "}"%char) then Some (EndValue (JObject members), st')
        else None
    | InArray items :: st' =>
        let items := items ++ [v] in
        if bool_decide (c = ","%char) then Some (BeginValue, InArray items :: st')
        else if bool_decide (c = "]"%char) then Some (EndValue (JArray items), st')
        else None
    end.

Definition stateBeginValue (st : list frame) (c : ascii) : option state :=
  if isSpace c then Some (BeginValue, st)
  else if bool_decide (c = "{"%char) then push BeginStringOrEmpty (AtKey []) st
  else if bool_decide (c = "["%char) then push BeginValueOrEmpty (InArray []) st
  else if (code c =? 34)%Z then Some (InString [], st)
  else if bool_decide (c = "-"%char) then Some (Minus [c], st)
  else if bool_decide (c = "0"%char) then Some (Zero [c], st)
  else if bool_decide (c = "t"%char) then Some (Word "rue" (JBool true), st)
  else if bool_decide (c = "f"%char) then Some (Word "alse" (JBool false), st)
  else if bool_decide (c = "n"%char) then Some (Word "ull" JNull, st)
  else if isDigit c then Some (Digits [c], st)
  else None.

Definition stateBeginString (st : list frame) (c : ascii) : option state :=
  if isSpace c then Some (BeginString, st)
  else if (code c =? 34)%Z then Some (InString [], st)
  else None.

(** After the whole part, and after the number. *)
Definition number_done (acc : list ascii) (st : list frame) (c : ascii) : option state :=
  stateEndValue (JNumber (text_of acc)) st c.
Definition isExponent (c : ascii) : bool := bool_decide (c = "e"%char) || bool_decide (c = "E"%char).
Definition state0 (acc : list ascii) (st : list frame) (c : ascii) : option state :=
  if bool_decide (c = "."%char) then Some (Dot (c :: acc), st)
  else if isExponent c then Some (Exponent (c :: acc), st)
  else number_done acc st c.

Definition step (s : state) (c : ascii) : option state :=
  let '(m, st) := s in
  match m with
  | BeginValue => stateBeginValue st c
  | BeginValueOrEmpty =>
      if isSpace c then Some (BeginValueOrEmpty, st)
      else if bool_decide (c = "]"%char) then Some (EndValue (JArray []), tail st)
      else stateBeginValue st c
  | BeginString => stateBeginString st c
  | BeginStringOrEmpty =>
      if isSpace c then Some (BeginStringOrEmpty, st)
      else if bool_decide (c = "}"%char) then Some (EndValue (JObject []), tail st)
      else stateBeginString st c
  | InString acc =>
      if (code c =? 34)%Z then Some (EndValue (JString (unquote (text_of acc))), st)
      else if bool_decide (c = "\"%char) then Some (InStringEsc (c :: acc), st)
      else if (code c <? 32)%Z then None
      else Some (InString (c :: acc), st)
  | InStringEsc acc =>
      if bool_decide (c = "u"%char) then Some (InStringEscU 3 (c :: acc), st)
      else if bool_decide (c ∈ ["b"; "f"; "n"; "r"; "t"; "\"; "/"]%char) || (code c =? 34)%Z
      then Some (InString (c :: acc), st)
      else None
  | InStringEscU k acc =>
      match hex_value c, k with
      | None, _ => None
      | Some _, O => Some (InString (c :: acc), st)
      | Some _, S k' => Some (InStringEscU k' (c :: acc), st)
      end
  | Word (String e rest) v =>
      if bool_decide (c = e) then
        Some (match rest with EmptyString => EndValue v | _ => Word rest v end, st)
      else None
  | Word EmptyString v => None
  | Minus acc =>
      if bool_decide (c = "0"%char) then Some (Zero (c :: acc), st)
      else if isDigit c then Some (Digits (c :: acc), st)
      else None
  | Digits acc => if isDigit c then Some (Digits (c :: acc), st) else state0 acc st c
  | Zero acc => state0 acc st c
  | Dot acc => if isDigit c then Some (Fraction (c :: acc), st) else None
  | Fraction acc =>
      if isDigit c then Some (Fraction (c :: acc), st)
      else if isExponent c then Some (Exponent (c :: acc), st)
      else number_done acc st c
  | Exponent acc =>
      if bool_decide (c = "+"%char) || bool_decide (c = "-"%char) then Some (ExponentSign (c :: acc), st)
      else if isDigit c then Some (ExponentDigits (c :: acc), st)
      else None
  | ExponentSign acc => if isDigit c then Some (ExponentDigits (c :: acc), st) else None
  | ExponentDigits acc =>
      if isDigit c then Some (ExponentDigits (c :: acc), st) else number_done acc st c
  | EndValue v => stateEndValue v st c
  end.

Fixpoint scan (m : state) (s : string) : option state :=
  match s with
  | EmptyString => Some m
  | String c s' => m' ← step m c; scan m' s'
  end.

(** [checkValid], and the value: the end of the text is a space to the scanner. *)
Definition parse (s : string) : option value :=
  match scan (BeginValue, []) (s +:+ " ") with
  | Some (EndValue v, []) => Some v
  | _ => None
  end.
End scanner.

(** * What [GoJson] writes is read back *)
Module scanner_facts.
Import scanner json.

Lemma scan_app m s t : scan m (s +:+ t) = scan m s ≫= λ m', scan m' t.
Proof.
  revert m. induction s as [|c s IH]; intros m; [done|].
  change (scan m (String c s +:+ t)) with (step m c ≫= λ m', scan m' (s +:+ t)). cbn [scan].
  destruct (step m c); [apply IH|done].
Qed.

(** ** Strings *)

(** A piece of the inside of a string: it is passed over, and unquoted to [out]. *)
Definition piece (p out : string) : Prop :=
  (∀ acc st, scan (InString acc, st) p = Some (InString (reverse (chars p) ++ acc), st)) ∧
  (∀ rest, unquote (p +:+ rest) = out +:+ unquote rest).

Lemma escape_piece_ascii c : is_ascii c → piece (escape_rune (byte_val c) 1 (String c "")) (String c "").
Proof.
  intros Hc. split.
  - intros acc st. destruct c as [[] [] [] [] [] [] [] []];
      first [vm_compute in Hc; discriminate | reflexivity].
  - intros rest. destruct c as [[] [] [] [] [] [] [] []];
      first [vm_compute in Hc; discriminate | reflexivity].
Qed.

Lemma escape_piece_invalid c : piece (escape_rune RuneError 1 (String c "")) (EncodeRune RuneError).
Proof. split; [intros acc st|intros rest]; reflexivity. Qed.

Lemma piece_app p q out out' : piece p out → piece q out' → piece (p +:+ q) (out +:+ out').
Proof.
  intros [Hp1 Hp2] [Hq1 Hq2]. split.
  - intros acc st. rewrite scan_app, Hp1. cbn [mbind option_bind]. rewrite Hq1.
    by rewrite chars_app, reverse_app, (assoc_L (++)).
  - intros rest. by rewrite !str_app_assoc, Hp2, Hq2.
Qed.

Lemma unquote_String c s :
  unquote (String c s) = let '(out, n) := unquote_at c s in out +:+ unquote_from n s.
Proof. done. Qed.
Lemma unquote_skip raw rest : unquote_from (String.length raw) (raw +:+ rest) = unquote rest.
Proof. by induction raw as [|c raw IH]. Qed.

Lemma scan_high s acc st : Forall high (chars s) →
  scan (InString acc, st) s = Some (InString (reverse (chars s) ++ acc), st).
Proof.
  revert acc. induction s as [|c s IH]; intros acc Hs; [done|].
  apply Forall_cons in Hs as [Hc Hs]. unfold high in Hc.
  assert (step (InString acc, st) c = Some (InString (c :: acc), st)) as Hstep.
  { cbn [step]. unfold code.
    rewrite (proj2 (Z.eqb_neq _ _)), bool_decide_false, (proj2 (Z.ltb_ge _ _)); [done|lia| |lia].
    intros ->. by vm_compute in Hc. }
  cbn [scan chars]. rewrite Hstep. cbn [mbind option_bind]. rewrite IH by done.
  by rewrite reverse_cons, <- (assoc_L (++)).
Qed.

Lemma escape_piece_multi c raw r : multi c raw r →
  piece (escape_rune r (S (String.length raw)) (String c raw)) (String c raw).
Proof.
  intros Hm. pose proof (multi_rune c raw r Hm) as Hr. unfold escape_rune.
  rewrite (proj2 (Z.leb_le 128 r)) by done.
  rewrite (bool_decide_false (S (String.length raw) = 1))
    by (pose proof (multi_more c raw r Hm); by destruct raw).
  rewrite andb_false_r. destruct ((r =? 8232)%Z || (r =? 8233)%Z) eqn:Hsep.
  - rewrite <- (multi_encode c raw r Hm). apply orb_true_iff in Hsep as [->%Z.eqb_eq| ->%Z.eqb_eq];
      split; intros; reflexivity.
  - split; [intros acc st; apply scan_high, (multi_high c raw r Hm)|]. intros rest.
    change (String c raw +:+ rest) with (String c (raw +:+ rest)). rewrite unquote_String.
    pose proof (multi_high c raw r Hm) as [Hc _]%Forall_cons. unfold high in Hc.
    unfold unquote_at, code. rewrite bool_decide_false by (intros ->; by vm_compute in Hc).
    rewrite (proj2 (Z.ltb_ge _ _)) by done.
    rewrite (multi_decode c raw r Hm). cbn [Nat.sub].
    by rewrite Nat.sub_0_r, unquote_skip, (multi_encode c raw r Hm).
Qed.

Lemma escape_skip raw rest : escape_from (String.length raw) (raw +:+ rest) = escape_from 0 rest.
Proof. by induction raw as [|c raw IH]. Qed.
Lemma take_bytes_app raw rest : take_bytes (String.length raw) (raw +:+ rest) = raw.
Proof. induction raw as [|c raw IH]; [by destruct rest|]. exact (f_equal (String c) IH). Qed.

(** The inside of a string as it is written. *)
Lemma escape_from_piece s : piece (escape_from 0 s) (to_valid s).
Proof.
  induction s as [|c s Hd IH|c s Hc IH|c raw rest r Hm IH] using rune_ind.
  - split; intros; reflexivity.
  - cbn [escape_from]. rewrite Hd, to_valid_invalid by done. cbn [Nat.sub].
    apply piece_app; [apply escape_piece_invalid|done].
  - cbn [escape_from]. rewrite DecodeRune_ascii, to_valid_ascii by done. cbn [Nat.sub].
    apply (piece_app _ _ (String c "")); [by apply escape_piece_ascii|done].
  - rewrite (to_valid_multi c raw rest r) by done. cbn [escape_from].
    rewrite (multi_decode c raw r Hm). cbn [Nat.sub]. rewrite Nat.sub_0_r, escape_skip.
    cbn [take_bytes]. rewrite take_bytes_app.
    apply (piece_app _ _ (String c raw)); [by apply escape_piece_multi|done].
Qed.

Lemma unquote_escape s : unquote (escape_from 0 s) = to_valid s.
Proof.
  pose proof (proj2 (escape_from_piece s) "") as H. change (unquote "") with "" in H.
  by rewrite !str_app_nil_r in H.
Qed.

(** ** Values *)

(** [text] is read as [v], which nests [n] deep, wherever a value may begin. *)
Definition reads (n : nat) (text : string) (v : value) : Prop :=
  (∃ c t, text = String c t ∧ isSpace c = false ∧ c ≠ "]"%char) ∧
  ∀ st rest, length st + n ≤ maxNestingDepth →
    scan (BeginValue, st) (text +:+ rest) = scan (EndValue v, st) rest.

Lemma text_of_chars s : text_of (reverse (chars s) ++ []) = s.
Proof. unfold text_of. by rewrite app_nil_r, reverse_involutive, string_of_chars_chars. Qed.

Lemma string_text_cons s : string_text s = String (chr 34) (escape_from 0 s +:+ dquote).
Proof. done. Qed.

Lemma scan_string acc s st rest :
  scan (InString acc, st) (escape_from 0 s +:+ dquote +:+ rest) =
    scan (EndValue (JString (unquote (text_of (reverse (chars (escape_from 0 s)) ++ acc)))), st) rest.
Proof. by rewrite scan_app, (proj1 (escape_from_piece s)). Qed.

Lemma scan_string_text m st s rest :
  m = BeginValue ∨ m = BeginValueOrEmpty ∨ m = BeginString ∨ m = BeginStringOrEmpty →
  scan (m, st) (string_text s +:+ rest) = scan (EndValue (JString (to_valid s)), st) rest.
Proof.
  intros Hm. rewrite string_text_cons.
  change (String (chr 34) (escape_from 0 s +:+ dquote) +:+ rest)
    with (String (chr 34) ((escape_from 0 s +:+ dquote) +:+ rest)).
  rewrite str_app_assoc. cbn [scan].
  assert (step (m, st) (chr 34) = Some (InString [], st)) as -> by (by destruct_or! Hm; subst).
  cbn [mbind option_bind]. by rewrite scan_string, text_of_chars, unquote_escape.
Qed.

Lemma reads_string s : reads 0 (string_text s) (JString (to_valid s)).
Proof. split; [rewrite string_text_cons; by eexists _, _|]. intros st rest _. apply scan_string_text. tauto. Qed.

(** The space between tokens is passed over. *)
Definition spaced (m : mode) : bool :=
  match m with
  | BeginValue | BeginValueOrEmpty | BeginString | BeginStringOrEmpty | EndValue _ => true
  | _ => false
  end.
Lemma scan_space m st c : spaced m = true → isSpace c = true → step (m, st) c = Some (m, st).
Proof.
  intros Hm Hc. destruct m; try done; cbn [step];
    unfold stateBeginValue, stateBeginString, stateEndValue; by rewrite Hc.
Qed.
Lemma scan_spaces m st s t : spaced m = true → Forall (λ c, isSpace c = true) (chars s) →
  scan (m, st) (s +:+ t) = scan (m, st) t.
Proof.
  intros Hm. induction s as [|c s IH]; [done|]. intros [Hc Hs]%Forall_cons.
  change (scan (m, st) (String c s +:+ t)) with (step (m, st) c ≫= λ m', scan m' (s +:+ t)).
  rewrite scan_space by done. by apply IH.
Qed.
Lemma newline_indent_spaces depth : Forall (λ c, isSpace c = true) (chars (newline_indent depth)).
Proof.
  unfold newline_indent. rewrite chars_app. apply Forall_app. split; [by repeat constructor|].
  induction depth as [|d IH]; [by constructor|]. cbn [replicate]. rewrite join_empty_cons, chars_app.
  apply Forall_app. split; [by repeat constructor|done].
Qed.

(** Where a value, or a key, may be missing it is read as where it may not. *)
Lemma scan_value_or_empty st c t : isSpace c = false → c ≠ "]"%char →
  scan (BeginValueOrEmpty, st) (String c t) = scan (BeginValue, st) (String c t).
Proof. intros Hs Hc. cbn [scan step]. by rewrite Hs, bool_decide_false. Qed.
Lemma join_cons_starts t ts sep rest : ∃ s, strings.Join (t :: ts) sep +:+ rest = t +:+ s.
Proof.
  destruct ts as [|t' ts]; [by eexists|]. cbn [strings.Join]. rewrite !str_app_assoc. by eexists.
Qed.

(** ** Arrays *)
Lemma scan_items n d1 d2 texts vs : Forall2 (reads n) texts vs → texts ≠ [] → ∀ items st rest,
  S (length st) + n ≤ maxNestingDepth →
  scan (BeginValue, InArray items :: st)
    (strings.Join texts ("," +:+ newline_indent d1) +:+ newline_indent d2 +:+ "]" +:+ rest) =
  scan (EndValue (JArray (items ++ vs)), st) rest.
Proof.
  intros Hr. induction Hr as [|t v ts vs Ht Hts IH]; [done|]. intros _ items st rest Hn.
  destruct Ht as [_ Ht]. destruct ts as [|t' ts].
  - inversion Hts; subst. cbn [strings.Join]. rewrite Ht by done.
    rewrite scan_spaces by (done || apply newline_indent_spaces). reflexivity.
  - change (strings.Join (t :: t' :: ts) ("," +:+ newline_indent d1))
      with (t +:+ ("," +:+ newline_indent d1) +:+ strings.Join (t' :: ts) ("," +:+ newline_indent d1)).
    rewrite !str_app_assoc, Ht by done.
    transitivity (scan (BeginValue, InArray (items ++ [v]) :: st)
      (newline_indent d1 +:+ strings.Join (t' :: ts) ("," +:+ newline_indent d1) +:+
       newline_indent d2 +:+ "]" +:+ rest)); [reflexivity|].
    rewrite scan_spaces by (done || apply newline_indent_spaces).
    rewrite IH by done. by rewrite <- (assoc_L (++)).
Qed.

Lemma reads_bracketed opening closing depth texts :
  texts ≠ [] → bracket opening closing depth texts =
    opening +:+ newline_indent (S depth) +:+
    strings.Join texts ("," +:+ newline_indent (S depth)) +:+ newline_indent depth +:+ closing.
Proof. by destruct texts. Qed.

Lemma reads_array n depth texts vs :
  Forall2 (reads n) texts vs → reads (S n) (bracket "[" "]" depth texts) (JArray vs).
Proof.
  intros Hr. split; [by destruct Hr; eexists _, _|]. intros st rest Hn.
  assert (∀ s, scan (BeginValue, st) ("[" +:+ s) = scan (BeginValueOrEmpty, InArray [] :: st) s) as Hopen.
  { intros s. change ("[" +:+ s) with (String "[" s). cbn [scan].
    change (step (BeginValue, st) "[") with (push BeginValueOrEmpty (InArray []) st).
    unfold push. by rewrite decide_True by (cbn [length]; lia). }
  destruct texts as [|t texts].
  - inversion Hr; subst. cbn [bracket]. rewrite str_app_assoc, Hopen. reflexivity.
  - rewrite reads_bracketed, !str_app_assoc, Hopen by done.
    rewrite scan_spaces by (done || apply newline_indent_spaces).
    change (JArray vs) with (JArray ([] ++ vs)).
    rewrite <- (scan_items n (S depth) depth (t :: texts) vs Hr) by (done || lia).
    destruct (join_cons_starts t texts ("," +:+ newline_indent (S depth))
                (newline_indent depth +:+ "]" +:+ rest)) as [s ->].
    inversion Hr as [|? v ? ? [(c & t' & -> & Hs & Hc) _]]; subst. by apply scan_value_or_empty.
Qed.

(** ** Objects *)
Definition reads_member (n : nat) (text : string) (kv : string * value) : Prop :=
  ∃ key vtext, text = member key vtext ∧ kv.1 = to_valid key ∧ reads n vtext kv.2.

Lemma scan_member n m text kv members st rest :
  m = BeginString ∨ m = BeginStringOrEmpty → reads_member n text kv → S (length st) + n ≤ maxNestingDepth →
  scan (m, AtKey members :: st) (text +:+ rest) = scan (EndValue kv.2, AtValue members kv.1 :: st) rest.
Proof.
  intros Hm (key & vtext & -> & Hk & _ & Hv) Hn. unfold member. rewrite !str_app_assoc.
  rewrite scan_string_text by tauto. rewrite <- Hk, <- Hv by done. reflexivity.
Qed.

Lemma scan_members n d1 d2 texts kvs : Forall2 (reads_member n) texts kvs → texts ≠ [] →
  ∀ m members st rest,
  m = BeginString ∨ m = BeginStringOrEmpty → S (length st) + n ≤ maxNestingDepth →
  scan (m, AtKey members :: st)
    (strings.Join texts ("," +:+ newline_indent d1) +:+ newline_indent d2 +:+ "}" +:+ rest) =
  scan (EndValue (JObject (members ++ kvs)), st) rest.
Proof.
  intros Hr. induction Hr as [|t kv ts kvs Ht Hts IH]; [done|]. intros _ m members st rest Hm Hn.
  destruct ts as [|t' ts].
  - inversion Hts; subst. cbn [strings.Join]. rewrite (scan_member n m t kv) by done.
    rewrite scan_spaces by (done || apply newline_indent_spaces). by destruct kv.
  - change (strings.Join (t :: t' :: ts) ("," +:+ newline_indent d1))
      with (t +:+ ("," +:+ newline_indent d1) +:+ strings.Join (t' :: ts) ("," +:+ newline_indent d1)).
    rewrite !str_app_assoc, (scan_member n m t kv) by done.
    transitivity (scan (BeginString, AtKey (members ++ [kv]) :: st)
      (newline_indent d1 +:+ strings.Join (t' :: ts) ("," +:+ newline_indent d1) +:+
       newline_indent d2 +:+ "}" +:+ rest)); [by destruct kv|].
    rewrite scan_spaces by (done || apply newline_indent_spaces).
    rewrite IH by (done || by left). by rewrite <- (assoc_L (++)).
Qed.

Lemma reads_object n depth texts kvs :
  Forall2 (reads_member n) texts kvs → reads (S n) (bracket "{" "}" depth texts) (JObject kvs).
Proof.
  intros Hr. split; [by destruct Hr; eexists _, _|]. intros st rest Hn.
  assert (∀ s, scan (BeginValue, st) ("{" +:+ s) = scan (BeginStringOrEmpty, AtKey [] :: st) s) as Hopen.
  { intros s. change ("{" +:+ s) with (String "{" s). cbn [scan].
    change (step (BeginValue, st) "{") with (push BeginStringOrEmpty (AtKey []) st).
    unfold push. by rewrite decide_True by (cbn [length]; lia). }
  destruct texts as [|t texts].
  - inversion Hr; subst. cbn [bracket]. rewrite str_app_assoc, Hopen. reflexivity.
  - rewrite reads_bracketed, !str_app_assoc, Hopen by done.
    rewrite scan_spaces by (done || apply newline_indent_spaces).
    by rewrite (scan_members n _ _ _ kvs Hr) by (done || lia || by right).
Qed.

(** A whole text. *)
Lemma parse_reads n text v : reads n text v → n ≤ maxNestingDepth → parse text = Some v.
Proof. intros [_ Hr] Hn. unfold parse. by rewrite Hr. Qed.
End scanner_facts.

(** * Values into variables ([decodeState]) *)
Module unmarshal.
Import scanner.

(** The errors: of the text, or of the first value that does not fit, with the kind
    the library names it by.  What their messages say is left to the library. *)
Inductive json_error := SyntaxError | UnmarshalTypeError (kind : string).
Class JsonErrors := json_error_text : json_error → string.

Definition kind_of (v : value) : string :=
  match v with
  | JNull => "null"
  | JBool _ => "bool"
  | JNumber n => "number " +:+ n
  | JString _ => "string"
  | JArray _ => "array"
  | JObject _ => "object"
  end.
Definition mismatch {A} (v : value) : json_error + A := inl (UnmarshalTypeError (kind_of v)).

(** A string variable: null leaves it as it is. *)
Definition decode_string (v : value) (old : string) : json_error + string :=
  match v with
  | JString s => inr s
  | JNull => inr old
  | _ => mismatch v
  end.

(** A slice with what its array holds beyond its length, which growing it shows. *)
Record buffer (T : Type) := mkBuffer { visible : list T; hidden : list T }.
Global Arguments mkBuffer {T}.
Global Arguments visible {T}.
Global Arguments hidden {T}.
Definition nil_buffer {T} : buffer T := mkBuffer [] [].

Section Slice.
Context {T : Type} (zero : T) (decode : value → T → json_error + T).

(** The items, into what is there and then into zero values. *)
Fixpoint decode_items (items : list value) (old : list T) : json_error + list T :=
  match items with
  | [] => inr []
  | v :: items' =>
      match decode v (default zero (head old)) with
      | inl e => inl e
      | inr x => match decode_items items' (tail old) with inl e => inl e | inr xs => inr (x :: xs) end
      end
  end.

Definition decode_slice (v : value) (old : buffer T) : json_error + buffer T :=
  match v with
  | JNull => inr nil_buffer
  | JArray [] => inr nil_buffer
  | JArray items =>
      let array := visible old ++ hidden old in
      match decode_items items array with
      | inl e => inl e
      | inr xs => inr (mkBuffer xs (drop (length items) array))
      end
  | _ => mismatch v
  end.
End Slice.

(** A map from strings to strings: members are added, a null one as the empty
    string; a nil map is an empty one here. *)
Fixpoint decode_entries (members : list (string * value)) (m : gmap string string) :
    json_error + gmap string string :=
  match members with
  | [] => inr m
  | (key, v) :: members' =>
      match decode_string v "" with
      | inl e => inl e
      | inr x => decode_entries members' (<[key := x]> m)
      end
  end.
Definition decode_map (v : value) (old : gmap string string) : json_error + gmap string string :=
  match v with
  | JNull => inr ∅
  | JObject members => decode_entries members old
  | _ => mismatch v
  end.

(** [foldName]: the names of fields are compared by their folded runes.  Only the
    long s and the Kelvin sign fold to an ASCII letter. *)
Definition foldRune (r : Z) : Z :=
  if in_range 97 122 r then (r - 32)%Z
  else if (r =? 383)%Z then 83%Z
  else if (r =? 8490)%Z then 75%Z
  else r.
Definition foldName (s : string) : list Z := foldRune <$> runes s.
Definition names (key field : string) : bool :=
  bool_decide (key = field) || bool_decide (foldName key = foldName field).

(** The members of a struct, each into the field of its name, if any. *)
Section Struct.
Context {T : Type} (field : string → option (value → T → json_error + T)).
Fixpoint decode_fields (members : list (string * value)) (t : T) : json_error + T :=
  match members with
  | [] => inr t
  | (key, v) :: members' =>
      match match field key with Some decode => decode v t | None => inr t end with
      | inl e => inl e
      | inr t' => decode_fields members' t'
      end
  end.
Definition decode_struct (v : value) (t : T) : json_error + T :=
  match v with
  | JNull => inr t
  | JObject members => decode_fields members t
  | _ => mismatch v
  end.
End Struct.

(** ** What valid strings are read as *)
Lemma decode_strings ss : ∀ old, decode_items "" decode_string (JString <$> ss) old = inr ss.
Proof. induction ss as [|s ss IH]; intros old; [done|]. cbn [fmap list_fmap decode_items decode_string]. by rewrite IH. Qed.

Lemma decode_slice_fresh {T} (zero : T) decode items xs :
  decode_items zero decode items [] = inr xs →
  ∃ b, decode_slice zero decode (JArray items) nil_buffer = inr b ∧ visible b = xs.
Proof.
  destruct items as [|v items]; intros Hd.
  - injection Hd as <-. by exists nil_buffer.
  - unfold decode_slice. cbn [nil_buffer visible hidden app]. rewrite Hd. by eexists.
Qed.

Lemma decode_entries_list kvs : ∀ m,
  NoDup kvs.*1 → (∀ k, k ∈ kvs.*1 → m !! k = None) →
  decode_entries (prod_map id JString <$> kvs) m = inr (list_to_map kvs ∪ m).
Proof.
  induction kvs as [|[k v] kvs IH]; intros m Hnd Hm.
  - cbn. by rewrite (left_id_L ∅ (∪)).
  - apply NoDup_cons in Hnd as [Hk Hnd]. cbn [fmap list_fmap prod_map fst snd decode_entries decode_string id].
    rewrite IH; [|done|].
    + rewrite list_to_map_cons. f_equal.
      rewrite <- insert_union_r by (by apply not_elem_of_list_to_map_1). by rewrite insert_union_l.
    + intros k' Hk'. rewrite lookup_insert_ne by (intros ->; done). apply Hm. by right.
Qed.
End unmarshal.
