(* ===== verification/Paths.v ===== *)
(** Facts on cleaned paths: a cleaned path is a list of elements, with or
    without a root, so that joining, cleaning and walking are list operations. *)
From S2P Require Import Prelude GoStd.

Import filepath filepath_facts.

(** ** Paths as lists of elements *)

(** The elements that [Clean] keeps of a path. *)
Definition kept (p : string) : list string :=
  reverse (foldl (clean_step (IsAbs p)) [] (split_slash p)).

(** A path from its elements. *)
Definition render (rooted : bool) (l : list string) : string :=
  if rooted then "/" +:+ strings.Join l "/"
  else if decide (l = []) then "." else strings.Join l "/".

(** The elements of [p] below the directory [d], none of them "..". *)
Fixpoint strip_prefix (l k : list string) : option (list string) :=
  match l, k with
  | [], _ => Some k
  | x :: l', y :: k' => if decide (x = y) then strip_prefix l' k' else None
  | _ :: _, [] => None
  end.

Definition below (d p : string) : option (list string) :=
  if decide (IsAbs p = IsAbs d) then
    match strip_prefix (kept d) (kept p) with
    | Some rest => if decide (rest = [] ∨ ".." ∈ rest) then None else Some rest
    | None => None
    end
  else None.

(** [Rel]: the elements left of the target after the ones it shares with the
    base, behind one ".." for every element left of the base. *)
Fixpoint strip_common (l k : list string) : list string * list string :=
  match l, k with
  | x :: l', y :: k' => if decide (x = y) then strip_common l' k' else (l, k)
  | _, _ => (l, k)
  end.

Definition Rel (basepath targpath : string) : string + string :=
  if decide (Clean targpath = Clean basepath) then inr "."
  else
    let refused := inl ("Rel: can't make " +:+ targpath +:+ " relative to " +:+ basepath) in
    if decide (IsAbs targpath = IsAbs basepath) then
      let '(b, t) := strip_common (kept basepath) (kept targpath) in
      if decide (head b = Some "..") then refused
      else inr (strings.Join (replicate (length b) ".." ++ t) "/")
    else refused.

(** * Lemmas *)

Lemma Clean_render p : Clean p = render (IsAbs p) (kept p).
Proof. reflexivity. Qed.

(** ** Elements that stand for themselves *)

(** The stacks [clean_step] builds: ".." only at the bottom, and only in a
    path without root. *)
Inductive stack_ok (rooted : bool) : list string → Prop :=
| stack_nil : stack_ok rooted []
| stack_simple e out : simple_elem e → stack_ok rooted out → stack_ok rooted (e :: out)
| stack_up out :
    rooted = false → Forall (.= "..") out → stack_ok rooted out → stack_ok rooted (".." :: out).

Lemma clean_step_ok rooted out e :
  slash ∉ chars e → stack_ok rooted out → stack_ok rooted (clean_step rooted out e).
Proof.
  intros He Hout. unfold clean_step. case_decide as H1; [done|].
  case_decide as H2; [subst|].
  - destruct Hout as [|top out Htop Hout|out -> Hup Hout].
    + destruct rooted; [constructor|]. by apply stack_up; [|constructor..].
    + rewrite decide_False by (by destruct Htop as (_ & _ & _ & ?)). done.
    + rewrite decide_True by done. apply stack_up; [done|by constructor|by apply stack_up].
  - constructor; [|done]. repeat split; naive_solver.
Qed.

Lemma split_slash_noslash p : Forall (λ e, slash ∉ chars e) (split_slash p).
Proof.
  induction p as [|c p IH]; simpl.
  - repeat constructor. apply not_elem_of_nil.
  - case_decide; [constructor; [apply not_elem_of_nil|done]|].
    destruct IH; constructor; simpl; try done; apply not_elem_of_cons; split; try done.
    apply not_elem_of_nil.
Qed.

Lemma foldl_clean_ok rooted l : ∀ out,
  Forall (λ e, slash ∉ chars e) l → stack_ok rooted out →
  stack_ok rooted (foldl (clean_step rooted) out l).
Proof.
  induction l as [|e l IH]; intros out Hl Hout; [done|].
  apply Forall_cons in Hl as [He Hl]. simpl. apply IH; [done|]. by apply clean_step_ok.
Qed.

Lemma kept_ok p : stack_ok (IsAbs p) (reverse (kept p)).
Proof.
  unfold kept. rewrite reverse_involutive.
  apply foldl_clean_ok; [apply split_slash_noslash|constructor].
Qed.

(** Folding over a good stack gives it back. *)
Lemma foldl_clean_id rooted out :
  stack_ok rooted out → foldl (clean_step rooted) [] (reverse out) = out.
Proof.
  induction 1 as [|e out He _ IH|out -> Hup _ IH]; [done|..];
    rewrite reverse_cons, foldl_app, IH; simpl.
  - by apply clean_step_simple.
  - unfold clean_step. rewrite decide_False by (by intros [?|?]).
    rewrite decide_True by done. destruct Hup as [|? ? ->]; [done|]. by rewrite decide_True.
Qed.

Lemma stack_elem rooted out e :
  stack_ok rooted out → e ∈ out → slash ∉ chars e ∧ e ≠ "" ∧ e ≠ ".".
Proof.
  induction 1 as [|x out Hx _ IH|out _ _ _ IH]; [by intros ?%not_elem_of_nil|..];
    intros [->|?]%elem_of_cons; auto.
  - destruct Hx as (? & ? & ? & ?). auto.
  - repeat split; [|done..]. compute_done.
Qed.

Lemma kept_elem p e : e ∈ kept p → slash ∉ chars e ∧ e ≠ "" ∧ e ≠ ".".
Proof. intros He. eapply stack_elem; [apply kept_ok|]. by apply elem_of_reverse. Qed.

(** ** Rendering and parsing *)

Lemma split_Join l :
  l ≠ [] → Forall (λ e, slash ∉ chars e) l → split_slash (strings.Join l "/") = l.
Proof.
  induction l as [|x l IH]; [done|]. intros _ [Hx Hl]%Forall_cons.
  destruct l as [|y l]; [by apply split_slash_single|].
  change (strings.Join (x :: y :: l) "/")
    with (x +:+ String slash (strings.Join (y :: l) "/")).
  by rewrite split_slash_app, split_slash_single, IH.
Qed.

Lemma Join_head_noslash l :
  l ≠ [] → (∀ e, e ∈ l → slash ∉ chars e ∧ e ≠ "") → IsAbs (strings.Join l "/") = false.
Proof.
  destruct l as [|x l]; [done|]. intros _ H.
  destruct (H x) as [Hx Hne]; [set_solver|].
  destruct x as [|c x]; [done|].
  assert (∃ t, strings.Join (String c x :: l) "/" = String c t) as [t ->].
  { destruct l; [by eexists|]. cbn [strings.Join]. rewrite str_app_cons. by eexists. }
  unfold IsAbs. simpl. rewrite decide_False; [done|].
  intros Hc. apply Hx. simpl. rewrite <-Hc. set_solver.
Qed.

Lemma IsAbs_render r l :
  (∀ e, e ∈ l → slash ∉ chars e ∧ e ≠ "") → IsAbs (render r l) = r.
Proof.
  intros H. unfold render. destruct r; [reflexivity|].
  case_decide; [reflexivity|]. by apply Join_head_noslash.
Qed.

Lemma kept_render r l :
  stack_ok r (reverse l) → kept (render r l) = l.
Proof.
  intros Hok.
  assert (∀ e, e ∈ l → slash ∉ chars e ∧ e ≠ "" ∧ e ≠ ".") as Hl.
  { intros e He. eapply stack_elem; [done|]. by apply elem_of_reverse. }
  assert (Forall (λ e, slash ∉ chars e) l) as Hns by (apply Forall_forall; naive_solver).
  unfold kept. rewrite IsAbs_render by naive_solver.
  rewrite <-(reverse_involutive l) at 2. f_equal.
  pose proof (foldl_clean_id r _ Hok) as Hid. rewrite reverse_involutive in Hid.
  unfold render. destruct (decide (l = [])) as [->|Hne]; destruct r.
  - reflexivity.
  - reflexivity.
  - change ("/" +:+ strings.Join l "/") with ("" +:+ String slash (strings.Join l "/")).
    rewrite split_slash_app, split_Join by done. exact Hid.
  - rewrite split_Join by done. exact Hid.
Qed.

Lemma kept_Clean p : kept (Clean p) = kept p.
Proof. rewrite Clean_render. apply kept_render, kept_ok. Qed.

Lemma IsAbs_Clean p : IsAbs (Clean p) = IsAbs p.
Proof. rewrite Clean_render. apply IsAbs_render. intros e He%kept_elem. naive_solver. Qed.

(** Cleaning twice is cleaning once. *)
Lemma Clean_idemp p : Clean (Clean p) = Clean p.
Proof. by rewrite (Clean_render (Clean p)), IsAbs_Clean, kept_Clean. Qed.

Lemma Clean_ne p : Clean p ≠ "".
Proof.
  rewrite Clean_render. unfold render. destruct (IsAbs p); [done|].
  case_decide as Hk; [done|].
  destruct (kept p) as [|e l] eqn:E; [done|].
  destruct (kept_elem p e) as (_ & He & _); [rewrite E; set_solver|].
  destruct e as [|c e]; [done|]. by destruct l.
Qed.

Lemma Join_single p : p ≠ "" → Join [p] = Clean p.
Proof. intros Hp. cbn [Join]. by rewrite decide_False. Qed.

Lemma Join_Clean l : Join l = "" ∨ ∃ p, Join l = Clean p.
Proof.
  induction l as [|e l IH]; [by left|]. cbn [Join]. case_decide; [done|]. right. eauto.
Qed.

(** What [Join] answers is clean. *)
Lemma Clean_Join l : Join l ≠ "" → Clean (Join l) = Join l.
Proof. intros H. destruct (Join_Clean l) as [?|[p ->]]; [done|]. apply Clean_idemp. Qed.

(** Joining to a clean path. *)
Lemma kept_append d n :
  d ≠ "" →
  kept (d +:+ "/" +:+ n) =
    reverse (foldl (clean_step (IsAbs d)) (reverse (kept d)) (split_slash n)) ∧
  IsAbs (d +:+ "/" +:+ n) = IsAbs d.
Proof.
  intros Hd. assert (IsAbs (d +:+ "/" +:+ n) = IsAbs d) as Habs.
  { destruct d as [|c d]; [done|]. unfold IsAbs. simpl. by repeat case_decide. }
  split; [|done]. unfold kept at 1. rewrite Habs.
  change ("/" +:+ n) with (String slash n).
  rewrite split_slash_app, foldl_app. unfold kept. by rewrite reverse_involutive.
Qed.

Lemma foldl_simple r l : ∀ out,
  Forall simple_elem l → foldl (clean_step r) out l = reverse l ++ out.
Proof.
  induction l as [|e l IH]; intros out; [done|]. intros [He Hl]%Forall_cons. simpl.
  rewrite clean_step_simple, IH, reverse_cons by done. by rewrite <-(assoc_L (++)).
Qed.

Lemma Join_below d l :
  d ≠ "" → l ≠ [] → Forall simple_elem l →
  Join [d; strings.Join l "/"] = render (IsAbs d) (kept d ++ l).
Proof.
  intros Hd Hl Hs. cbn [Join]. rewrite decide_False by done.
  change (strings.Join [d; strings.Join l "/"] "/") with (d +:+ "/" +:+ strings.Join l "/").
  destruct (kept_append d (strings.Join l "/") Hd) as [Hk Ha].
  rewrite Clean_render, Hk, Ha, split_Join.
  - rewrite foldl_simple by done. by rewrite reverse_app, !reverse_involutive.
  - done.
  - eapply Forall_impl; [done|]. by intros e [? _].
Qed.

Lemma strip_prefix_spec l k rest : strip_prefix l k = Some rest ↔ k = l ++ rest.
Proof.
  revert k. induction l as [|x l IH]; intros k; simpl; [naive_solver|].
  destruct k as [|y k]; [naive_solver|]. case_decide; [rewrite IH|]; naive_solver.
Qed.

(** What [below] means. *)
Lemma below_spec d p rest :
  below d p = Some rest ↔
  IsAbs p = IsAbs d ∧ kept p = kept d ++ rest ∧ rest ≠ [] ∧ ".." ∉ rest.
Proof.
  unfold below. case_decide as Habs; [|naive_solver].
  destruct (strip_prefix (kept d) (kept p)) as [r|] eqn:E.
  - apply strip_prefix_spec in E.
    case_decide as Hr; split; intros H; destruct_and?; simplify_eq.
    + exfalso. rewrite E in *. simplify_list_eq. naive_solver.
    + repeat split; [done|done|naive_solver|naive_solver].
    + rewrite E in *. by simplify_list_eq.
  - split; [done|]. intros (_ & Hk & _).
    enough (strip_prefix (kept d) (kept p) = Some rest) by congruence.
    by apply strip_prefix_spec.
Qed.

Lemma below_simple d p rest : below d p = Some rest → Forall simple_elem rest.
Proof.
  intros (_ & Hk & _ & Hup)%below_spec. apply Forall_forall. intros e He.
  destruct (kept_elem p e) as (? & ? & ?); [rewrite Hk; set_solver|].
  repeat split; [done..|]. by intros ->.
Qed.

(** A clean path below a directory is the directory joined with the rest. *)
Lemma below_Join d p rest :
  d ≠ "" → Clean p = p → below d p = Some rest → Join [d; strings.Join rest "/"] = p.
Proof.
  intros Hd Hp Hb. pose proof (below_simple _ _ _ Hb) as Hs.
  apply below_spec in Hb as (Ha & Hk & Hne & _).
  rewrite Join_below by done. by rewrite <-Ha, <-Hk, <-Clean_render.
Qed.

Lemma strip_common_prefix l rest : strip_common l (l ++ rest) = ([], rest).
Proof. induction l as [|x l IH]; simpl; [by destruct rest|]. by rewrite decide_True. Qed.

(** [Rel] of a path below the base is the path's rest. *)
Lemma Rel_below d p rest :
  below d p = Some rest → Rel d p = inr (strings.Join rest "/").
Proof.
  intros Hb. apply below_spec in Hb as (Ha & Hk & Hne & _). unfold Rel.
  rewrite decide_False.
  - rewrite decide_True by done. rewrite Hk, strip_common_prefix.
    by rewrite decide_False.
  - intros E. apply (f_equal kept) in E. rewrite !kept_Clean, Hk in E.
    destruct rest; [done|]. apply (f_equal length) in E. rewrite length_app in E. simpl in E. lia.
Qed.

(** Simple elements may be put behind the elements of any path. *)
Lemma stack_append d l :
  Forall simple_elem l → stack_ok (IsAbs d) (reverse (kept d ++ l)).
Proof.
  intros Hs. rewrite reverse_app. pose proof (kept_ok d) as Hok.
  induction l as [|e l IH] using rev_ind; [done|].
  rewrite reverse_snoc. apply Forall_app in Hs as [? [? _]%Forall_cons].
  simpl. constructor; auto.
Qed.

Lemma render_append d l :
  Forall simple_elem l →
  IsAbs (render (IsAbs d) (kept d ++ l)) = IsAbs d ∧
  kept (render (IsAbs d) (kept d ++ l)) = kept d ++ l.
Proof.
  intros Hs. pose proof (stack_append d l Hs) as Hok. split; [|by apply kept_render].
  apply IsAbs_render. intros e He.
  destruct (stack_elem _ _ e Hok) as (? & ? & _); [by apply elem_of_reverse|done].
Qed.

Lemma simple_no_up l : Forall simple_elem l → ".." ∉ l.
Proof. rewrite Forall_forall. intros Hs Hin. by destruct (Hs _ Hin) as (_ & _ & _ & ?). Qed.

(** What is joined to a directory lies below it. *)
Lemma below_self d l :
  d ≠ "" → l ≠ [] → Forall simple_elem l → below d (Join [d; strings.Join l "/"]) = Some l.
Proof.
  intros Hd Hl Hs. rewrite Join_below by done. apply below_spec.
  destruct (render_append d l Hs) as [-> ->]. by auto using simple_no_up.
Qed.

(** What lies below a directory below [d] lies below [d]. *)
Lemma below_Join_dir d l p rest :
  d ≠ "" → l ≠ [] → Forall simple_elem l →
  below (Join [d; strings.Join l "/"]) p = Some rest ↔
  below d p = Some (l ++ rest) ∧ rest ≠ [].
Proof.
  intros Hd Hl Hs. rewrite Join_below by done. rewrite !below_spec.
  destruct (render_append d l Hs) as [-> ->]. pose proof (simple_no_up l Hs).
  rewrite <-(assoc_L (++)), not_elem_of_app.
  assert (l ++ rest ≠ []) by (by destruct l). tauto.
Qed.

(** Cleaning a directory first does not change the path of its files. *)
Lemma Clean_append p e : p ≠ "" → Clean (Clean p +:+ "/" +:+ e) = Clean (p +:+ "/" +:+ e).
Proof.
  intros Hp. rewrite (Clean_render (Clean p +:+ _)), (Clean_render (p +:+ _)).
  destruct (kept_append (Clean p) e) as [-> ->]; [apply Clean_ne|].
  destruct (kept_append p e Hp) as [-> ->]. by rewrite kept_Clean, IsAbs_Clean.
Qed.

Lemma strings_Join_ne x l : x ≠ "" → strings.Join (x :: l) "/" ≠ "".
Proof. by destruct x, l. Qed.

(** Joining in two goes is joining in one. *)
Lemma Join_Join l e :
  (∃ x, x ∈ l ∧ x ≠ "") → Join [Join l; e] = Join (l ++ [e]).
Proof.
  induction l as [|x l IH]; [set_solver|]. intros Hl. cbn [app].
  destruct (decide (x = "")) as [->|Hx].
  - change (Join ("" :: l)) with (Join l). change (Join ("" :: l ++ [e])) with (Join (l ++ [e])).
    apply IH. destruct Hl as (y & [->|?]%elem_of_cons & ?); [done|eauto].
  - assert (∀ k, Join (x :: k) = Clean (strings.Join (x :: k) "/")) as Hj
      by (intros k; cbn [Join]; by rewrite decide_False).
    rewrite !Hj, app_comm_cons, Join_snoc, decide_False by done.
    cbn [Join]. rewrite decide_False by apply Clean_ne.
    change (strings.Join [Clean (strings.Join (x :: l) "/"); e] "/")
      with (Clean (strings.Join (x :: l) "/") +:+ "/" +:+ e).
    rewrite Clean_append by (by apply strings_Join_ne). by rewrite str_app_assoc.
Qed.

Lemma Join_ne l : (∃ x, x ∈ l ∧ x ≠ "") → Join l ≠ "".
Proof.
  intros (x & Hx & Hne). induction l as [|y l IH]; [set_solver|]. cbn [Join].
  case_decide as Hy; [|apply Clean_ne]. apply elem_of_cons in Hx as [->|Hx]; [done|by apply IH].
Qed.

(** Files of one directory are told apart by their names. *)
Lemma Join_snoc_inj l e1 e2 :
  (∃ x, x ∈ l ∧ x ≠ "") → simple_elem e1 → simple_elem e2 →
  Join (l ++ [e1]) = Join (l ++ [e2]) → e1 = e2.
Proof.
  intros Hl H1 H2. rewrite <-!Join_Join by done.
  pose proof (Join_ne l Hl) as Hne.
  cbn [Join]. rewrite !decide_False by done.
  change (strings.Join [Join l; e1] "/") with (Join l +:+ "/" +:+ e1).
  change (strings.Join [Join l; e2] "/") with (Join l +:+ "/" +:+ e2).
  rewrite !Clean_file by done. apply (inj (String.append (dir_prefix (Join l)))).
Qed.

(** The elements of a path joined with one more. *)
Lemma kept_Join_snoc l e :
  (∃ x, x ∈ l ∧ x ≠ "") → simple_elem e → kept (Join (l ++ [e])) = kept (Join l) ++ [e].
Proof.
  intros Hl He. rewrite <-Join_Join by done. change e with (strings.Join [e] "/") at 1.
  assert (Forall simple_elem [e]) as Hs by by apply Forall_singleton.
  pose proof (Join_ne l Hl). rewrite Join_below by done. by apply render_append.
Qed.

(** Two subdirectories of one directory share no file. *)
Lemma Join_subdir_ne d s1 s2 e1 e2 :
  (∃ x, x ∈ d ∧ x ≠ "") → simple_elem s1 → simple_elem s2 → simple_elem e1 → simple_elem e2 →
  s1 ≠ s2 → Join (d ++ [s1; e1]) ≠ Join (d ++ [s2; e2]).
Proof.
  intros Hd Hs1 Hs2 He1 He2 Hne E. apply Hne.
  assert (∀ s e, simple_elem s → simple_elem e →
    kept (Join (d ++ [s; e])) = kept (Join d) ++ [s; e]) as Hk.
  { intros s e Hs He. change [s; e] with ([s] ++ [e]). rewrite (assoc_L (++)).
    rewrite !kept_Join_snoc; [by rewrite <-(assoc_L (++))|done..| |done].
    destruct Hd as (x & ? & ?). exists x. split; [apply elem_of_app; by left|done]. }
  apply (f_equal kept) in E. rewrite !Hk in E by done. by simplify_list_eq.
Qed.
