(* ===== verification/FileStore.v ===== *)
(** [internal/filestore]: the file system the operator works on, the interface
    [FileStore] and its implementation [VolumeFileStore]. *)
From S2P Require Import Prelude GoStd Errors Paths.

(** ** The file system

    Files are keyed by clean paths, symbolic links are not modelled.  The clock
    counts the system calls, so that a call may fail at one time and succeed
    at another. *)
Record Fs := mkFs {
  files : gmap string string;
  dirs : gset string;
  clock : nat
}.

Definition tick (fs : Fs) : Fs := mkFs (files fs) (dirs fs) (S (clock fs)).
Definition set_files (m : gmap string string) (fs : Fs) : Fs := mkFs m (dirs fs) (clock fs).

(** The system calls the operating system refuses, beyond a file that is
    missing: permissions, a missing parent, a full disk, an interruption.  A
    refused [MkdirAll] may leave some of the directories behind, and a refused
    [WriteFile], once the file is truncated, a prefix of the data. *)
Class Os := {
  refuse_mkdir : Fs → string → option (error * gset string);
  refuse_open : Fs → string → option string;
  refuse_write : Fs → string → string → option (error * option nat);
  refuse_remove : Fs → string → option string;
  refuse_walk : Fs → string → option (nat * string)
}.

(** github.com/google/renameio. *)
Class Renameio := { renameio_WriteFile : string → string → Fs → option error * Fs }.

(** Its documentation: the file is replaced atomically, or it is left alone. *)
Class RenameioLaws `{Renameio} : Prop := {
  renameio_ok p data fs fs' :
    renameio_WriteFile p data fs = (None, fs') → files fs' = <[filepath.Clean p := data]> (files fs);
  renameio_err p data fs fs' e :
    renameio_WriteFile p data fs = (Some e, fs') → files fs' = files fs
}.

Section Syscalls.
Context `{Os}.

Definition missing (op path : string) : error :=
  PathError true (op +:+ " " +:+ path +:+ ": no such file or directory").

Definition MkdirAll (path : string) (fs : Fs) : option error * Fs :=
  let fs' := tick fs in
  match refuse_mkdir fs path with
  | Some (e, ds) => (Some e, mkFs (files fs') (ds ∪ dirs fs') (clock fs'))
  | None => (None, mkFs (files fs') ({[filepath.Clean path]} ∪ dirs fs') (clock fs'))
  end.

(** [os.ReadFile], and [os.Open] followed by [io.ReadAll]. *)
Definition ReadFile (path : string) (fs : Fs) : (error + string) * Fs :=
  match refuse_open fs path with
  | Some msg => (inl (PathError false msg), tick fs)
  | None =>
      match files fs !! filepath.Clean path with
      | Some data => (inr data, tick fs)
      | None => (inl (missing "open" path), tick fs)
      end
  end.

Definition WriteFile (path data : string) (fs : Fs) : option error * Fs :=
  match refuse_write fs path data with
  | Some (e, None) => (Some e, tick fs)
  | Some (e, Some n) =>
      (Some e, set_files (<[filepath.Clean path := take_bytes n data]> (files fs)) (tick fs))
  | None => (None, set_files (<[filepath.Clean path := data]> (files fs)) (tick fs))
  end.

Definition Remove (path : string) (fs : Fs) : option error * Fs :=
  match refuse_remove fs path with
  | Some msg => (Some (PathError false msg), tick fs)
  | None =>
      match files fs !! filepath.Clean path with
      | Some _ => (None, set_files (delete (filepath.Clean path) (files fs)) (tick fs))
      | None => (Some (missing "remove" path), tick fs)
      end
  end.

(** [filepath.WalkDir] visits a directory's entries in the order of their
    names, each subdirectory in its place. *)
Fixpoint walk_le (l k : list string) : bool :=
  match l, k with
  | [], _ => true
  | _ :: _, [] => false
  | x :: l', y :: k' => if decide (x = y) then walk_le l' k' else String.ltb x y
  end.
Definition walk_before (p q : string) : Prop := walk_le (kept p) (kept q) = true.
Global Instance walk_before_dec : RelDecision walk_before.
Proof. intros p q. unfold walk_before. apply _. Defined.

Definition walk_files (root : string) (fs : Fs) : list string :=
  merge_sort walk_before
    (filter (λ p, filepath.Clean p = p ∧ (p = filepath.Clean root ∨ is_Some (below root p)))
       (elements (dom (files fs)))).

(** A directory exists when it, or one below it, was created. *)
Definition dir_exists (root : string) (fs : Fs) : bool :=
  existsb (λ d, bool_decide (d = filepath.Clean root ∨ is_Some (below root d)))
    (elements (dirs fs)).

(** The files the walk visits before it ends, and its error.  A walk whose
    root does not exist visits nothing. *)
Definition WalkDir (root : string) (fs : Fs) : (list string * option error) * Fs :=
  match refuse_walk fs root with
  | Some (n, msg) => (take n (walk_files root fs), Some (PathError false msg), tick fs)
  | None =>
      match walk_files root fs with
      | [] =>
          if dir_exists root fs then ([], None, tick fs)
          else ([], Some (missing "lstat" root), tick fs)
      | l => (l, None, tick fs)
      end
  end.
End Syscalls.

(** ** The interface *)
Class FileStore (St : Type) := {
  fs_Write : string → string → St → option error * St;
  fs_ReadAll : string → St → (error + string) * St;
  fs_CollectSubFiles : string → St → (list string * option error) * St;
  fs_Resolve : list string → string;
  fs_Remove : string → St → option error * St
}.

(** A relative path that does not lead out of the directory it starts from. *)
Definition local (d : string) : Prop :=
  filepath.IsAbs d = false ∧ kept d ≠ [] ∧ ".." ∉ kept d.
#[export] Instance local_dec d : Decision (local d).
Proof. unfold local. apply _. Defined.

(** [inside d q]: the path of [q] is that of [d] or lies below it. *)
Definition inside {St} `{FileStore St} (d q : string) : Prop :=
  fs_Resolve [q] = fs_Resolve [d] ∨ is_Some (below (fs_Resolve [d]) (fs_Resolve [q])).

(** What a store promises to its clients: a map from paths to contents, writes
    that happen or do not, and a listing of what lies in a directory. *)
Class FileStoreLaws (St : Type) `{FileStore St} (content : St → string → option string) : Prop := {
  content_resolve s p q : fs_Resolve [p] = fs_Resolve [q] → content s p = content s q;
  resolve_inj p q :
    local p → local q → fs_Resolve [p] = fs_Resolve [q] → filepath.Clean p = filepath.Clean q;
  inside_kept d n rest :
    local d → local n → kept n = kept d ++ rest → rest ≠ [] → inside d n;
  write_ok p data s s' :
    fs_Write p data s = (None, s') →
    ∀ q, content s' q = if decide (fs_Resolve [q] = fs_Resolve [p]) then Some data else content s q;
  write_err p data s s' e :
    fs_Write p data s = (Some e, s') → ∀ q, content s' q = content s q;
  read_frame p s : ∀ q, content (fs_ReadAll p s).2 q = content s q;
  read_ok p s data : (fs_ReadAll p s).1 = inr data → content s p = Some data;
  read_missing p s e :
    (fs_ReadAll p s).1 = inl e → Is_ErrNotExist e = true → content s p = None;
  remove_ok p s s' :
    fs_Remove p s = (None, s') →
    ∀ q, content s' q = if decide (fs_Resolve [q] = fs_Resolve [p]) then None else content s q;
  remove_err p s s' e :
    fs_Remove p s = (Some e, s') →
    (∀ q, content s' q = content s q) ∧ (Is_ErrNotExist e = true → content s p = None);
  collect_frame d s : ∀ q, content (fs_CollectSubFiles d s).2 q = content s q;
  collect_missing d s l e :
    local d → (fs_CollectSubFiles d s).1 = (l, Some e) → Is_ErrNotExist e = true →
    ∀ q, inside d q → content s q = None;
  collect_sound d s l :
    local d → (fs_CollectSubFiles d s).1 = (l, None) →
    NoDup ((λ n, fs_Resolve [n]) <$> l) ∧
    ∀ n, n ∈ l → is_Some (content s n) ∧ inside d n ∧ local n ∧ filepath.Clean n = n;
  collect_complete d s l :
    local d → (fs_CollectSubFiles d s).1 = (l, None) →
    ∀ q, is_Some (content s q) → inside d q → ∃ n, n ∈ l ∧ fs_Resolve [n] = fs_Resolve [q]
}.

(** ** VolumeFileStore *)
Section VolumeFileStore.
Context `{Os, Renameio} (Root : string).

Definition VolumeFileStore_Resolve (subpaths : list string) : string :=
  filepath.Join (Root :: subpaths).

Definition VolumeFileStore_Write (path data : string) (fs : Fs) : option error * Fs :=
  let dir := filepath.Dir (VolumeFileStore_Resolve [path]) in
  let write := renameio_WriteFile (VolumeFileStore_Resolve [path]) data in
  if decide (dir ≠ ".") then
    match MkdirAll dir fs with
    | (Some e, fs') => (Some e, fs')
    | (None, fs') => write fs'
    end
  else write fs.

(** [Read] hands out the open file, which [ReadAll] reads to its end. *)
Definition VolumeFileStore_ReadAll (path : string) (fs : Fs) : (error + string) * Fs :=
  ReadFile (VolumeFileStore_Resolve [path]) fs.

(** The callback of the walk, over the files visited. *)
Fixpoint collect (paths : list string) (subPaths : list string) : list string * option error :=
  match paths with
  | [] => (subPaths, None)
  | path :: paths' =>
      match Rel Root path with
      | inl msg => (subPaths, Some (errorString msg))
      | inr rel => collect paths' (subPaths ++ [rel])
      end
  end.

Definition VolumeFileStore_CollectSubFiles (path : string) (fs : Fs) :
    (list string * option error) * Fs :=
  let '((visited, werr), fs') := WalkDir (VolumeFileStore_Resolve [path]) fs in
  match collect visited [] with
  | (subPaths, Some err) => ((subPaths, Some err), fs')
  | (subPaths, None) => ((subPaths, werr), fs')
  end.

Definition VolumeFileStore_Remove (path : string) (fs : Fs) : option error * Fs :=
  Remove (VolumeFileStore_Resolve [path]) fs.

Definition VolumeFileStore_store : FileStore Fs :=
  {| fs_Write := VolumeFileStore_Write;
     fs_ReadAll := VolumeFileStore_ReadAll;
     fs_CollectSubFiles := VolumeFileStore_CollectSubFiles;
     fs_Resolve := VolumeFileStore_Resolve;
     fs_Remove := VolumeFileStore_Remove |}.
End VolumeFileStore.

(** An operating system that refuses nothing, and its atomic writes. *)
Module SimpleOs.
#[export] Instance os : Os :=
  {| refuse_mkdir _ _ := None; refuse_open _ _ := None; refuse_write _ _ _ := None;
     refuse_remove _ _ := None; refuse_walk _ _ := None |}.
#[export] Instance renameio : Renameio :=
  {| renameio_WriteFile p data fs :=
       (None, set_files (<[filepath.Clean p := data]> (files fs)) (tick fs)) |}.
#[export] Instance renameio_laws : RenameioLaws.
Proof. split; intros; simpl in *; by simplify_eq. Qed.
Definition empty_fs : Fs := mkFs ∅ ∅ 0.
End SimpleOs.

(** * The volume implements the interface *)

(** A relative path written with elements that stand for themselves. *)
Lemma plain_path rest :
  rest ≠ [] → Forall filepath_facts.simple_elem rest →
  local (strings.Join rest "/") ∧ filepath.Clean (strings.Join rest "/") = strings.Join rest "/" ∧
  kept (strings.Join rest "/") = rest.
Proof.
  intros Hne Hs.
  assert (strings.Join rest "/" = render false rest) as Hr by (unfold render; by rewrite decide_False).
  assert (kept (render false rest) = rest) as Hk.
  { apply kept_render. exact (stack_append "." rest Hs). }
  assert (filepath.IsAbs (render false rest) = false) as Ha.
  { apply IsAbs_render. intros e He. rewrite Forall_forall in Hs. by destruct (Hs e He) as (? & ? & _). }
  rewrite Hr, Clean_render, Hk, Ha. unfold local. rewrite Ha, Hk. auto using simple_no_up.
Qed.

Section FsFacts.
Context `{Os}.

Lemma MkdirAll_files p fs : files (MkdirAll p fs).2 = files fs.
Proof. unfold MkdirAll. by destruct (refuse_mkdir fs p) as [[? ?]|]. Qed.

Lemma ReadFile_files p fs : files (ReadFile p fs).2 = files fs.
Proof. unfold ReadFile. by repeat case_match. Qed.

Lemma ReadFile_inv p fs r fs' :
  filepath.Clean p = p → ReadFile p fs = (r, fs') →
  files fs' = files fs ∧
  match r with
  | inr data => files fs !! p = Some data
  | inl e => Is_ErrNotExist e = true → files fs !! p = None
  end.
Proof. intros Hp. unfold ReadFile. rewrite Hp. repeat case_match; intros; by simplify_eq/=. Qed.

Lemma Remove_clean_inv p fs r fs' :
  filepath.Clean p = p → Remove p fs = (r, fs') →
  match r with
  | None => files fs' = delete p (files fs)
  | Some e => files fs' = files fs ∧ (is_not_exist e = true → files fs !! p = None) ∧
              Is_ErrNotExist e = is_not_exist e
  end.
Proof. intros Hp. unfold Remove. rewrite Hp. repeat case_match; intros; by simplify_eq/=. Qed.

Lemma WalkDir_files p fs : files (WalkDir p fs).2 = files fs.
Proof. unfold WalkDir. by repeat case_match. Qed.

Lemma Write_clean_inv `{RenameioLaws} Root p data fs r fs' :
  filepath.Clean (VolumeFileStore_Resolve Root [p]) = VolumeFileStore_Resolve Root [p] →
  VolumeFileStore_Write Root p data fs = (r, fs') →
  match r with
  | None => files fs' = <[VolumeFileStore_Resolve Root [p] := data]> (files fs)
  | Some _ => files fs' = files fs
  end.
Proof.
  intros Hclean. unfold VolumeFileStore_Write. intros Hw.
  assert (∀ g, files g = files fs →
    renameio_WriteFile (VolumeFileStore_Resolve Root [p]) data g = (r, fs') →
    match r with
    | None => files fs' = <[VolumeFileStore_Resolve Root [p] := data]> (files fs)
    | Some _ => files fs' = files fs
    end) as Hren.
  { intros g <- Hg. destruct r; [by eapply renameio_err|].
    apply renameio_ok in Hg. by rewrite Hclean in Hg. }
  case_decide; [|by apply (Hren fs)].
  pose proof (MkdirAll_files (filepath.Dir (VolumeFileStore_Resolve Root [p])) fs) as Hm.
  destruct (MkdirAll _ fs) as [[e|] g]; simplify_eq/=; [done|by apply (Hren g)].
Qed.
End FsFacts.

Section VolumeFacts.
Context `{Os, RenameioLaws} (Root : string) (HRoot : Root ≠ "").

Lemma Resolve_clean p :
  filepath.Clean (VolumeFileStore_Resolve Root [p]) = VolumeFileStore_Resolve Root [p].
Proof.
  apply Clean_Join. cbn [filepath.Join]. rewrite decide_False by done. apply Clean_ne.
Qed.

Definition volume_content (fs : Fs) (p : string) : option string :=
  files fs !! VolumeFileStore_Resolve Root [p].

Lemma Write_inv p data fs r fs' :
  VolumeFileStore_Write Root p data fs = (r, fs') →
  match r with
  | None => files fs' = <[VolumeFileStore_Resolve Root [p] := data]> (files fs)
  | Some _ => files fs' = files fs
  end.
Proof. apply Write_clean_inv, Resolve_clean. Qed.

Lemma Remove_inv p fs r fs' :
  VolumeFileStore_Remove Root p fs = (r, fs') →
  match r with
  | None => files fs' = delete (VolumeFileStore_Resolve Root [p]) (files fs)
  | Some e => files fs' = files fs ∧
              (Is_ErrNotExist e = true → volume_content fs p = None)
  end.
Proof.
  intros Hr. pose proof (Remove_clean_inv _ _ _ _ (Resolve_clean p) Hr) as Hi.
  destruct r as [e|]; [|done]. destruct Hi as (? & ? & ->). done.
Qed.

(** ** Local paths *)

Lemma foldl_no_up r out l :
  ".." ∉ foldl (filepath.clean_step false) [] l →
  foldl (filepath.clean_step r) out l = foldl (filepath.clean_step false) [] l ++ out.
Proof.
  induction l as [|e l IH] using rev_ind; [done|]. rewrite !foldl_app. simpl.
  revert IH. generalize (foldl (filepath.clean_step r) out l). intros t.
  generalize (foldl (filepath.clean_step false) [] l). intros s IH.
  unfold filepath.clean_step. case_decide as Hd1; [exact IH|].
  case_decide as Hd2; [subst|].
  - destruct s as [|top s]; [set_solver|].
    case_decide; [subst; set_solver|]. intros Hs. rewrite IH by set_solver.
    simpl. by rewrite decide_False.
  - intros Hs. by rewrite IH by set_solver.
Qed.

Lemma kept_simple d : local d → Forall filepath_facts.simple_elem (kept d).
Proof.
  intros (_ & _ & Hup). apply Forall_forall. intros e He.
  destruct (kept_elem d e He) as (? & ? & ?). repeat split; [done..|]. by intros ->.
Qed.

Lemma Resolve_local d :
  local d →
  VolumeFileStore_Resolve Root [d] = filepath.Join [Root; strings.Join (kept d) "/"].
Proof.
  intros Hd. pose proof (kept_simple d Hd) as Hs. destruct Hd as (Ha & Hk & Hup).
  unfold VolumeFileStore_Resolve. rewrite Join_below by done.
  cbn [filepath.Join]. rewrite decide_False by done.
  change (strings.Join [Root; d] "/") with (Root +:+ "/" +:+ d).
  destruct (kept_append Root d HRoot) as [Hk' Ha'].
  rewrite Clean_render, Hk', Ha'. f_equal.
  assert (foldl (filepath.clean_step false) [] (filepath.split_slash d) = reverse (kept d)) as Hf
    by (unfold kept; by rewrite Ha, reverse_involutive).
  rewrite foldl_no_up; rewrite Hf; [by rewrite reverse_app, !reverse_involutive|].
  by rewrite elem_of_reverse.
Qed.

Lemma below_Root_local d : local d → below Root (VolumeFileStore_Resolve Root [d]) = Some (kept d).
Proof.
  intros Hd. rewrite Resolve_local by done.
  apply below_self; [done|apply Hd|by apply kept_simple].
Qed.

(** A path at or below the one of [d] lies below the root. *)
Lemma under_Root d p rest :
  local d → below (VolumeFileStore_Resolve Root [d]) p = Some rest →
  below Root p = Some (kept d ++ rest).
Proof.
  intros Hd. rewrite Resolve_local by done.
  intros Hb%below_Join_dir; [tauto|done|apply Hd|by apply kept_simple].
Qed.

(** ** Listing *)

Lemma walk_files_spec d fs p :
  local d →
  p ∈ walk_files (VolumeFileStore_Resolve Root [d]) fs →
  is_Some (files fs !! p) ∧ filepath.Clean p = p ∧ is_Some (below Root p) ∧
  (p = VolumeFileStore_Resolve Root [d] ∨ is_Some (below (VolumeFileStore_Resolve Root [d]) p)).
Proof.
  intros Hd. unfold walk_files.
  rewrite merge_sort_Permutation, list_elem_of_filter, elem_of_elements, elem_of_dom, Resolve_clean.
  intros [[Hp [->|[rest Hb]]] Hin].
  - rewrite below_Root_local by done. eauto.
  - rewrite (under_Root d p rest) by done. rewrite Hb. eauto.
Qed.

Lemma walk_files_complete d fs p :
  is_Some (files fs !! p) → filepath.Clean p = p →
  p = VolumeFileStore_Resolve Root [d] ∨ is_Some (below (VolumeFileStore_Resolve Root [d]) p) →
  p ∈ walk_files (VolumeFileStore_Resolve Root [d]) fs.
Proof.
  intros Hin Hp Hu. unfold walk_files.
  by rewrite merge_sort_Permutation, list_elem_of_filter, elem_of_elements, elem_of_dom, Resolve_clean.
Qed.

Lemma walk_files_NoDup d fs : NoDup (walk_files d fs).
Proof. unfold walk_files. rewrite merge_sort_Permutation. apply NoDup_filter, NoDup_elements. Qed.

(** Each file visited is listed by the path that leads to it from the root. *)
Definition listed_as (p n : string) : Prop :=
  Rel Root p = inr n ∧ VolumeFileStore_Resolve Root [n] = p ∧ local n ∧ filepath.Clean n = n.

Lemma below_listed p rest :
  filepath.Clean p = p → below Root p = Some rest → listed_as p (strings.Join rest "/").
Proof.
  intros Hp Hb. pose proof (below_simple _ _ _ Hb) as Hs.
  assert (rest ≠ []) as Hne by (by apply below_spec in Hb as (_ & _ & ? & _)).
  destruct (plain_path rest Hne Hs) as (? & ? & _).
  split; [by apply Rel_below|]. split; [by apply below_Join|done].
Qed.

Lemma collect_spec paths : ∀ acc,
  Forall (λ p, filepath.Clean p = p ∧ is_Some (below Root p)) paths →
  ∃ l, collect Root paths acc = (acc ++ l, None) ∧ Forall2 listed_as paths l.
Proof.
  induction paths as [|p paths IH]; intros acc Hps; simpl.
  { exists []. by rewrite app_nil_r. }
  apply Forall_cons in Hps as [[Hp [rest Hb]] Hps].
  rewrite (Rel_below _ _ _ Hb).
  destruct (IH (acc ++ [strings.Join rest "/"]) Hps) as (l & -> & Hl).
  exists (strings.Join rest "/" :: l). rewrite <-(assoc_L (++)). split; [done|].
  constructor; [by apply below_listed|done].
Qed.

Lemma Collect_inv d fs l err :
  local d → (VolumeFileStore_CollectSubFiles Root d fs).1 = (l, err) →
  ∃ ps, Forall2 listed_as ps l ∧
    match err with
    | None => ps = walk_files (VolumeFileStore_Resolve Root [d]) fs
    | Some e => Is_ErrNotExist e = true → walk_files (VolumeFileStore_Resolve Root [d]) fs = []
    end.
Proof.
  intros Hd. unfold VolumeFileStore_CollectSubFiles, WalkDir.
  set (ws := walk_files _ fs).
  assert (Forall (λ p, filepath.Clean p = p ∧ is_Some (below Root p)) ws) as Hws.
  { apply Forall_forall. intros p Hp%walk_files_spec; naive_solver. }
  assert (∀ vs, Forall (λ p, filepath.Clean p = p ∧ is_Some (below Root p)) vs →
    ∃ ns, collect Root vs [] = (ns, None) ∧ Forall2 listed_as vs ns) as Hc.
  { intros vs Hvs. by apply (collect_spec vs []). }
  destruct (refuse_walk fs _) as [[n msg]|]; simpl.
  - destruct (Hc (take n ws)) as (ns & -> & Hns); [by apply Forall_take|].
    intros E; simplify_eq/=. exists (take n ws). split; [done|]. intros Habs. discriminate Habs.
  - destruct ws as [|w ws'] eqn:Ews.
    + destruct (dir_exists _ fs); simpl; intros E; simplify_eq; exists []; done.
    + destruct (Hc (w :: ws') Hws) as (ns & -> & Hns).
      intros E; simplify_eq/=. by exists (w :: ws').
Qed.

(** The names a listing gives, from the files the walk visits. *)
Lemma listed_elem ps l n :
  Forall2 listed_as ps l → n ∈ l →
  VolumeFileStore_Resolve Root [n] ∈ ps ∧ listed_as (VolumeFileStore_Resolve Root [n]) n.
Proof.
  intros Hps [i Hi]%list_elem_of_lookup.
  destruct (Forall2_lookup_r _ _ _ _ _ Hps Hi) as (p & Hp & Hl).
  destruct (Hl) as (_ & -> & _). split; [by eapply list_elem_of_lookup_2|done].
Qed.

Lemma elem_listed ps l p : Forall2 listed_as ps l → p ∈ ps → ∃ n, n ∈ l ∧ listed_as p n.
Proof.
  intros Hps [i Hi]%list_elem_of_lookup.
  destruct (Forall2_lookup_l _ _ _ _ _ Hps Hi) as (n & Hn & ?).
  exists n. split; [by eapply list_elem_of_lookup_2|done].
Qed.

(** The volume keeps the promises of the interface. *)
Lemma VolumeFileStore_laws :
  FileStoreLaws Fs (H := VolumeFileStore_store Root) volume_content.
Proof.
  split; unfold inside; simpl; unfold volume_content.
  - by intros s p q ->.
  - intros p q Hp Hq E. pose proof (below_Root_local p Hp) as Hbp. rewrite E in Hbp.
    rewrite (below_Root_local q Hq) in Hbp. injection Hbp as Hk.
    rewrite !Clean_render, Hk. by rewrite (proj1 Hp), (proj1 Hq).
  - intros d n rest Hd Hn Hk Hr. right. exists rest.
    rewrite (Resolve_local d Hd).
    apply below_Join_dir; [done|apply Hd|by apply kept_simple|].
    by rewrite (below_Root_local n Hn), Hk.
  - intros p data s s' Hw%Write_inv q. rewrite Hw. case_decide as E; [|by rewrite lookup_insert_ne].
    rewrite E. apply lookup_insert_eq.
  - intros p data s s' e Hw%Write_inv q. by rewrite Hw.
  - intros p s q. unfold VolumeFileStore_ReadAll. by rewrite ReadFile_files.
  - intros p s data. unfold VolumeFileStore_ReadAll, ReadFile. rewrite Resolve_clean.
    repeat case_match; intros; simplify_eq/=; done.
  - intros p s e. unfold VolumeFileStore_ReadAll, ReadFile. rewrite Resolve_clean.
    repeat case_match; intros; simplify_eq/=; done.
  - intros p s s' Hr%Remove_inv q. rewrite Hr. case_decide as E; [|by rewrite lookup_delete_ne].
    rewrite E. apply lookup_delete_eq.
  - intros p s s' e [Hr Hm]%Remove_inv. by rewrite Hr.
  - intros d s q. unfold VolumeFileStore_CollectSubFiles.
    pose proof (WalkDir_files (VolumeFileStore_Resolve Root [d]) s) as Hf.
    destruct (WalkDir _ s) as [[v we] s']. destruct (collect Root v []) as [? []]; simpl in *; by rewrite Hf.
  - intros d s l e Hd (ps & _ & He)%Collect_inv Hne q Hq; [|done].
    destruct (files s !! VolumeFileStore_Resolve Root [q]) as [x|] eqn:Hx; [|done]. exfalso.
    assert (VolumeFileStore_Resolve Root [q] ∈ walk_files (VolumeFileStore_Resolve Root [d]) s) as Hin.
    { apply walk_files_complete; [by rewrite Hx|apply Resolve_clean|done]. }
    rewrite He in Hin by done. by apply not_elem_of_nil in Hin.
  - intros d s l Hd (ps & Hps & ->)%Collect_inv; [|done].
    assert ((λ n, VolumeFileStore_Resolve Root [n]) <$> l =
            walk_files (VolumeFileStore_Resolve Root [d]) s) as E.
    { induction Hps as [|p n ws l (_ & E & _) _ IH]; [done|]. by rewrite fmap_cons, E, IH. }
    rewrite E. split; [apply walk_files_NoDup|]. intros n Hn.
    destruct (listed_elem _ _ _ Hps Hn) as [Hin (_ & _ & Hloc & Hcl)].
    apply walk_files_spec in Hin; [tauto|done].
  - intros d s l Hd (ps & Hps & ->)%Collect_inv q Hx Hq; [|done].
    assert (VolumeFileStore_Resolve Root [q] ∈ walk_files (VolumeFileStore_Resolve Root [d]) s) as Hin.
    { apply walk_files_complete; [done|apply Resolve_clean|done]. }
    destruct (elem_listed _ _ _ Hps Hin) as (n & Hn & _ & ? & _). by exists n.
Qed.
End VolumeFacts.

(** The place of a relative path below the root, which no store is needed for. *)
Lemma Resolve_below Root d :
  Root ≠ "" → local d → below Root (VolumeFileStore_Resolve Root [d]) = Some (kept d).
Proof. intros. by apply (below_Root_local (H1 := SimpleOs.renameio_laws)). Qed.

(** ** What the volume does with one file *)

Section VolumeProperties.
Context `{Os, RenameioLaws}.

(** C23: a write to the volume happens entirely or not at all: refused, it
    leaves every file as it was; accepted, it replaces the one file at its path,
    which reading then answers and listing any directory around it finds. *)
Theorem VolumeFileStore_Write_atomic Root p data fs r fs' :
  Root ≠ "" → VolumeFileStore_Write Root p data fs = (r, fs') →
  match r with
  | Some _ => files fs' = files fs
  | None =>
      files fs' = <[VolumeFileStore_Resolve Root [p] := data]> (files fs) ∧
      (refuse_open fs' (VolumeFileStore_Resolve Root [p]) = None →
       (VolumeFileStore_ReadAll Root p fs').1 = inr data) ∧
      (∀ d l, local d → is_Some (below (VolumeFileStore_Resolve Root [d]) (VolumeFileStore_Resolve Root [p])) →
       (VolumeFileStore_CollectSubFiles Root d fs').1 = (l, None) →
       ∃ n, n ∈ l ∧ VolumeFileStore_Resolve Root [n] = VolumeFileStore_Resolve Root [p])
  end.
Proof.
  intros HR Hw. pose proof (Write_inv Root HR _ _ _ _ _ Hw) as Hf. destruct r; [done|].
  split; [done|]. split.
  - intros Ho. unfold VolumeFileStore_ReadAll, ReadFile.
    by rewrite Ho, Resolve_clean, Hf, lookup_insert_eq.
  - intros d l Hd Hb Hl.
    pose proof (VolumeFileStore_laws Root HR) as Hlaws.
    apply (collect_complete (H := VolumeFileStore_store Root) d fs' l Hd Hl p); [|by right].
    unfold volume_content. by rewrite Hf, lookup_insert_eq.
Qed.
End VolumeProperties.

Import SimpleOs.

Lemma VolumeFileStore_Write_atomic_witness :
  let fs := (VolumeFileStore_Write "/data" "snmp/yml/a.yaml" "x: 1" SimpleOs.empty_fs).2 in
  (VolumeFileStore_ReadAll "/data" "snmp/yml/a.yaml" fs).1 = inr "x: 1".
Proof.
  intros fs.
  refine (proj1 (proj2 (VolumeFileStore_Write_atomic "/data" "snmp/yml/a.yaml" "x: 1"
                          SimpleOs.empty_fs None fs _ _)) _).
  - discriminate.
  - reflexivity.
  - reflexivity.
Defined.
