(* ===== verification/Selector.v ===== *)
(** [internal/k8s]: value selectors (a literal, a ConfigMap key or a Secret
    key), templates with parameters, and the availability of a Deployment. *)
From S2P Require Import Prelude GoStd Errors.

(** ** Data *)

(** corev1.ConfigMapKeySelector and corev1.SecretKeySelector. *)
Record KeySelector := mkKeySelector { ref_Name : string; ref_Key : string }.

Record ValueSource := mkValueSource {
  ConfigMapKeyRef : option KeySelector;
  SecretKeyRef : option KeySelector
}.

(** An unset [Value] is the empty string, an unset pointer is [None]. *)
Record SecretConfigMapSelector := mkSelector {
  Value : string;
  ValueFrom : option ValueSource
}.

Record TemplateParameter := mkTemplateParameter {
  tp_Name : string;
  tp_Selector : SecretConfigMapSelector
}.

Record TemplateFrom := mkTemplateFrom {
  tf_Selector : SecretConfigMapSelector;
  TemplateParameters : list TemplateParameter
}.

#[export] Instance KeySelector_eq_dec : EqDecision KeySelector.
Proof. solve_decision. Defined.
#[export] Instance ValueSource_eq_dec : EqDecision ValueSource.
Proof. solve_decision. Defined.
#[export] Instance Selector_eq_dec : EqDecision SecretConfigMapSelector.
Proof. solve_decision. Defined.
#[export] Instance TemplateParameter_eq_dec : EqDecision TemplateParameter.
Proof. solve_decision. Defined.
#[export] Instance TemplateFrom_eq_dec : EqDecision TemplateFrom.
Proof. solve_decision. Defined.

(** ** What the selectors call *)

(** Reads of the Kubernetes client: the data of a ConfigMap or of a Secret in
    a namespace, or the client's error. *)
Class SelectorClient (A : Type) := {
  Get_ConfigMap : A → string → string → error + gmap string string;
  Get_Secret : A → string → string → error + gmap string string
}.

(** The package text/template, option missingkey=error. *)
Class TextTemplate := {
  template : Type;
  Parse : string → error + template;
  Execute : template → gmap string string → error + string
}.

Section Selector.
Context {A : Type} `{SelectorClient A, TextTemplate}.
Implicit Types (r : A) (namespace : string).

Definition fetchFromConfigMap r namespace (ref : KeySelector) : error + string :=
  match Get_ConfigMap r namespace (ref_Name ref) with
  | inl err => inl (err_GetError (mkGetError KindConfigMap (ref_Name ref) err))
  | inr data =>
      match data !! ref_Key ref with
      | None => inl (err_MissingKey (mkMissingKeyError KindConfigMap (ref_Name ref) (ref_Key ref)))
      | Some value => inr value
      end
  end.

Definition fetchFromSecret r namespace (ref : KeySelector) : error + string :=
  match Get_Secret r namespace (ref_Name ref) with
  | inl err => inl (err_GetError (mkGetError KindSecret (ref_Name ref) err))
  | inr data =>
      match data !! ref_Key ref with
      | None => inl (err_MissingKey (mkMissingKeyError KindSecret (ref_Name ref) (ref_Key ref)))
      | Some value => inr value
      end
  end.

Definition ValueSource_Resolve (s : ValueSource) r namespace : error + string :=
  match ConfigMapKeyRef s with
  | Some ref => fetchFromConfigMap r namespace ref
  | None =>
      match SecretKeyRef s with
      | Some ref => fetchFromSecret r namespace ref
      | None => inl (err_MissingOption
                       (mkMissingOptionError "ValueSource" ["ConfigMapKeyRef"; "SecretKeyRef"]))
      end
  end.

Definition Selector_Resolve (s : SecretConfigMapSelector) r namespace : error + string :=
  match ValueFrom s with
  | None => inr (Value s)
  | Some src => ValueSource_Resolve src r namespace
  end.

Definition TemplateParameter_Resolve (p : TemplateParameter) r namespace : error + string :=
  Selector_Resolve (tp_Selector p) r namespace.

(** [ValueFrom] is dereferenced without a test: a nil pointer panics. *)
Definition ResolveTemplate (p : TemplateFrom) r namespace : outcome (error + string) :=
  if decide (Value (tf_Selector p) ≠ "") then Done (inr (Value (tf_Selector p)))
  else match ValueFrom (tf_Selector p) with
       | None => Panicked
       | Some src => Done (ValueSource_Resolve src r namespace)
       end.

(** The loop of [ResolveTemplateParameters] from the map built so far. *)
Fixpoint resolve_parameters (params : list TemplateParameter) r namespace
    (result : gmap string string) : error + gmap string string :=
  match params with
  | [] => inr result
  | param :: params' =>
      match TemplateParameter_Resolve param r namespace with
      | inl err => inl err
      | inr value => resolve_parameters params' r namespace (<[tp_Name param := value]> result)
      end
  end.

Definition ResolveTemplateParameters (p : TemplateFrom) r namespace :
    error + gmap string string :=
  resolve_parameters (TemplateParameters p) r namespace ∅.

(** The receiver is a pointer: rendering a nil template panics. *)
Definition Render (tf : option TemplateFrom) r namespace : outcome (error + string) :=
  match tf with
  | None => Panicked
  | Some tf =>
      match ResolveTemplate tf r namespace with
      | Panicked => Panicked
      | Done (inl err) => Done (inl err)
      | Done (inr templateText) =>
          match ResolveTemplateParameters tf r namespace with
          | inl err => Done (inl err)
          | inr parameters =>
              if decide (size parameters = 0) then Done (inr templateText)
              else
                match Parse templateText with
                | inl err => Done (inl (wrapError "parse template: " err))
                | inr tmpl =>
                    match Execute tmpl parameters with
                    | inl err => Done (inl (wrapError "render template: " err))
                    | inr rendered => Done (inr rendered)
                    end
                end
          end
      end
  end.
End Selector.

(** ** Deployments *)

(** The fields of appsv1.Deployment the program reads. *)
Record Deployment := mkDeployment {
  deploy_Name : string;
  deploy_Namespace : string;
  deploy_Generation : Z;
  deploy_ObservedGeneration : Z;
  deploy_UnavailableReplicas : Z;
  deploy_TemplateAnnotations : option (gmap string string)
}.

Definition CheckDeploymentAvailability (deployment : Deployment) : bool :=
  if decide (deploy_Generation deployment ≠ deploy_ObservedGeneration deployment) then false
  else if decide (deploy_UnavailableReplicas deployment ≠ 0%Z) then false
  else true.

(** * Theorems *)

(** A selector that resolves: the literal, or the value its reference names. *)
Inductive selects `{SelectorClient A} (r : A) (ns : string) :
    SecretConfigMapSelector → string → Prop :=
| selects_literal v : selects r ns (mkSelector v None) v
| selects_configmap v ref sk data x :
    Get_ConfigMap r ns (ref_Name ref) = inr data → data !! ref_Key ref = Some x →
    selects r ns (mkSelector v (Some (mkValueSource (Some ref) sk))) x
| selects_secret v ref data x :
    Get_Secret r ns (ref_Name ref) = inr data → data !! ref_Key ref = Some x →
    selects r ns (mkSelector v (Some (mkValueSource None (Some ref)))) x.

Section SelectorFacts.
Context {A : Type} `{SelectorClient A, TextTemplate}.
Implicit Types (r : A).

(** [Resolve] answers exactly the value the selector selects. *)
Lemma Selector_Resolve_spec s r ns x :
  Selector_Resolve s r ns = inr x ↔ selects r ns s x.
Proof.
  split.
  - destruct s as [v [[[ref|] [ref'|]]|]]; cbn;
      unfold ValueSource_Resolve, fetchFromConfigMap, fetchFromSecret; cbn;
      repeat case_match; intros; simplify_eq; eauto using selects.
  - destruct 1; cbn; unfold ValueSource_Resolve, fetchFromConfigMap, fetchFromSecret; cbn;
      repeat (case_match; simplify_eq); done.
Qed.

(** The value of a parameter is the last one given under its name. *)
Lemma resolve_parameters_spec params r ns : ∀ m m',
  resolve_parameters params r ns m = inr m' →
  (∀ x, x ∉ (tp_Name <$> params) → m' !! x = m !! x) ∧
  (∀ p1 p p2, params = p1 ++ p :: p2 → tp_Name p ∉ (tp_Name <$> p2) →
     ∃ v, selects r ns (tp_Selector p) v ∧ m' !! tp_Name p = Some v).
Proof.
  induction params as [|p params IH]; intros m m' Hr; simplify_eq/=.
  { split; [done|]. by intros []. }
  destruct (TemplateParameter_Resolve p r ns) as [|v] eqn:Hv; simplify_eq.
  apply IH in Hr as [Hout Hin]. split.
  - intros x [Hx ?]%not_elem_of_cons. rewrite Hout by done.
    by rewrite lookup_insert_ne.
  - intros [|p0 p1] q p2 Heq Hq; simplify_eq/=; [|by eapply Hin].
    exists v. split; [by apply Selector_Resolve_spec|].
    rewrite Hout by done. apply lookup_insert_eq.
Qed.

(** A literal without parameters renders to itself, whatever the cluster
    holds: no template is parsed. *)
Lemma Render_literal v src r ns :
  v ≠ "" → Render (Some (mkTemplateFrom (mkSelector v src) [])) r ns = Done (inr v).
Proof. intros Hv. cbn. unfold ResolveTemplate. cbn. by rewrite decide_True. Qed.

(** Rendering panics exactly on a nil template, and on one that has neither
    a non-empty literal nor a source. *)
Lemma Render_panics tf r ns :
  Render tf r ns = Panicked ↔
  match tf with
  | None => True
  | Some tf => Value (tf_Selector tf) = "" ∧ ValueFrom (tf_Selector tf) = None
  end.
Proof.
  destruct tf as [tf|]; [|done]. cbn. unfold ResolveTemplate.
  destruct (decide (Value (tf_Selector tf) ≠ "")) as [Hv|Hv].
  - split; [|by intros [? _]]. intros Hp. exfalso. revert Hp.
    destruct (ResolveTemplateParameters _ _ _); [done|].
    repeat case_match; done.
  - apply dec_stable in Hv.
    destruct (ValueFrom (tf_Selector tf)) eqn:Hsrc; [|done].
    split; [|by intros []]. intros Hp. exfalso. revert Hp.
    repeat case_match; done.
Qed.
End SelectorFacts.

(** ** What selectors and templates depend on: ConfigMaps and Secrets *)
Section Reads.
Context {A : Type} `{SelectorClient A, TextTemplate}.

Definition same_reads : relation A := λ a a', ∀ ns n,
  Get_ConfigMap a' ns n = Get_ConfigMap a ns n ∧ Get_Secret a' ns n = Get_Secret a ns n.
#[export] Instance same_reads_preorder : PreOrder same_reads.
Proof.
  split; [done|]. intros a1 a2 a3 Hr1 Hr2 ns n. destruct (Hr1 ns n), (Hr2 ns n). split; congruence.
Qed.

Lemma source_reads a a' src ns : same_reads a a' → ValueSource_Resolve src a' ns = ValueSource_Resolve src a ns.
Proof.
  intros Hr. unfold ValueSource_Resolve, fetchFromConfigMap, fetchFromSecret.
  destruct (ConfigMapKeyRef src) as [ref|], (SecretKeyRef src) as [ref'|]; try done;
    by rewrite ?(proj1 (Hr ns _)), ?(proj2 (Hr ns _)).
Qed.

Lemma Selector_reads a a' sel ns : same_reads a a' → Selector_Resolve sel a' ns = Selector_Resolve sel a ns.
Proof. intros Hr. unfold Selector_Resolve. destruct (ValueFrom sel); [by apply source_reads|done]. Qed.

Lemma parameters_reads a a' params ns m :
  same_reads a a' → resolve_parameters params a' ns m = resolve_parameters params a ns m.
Proof.
  intros Hr. revert m. induction params as [|p params IH]; intros m; [done|]. cbn [resolve_parameters].
  assert (TemplateParameter_Resolve p a' ns = TemplateParameter_Resolve p a ns) as ->.
  { by apply Selector_reads. }
  by destruct (TemplateParameter_Resolve p a ns).
Qed.

Lemma Render_reads a a' tf ns : same_reads a a' → Render tf a' ns = Render tf a ns.
Proof.
  intros Hr. destruct tf as [tf|]; [|done]. cbn [Render].
  assert (ResolveTemplate tf a' ns = ResolveTemplate tf a ns) as ->.
  { unfold ResolveTemplate. case_decide; [done|]. destruct (ValueFrom _); [|done]. by rewrite (source_reads a a'). }
  unfold ResolveTemplateParameters. by rewrite (parameters_reads a a').
Qed.

End Reads.
