(* ===== verification/ApiTypes.v ===== *)
(** [api/v1alpha1]: the custom resources, their status conditions and the
    helpers declared on them. *)
From S2P Require Import Prelude GoStd Errors Selector.

(** ** Conditions *)
Inductive ConditionType :=
| ConditionReady
| ConditionValidated
| ConditionGenerated
| ConditionApplied.

Inductive ConditionReason :=
| ReasonReconciling
| ReasonReconciled
| ReasonInvalidSpec
| ReasonDependencyUnavailable
| ReasonGenerationPending
| ReasonGenerationFailed
| ReasonApplyFailed
| ReasonCleanupFailed
| ReasonReloadFailed
| ReasonTemplateResolutionFailed.

Definition ConditionType_string (t : ConditionType) : string :=
  match t with
  | ConditionReady => "Ready"
  | ConditionValidated => "Validated"
  | ConditionGenerated => "Generated"
  | ConditionApplied => "Applied"
  end.

Definition ConditionReason_string (r : ConditionReason) : string :=
  match r with
  | ReasonReconciling => "Reconciling"
  | ReasonReconciled => "Reconciled"
  | ReasonInvalidSpec => "InvalidSpec"
  | ReasonDependencyUnavailable => "DependencyUnavailable"
  | ReasonGenerationPending => "GenerationPending"
  | ReasonGenerationFailed => "GenerationFailed"
  | ReasonApplyFailed => "ApplyFailed"
  | ReasonCleanupFailed => "CleanupFailed"
  | ReasonReloadFailed => "ReloadFailed"
  | ReasonTemplateResolutionFailed => "TemplateResolutionFailed"
  end.

#[export] Instance ConditionType_eq_dec : EqDecision ConditionType.
Proof. solve_decision. Defined.
#[export] Instance ConditionType_string_inj : Inj (=) (=) ConditionType_string.
Proof. by intros [] []. Qed.
#[export] Instance ConditionReason_string_inj : Inj (=) (=) ConditionReason_string.
Proof. by intros [] []. Qed.

(** metav1.ConditionStatus and the fields of metav1.Condition the program sets. *)
Inductive ConditionStatus := ConditionTrue | ConditionFalse | ConditionUnknown.
#[export] Instance ConditionStatus_eq_dec : EqDecision ConditionStatus.
Proof. solve_decision. Defined.

Record Condition := mkCondition {
  cond_Type : string;
  cond_Status : ConditionStatus;
  cond_Reason : string;
  cond_Message : string;
  cond_ObservedGeneration : Z
}.
#[export] Instance Condition_eq_dec : EqDecision Condition.
Proof. solve_decision. Defined.

(** The helpers of k8s.io/apimachinery/pkg/api/meta on a list of conditions. *)
Class MetaConditions := {
  SetStatusCondition : list Condition → Condition → list Condition;
  FindStatusCondition : list Condition → string → option Condition
}.

(** Their documented behaviour: setting a condition makes it the condition of
    its type and keeps those of the other types. *)
Class MetaConditionsLaws `{MetaConditions} : Prop := {
  find_nil t : FindStatusCondition [] t = None;
  find_set_eq cs c : FindStatusCondition (SetStatusCondition cs c) (cond_Type c) = Some c;
  find_set_ne cs c t : cond_Type c ≠ t →
    FindStatusCondition (SetStatusCondition cs c) t = FindStatusCondition cs t
}.

(** meta.IsStatusConditionFalse. *)
Definition IsStatusConditionFalse `{MetaConditions} (cs : list Condition) (t : string) : bool :=
  match FindStatusCondition cs t with
  | Some c => bool_decide (cond_Status c = ConditionFalse)
  | None => false
  end.

(** ** Object metadata: the fields of metav1.ObjectMeta the program uses *)
Record ObjectMeta := mkObjectMeta {
  Name : string;
  Namespace : string;
  UID : string;
  Generation : Z;
  DeletionTimestamp : option Z;
  Finalizers : list string
}.

Definition set_Finalizers (fs : list string) (m : ObjectMeta) : ObjectMeta :=
  {| Name := Name m; Namespace := Namespace m; UID := UID m; Generation := Generation m;
     DeletionTimestamp := DeletionTimestamp m; Finalizers := fs |}.

(** The helpers of controller-runtime's controllerutil on finalizers. *)
Class FinalizerUtil := {
  ContainsFinalizer : list string → string → bool;
  AddFinalizer : list string → string → list string;
  RemoveFinalizer : list string → string → list string
}.

Class FinalizerUtilLaws `{FinalizerUtil} : Prop := {
  contains_finalizer fs f : ContainsFinalizer fs f = true ↔ f ∈ fs;
  elem_of_add_finalizer fs f g : g ∈ AddFinalizer fs f ↔ g ∈ fs ∨ g = f;
  elem_of_remove_finalizer fs f g : g ∈ RemoveFinalizer fs f ↔ g ∈ fs ∧ g ≠ f
}.

(** A Go map that may be nil. *)
Abbreviation labels_ptr := (option (gmap string string)).

(** ** DataCenterResource *)
Record ParentRef := mkParentRef {
  pr_Name : string;
  pr_Coefficient : string;
  pr_CoefficientFrom : option TemplateFrom
}.

Record DataCenterResourceSpec := mkDataCenterResourceSpec {
  dcr_Type : string;
  dcr_PhysicalMeasurements : list string;
  dcr_Parents : list ParentRef;
  dcr_EnergyMetric : string;
  dcr_EnergyMetricFrom : option TemplateFrom;
  dcr_AdditionalLabels : labels_ptr
}.

Record DataCenterResourceStatus := mkDataCenterResourceStatus {
  dcr_ObservedGeneration : Z;
  dcr_InvolvedResource : string;
  dcr_Conditions : list Condition
}.

Record DataCenterResource := mkDataCenterResource {
  dcr_Meta : ObjectMeta;
  dcr_Spec : DataCenterResourceSpec;
  dcr_Status : DataCenterResourceStatus
}.

(** The zero value of the type, which a missing map entry yields. *)
Definition zero_meta : ObjectMeta := mkObjectMeta "" "" "" 0 None [].
Definition zero_dcr : DataCenterResource :=
  {| dcr_Meta := zero_meta;
     dcr_Spec := mkDataCenterResourceSpec "" [] [] "" None None;
     dcr_Status := mkDataCenterResourceStatus 0 "" [] |}.

Definition DataCenterResourceGraphFinalizer : string :=
  "datacenterresource.finalizer.chantico-project.github.io/graph".

(** [ParentNames]: nil and the empty slice are both the empty list. *)
Definition ParentNames (s : DataCenterResourceSpec) : list string :=
  pr_Name <$> dcr_Parents s.

Definition dcr_Name (d : DataCenterResource) : string := Name (dcr_Meta d).

Definition set_dcr_Meta (m : ObjectMeta) (d : DataCenterResource) : DataCenterResource :=
  {| dcr_Meta := m; dcr_Spec := dcr_Spec d; dcr_Status := dcr_Status d |}.
Definition set_dcr_Spec (s : DataCenterResourceSpec) (d : DataCenterResource) : DataCenterResource :=
  {| dcr_Meta := dcr_Meta d; dcr_Spec := s; dcr_Status := dcr_Status d |}.
Definition set_dcr_Status (s : DataCenterResourceStatus) (d : DataCenterResource) : DataCenterResource :=
  {| dcr_Meta := dcr_Meta d; dcr_Spec := dcr_Spec d; dcr_Status := s |}.
Definition set_dcr_Conditions (cs : list Condition) (d : DataCenterResource) : DataCenterResource :=
  set_dcr_Status (mkDataCenterResourceStatus (dcr_ObservedGeneration (dcr_Status d))
                    (dcr_InvolvedResource (dcr_Status d)) cs) d.
Definition set_dcr_InvolvedResource (n : string) (d : DataCenterResource) : DataCenterResource :=
  set_dcr_Status (mkDataCenterResourceStatus (dcr_ObservedGeneration (dcr_Status d))
                    n (dcr_Conditions (dcr_Status d))) d.

(** ** PhysicalMeasurement *)
Definition PhysicalMeasurementTypeSNMP : string := "snmp".
Definition PhysicalMeasurementTypePrometheusExporter : string := "prometheus-exporter".

Record PhysicalMeasurementSpec := mkPhysicalMeasurementSpec {
  pm_Type : string;
  pm_Ip : string;
  pm_MeasurementDevice : string;
  pm_AdditionalLabels : labels_ptr
}.

Record PhysicalMeasurementStatus := mkPhysicalMeasurementStatus {
  pm_ObservedGeneration : Z;
  pm_Conditions : list Condition
}.

Record PhysicalMeasurement := mkPhysicalMeasurement {
  pm_Meta : ObjectMeta;
  pm_Spec : PhysicalMeasurementSpec;
  pm_Status : PhysicalMeasurementStatus
}.

Definition PhysicalMeasurementFinalizer : string :=
  "physicalmeasurement.chantico-project.github.io/finalizer".

(** Durations are counted in nanoseconds. *)
Definition second : Z := 1000000000.
Definition EndpointRequeueDelay : Z := 30 * second.

Definition pm_Name (p : PhysicalMeasurement) : string := Name (pm_Meta p).
Definition set_pm_Meta (m : ObjectMeta) (p : PhysicalMeasurement) : PhysicalMeasurement :=
  {| pm_Meta := m; pm_Spec := pm_Spec p; pm_Status := pm_Status p |}.
Definition set_pm_Conditions (cs : list Condition) (p : PhysicalMeasurement) : PhysicalMeasurement :=
  {| pm_Meta := pm_Meta p; pm_Spec := pm_Spec p;
     pm_Status := mkPhysicalMeasurementStatus (pm_ObservedGeneration (pm_Status p)) cs |}.

(** ** MeasurementDevice *)
Record MeasurementDeviceSpec := mkMeasurementDeviceSpec {
  md_Walks : list string;
  md_AuthFrom : option SecretConfigMapSelector
}.

Record MeasurementDeviceStatus := mkMeasurementDeviceStatus {
  md_ObservedGeneration : Z;
  md_ConfigHash : string;
  md_Conditions : list Condition
}.

Record MeasurementDevice := mkMeasurementDevice {
  md_Meta : ObjectMeta;
  md_Spec : MeasurementDeviceSpec;
  md_Status : MeasurementDeviceStatus
}.

Definition SNMPUpdateFinalizer : string :=
  "measurementdevice.finalizer.chantico-project.github.io/snmp-update".

Definition set_md_Meta (m : ObjectMeta) (d : MeasurementDevice) : MeasurementDevice :=
  {| md_Meta := m; md_Spec := md_Spec d; md_Status := md_Status d |}.
Definition set_md_Conditions (cs : list Condition) (d : MeasurementDevice) : MeasurementDevice :=
  {| md_Meta := md_Meta d; md_Spec := md_Spec d;
     md_Status := mkMeasurementDeviceStatus (md_ObservedGeneration (md_Status d))
                    (md_ConfigHash (md_Status d)) cs |}.
Definition set_md_ConfigHash (h : string) (d : MeasurementDevice) : MeasurementDevice :=
  {| md_Meta := md_Meta d; md_Spec := md_Spec d;
     md_Status := mkMeasurementDeviceStatus (md_ObservedGeneration (md_Status d))
                    h (md_Conditions (md_Status d)) |}.

(** ** UpdateStatusCondition

    The three resources declare the same method; a class names what it uses. *)
Class Conditioned (Obj : Type) := {
  obj_Meta : Obj → ObjectMeta;
  set_obj_Meta : ObjectMeta → Obj → Obj;
  GetConditions : Obj → list Condition;
  set_Conditions : list Condition → Obj → Obj
}.

Class ConditionedLaws (Obj : Type) `{Conditioned Obj} : Prop := {
  get_set_conditions cs o : GetConditions (set_Conditions cs o) = cs;
  meta_set_conditions cs o : obj_Meta (set_Conditions cs o) = obj_Meta o;
  meta_set_meta m o : obj_Meta (set_obj_Meta m o) = m;
  get_set_meta m o : GetConditions (set_obj_Meta m o) = GetConditions o
}.

#[export] Instance dcr_conditioned : Conditioned DataCenterResource :=
  {| obj_Meta := dcr_Meta; set_obj_Meta := set_dcr_Meta;
     GetConditions d := dcr_Conditions (dcr_Status d); set_Conditions := set_dcr_Conditions |}.
#[export] Instance pm_conditioned : Conditioned PhysicalMeasurement :=
  {| obj_Meta := pm_Meta; set_obj_Meta := set_pm_Meta;
     GetConditions p := pm_Conditions (pm_Status p); set_Conditions := set_pm_Conditions |}.
#[export] Instance md_conditioned : Conditioned MeasurementDevice :=
  {| obj_Meta := md_Meta; set_obj_Meta := set_md_Meta;
     GetConditions d := md_Conditions (md_Status d); set_Conditions := set_md_Conditions |}.

#[export] Instance dcr_conditioned_laws : ConditionedLaws DataCenterResource.
Proof. by split. Qed.
#[export] Instance pm_conditioned_laws : ConditionedLaws PhysicalMeasurement.
Proof. by split. Qed.
#[export] Instance md_conditioned_laws : ConditionedLaws MeasurementDevice.
Proof. by split. Qed.

Definition UpdateStatusCondition `{MetaConditions} {Obj} `{Conditioned Obj}
    (t : ConditionType) (s : ConditionStatus) (reason : ConditionReason) (msg : string) (o : Obj) : Obj :=
  set_Conditions
    (SetStatusCondition (GetConditions o)
       {| cond_Type := ConditionType_string t; cond_Status := s;
          cond_Reason := ConditionReason_string reason; cond_Message := msg;
          cond_ObservedGeneration := Generation (obj_Meta o) |}) o.

(** The status a resource shows for a condition. *)
Definition condition_status `{MetaConditions} {Obj} `{Conditioned Obj} (t : ConditionType) (o : Obj) :
    option ConditionStatus :=
  cond_Status <$> FindStatusCondition (GetConditions o) (ConditionType_string t).

Section ConditionFacts.
Context `{MetaConditionsLaws} {Obj} `{ConditionedLaws Obj}.

Lemma find_set cs c t :
  FindStatusCondition (SetStatusCondition cs c) t =
  if decide (cond_Type c = t) then Some c else FindStatusCondition cs t.
Proof. case_decide; subst; [apply find_set_eq|by apply find_set_ne]. Qed.

Lemma condition_status_update t t' s r msg (o : Obj) :
  condition_status t (UpdateStatusCondition t' s r msg o) =
  if decide (t = t') then Some s else condition_status t o.
Proof.
  unfold condition_status, UpdateStatusCondition. rewrite get_set_conditions, find_set.
  simpl. repeat case_decide; simplify_eq; done.
Qed.

Lemma meta_update t s r msg (o : Obj) :
  obj_Meta (UpdateStatusCondition t s r msg o) = obj_Meta o.
Proof. apply meta_set_conditions. Qed.
End ConditionFacts.

(** ** A concrete instance of the helpers: replace in place or append *)
Module SimpleHelpers.
Fixpoint set_condition (cs : list Condition) (c : Condition) : list Condition :=
  match cs with
  | [] => [c]
  | c0 :: cs' => if decide (cond_Type c0 = cond_Type c) then c :: cs'
                 else c0 :: set_condition cs' c
  end.
Fixpoint find_condition (cs : list Condition) (t : string) : option Condition :=
  match cs with
  | [] => None
  | c :: cs' => if decide (cond_Type c = t) then Some c else find_condition cs' t
  end.

#[export] Instance meta_conditions : MetaConditions :=
  {| SetStatusCondition := set_condition; FindStatusCondition := find_condition |}.
#[export] Instance meta_conditions_laws : MetaConditionsLaws.
Proof.
  split; simpl; [done|..].
  - induction cs as [|c0 cs IH]; intros c; simpl; repeat case_decide; simpl;
      repeat case_decide; congruence || auto.
  - induction cs as [|c0 cs IH]; intros c t Ht; simpl; repeat case_decide; simpl;
      repeat case_decide; congruence || auto.
Qed.

#[export] Instance finalizer_util : FinalizerUtil :=
  {| ContainsFinalizer fs f := bool_decide (f ∈ fs);
     AddFinalizer fs f := if decide (f ∈ fs) then fs else fs ++ [f];
     RemoveFinalizer fs f := filter (λ g, g ≠ f) fs |}.
#[export] Instance finalizer_util_laws : FinalizerUtilLaws.
Proof.
  split; simpl; intros.
  - apply bool_decide_eq_true.
  - case_decide; set_solver.
  - rewrite list_elem_of_filter. tauto.
Qed.
End SimpleHelpers.
