(* ===== verification/GoHeap.v ===== *)
(** Memory of the language: pointers, slices and maps refer to cells of a heap.
    What a value stands for is stated with the fragment of the heap that it owns,
    and what a computation makes with the fragment it adds. *)
From S2P Require Import Prelude.

Abbreviation loc := positive.

Section Heap.
Context {C : Type}.
Abbreviation heap := (gmap loc C).
Implicit Types (h m : heap) (l : loc).

(** The types that have cells. *)
Class Cell (T : Type) := {
  to_cell : T → C;
  of_cell : C → option T;
  of_to_cell v : of_cell (to_cell v) = Some v
}.

(** [new] with what is written to it, reading and writing through a pointer; a
    pointer to nothing of its type is a panic. *)
Definition alloc `{Cell T} (v : T) : Go heap loc := λ h,
  let l := fresh (dom h) in (Done l, <[l := to_cell v]> h).
Definition load `{Cell T} l : Go heap T := λ h,
  match h !! l ≫= of_cell with Some v => (Done v, h) | None => (Panicked, h) end.
Definition store `{Cell T} l (v : T) : Go heap unit := λ h,
  match h !! l with Some _ => (Done tt, <[l := to_cell v]> h) | None => (Panicked, h) end.

(** References, which may be nil.  A slice is all of its array. *)
Record ptr (T : Type) := Ptr { target : option loc }.
Record slice (T : Type) := Slice { array : option loc }.
Record gomap (T : Type) := GoMap { table : option loc }.
End Heap.
Arguments Cell : clear implicits.
Arguments Ptr {T}.
Arguments target {T}.
Arguments Slice {T}.
Arguments array {T}.
Arguments GoMap {T}.
Arguments table {T}.
Arguments ptr : clear implicits.
Arguments slice : clear implicits.
Arguments gomap : clear implicits.

(** ** Fragments *)
Section Fragments.
Context {C : Type}.
Abbreviation heap := (gmap loc C).
Implicit Types (h m : heap) (l : loc).

(** [owns g x m]: the value [g] stands for [x], with [m] all the cells it reaches. *)
Class Owned (G X : Type) := owns : G → X → heap → Prop.
(** The result of a [DeepCopyInto]. *)
Class DeepCopied (G : Type) := deep_copy : G → Go heap G.

(** A computation ends well over [h] and leaves it as it is but for new cells. *)
Definition makes {X} (c : Go heap X) h (Q : X → heap → Prop) : Prop :=
  ∃ x m, c h = (Done x, m ∪ h) ∧ m ##ₘ h ∧ Q x m.

Class DeepCopyLaws (G X : Type) `{Owned G X, DeepCopied G} : Prop :=
  deep_copy_makes g x m h : owns g x m → m ⊆ h → makes (deep_copy g) h (λ g', owns g' x).

Lemma makes_ret {X} (x : X) h (Q : X → heap → Prop) : Q x ∅ → makes (mret x) h Q.
Proof.
  intros HQ. exists x, ∅. rewrite (left_id_L ∅ (∪)). split; [done|]. split; [apply map_disjoint_empty_l|done].
Qed.

Lemma makes_bind {X Y} (c : Go heap X) (f : X → Go heap Y) h Q1 (Q2 : Y → heap → Prop) :
  makes c h Q1 →
  (∀ x m1, Q1 x m1 → m1 ##ₘ h →
     makes (f x) (m1 ∪ h) (λ y m2, m2 ##ₘ m1 → Q2 y (m2 ∪ m1))) →
  makes (c ≫= f) h Q2.
Proof.
  intros (x & m1 & Hc & Hd & HQ1) Hf. destruct (Hf x m1 HQ1 Hd) as (y & m2 & Hfx & Hd2 & HQ2).
  apply map_disjoint_union_r in Hd2 as [Hd21 Hd2h].
  exists y, (m2 ∪ m1). rewrite run_bind, Hc, Hfx. rewrite (assoc_L (∪)).
  split; [done|]. split; [by apply map_disjoint_union_l|by apply HQ2].
Qed.

Lemma makes_load `{Cell C T} l (v : T) h (Q : T → heap → Prop) :
  h !! l = Some (to_cell v) → Q v ∅ → makes (load l) h Q.
Proof.
  intros Hl HQ. exists v, ∅. rewrite (left_id_L ∅ (∪)). split; [|split; [apply map_disjoint_empty_l|done]].
  unfold load. rewrite Hl. simpl. by rewrite of_to_cell.
Qed.

Lemma makes_alloc `{Cell C T} (v : T) h (Q : loc → heap → Prop) :
  (∀ l, h !! l = None → Q l {[l := to_cell v]}) → makes (alloc v) h Q.
Proof.
  intros HQ. unfold makes, alloc. set (l := fresh (dom h)).
  assert (h !! l = None) as Hl by (apply not_elem_of_dom, is_fresh).
  exists l, {[l := to_cell v]}. split; [by rewrite insert_union_singleton_l|].
  split; [by apply map_disjoint_singleton_l|by apply HQ].
Qed.

(** A copy of what is owned, and then the rest. *)
Lemma makes_copy {G X Y} `{DeepCopyLaws G X} g x m (f : G → Go heap Y) h (Q : Y → heap → Prop) :
  owns g x m → m ⊆ h →
  (∀ g' m1, owns g' x m1 → m1 ##ₘ h → makes (f g') (m1 ∪ h) (λ y m2, m2 ##ₘ m1 → Q y (m2 ∪ m1))) →
  makes (deep_copy g ≫= f) h Q.
Proof. intros Ho Hm. apply makes_bind. by apply (deep_copy_makes g x m). Qed.

(** Two assertions of separate parts; a fact of no part. *)
Definition star (P Q : heap → Prop) m : Prop := ∃ m1 m2, m = m1 ∪ m2 ∧ m1 ##ₘ m2 ∧ P m1 ∧ Q m2.
Definition fact (φ : Prop) m : Prop := φ ∧ m = ∅.

(** A field is copied, and then the rest of the record. *)
Lemma copy_field {G X Y} `{DeepCopyLaws G X} g x (P : heap → Prop) m (f : G → Go heap Y) h
    (Q : Y → heap → Prop) :
  star (owns g x) P m → m ⊆ h →
  (∀ g' m2 h', P m2 → m2 ⊆ h' →
     makes (f g') h' (λ y m', ∀ m1, m1 ##ₘ m' → owns g' x m1 → Q y (m1 ∪ m'))) →
  makes (deep_copy g ≫= f) h Q.
Proof.
  intros (m1 & m2 & -> & Hd & Ho & HP) Hm Hf.
  assert (m1 ⊆ h) as Hm1 by (etrans; [apply map_union_subseteq_l|exact Hm]).
  assert (m2 ⊆ h) as Hm2 by (etrans; [by apply map_union_subseteq_r|exact Hm]).
  apply (makes_copy g x m1); [done|done|]. intros g' n1 Hg' Hd1.
  destruct (Hf g' m2 (n1 ∪ h) HP) as (y & n2 & Hr & Hd2 & HQ).
  { etrans; [exact Hm2|]. by apply map_union_subseteq_r. }
  exists y, n2. split; [done|]. split; [done|]. intros Hd3. rewrite map_union_comm by done.
  by apply HQ.
Qed.

(** Parts of what is there are there when more is. *)
Lemma sub_l m1 m2 h : m1 ∪ m2 ⊆ h → m1 ⊆ h.
Proof. intros Hs. etrans; [|exact Hs]. apply map_union_subseteq_l. Qed.
Lemma sub_r m1 m2 h : m1 ##ₘ m2 → m1 ∪ m2 ⊆ h → m2 ⊆ h.
Proof. intros Hd Hs. etrans; [|exact Hs]. by apply map_union_subseteq_r. Qed.
Lemma sub_more m1 m h : m ⊆ h → m1 ##ₘ h → m ⊆ m1 ∪ h.
Proof. intros Hs Hd. etrans; [exact Hs|]. by apply map_union_subseteq_r. Qed.

(** ** Values without references: they are what they stand for *)
Definition owns_flat {X} (g x : X) m : Prop := g = x ∧ m = ∅.
Lemma flat_copy {X} (g x : X) m h : owns_flat g x m → makes (mret g) h (λ g', owns_flat g' x).
Proof. intros [-> ->]. by apply makes_ret. Qed.

(** ** Pointers *)
Section Pointer.
Context {G X : Type} `{Cell C G, Owned G X, DeepCopied G, !DeepCopyLaws G X}.

#[export] Instance owned_ptr : Owned (ptr G) (option X) := λ p o m,
  match target p, o with
  | None, None => m = ∅
  | Some l, Some x => ∃ g m1, m = {[l := to_cell g]} ∪ m1 ∧ m1 !! l = None ∧ owns g x m1
  | _, _ => False
  end.

(** if in == nil { return nil }; out := new(T); in.DeepCopyInto(out); return out *)
Definition new_copy (p : ptr G) : Go heap (ptr G) :=
  match target p with
  | None => mret (Ptr None)
  | Some l => v ← load l; v' ← deep_copy v; l' ← alloc v'; mret (Ptr (Some l'))
  end.
(** if in.F != nil { *out = new(T); ( *in).DeepCopyInto( *out) } *)
#[export] Instance copied_ptr : DeepCopied (ptr G) := new_copy.

#[export] Instance ptr_laws : DeepCopyLaws (ptr G) (option X).
Proof.
  intros [[l|]] [x|] m h Ho Hm; unfold owns, owned_ptr in Ho; cbn in Ho; try done.
  - destruct Ho as (g & m1 & -> & Hl & Ho). unfold deep_copy, copied_ptr, new_copy. cbn [target].
    assert ({[l := to_cell g]} ##ₘ m1) as Hd by (by apply map_disjoint_singleton_l).
    apply makes_bind with (λ v m0, v = g ∧ m0 = ∅).
    { apply makes_load with g; [|done]. apply (lookup_weaken {[l := to_cell g]}); [apply lookup_singleton_eq|].
      by eapply sub_l. }
    intros v m0 [-> ->] _. rewrite (left_id_L ∅ (∪)).
    eapply makes_copy; [done|by eapply sub_r|]. intros g' m1' Ho' Hd'.
    apply makes_bind with (λ l' m2, m2 = {[l' := to_cell g']} ∧ (m1' ∪ h) !! l' = None).
    { by apply makes_alloc. }
    intros l' m2 [-> Hl'] _. apply makes_ret. intros _ _ _.
    apply lookup_union_None in Hl' as [Hl' _]. exists g', m1'.
    by rewrite (left_id_L ∅ (∪)), (right_id_L ∅ (∪)).
  - subst m. by apply makes_ret.
Qed.
End Pointer.

(** ** Slices *)
Section Slice.
Context {G X : Type} `{Cell C (list G), Owned G X, DeepCopied G, !DeepCopyLaws G X}.

Fixpoint owns_list (gs : list G) (xs : list X) m : Prop :=
  match gs, xs with
  | [], [] => m = ∅
  | g :: gs, x :: xs => ∃ m1 m2, m = m1 ∪ m2 ∧ m1 ##ₘ m2 ∧ owns g x m1 ∧ owns_list gs xs m2
  | _, _ => False
  end.

#[export] Instance owned_slice : Owned (slice G) (list X) := λ s xs m,
  match array s with
  | None => xs = [] ∧ m = ∅
  | Some l => ∃ gs m1, m = {[l := to_cell gs]} ∪ m1 ∧ m1 !! l = None ∧ owns_list gs xs m1
  end.

(** *out = make([]T, len( *in)); for i := range *in { ( *in)[i].DeepCopyInto(&( *out)[i]) } *)
#[export] Instance copied_slice : DeepCopied (slice G) := λ s,
  match array s with
  | None => mret (Slice None)
  | Some l => vs ← load l; vs' ← mapM deep_copy vs; l' ← alloc vs'; mret (Slice (Some l'))
  end.

Lemma copy_list gs : ∀ xs m h,
  owns_list gs xs m → m ⊆ h → makes (mapM deep_copy gs) h (λ gs', owns_list gs' xs).
Proof.
  induction gs as [|g gs IH]; intros [|x xs] m h Ho Hm; cbn in Ho; try done.
  - by apply makes_ret.
  - destruct Ho as (m1 & m2 & -> & Hd & Hg & Hgs). cbn [mapM].
    eapply makes_copy; [done|by eapply sub_l|]. intros g' m1' Hg' Hd'.
    eapply makes_bind; [apply (IH xs m2); [done|]|].
    { apply sub_more; [by eapply sub_r|done]. }
    intros gs' m2' Hgs' _. apply makes_ret. intros _ Hd2. rewrite (left_id_L ∅ (∪)) in *.
    exists m1', m2'. rewrite map_union_comm by done. by split_and!.
Qed.

#[export] Instance slice_laws : DeepCopyLaws (slice G) (list X).
Proof.
  intros [[l|]] xs m h Ho Hm; unfold owns, owned_slice in Ho; cbn [array] in Ho.
  - destruct Ho as (gs & m1 & -> & Hl & Ho). unfold deep_copy at 1, copied_slice. cbn [array].
    assert ({[l := to_cell gs]} ##ₘ m1) as Hd by (by apply map_disjoint_singleton_l).
    apply makes_bind with (λ v m0, v = gs ∧ m0 = ∅).
    { apply makes_load with gs; [|done]. apply (lookup_weaken {[l := to_cell gs]}); [apply lookup_singleton_eq|].
      by eapply sub_l. }
    intros v m0 [-> ->] _. rewrite (left_id_L ∅ (∪)).
    eapply makes_bind; [apply (copy_list gs xs m1); [done|by eapply sub_r]|]. intros gs' m1' Ho' Hd'.
    apply makes_bind with (λ l' m2, m2 = {[l' := to_cell gs']} ∧ (m1' ∪ h) !! l' = None).
    { by apply makes_alloc. }
    intros l' m2 [-> Hl'] _. apply makes_ret. intros _ _ _.
    apply lookup_union_None in Hl' as [Hl' _]. exists gs', m1'.
    by rewrite (left_id_L ∅ (∪)), (right_id_L ∅ (∪)).
  - destruct Ho as [-> ->]. by apply makes_ret.
Qed.
End Slice.

(** ** Maps of flat values *)
Section Map.
Context {X : Type} `{Cell C (gmap string X)}.
#[export] Instance owned_map : Owned (gomap X) (option (gmap string X)) := λ t o m,
  match table t, o with
  | None, None => m = ∅
  | Some l, Some x => m = {[l := to_cell x]}
  | _, _ => False
  end.

(** *out = make(map[string]T, len( *in)); for key, val := range *in { ( *out)[key] = val } *)
#[export] Instance copied_map : DeepCopied (gomap X) := λ t,
  match table t with
  | None => mret (GoMap None)
  | Some l =>
      entries ← load l;
      l' ← alloc (list_to_map (map_to_list entries) : gmap string X);
      mret (GoMap (Some l'))
  end.

#[export] Instance map_laws : DeepCopyLaws (gomap X) (option (gmap string X)).
Proof.
  intros [[l|]] [x|] m h Ho Hm; unfold owns, owned_map in Ho; cbn in Ho; try done; subst m.
  - unfold deep_copy, copied_map. cbn [table].
    apply makes_bind with (λ v m0, v = x ∧ m0 = ∅).
    { apply makes_load with x; [|done].
      apply (lookup_weaken {[l := to_cell x]}); [apply lookup_singleton_eq|done]. }
    intros v m0 [-> ->] _. rewrite (left_id_L ∅ (∪)), list_to_map_to_list.
    apply makes_bind with (λ l' m2, m2 = {[l' := to_cell x]}); [by apply makes_alloc|].
    intros l' m2 -> _. apply makes_ret. intros _ _.
    by rewrite (left_id_L ∅ (∪)), (right_id_L ∅ (∪)).
  - by apply makes_ret.
Qed.
End Map.
End Fragments.

Declare Scope heap_scope.
Notation "P ∗ Q" := (star P Q) (at level 80, right associativity) : heap_scope.
Notation "⌜ φ ⌝" := (fact φ) (at level 0, φ at level 200) : heap_scope.
Bind Scope heap_scope with fact.

(** The law of a copy by fields, whose ownership ends in a fact: each field is
    copied, and what was made belongs to the record of the copies. *)
Ltac copies into owned :=
  let g := fresh "g" in let x := fresh "x" in let m := fresh "m" in let h := fresh "h" in
  let Ho := fresh "Ho" in let Hm := fresh "Hm" in
  intros g x m h Ho Hm;
  change (makes (into g) h (λ g', owned g' x)); change (owned g x m) in Ho;
  unfold into; unfold owned in Ho |- *;
  clear_copied g x m h Ho Hm
with clear_copied g x m h Ho Hm :=
  first
    [ eapply copy_field; [exact Ho|exact Hm|];
      clear m h Ho Hm;
      let g' := fresh "g'" in let m' := fresh "m" in let h' := fresh "h" in
      let Ho' := fresh "Ho" in let Hm' := fresh "Hm" in
      intros g' m' h' Ho' Hm'; clear_copied g x m' h' Ho' Hm'
    | apply makes_ret; intros; destruct Ho as [? ->];
      repeat (eexists _, _; split; [reflexivity|]; split; [eassumption|]; split; [eassumption|]);
      by split; cbn ].
