(* ===== verification/DeepCopy.v ===== *)
(** The generated deep copies ([zz_generated.deepcopy.go] of api/v1alpha1 and of
    internal/k8s) over a heap: a copy stands for the same resource as its original
    and shares no cell with anything there was, so that the rest of the
    development may take resources for values.  A name [T_DeepCopyInto] is the
    method of [T]; what it writes to its argument is its result. *)
From S2P Require Import Prelude GoStd Errors Selector ApiTypes GoHeap.

(** ** The types as they are in memory

    Metadata, conditions and key selectors are types of the Kubernetes libraries,
    with deep copies of their own. *)
Class KubeTypes := {
  MetaG : Type; ListMetaG : Type; ConditionG : Type; ConfigMapKeyG : Type; SecretKeyG : Type;
  ListMeta : Type
}.
(** metav1.TypeMeta. *)
Record TypeMeta := mkTypeMeta { Kind : string; APIVersion : string }.

Section Types.
Context `{KubeTypes}.

Record ValueSourceG := mkValueSourceG {
  g_ConfigMapKeyRef : ptr ConfigMapKeyG;
  g_SecretKeyRef : ptr SecretKeyG
}.
Record SelectorG := mkSelectorG { g_Value : string; g_ValueFrom : ptr ValueSourceG }.
Record TemplateParameterG := mkTemplateParameterG { g_tp_Name : string; g_tp_Selector : SelectorG }.
Record TemplateFromG := mkTemplateFromG {
  g_tf_Selector : SelectorG;
  g_TemplateParameters : slice TemplateParameterG
}.
Record ParentRefG := mkParentRefG {
  g_pr_Name : string;
  g_pr_Coefficient : string;
  g_pr_CoefficientFrom : ptr TemplateFromG
}.
Record DcrSpecG := mkDcrSpecG {
  g_dcr_Type : string;
  g_dcr_PhysicalMeasurements : slice string;
  g_dcr_Parents : slice ParentRefG;
  g_dcr_EnergyMetric : string;
  g_dcr_EnergyMetricFrom : ptr TemplateFromG;
  g_dcr_AdditionalLabels : gomap string
}.
Record DcrStatusG := mkDcrStatusG {
  g_dcr_ObservedGeneration : Z;
  g_dcr_InvolvedResource : string;
  g_dcr_Conditions : slice ConditionG
}.
Record DcrG := mkDcrG {
  g_dcr_TypeMeta : TypeMeta; g_dcr_Meta : MetaG; g_dcr_Spec : DcrSpecG; g_dcr_Status : DcrStatusG
}.
Record PmSpecG := mkPmSpecG {
  g_pm_Type : string;
  g_pm_Ip : string;
  g_pm_MeasurementDevice : string;
  g_pm_AdditionalLabels : gomap string
}.
Record PmStatusG := mkPmStatusG { g_pm_ObservedGeneration : Z; g_pm_Conditions : slice ConditionG }.
Record PmG := mkPmG {
  g_pm_TypeMeta : TypeMeta; g_pm_Meta : MetaG; g_pm_Spec : PmSpecG; g_pm_Status : PmStatusG
}.
Record MdSpecG := mkMdSpecG { g_md_Walks : slice string; g_md_AuthFrom : ptr SelectorG }.
Record MdStatusG := mkMdStatusG {
  g_md_ObservedGeneration : Z;
  g_md_ConfigHash : string;
  g_md_Conditions : slice ConditionG
}.
Record MdG := mkMdG {
  g_md_TypeMeta : TypeMeta; g_md_Meta : MetaG; g_md_Spec : MdSpecG; g_md_Status : MdStatusG
}.
(** The lists of the three kinds. *)
Record ListG (G : Type) := mkListG {
  g_ListTypeMeta : TypeMeta; g_ListMeta : ListMetaG; g_Items : slice G
}.

(** The contents of a cell: a variable of one of the types, the array of a slice,
    the table of a map. *)
Inductive cell :=
| CConfigMapKey (v : ConfigMapKeyG) | CSecretKey (v : SecretKeyG) | CValueSource (v : ValueSourceG) | CSelector (v : SelectorG)
| CTemplateParameter (v : TemplateParameterG) | CTemplateFrom (v : TemplateFromG)
| CParentRef (v : ParentRefG)
| CDcrSpec (v : DcrSpecG) | CDcrStatus (v : DcrStatusG) | CDcr (v : DcrG) | CDcrList (v : ListG DcrG)
| CPmSpec (v : PmSpecG) | CPmStatus (v : PmStatusG) | CPm (v : PmG) | CPmList (v : ListG PmG)
| CMdSpec (v : MdSpecG) | CMdStatus (v : MdStatusG) | CMd (v : MdG) | CMdList (v : ListG MdG)
| CStrings (v : list string) | CParameters (v : list TemplateParameterG) | CParents (v : list ParentRefG)
| CConditions (v : list ConditionG) | CDcrs (v : list DcrG) | CPms (v : list PmG) | CMds (v : list MdG)
| CTable (v : gmap string string).
End Types.
Arguments mkListG {H G}.
Arguments g_ListTypeMeta {H G}.
Arguments g_ListMeta {H G}.
Arguments g_Items {H G}.

(** ** Cells *)
Section Cells.
Context `{KubeTypes}.
#[export] Program Instance cell_cm_key : Cell cell ConfigMapKeyG :=
  {| to_cell := CConfigMapKey; of_cell c := match c with CConfigMapKey v => Some v | _ => None end |}.
#[export] Program Instance cell_secret_key : Cell cell SecretKeyG :=
  {| to_cell := CSecretKey; of_cell c := match c with CSecretKey v => Some v | _ => None end |}.
#[export] Program Instance cell_vs : Cell cell ValueSourceG :=
  {| to_cell := CValueSource; of_cell c := match c with CValueSource v => Some v | _ => None end |}.
#[export] Program Instance cell_sel : Cell cell SelectorG :=
  {| to_cell := CSelector; of_cell c := match c with CSelector v => Some v | _ => None end |}.
#[export] Program Instance cell_tp : Cell cell TemplateParameterG :=
  {| to_cell := CTemplateParameter; of_cell c := match c with CTemplateParameter v => Some v | _ => None end |}.
#[export] Program Instance cell_tf : Cell cell TemplateFromG :=
  {| to_cell := CTemplateFrom; of_cell c := match c with CTemplateFrom v => Some v | _ => None end |}.
#[export] Program Instance cell_pr : Cell cell ParentRefG :=
  {| to_cell := CParentRef; of_cell c := match c with CParentRef v => Some v | _ => None end |}.
#[export] Program Instance cell_dcr_spec : Cell cell DcrSpecG :=
  {| to_cell := CDcrSpec; of_cell c := match c with CDcrSpec v => Some v | _ => None end |}.
#[export] Program Instance cell_dcr_status : Cell cell DcrStatusG :=
  {| to_cell := CDcrStatus; of_cell c := match c with CDcrStatus v => Some v | _ => None end |}.
#[export] Program Instance cell_dcr : Cell cell DcrG :=
  {| to_cell := CDcr; of_cell c := match c with CDcr v => Some v | _ => None end |}.
#[export] Program Instance cell_dcr_list : Cell cell (ListG DcrG) :=
  {| to_cell := CDcrList; of_cell c := match c with CDcrList v => Some v | _ => None end |}.
#[export] Program Instance cell_pm_spec : Cell cell PmSpecG :=
  {| to_cell := CPmSpec; of_cell c := match c with CPmSpec v => Some v | _ => None end |}.
#[export] Program Instance cell_pm_status : Cell cell PmStatusG :=
  {| to_cell := CPmStatus; of_cell c := match c with CPmStatus v => Some v | _ => None end |}.
#[export] Program Instance cell_pm : Cell cell PmG :=
  {| to_cell := CPm; of_cell c := match c with CPm v => Some v | _ => None end |}.
#[export] Program Instance cell_pm_list : Cell cell (ListG PmG) :=
  {| to_cell := CPmList; of_cell c := match c with CPmList v => Some v | _ => None end |}.
#[export] Program Instance cell_md_spec : Cell cell MdSpecG :=
  {| to_cell := CMdSpec; of_cell c := match c with CMdSpec v => Some v | _ => None end |}.
#[export] Program Instance cell_md_status : Cell cell MdStatusG :=
  {| to_cell := CMdStatus; of_cell c := match c with CMdStatus v => Some v | _ => None end |}.
#[export] Program Instance cell_md : Cell cell MdG :=
  {| to_cell := CMd; of_cell c := match c with CMd v => Some v | _ => None end |}.
#[export] Program Instance cell_md_list : Cell cell (ListG MdG) :=
  {| to_cell := CMdList; of_cell c := match c with CMdList v => Some v | _ => None end |}.
#[export] Program Instance cell_strings : Cell cell (list string) :=
  {| to_cell := CStrings; of_cell c := match c with CStrings v => Some v | _ => None end |}.
#[export] Program Instance cell_parameters : Cell cell (list TemplateParameterG) :=
  {| to_cell := CParameters; of_cell c := match c with CParameters v => Some v | _ => None end |}.
#[export] Program Instance cell_parents : Cell cell (list ParentRefG) :=
  {| to_cell := CParents; of_cell c := match c with CParents v => Some v | _ => None end |}.
#[export] Program Instance cell_conditions : Cell cell (list ConditionG) :=
  {| to_cell := CConditions; of_cell c := match c with CConditions v => Some v | _ => None end |}.
#[export] Program Instance cell_dcrs : Cell cell (list DcrG) :=
  {| to_cell := CDcrs; of_cell c := match c with CDcrs v => Some v | _ => None end |}.
#[export] Program Instance cell_pms : Cell cell (list PmG) :=
  {| to_cell := CPms; of_cell c := match c with CPms v => Some v | _ => None end |}.
#[export] Program Instance cell_mds : Cell cell (list MdG) :=
  {| to_cell := CMds; of_cell c := match c with CMds v => Some v | _ => None end |}.
#[export] Program Instance cell_table : Cell cell (gmap string string) :=
  {| to_cell := CTable; of_cell c := match c with CTable v => Some v | _ => None end |}.
Solve All Obligations with done.
End Cells.

(** ** What the libraries promise of their deep copies *)
Class KubeCopies `{KubeTypes} := {
  meta_owned :: Owned (C:=cell) MetaG ObjectMeta;
  meta_copied :: DeepCopied (C:=cell) MetaG;
  list_meta_owned :: Owned (C:=cell) ListMetaG ListMeta;
  list_meta_copied :: DeepCopied (C:=cell) ListMetaG;
  condition_owned :: Owned (C:=cell) ConditionG Condition;
  condition_copied :: DeepCopied (C:=cell) ConditionG;
  config_map_key_owned :: Owned (C:=cell) ConfigMapKeyG KeySelector;
  config_map_key_copied :: DeepCopied (C:=cell) ConfigMapKeyG;
  secret_key_owned :: Owned (C:=cell) SecretKeyG KeySelector;
  secret_key_copied :: DeepCopied (C:=cell) SecretKeyG
}.
Class KubeCopiesLaws `{KubeCopies} : Prop := {
  meta_copy_laws :: DeepCopyLaws MetaG ObjectMeta;
  list_meta_copy_laws :: DeepCopyLaws ListMetaG ListMeta;
  condition_copy_laws :: DeepCopyLaws ConditionG Condition;
  config_map_key_copy_laws :: DeepCopyLaws ConfigMapKeyG KeySelector;
  secret_key_copy_laws :: DeepCopyLaws SecretKeyG KeySelector
}.

Section Copies.
Context `{KubeCopies}.
Abbreviation heap := (gmap loc cell).
Open Scope heap_scope.

(** Strings are assigned. *)
#[export] Instance string_owned : Owned (C:=cell) string string := owns_flat.
#[export] Instance string_copied : DeepCopied (C:=cell) string := λ s, mret s.
#[export] Instance string_copy_laws : DeepCopyLaws (C:=cell) string string.
Proof. intros g x m h Ho _. by apply flat_copy with m. Qed.

(** ** internal/k8s *)
#[export] Instance ValueSource_owned : Owned ValueSourceG ValueSource := λ g x,
  owns (g_ConfigMapKeyRef g) (ConfigMapKeyRef x) ∗ owns (g_SecretKeyRef g) (SecretKeyRef x) ∗ ⌜True⌝.
Definition ValueSource_DeepCopyInto (in_ : ValueSourceG) : Go heap ValueSourceG :=
  cm ← deep_copy (g_ConfigMapKeyRef in_);
  sk ← deep_copy (g_SecretKeyRef in_);
  mret (mkValueSourceG cm sk).
#[export] Instance ValueSource_copied : DeepCopied ValueSourceG := ValueSource_DeepCopyInto.
Definition ValueSource_DeepCopy (in_ : ptr ValueSourceG) : Go heap (ptr ValueSourceG) := new_copy in_.

#[export] Instance Selector_owned : Owned SelectorG SecretConfigMapSelector := λ g x,
  owns (g_ValueFrom g) (ValueFrom x) ∗ ⌜g_Value g = Value x⌝.
Definition Selector_DeepCopyInto (in_ : SelectorG) : Go heap SelectorG :=
  vf ← deep_copy (g_ValueFrom in_);
  mret (mkSelectorG (g_Value in_) vf).
#[export] Instance Selector_copied : DeepCopied SelectorG := Selector_DeepCopyInto.
Definition Selector_DeepCopy (in_ : ptr SelectorG) : Go heap (ptr SelectorG) := new_copy in_.

#[export] Instance TemplateParameter_owned : Owned TemplateParameterG TemplateParameter := λ g x,
  owns (g_tp_Selector g) (tp_Selector x) ∗ ⌜g_tp_Name g = tp_Name x⌝.
Definition TemplateParameter_DeepCopyInto (in_ : TemplateParameterG) : Go heap TemplateParameterG :=
  sel ← deep_copy (g_tp_Selector in_);
  mret (mkTemplateParameterG (g_tp_Name in_) sel).
#[export] Instance TemplateParameter_copied : DeepCopied TemplateParameterG := TemplateParameter_DeepCopyInto.
Definition TemplateParameter_DeepCopy (in_ : ptr TemplateParameterG) : Go heap (ptr TemplateParameterG) :=
  new_copy in_.

#[export] Instance TemplateFrom_owned : Owned TemplateFromG TemplateFrom := λ g x,
  owns (g_tf_Selector g) (tf_Selector x) ∗ owns (g_TemplateParameters g) (TemplateParameters x) ∗ ⌜True⌝.
Definition TemplateFrom_DeepCopyInto (in_ : TemplateFromG) : Go heap TemplateFromG :=
  sel ← deep_copy (g_tf_Selector in_);
  ps ← deep_copy (g_TemplateParameters in_);
  mret (mkTemplateFromG sel ps).
#[export] Instance TemplateFrom_copied : DeepCopied TemplateFromG := TemplateFrom_DeepCopyInto.
Definition TemplateFrom_DeepCopy (in_ : ptr TemplateFromG) : Go heap (ptr TemplateFromG) := new_copy in_.

(** ** api/v1alpha1: data center resources *)
#[export] Instance ParentRef_owned : Owned ParentRefG ParentRef := λ g x,
  owns (g_pr_CoefficientFrom g) (pr_CoefficientFrom x) ∗
  ⌜g_pr_Name g = pr_Name x ∧ g_pr_Coefficient g = pr_Coefficient x⌝.
Definition ParentRef_DeepCopyInto (in_ : ParentRefG) : Go heap ParentRefG :=
  cf ← deep_copy (g_pr_CoefficientFrom in_);
  mret (mkParentRefG (g_pr_Name in_) (g_pr_Coefficient in_) cf).
#[export] Instance ParentRef_copied : DeepCopied ParentRefG := ParentRef_DeepCopyInto.
Definition ParentRef_DeepCopy (in_ : ptr ParentRefG) : Go heap (ptr ParentRefG) := new_copy in_.

#[export] Instance DataCenterResourceSpec_owned : Owned DcrSpecG DataCenterResourceSpec := λ g x,
  owns (g_dcr_PhysicalMeasurements g) (dcr_PhysicalMeasurements x) ∗
  owns (g_dcr_Parents g) (dcr_Parents x) ∗
  owns (g_dcr_EnergyMetricFrom g) (dcr_EnergyMetricFrom x) ∗
  owns (g_dcr_AdditionalLabels g) (dcr_AdditionalLabels x) ∗
  ⌜g_dcr_Type g = dcr_Type x ∧ g_dcr_EnergyMetric g = dcr_EnergyMetric x⌝.
Definition DataCenterResourceSpec_DeepCopyInto (in_ : DcrSpecG) : Go heap DcrSpecG :=
  pms ← deep_copy (g_dcr_PhysicalMeasurements in_);
  parents ← deep_copy (g_dcr_Parents in_);
  emf ← deep_copy (g_dcr_EnergyMetricFrom in_);
  labels ← deep_copy (g_dcr_AdditionalLabels in_);
  mret (mkDcrSpecG (g_dcr_Type in_) pms parents (g_dcr_EnergyMetric in_) emf labels).
#[export] Instance DataCenterResourceSpec_copied : DeepCopied DcrSpecG := DataCenterResourceSpec_DeepCopyInto.
Definition DataCenterResourceSpec_DeepCopy (in_ : ptr DcrSpecG) : Go heap (ptr DcrSpecG) := new_copy in_.

#[export] Instance DataCenterResourceStatus_owned : Owned DcrStatusG DataCenterResourceStatus := λ g x,
  owns (g_dcr_Conditions g) (dcr_Conditions x) ∗
  ⌜g_dcr_ObservedGeneration g = dcr_ObservedGeneration x ∧
   g_dcr_InvolvedResource g = dcr_InvolvedResource x⌝.
Definition DataCenterResourceStatus_DeepCopyInto (in_ : DcrStatusG) : Go heap DcrStatusG :=
  cs ← deep_copy (g_dcr_Conditions in_);
  mret (mkDcrStatusG (g_dcr_ObservedGeneration in_) (g_dcr_InvolvedResource in_) cs).
#[export] Instance DataCenterResourceStatus_copied : DeepCopied DcrStatusG :=
  DataCenterResourceStatus_DeepCopyInto.
Definition DataCenterResourceStatus_DeepCopy (in_ : ptr DcrStatusG) : Go heap (ptr DcrStatusG) :=
  new_copy in_.

(** An object stands for its type metadata and its resource. *)
#[export] Instance DataCenterResource_owned : Owned DcrG (TypeMeta * DataCenterResource) := λ g x,
  owns (g_dcr_Meta g) (dcr_Meta x.2) ∗ owns (g_dcr_Spec g) (dcr_Spec x.2) ∗
  owns (g_dcr_Status g) (dcr_Status x.2) ∗ ⌜g_dcr_TypeMeta g = x.1⌝.
Definition DataCenterResource_DeepCopyInto (in_ : DcrG) : Go heap DcrG :=
  meta ← deep_copy (g_dcr_Meta in_);
  spec ← deep_copy (g_dcr_Spec in_);
  status ← deep_copy (g_dcr_Status in_);
  mret (mkDcrG (g_dcr_TypeMeta in_) meta spec status).
#[export] Instance DataCenterResource_copied : DeepCopied DcrG := DataCenterResource_DeepCopyInto.
Definition DataCenterResource_DeepCopy (in_ : ptr DcrG) : Go heap (ptr DcrG) := new_copy in_.

#[export] Instance DataCenterResourceList_owned :
    Owned (ListG DcrG) (TypeMeta * ListMeta * list (TypeMeta * DataCenterResource)) := λ g x,
  owns (g_ListMeta g) x.1.2 ∗ owns (g_Items g) x.2 ∗ ⌜g_ListTypeMeta g = x.1.1⌝.
Definition DataCenterResourceList_DeepCopyInto (in_ : ListG DcrG) : Go heap (ListG DcrG) :=
  meta ← deep_copy (g_ListMeta in_);
  items ← deep_copy (g_Items in_);
  mret (mkListG (g_ListTypeMeta in_) meta items).
#[export] Instance DataCenterResourceList_copied : DeepCopied (ListG DcrG) := DataCenterResourceList_DeepCopyInto.
Definition DataCenterResourceList_DeepCopy (in_ : ptr (ListG DcrG)) : Go heap (ptr (ListG DcrG)) :=
  new_copy in_.

(** ** Physical measurements *)
#[export] Instance PhysicalMeasurementSpec_owned : Owned PmSpecG PhysicalMeasurementSpec := λ g x,
  owns (g_pm_AdditionalLabels g) (pm_AdditionalLabels x) ∗
  ⌜g_pm_Type g = pm_Type x ∧ g_pm_Ip g = pm_Ip x ∧ g_pm_MeasurementDevice g = pm_MeasurementDevice x⌝.
Definition PhysicalMeasurementSpec_DeepCopyInto (in_ : PmSpecG) : Go heap PmSpecG :=
  labels ← deep_copy (g_pm_AdditionalLabels in_);
  mret (mkPmSpecG (g_pm_Type in_) (g_pm_Ip in_) (g_pm_MeasurementDevice in_) labels).
#[export] Instance PhysicalMeasurementSpec_copied : DeepCopied PmSpecG := PhysicalMeasurementSpec_DeepCopyInto.
Definition PhysicalMeasurementSpec_DeepCopy (in_ : ptr PmSpecG) : Go heap (ptr PmSpecG) := new_copy in_.

#[export] Instance PhysicalMeasurementStatus_owned : Owned PmStatusG PhysicalMeasurementStatus := λ g x,
  owns (g_pm_Conditions g) (pm_Conditions x) ∗
  ⌜g_pm_ObservedGeneration g = pm_ObservedGeneration x⌝.
Definition PhysicalMeasurementStatus_DeepCopyInto (in_ : PmStatusG) : Go heap PmStatusG :=
  cs ← deep_copy (g_pm_Conditions in_);
  mret (mkPmStatusG (g_pm_ObservedGeneration in_) cs).
#[export] Instance PhysicalMeasurementStatus_copied : DeepCopied PmStatusG := PhysicalMeasurementStatus_DeepCopyInto.
Definition PhysicalMeasurementStatus_DeepCopy (in_ : ptr PmStatusG) : Go heap (ptr PmStatusG) :=
  new_copy in_.

#[export] Instance PhysicalMeasurement_owned : Owned PmG (TypeMeta * PhysicalMeasurement) := λ g x,
  owns (g_pm_Meta g) (pm_Meta x.2) ∗ owns (g_pm_Spec g) (pm_Spec x.2) ∗
  owns (g_pm_Status g) (pm_Status x.2) ∗ ⌜g_pm_TypeMeta g = x.1⌝.
Definition PhysicalMeasurement_DeepCopyInto (in_ : PmG) : Go heap PmG :=
  meta ← deep_copy (g_pm_Meta in_);
  spec ← deep_copy (g_pm_Spec in_);
  status ← deep_copy (g_pm_Status in_);
  mret (mkPmG (g_pm_TypeMeta in_) meta spec status).
#[export] Instance PhysicalMeasurement_copied : DeepCopied PmG := PhysicalMeasurement_DeepCopyInto.
Definition PhysicalMeasurement_DeepCopy (in_ : ptr PmG) : Go heap (ptr PmG) := new_copy in_.

#[export] Instance PhysicalMeasurementList_owned :
    Owned (ListG PmG) (TypeMeta * ListMeta * list (TypeMeta * PhysicalMeasurement)) := λ g x,
  owns (g_ListMeta g) x.1.2 ∗ owns (g_Items g) x.2 ∗ ⌜g_ListTypeMeta g = x.1.1⌝.
Definition PhysicalMeasurementList_DeepCopyInto (in_ : ListG PmG) : Go heap (ListG PmG) :=
  meta ← deep_copy (g_ListMeta in_);
  items ← deep_copy (g_Items in_);
  mret (mkListG (g_ListTypeMeta in_) meta items).
#[export] Instance PhysicalMeasurementList_copied : DeepCopied (ListG PmG) := PhysicalMeasurementList_DeepCopyInto.
Definition PhysicalMeasurementList_DeepCopy (in_ : ptr (ListG PmG)) : Go heap (ptr (ListG PmG)) :=
  new_copy in_.

(** ** Measurement devices *)
#[export] Instance MeasurementDeviceSpec_owned : Owned MdSpecG MeasurementDeviceSpec := λ g x,
  owns (g_md_Walks g) (md_Walks x) ∗ owns (g_md_AuthFrom g) (md_AuthFrom x) ∗ ⌜True⌝.
Definition MeasurementDeviceSpec_DeepCopyInto (in_ : MdSpecG) : Go heap MdSpecG :=
  walks ← deep_copy (g_md_Walks in_);
  auth ← deep_copy (g_md_AuthFrom in_);
  mret (mkMdSpecG walks auth).
#[export] Instance MeasurementDeviceSpec_copied : DeepCopied MdSpecG := MeasurementDeviceSpec_DeepCopyInto.
Definition MeasurementDeviceSpec_DeepCopy (in_ : ptr MdSpecG) : Go heap (ptr MdSpecG) := new_copy in_.

#[export] Instance MeasurementDeviceStatus_owned : Owned MdStatusG MeasurementDeviceStatus := λ g x,
  owns (g_md_Conditions g) (md_Conditions x) ∗
  ⌜g_md_ObservedGeneration g = md_ObservedGeneration x ∧
   g_md_ConfigHash g = md_ConfigHash x⌝.
Definition MeasurementDeviceStatus_DeepCopyInto (in_ : MdStatusG) : Go heap MdStatusG :=
  cs ← deep_copy (g_md_Conditions in_);
  mret (mkMdStatusG (g_md_ObservedGeneration in_) (g_md_ConfigHash in_) cs).
#[export] Instance MeasurementDeviceStatus_copied : DeepCopied MdStatusG := MeasurementDeviceStatus_DeepCopyInto.
Definition MeasurementDeviceStatus_DeepCopy (in_ : ptr MdStatusG) : Go heap (ptr MdStatusG) :=
  new_copy in_.

#[export] Instance MeasurementDevice_owned : Owned MdG (TypeMeta * MeasurementDevice) := λ g x,
  owns (g_md_Meta g) (md_Meta x.2) ∗ owns (g_md_Spec g) (md_Spec x.2) ∗
  owns (g_md_Status g) (md_Status x.2) ∗ ⌜g_md_TypeMeta g = x.1⌝.
Definition MeasurementDevice_DeepCopyInto (in_ : MdG) : Go heap MdG :=
  meta ← deep_copy (g_md_Meta in_);
  spec ← deep_copy (g_md_Spec in_);
  status ← deep_copy (g_md_Status in_);
  mret (mkMdG (g_md_TypeMeta in_) meta spec status).
#[export] Instance MeasurementDevice_copied : DeepCopied MdG := MeasurementDevice_DeepCopyInto.
Definition MeasurementDevice_DeepCopy (in_ : ptr MdG) : Go heap (ptr MdG) := new_copy in_.

#[export] Instance MeasurementDeviceList_owned :
    Owned (ListG MdG) (TypeMeta * ListMeta * list (TypeMeta * MeasurementDevice)) := λ g x,
  owns (g_ListMeta g) x.1.2 ∗ owns (g_Items g) x.2 ∗ ⌜g_ListTypeMeta g = x.1.1⌝.
Definition MeasurementDeviceList_DeepCopyInto (in_ : ListG MdG) : Go heap (ListG MdG) :=
  meta ← deep_copy (g_ListMeta in_);
  items ← deep_copy (g_Items in_);
  mret (mkListG (g_ListTypeMeta in_) meta items).
#[export] Instance MeasurementDeviceList_copied : DeepCopied (ListG MdG) := MeasurementDeviceList_DeepCopyInto.
Definition MeasurementDeviceList_DeepCopy (in_ : ptr (ListG MdG)) : Go heap (ptr (ListG MdG)) :=
  new_copy in_.

Context `{!KubeCopiesLaws}.
#[export] Instance ValueSource_copy_laws : DeepCopyLaws ValueSourceG ValueSource.
Proof. copies ValueSource_DeepCopyInto ValueSource_owned. Qed.
#[export] Instance Selector_copy_laws : DeepCopyLaws SelectorG SecretConfigMapSelector.
Proof. copies Selector_DeepCopyInto Selector_owned. Qed.
#[export] Instance TemplateParameter_copy_laws : DeepCopyLaws TemplateParameterG TemplateParameter.
Proof. copies TemplateParameter_DeepCopyInto TemplateParameter_owned. Qed.
#[export] Instance TemplateFrom_copy_laws : DeepCopyLaws TemplateFromG TemplateFrom.
Proof. copies TemplateFrom_DeepCopyInto TemplateFrom_owned. Qed.
#[export] Instance ParentRef_copy_laws : DeepCopyLaws ParentRefG ParentRef.
Proof. copies ParentRef_DeepCopyInto ParentRef_owned. Qed.
#[export] Instance DataCenterResourceSpec_copy_laws : DeepCopyLaws DcrSpecG DataCenterResourceSpec.
Proof. copies DataCenterResourceSpec_DeepCopyInto DataCenterResourceSpec_owned. Qed.
#[export] Instance DataCenterResourceStatus_copy_laws : DeepCopyLaws DcrStatusG DataCenterResourceStatus.
Proof. copies DataCenterResourceStatus_DeepCopyInto DataCenterResourceStatus_owned. Qed.
#[export] Instance DataCenterResource_copy_laws : DeepCopyLaws DcrG (TypeMeta * DataCenterResource).
Proof. copies DataCenterResource_DeepCopyInto DataCenterResource_owned. Qed.
#[export] Instance DataCenterResourceList_copy_laws :
  DeepCopyLaws (ListG DcrG) (TypeMeta * ListMeta * list (TypeMeta * DataCenterResource)).
Proof. copies DataCenterResourceList_DeepCopyInto DataCenterResourceList_owned. Qed.
#[export] Instance PhysicalMeasurementSpec_copy_laws : DeepCopyLaws PmSpecG PhysicalMeasurementSpec.
Proof. copies PhysicalMeasurementSpec_DeepCopyInto PhysicalMeasurementSpec_owned. Qed.
#[export] Instance PhysicalMeasurementStatus_copy_laws : DeepCopyLaws PmStatusG PhysicalMeasurementStatus.
Proof. copies PhysicalMeasurementStatus_DeepCopyInto PhysicalMeasurementStatus_owned. Qed.
#[export] Instance PhysicalMeasurement_copy_laws :
  DeepCopyLaws PmG (TypeMeta * PhysicalMeasurement).
Proof. copies PhysicalMeasurement_DeepCopyInto PhysicalMeasurement_owned. Qed.
#[export] Instance PhysicalMeasurementList_copy_laws :
  DeepCopyLaws (ListG PmG) (TypeMeta * ListMeta * list (TypeMeta * PhysicalMeasurement)).
Proof. copies PhysicalMeasurementList_DeepCopyInto PhysicalMeasurementList_owned. Qed.
#[export] Instance MeasurementDeviceSpec_copy_laws : DeepCopyLaws MdSpecG MeasurementDeviceSpec.
Proof. copies MeasurementDeviceSpec_DeepCopyInto MeasurementDeviceSpec_owned. Qed.
#[export] Instance MeasurementDeviceStatus_copy_laws : DeepCopyLaws MdStatusG MeasurementDeviceStatus.
Proof. copies MeasurementDeviceStatus_DeepCopyInto MeasurementDeviceStatus_owned. Qed.
#[export] Instance MeasurementDevice_copy_laws : DeepCopyLaws MdG (TypeMeta * MeasurementDevice).
Proof. copies MeasurementDevice_DeepCopyInto MeasurementDevice_owned. Qed.
#[export] Instance MeasurementDeviceList_copy_laws :
  DeepCopyLaws (ListG MdG) (TypeMeta * ListMeta * list (TypeMeta * MeasurementDevice)).
Proof. copies MeasurementDeviceList_DeepCopyInto MeasurementDeviceList_owned. Qed.
End Copies.

(** ** Objects: the values of runtime.Object of the six kinds, by their dynamic type *)
Inductive Object `{KubeTypes} :=
| ODataCenterResource (p : ptr DcrG)
| ODataCenterResourceList (p : ptr (ListG DcrG))
| OPhysicalMeasurement (p : ptr PmG)
| OPhysicalMeasurementList (p : ptr (ListG PmG))
| OMeasurementDevice (p : ptr MdG)
| OMeasurementDeviceList (p : ptr (ListG MdG)).
Inductive object_value `{KubeTypes} :=
| VDataCenterResource (v : TypeMeta * DataCenterResource)
| VDataCenterResourceList (v : TypeMeta * ListMeta * list (TypeMeta * DataCenterResource))
| VPhysicalMeasurement (v : TypeMeta * PhysicalMeasurement)
| VPhysicalMeasurementList (v : TypeMeta * ListMeta * list (TypeMeta * PhysicalMeasurement))
| VMeasurementDevice (v : TypeMeta * MeasurementDevice)
| VMeasurementDeviceList (v : TypeMeta * ListMeta * list (TypeMeta * MeasurementDevice)).

Section Objects.
Context `{KubeCopies}.
Abbreviation heap := (gmap loc cell).

(** What an object that is not nil stands for. *)
#[export] Instance Object_owned : Owned (C:=cell) Object object_value := λ o v m,
  match o, v with
  | ODataCenterResource p, VDataCenterResource x => owns p (Some x) m
  | ODataCenterResourceList p, VDataCenterResourceList x => owns p (Some x) m
  | OPhysicalMeasurement p, VPhysicalMeasurement x => owns p (Some x) m
  | OPhysicalMeasurementList p, VPhysicalMeasurementList x => owns p (Some x) m
  | OMeasurementDevice p, VMeasurementDevice x => owns p (Some x) m
  | OMeasurementDeviceList p, VMeasurementDeviceList x => owns p (Some x) m
  | _, _ => False
  end.

(** if c := in.DeepCopy(); c != nil { return c }; return nil *)
Definition as_object {G} (inject : ptr G → Object) (copy : Go heap (ptr G)) : Go heap (option Object) :=
  c ← copy;
  match target c with Some _ => mret (Some (inject c)) | None => mret None end.
Definition DataCenterResource_DeepCopyObject (in_ : ptr DcrG) : Go heap (option Object) :=
  as_object ODataCenterResource (DataCenterResource_DeepCopy in_).
Definition DataCenterResourceList_DeepCopyObject (in_ : ptr (ListG DcrG)) : Go heap (option Object) :=
  as_object ODataCenterResourceList (DataCenterResourceList_DeepCopy in_).
Definition PhysicalMeasurement_DeepCopyObject (in_ : ptr PmG) : Go heap (option Object) :=
  as_object OPhysicalMeasurement (PhysicalMeasurement_DeepCopy in_).
Definition PhysicalMeasurementList_DeepCopyObject (in_ : ptr (ListG PmG)) : Go heap (option Object) :=
  as_object OPhysicalMeasurementList (PhysicalMeasurementList_DeepCopy in_).
Definition MeasurementDevice_DeepCopyObject (in_ : ptr MdG) : Go heap (option Object) :=
  as_object OMeasurementDevice (MeasurementDevice_DeepCopy in_).
Definition MeasurementDeviceList_DeepCopyObject (in_ : ptr (ListG MdG)) : Go heap (option Object) :=
  as_object OMeasurementDeviceList (MeasurementDeviceList_DeepCopy in_).

(** The call through the interface. *)
Definition DeepCopyObject (o : Object) : Go heap (option Object) :=
  match o with
  | ODataCenterResource p => DataCenterResource_DeepCopyObject p
  | ODataCenterResourceList p => DataCenterResourceList_DeepCopyObject p
  | OPhysicalMeasurement p => PhysicalMeasurement_DeepCopyObject p
  | OPhysicalMeasurementList p => PhysicalMeasurementList_DeepCopyObject p
  | OMeasurementDevice p => MeasurementDevice_DeepCopyObject p
  | OMeasurementDeviceList p => MeasurementDeviceList_DeepCopyObject p
  end.
Definition object_target (o : Object) : option loc :=
  match o with
  | ODataCenterResource p => target p
  | ODataCenterResourceList p => target p
  | OPhysicalMeasurement p => target p
  | OPhysicalMeasurementList p => target p
  | OMeasurementDevice p => target p
  | OMeasurementDeviceList p => target p
  end.

(** [h'] is [h] but for what became of the cells of [m], and new cells. *)
Definition changes (m h h' : heap) : Prop := ∀ l, l ∈ dom h → l ∉ dom m → h' !! l = h !! l.

Context `{!KubeCopiesLaws}.
Lemma as_object_makes {G X} `{Cell cell G, DeepCopyLaws cell G X} inject (inj_value : X → object_value) p x m h :
  (∀ q m', owns q (Some x) m' → owns (inject q) (inj_value x) m') →
  owns p (Some x) m → m ⊆ h →
  makes (as_object inject (new_copy p)) h (λ o m', ∃ c, o = Some c ∧ owns c (inj_value x) m').
Proof.
  intros Hinj Ho Hm. eapply makes_bind; [exact (deep_copy_makes p (Some x) m h Ho Hm)|].
  intros c m1 Hc _.
  assert (is_Some (target c)) as [l Hl].
  { unfold owns, owned_ptr in Hc. destruct (target c); [done|contradiction]. }
  rewrite Hl. apply makes_ret. intros _. exists (inject c). rewrite (left_id_L ∅ (∪)). auto.
Qed.

Lemma DeepCopyObject_makes o v m h :
  owns o v m → m ⊆ h → makes (DeepCopyObject o) h (λ o' m', ∃ c, o' = Some c ∧ owns c v m').
Proof.
  intros Ho Hm. destruct o, v; try contradiction; (eapply as_object_makes; [by intros|exact Ho|exact Hm]).
Qed.

Lemma changes_keeps (m m' h h' : heap) : m ##ₘ m' → m ⊆ h → changes m' h h' → m ⊆ h'.
Proof.
  intros Hd Hm Hc. apply map_subseteq_spec. intros l v Hl. rewrite Hc.
  - by eapply lookup_weaken.
  - apply elem_of_dom. exists v. by eapply lookup_weaken.
  - intros [v' Hv']%elem_of_dom. by eapply map_disjoint_spec in Hd.
Qed.

(** C22: The deep copy of an object of the program is a new object of the same kind
    that stands for the same value, made of cells that were not there: whatever is
    done later to the original leaves the copy what it was, and whatever is done to
    the copy leaves the original. A nil object has a nil copy. *)
Theorem DeepCopyObject_independent o v m h (Ho : owns o v m) (Hm : m ⊆ h) :
  ∃ c m' h1,
    DeepCopyObject o h = (Done (Some c), h1) ∧ h ⊆ h1 ∧
    owns c v m' ∧ m' ⊆ h1 ∧ dom m' ## dom h ∧
    (∀ h2, changes m h1 h2 → m' ⊆ h2) ∧
    (∀ h2, changes m' h1 h2 → m ⊆ h2) ∧
    (∀ o0 h0, object_target o0 = None → DeepCopyObject o0 h0 = (Done None, h0)).
Proof.
  destruct (DeepCopyObject_makes o v m h Ho Hm) as (o' & m' & Hr & Hd & c & -> & Hc).
  exists c, m', (m' ∪ h). split; [done|]. split; [by apply map_union_subseteq_r|]. split; [done|].
  split; [apply map_union_subseteq_l|]. split; [by apply map_disjoint_dom|].
  assert (m' ##ₘ m) as Hd' by (by eapply map_disjoint_weaken_r).
  split_and!.
  - intros h2. apply changes_keeps; [done|apply map_union_subseteq_l].
  - intros h2. apply changes_keeps; [done|]. etrans; [exact Hm|]. by apply map_union_subseteq_r.
  - intros [] h0; cbn; intros Ht; destruct p; cbn in Ht; by subst.
Qed.
End Objects.

(** ** A sample: metadata, conditions and keys without references *)
Module DeepCopySample.
#[export] Instance kube : KubeTypes :=
  {| MetaG := ObjectMeta; ListMetaG := unit; ConditionG := Condition; ConfigMapKeyG := KeySelector;
     SecretKeyG := KeySelector; ListMeta := unit |}.
#[export] Instance copies : KubeCopies :=
  {| meta_owned := (owns_flat : Owned (C:=cell) ObjectMeta ObjectMeta); meta_copied := λ v, mret v;
     list_meta_owned := (owns_flat : Owned (C:=cell) unit unit); list_meta_copied := λ v, mret v;
     condition_owned := (owns_flat : Owned (C:=cell) Condition Condition); condition_copied := λ v, mret v;
     config_map_key_owned := (owns_flat : Owned (C:=cell) KeySelector KeySelector);
     config_map_key_copied := λ v, mret v;
     secret_key_owned := (owns_flat : Owned (C:=cell) KeySelector KeySelector);
     secret_key_copied := λ v, mret v |}.
#[export] Instance copies_laws : KubeCopiesLaws.
Proof. split; intros g x m h Ho _; by apply flat_copy with m. Qed.

Definition meta : ObjectMeta := mkObjectMeta "rack-1" "dc" "u1" 1 None [].
Definition tm : TypeMeta := mkTypeMeta "PhysicalMeasurement" "chantico.ci.tno.nl/v1alpha1".
Definition table1 : gmap string string := {["room" := "r1"]}.
Definition spec_g : PmSpecG := mkPmSpecG "snmp" "10.0.0.1" "pdu" (GoMap (Some 2%positive)).
Definition pm_g : PmG := mkPmG tm meta spec_g (mkPmStatusG 1 (Slice None)).
Definition pm : PhysicalMeasurement :=
  mkPhysicalMeasurement meta (mkPhysicalMeasurementSpec "snmp" "10.0.0.1" "pdu" (Some table1))
    (mkPhysicalMeasurementStatus 1 []).
Definition memory : gmap loc cell := {[1%positive := CPm pm_g]} ∪ {[2%positive := CTable table1]}.
Definition object : Object := OPhysicalMeasurement (Ptr (Some 1%positive)).

Lemma object_owned : owns object (VPhysicalMeasurement (tm, pm)) memory.
Proof.
  exists pm_g, {[2%positive := CTable table1]}. split; [done|]. split; [done|].
  exists ∅, {[2%positive := CTable table1]}. split; [by rewrite (left_id_L ∅ (∪))|].
  split; [apply map_disjoint_empty_l|]. split; [by split|].
  exists {[2%positive := CTable table1]}, ∅. split; [by rewrite (right_id_L ∅ (∪))|].
  split; [apply map_disjoint_empty_r|]. split.
  - exists {[2%positive := CTable table1]}, ∅. split; [by rewrite (right_id_L ∅ (∪))|].
    split; [apply map_disjoint_empty_r|]. by split; [|split_and!].
  - exists ∅, ∅. split; [by rewrite (left_id_L ∅ (∪))|]. split; [apply map_disjoint_empty_l|].
    split; [|done]. exists ∅, ∅. split; [by rewrite (left_id_L ∅ (∪))|].
    split; [apply map_disjoint_empty_l|]. by split.
Qed.

Definition labels_of (o : option Object) (h : gmap loc cell) : option (gmap string string) :=
  p ← o; l ← object_target p; v ← h !! l ≫= of_cell (T:=PmG);
  t ← table (g_pm_AdditionalLabels (g_pm_Spec v)); h !! t ≫= of_cell.

(** A label set on the copy does not show in the original; with an assignment
    instead of a copy it does. *)
Definition set_label (o : option Object) : Go (gmap loc cell) unit := λ h,
  match (p ← o; l ← object_target p; v ← h !! l ≫= of_cell (T:=PmG);
         table (g_pm_AdditionalLabels (g_pm_Spec v))) with
  | Some t => store t ({["room" := "r2"]} : gmap string string) h
  | None => (Panicked, h)
  end.
Example deep_copy_separate :
  let h := snd ((DeepCopyObject object ≫= set_label) memory) in
  labels_of (Some object) h = Some table1.
Proof. vm_compute. reflexivity. Qed.
Example assignment_aliases :
  let h := snd ((v ← load (T:=PmG) 1%positive; l ← alloc v;
                 set_label (Some (OPhysicalMeasurement (Ptr (Some l))))) memory) in
  labels_of (Some object) h = Some {["room" := "r2"]}.
Proof. vm_compute. reflexivity. Qed.
End DeepCopySample.
Import DeepCopySample.

Lemma DeepCopyObject_independent_witness :
  ∃ c m' h1,
    DeepCopyObject object memory = (Done (Some c), h1) ∧
    memory ⊆ h1 ∧
    owns c (VPhysicalMeasurement (tm, pm)) m' ∧ m' ⊆ h1 ∧
    dom m' ## dom memory ∧
    (∀ h2, changes memory h1 h2 → m' ⊆ h2) ∧
    (∀ h2, changes m' h1 h2 → memory ⊆ h2) ∧
    (∀ o0 h0, object_target o0 = None → DeepCopyObject o0 h0 = (Done None, h0)).
Proof.
  apply (DeepCopyObject_independent object
           (VPhysicalMeasurement (tm, pm))).
  - exact object_owned.
  - reflexivity.
Defined.
