(* ===== verification/Scheme.v ===== *)
(** [groupversion_info.go] and the [init] functions of the API types: the kinds of
    the API are registered with the builder that [AddToScheme] adds to a scheme. *)
From S2P Require Import Prelude GoStd Errors GoHeap DeepCopy.

(** ** The libraries

    schema.GroupVersion of apimachinery; the builder of controller-runtime, which
    collects what is registered and adds it to a scheme; a scheme, which knows
    kinds by group, version and the name of their type. *)
Record GroupVersionInfo := mkGroupVersion { Group : string; Version : string }.
Class SchemeLibrary := {
  Builder : Type;
  runtime_Scheme : Type;
  newBuilder : GroupVersionInfo → Builder;
  Builder_Register : list string → Builder → Builder;
  Builder_AddToScheme : Builder → runtime_Scheme → option error * runtime_Scheme;
  Recognizes : runtime_Scheme → GroupVersionInfo → string → bool
}.
(** What is registered is added, under the group and the version of the builder, and
    a scheme forgets nothing. *)
Class SchemeLaws `{SchemeLibrary} : Prop := {
  registered_added (gv : GroupVersionInfo) (calls : list (list string)) kinds k s s' :
    kinds ∈ calls → k ∈ kinds →
    Builder_AddToScheme (foldl (λ b c, Builder_Register c b) (newBuilder gv) calls) s = (None, s') →
    Recognizes s' gv k = true;
  known_kept b s r s' gv k :
    Builder_AddToScheme b s = (r, s') → Recognizes s gv k = true → Recognizes s' gv k = true
}.

(** The name of the type of an object, by which it is registered. *)
Definition type_name `{KubeTypes} (o : Object) : string :=
  match o with
  | ODataCenterResource _ => "DataCenterResource"
  | ODataCenterResourceList _ => "DataCenterResourceList"
  | OPhysicalMeasurement _ => "PhysicalMeasurement"
  | OPhysicalMeasurementList _ => "PhysicalMeasurementList"
  | OMeasurementDevice _ => "MeasurementDevice"
  | OMeasurementDeviceList _ => "MeasurementDeviceList"
  end.

Section Registration.
Context `{SchemeLibrary}.

Definition GroupVersion : GroupVersionInfo := mkGroupVersion "chantico-project.github.io" "v1alpha1".

(** The variables of a package are initialised before any [init] runs, and those run
    in the order of the names of their files.  [SchemeBuilder] is a pointer, so that
    [AddToScheme], a method of what it points to, sees what is registered later. *)
Definition SchemeBuilder : Builder := newBuilder GroupVersion.
Definition init_datacenterresource (b : Builder) : Builder :=
  Builder_Register ["DataCenterResource"; "DataCenterResourceList"] b.
Definition init_measurementdevice (b : Builder) : Builder :=
  Builder_Register ["MeasurementDevice"; "MeasurementDeviceList"] b.
Definition init_physicalmeasurement (b : Builder) : Builder :=
  Builder_Register ["PhysicalMeasurement"; "PhysicalMeasurementList"] b.
Definition initialised : Builder :=
  init_physicalmeasurement (init_measurementdevice (init_datacenterresource SchemeBuilder)).
Definition AddToScheme (s : runtime_Scheme) : option error * runtime_Scheme := Builder_AddToScheme initialised s.

(** Whatever has a deep copy as an object is known to the scheme of every program
    that adds the API to it. *)
Lemma objects_registered `{KubeTypes, !SchemeLaws} (o : Object) s s' :
  AddToScheme s = (None, s') → Recognizes s' GroupVersion (type_name o) = true.
Proof.
  assert (∃ kinds, kinds ∈ [["DataCenterResource"; "DataCenterResourceList"];
      ["MeasurementDevice"; "MeasurementDeviceList"]; ["PhysicalMeasurement"; "PhysicalMeasurementList"]] ∧
    type_name o ∈ kinds) as (kinds & Hk & Ho).
  { destruct o.
    1,2: exists ["DataCenterResource"; "DataCenterResourceList"].
    3,4: exists ["PhysicalMeasurement"; "PhysicalMeasurementList"].
    5,6: exists ["MeasurementDevice"; "MeasurementDeviceList"].
    all: set_solver. }
  exact (registered_added GroupVersion _ kinds _ s s' Hk Ho).
Qed.
End Registration.

(** ** A library that keeps lists *)
Module SimpleScheme.
#[export] Instance library : SchemeLibrary := {|
  Builder := GroupVersionInfo * list string;
  runtime_Scheme := list (GroupVersionInfo * string);
  newBuilder gv := (gv, []);
  Builder_Register kinds b := (b.1, b.2 ++ kinds);
  Builder_AddToScheme b s := (None, s ++ ((λ k, (b.1, k)) <$> b.2));
  Recognizes s gv k := existsb (λ e, String.eqb (Group e.1) (Group gv) && String.eqb (Version e.1) (Version gv)
                                     && String.eqb e.2 k) s
|}.
Example six_kinds :
  length (AddToScheme []).2 = 6 ∧ Recognizes (AddToScheme []).2 GroupVersion "MeasurementDeviceList" = true ∧
  Recognizes (AddToScheme []).2 GroupVersion "Pod" = false.
Proof. by vm_compute. Qed.

#[export] Instance library_laws : SchemeLaws.
Proof.
  assert (∀ s (gv : GroupVersionInfo) k, (gv, k) ∈ s → Recognizes (SchemeLibrary := library) s gv k = true) as Hin.
  { intros s gv k Hin. apply existsb_exists. exists (gv, k). split; [by apply list_elem_of_In|].
    cbn [fst snd]. by rewrite !String.eqb_refl. }
  split.
  - intros gv calls kinds k s s' Hk Hin' [= <-]. apply Hin, elem_of_app. right. apply list_elem_of_fmap.
    assert (∀ b : Builder (SchemeLibrary := library), (foldl (λ b c, Builder_Register c b) b calls).1 = b.1 ∧
      (∀ k, k ∈ (b.2 : list string) → k ∈ (foldl (λ b c, Builder_Register c b) b calls).2) ∧
      (∀ c k, c ∈ calls → k ∈ c → k ∈ (foldl (λ b c, Builder_Register c b) b calls).2)) as Hb.
    { clear. induction calls as [|c0 calls IH]; intros b; [set_solver|]. cbn [foldl].
      destruct (IH (Builder_Register c0 b)) as (E & Hold & Hnew). split; [exact E|]. split.
      - intros k Hk. apply Hold. cbn. set_solver.
      - intros c k [->|Hc]%elem_of_cons Hk; [apply Hold; cbn; set_solver|by eapply Hnew]. }
    destruct (Hb (newBuilder gv)) as (E & _ & Hnew). exists k. split; [|by eapply Hnew].
    f_equal. symmetry. exact E.
  - intros b s r s' gv k [= _ <-] Hr. cbn [Recognizes library] in *. rewrite existsb_app. by rewrite Hr.
Qed.
End SimpleScheme.
