(* ===== verification/Steps.v ===== *)
(** [internal/steps]: the runner every reconciler hands its steps to. *)
From S2P Require Import Prelude GoStd Errors.

(** ** Results of a step *)
Inductive Action := ActionContinue | ActionStop | ActionRequeue | ActionError.
#[export] Instance Action_eq_dec : EqDecision Action.
Proof. solve_decision. Defined.

Record StepResult := mkStepResult {
  sr_Action : Action;
  sr_RequeueAfter : Z;
  sr_Err : option error
}.

Definition Continue : StepResult := mkStepResult ActionContinue 0 None.
Definition Stop : StepResult := mkStepResult ActionStop 0 None.
Definition StepError (err : error) : StepResult := mkStepResult ActionError 0 (Some err).
Definition Requeue (duration : Z) : StepResult := mkStepResult ActionRequeue duration None.

(** ctrl.Result, as far as the program sets it. *)
Record Result := mkResult { RequeueAfter : Z }.
Definition no_requeue : Result := mkResult 0.

Section Run.
(** The state a step works on: the object and everything it reaches. *)
Context {S : Type}.

Definition Func : Type := Go S StepResult.

Fixpoint Run (steps : list Func) : Go S (Result * option error) :=
  match steps with
  | [] => mret (no_requeue, None)
  | step :: rest =>
      res ← step;
      match sr_Action res with
      | ActionContinue => Run rest
      | ActionStop => mret (no_requeue, None)
      | ActionRequeue => mret (mkResult (sr_RequeueAfter res), None)
      | ActionError => mret (no_requeue, sr_Err res)
      end
  end.

(** ** The runner as a relation

    [trace steps s tr s']: from [s], the steps of [tr] all continued, in
    order, and left the state [s']. *)
Inductive continued : list Func → S → S → Prop :=
| continued_nil s : continued [] s s
| continued_cons step rest s s1 s2 res :
    step s = (Done res, s1) → sr_Action res = ActionContinue →
    continued rest s1 s2 → continued (step :: rest) s s2.

Lemma continued_app l1 l2 s s' :
  continued (l1 ++ l2) s s' ↔ ∃ s1, continued l1 s s1 ∧ continued l2 s1 s'.
Proof.
  split.
  - revert s. induction l1 as [|f l1 IH]; intros s H; [eauto using continued|].
    inversion H as [|? ? ? s1 ? res Hf Hr Hc]; subst.
    apply IH in Hc as (s2 & ? & ?). eauto using continued.
  - intros (s1 & H1 & H2). induction H1; [done|]. simpl. eauto using continued.
Qed.

(** Steps that continue can be peeled off the front of a run. *)
Lemma Run_continued l1 l2 s s1 : continued l1 s s1 → Run (l1 ++ l2) s = Run l2 s1.
Proof.
  induction 1 as [|step rest s s1 s2 res Hstep Hres _ IH]; [done|].
  simpl. by rewrite (run_bind_done _ _ _ _ _ Hstep), Hres.
Qed.

(** A step that does not continue ends the run: what it makes of it. *)
Definition halts (res : StepResult) : option (Result * option error) :=
  match sr_Action res with
  | ActionContinue => None
  | ActionStop => Some (no_requeue, None)
  | ActionRequeue => Some (mkResult (sr_RequeueAfter res), None)
  | ActionError => Some (no_requeue, sr_Err res)
  end.

(** One step of a run. *)
Lemma Run_cons step rest s res s1 :
  step s = (Done res, s1) →
  Run (step :: rest) s =
  match halts res with Some out => (Done out, s1) | None => Run rest s1 end.
Proof. intros Hs. simpl. rewrite (run_bind_done _ _ _ _ _ Hs). unfold halts. by destruct (sr_Action res). Qed.

Lemma Run_panic step rest s s1 : step s = (Panicked, s1) → Run (step :: rest) s = (Panicked, s1).
Proof. intros Hs. simpl. by rewrite run_bind, Hs. Qed.

(** A run either continues through all its steps, or there is a first step
    that does not: the steps before it continued, and those after it do not
    run. *)
Lemma Run_inv steps s :
  (∃ s', continued steps s s' ∧ Run steps s = (Done (no_requeue, None), s')) ∨
  (∃ l1 step l2 s1 s2 res out, steps = l1 ++ step :: l2 ∧ continued l1 s s1 ∧
     step s1 = (Done res, s2) ∧ halts res = Some out ∧ Run steps s = (Done out, s2)) ∨
  (∃ l1 step l2 s1 s2, steps = l1 ++ step :: l2 ∧ continued l1 s s1 ∧
     step s1 = (Panicked, s2) ∧ Run steps s = (Panicked, s2)).
Proof.
  revert s. induction steps as [|step steps IH]; intros s.
  { left. eauto using continued. }
  destruct (step s) as [[res|] s1] eqn:Hstep; last first.
  { right; right. exists [], step, steps, s, s1. simpl.
    rewrite run_bind, Hstep. eauto using continued. }
  destruct (halts res) as [out|] eqn:Hh.
  { right; left. exists [], step, steps, s, s1, res, out. simpl.
    rewrite (run_bind_done _ _ _ _ _ Hstep).
    repeat split; [constructor|done|done|].
    revert Hh. unfold halts. by destruct (sr_Action res); intros; simplify_eq. }
  assert (sr_Action res = ActionContinue) as Hres
    by (revert Hh; unfold halts; by destruct (sr_Action res)).
  assert (Run (step :: steps) s = Run steps s1) as HRun
    by (simpl; by rewrite (run_bind_done _ _ _ _ _ Hstep), Hres).
  rewrite HRun. destruct (IH s1) as [(s' & Hc & HR)|[(l1 & st & l2 & t1 & t2 & r & o & -> & Hc & Hst & Ho & HR)
    |(l1 & st & l2 & t1 & t2 & -> & Hc & Hst & HR)]].
  - left. eauto using continued.
  - right; left. exists (step :: l1), st, l2, t1, t2, r, o.
    repeat split; eauto using continued.
  - right; right. exists (step :: l1), st, l2, t1, t2.
    repeat split; eauto using continued.
Qed.

(** The steps' frames add up to the run's frame. *)
Lemma Run_frame (R : relation S) `{!PreOrder R} steps :
  Forall (frame R) steps → frame R (Run steps).
Proof.
  induction 1 as [|step steps Hstep _ IH]; simpl; frame_auto.
Qed.
End Run.
Arguments Func : clear implicits.

#[export] Hint Resolve Run_frame : go.

Section RunProperties.
Context {S : Type}.
Implicit Types (steps : list (Func S)) (s : S).

(** The runner executes the steps in order while they continue; the
    first one that does not continue decides the result and the ones after it
    do not run: replacing them by any other steps changes nothing. *)
Theorem Run_short_circuit steps s out s' :
  Run steps s = (Done out, s') →
  (continued steps s s' ∧ out = (no_requeue, None)) ∨
  (∃ l1 step l2 s1 res, steps = l1 ++ step :: l2 ∧ continued l1 s s1 ∧
     step s1 = (Done res, s') ∧ halts res = Some out ∧
     ∀ l2', Run (l1 ++ step :: l2') s = Run steps s).
Proof.
  intros HR. destruct (Run_inv steps s) as [(t & Hc & E)|[(l1 & step & l2 & s1 & s2 & res & o & -> & Hc & Hst & Ho & E)
    |(? & ? & ? & ? & ? & _ & _ & _ & E)]]; rewrite E in HR; simplify_eq; [by left|].
  right. exists l1, step, l2, s1, res. repeat split; try done.
  intros l2'. rewrite !(Run_continued _ _ _ _ Hc). simpl.
  rewrite !(run_bind_done _ _ _ _ _ Hst).
  revert Ho. unfold halts. by destruct (sr_Action res).
Qed.
End RunProperties.

(** Three steps that count themselves; the second asks for a requeue. *)
Definition sample_steps : list (Func nat) :=
  [λ n, (Done Continue, n + 1); λ n, (Done (Requeue 5), n + 10); λ n, (Done Stop, n + 100)].

Lemma Run_short_circuit_witness :
  ∃ l1 step l2 s1 res, sample_steps = l1 ++ step :: l2 ∧ continued l1 0 s1 ∧
    step s1 = (Done res, 11) ∧ halts res = Some (mkResult 5, None) ∧
    ∀ l2', Run (l1 ++ step :: l2') 0 = Run sample_steps 0.
Proof.
  destruct (Run_short_circuit sample_steps 0 (mkResult 5, None) 11 eq_refl) as [[_ H]|H].
  - discriminate H.
  - exact H.
Defined.
