(* ===== verification/Validate.v ===== *)
(** [internal/datacenterresource/validate.go]: the check that the parents of a
    resource keep the graph of resources acyclic, and the other validators. *)
From S2P Require Import Prelude GoStd Errors Selector ApiTypes.

(** ** What the validators call *)

(** Label names, of github.com/prometheus/common/model. *)
Class LabelValidation := { IsValidLabelName : string → bool }.

(** The order in which [range] walks over a map is not specified. *)
Class MapOrder := { range_map : ∀ V : Type, gmap string V → list (string * V) }.
Arguments range_map {_} {V} m.
Class MapOrderLaws `{MapOrder} : Prop := {
  range_perm (V : Type) (m : gmap string V) : range_map m ≡ₚ map_to_list m
}.

(** ** Resource types *)
Definition DataCenterResourceTypePDU : string := "pdu".
Definition DataCenterResourceTypeBaremetal : string := "baremetal".
Definition DataCenterResourceTypeVM : string := "vm".
Definition DataCenterResourceTypeKubernetes : string := "kubernetes".
Definition DataCenterResourceTypeHeat : string := "heat".

(** ** Helpers *)
Abbreviation resources_map := (gmap string DataCenterResource).

(** A name the map does not hold yields the zero value. *)
Definition GetFromMap (resourcesMap : resources_map) (nodes : list string) : list DataCenterResource :=
  (λ node, default zero_dcr (resourcesMap !! node)) <$> nodes.

Fixpoint format_from (index : nat) (text : string) (resources : list DataCenterResource) : string :=
  match resources with
  | [] => text
  | resource :: rest =>
      format_from (S index)
        (if decide (index = 0) then dcr_Name resource
         else text +:+ ", " +:+ dcr_Name resource) rest
  end.
Definition FormatResources (resources : list DataCenterResource) : string :=
  format_from 0 "" resources.

(** ** ValidateGraph *)

(** The resources that are not being deleted, by name; a later one of the same
    name replaces an earlier one. *)
Definition live_map (resources : list DataCenterResource) : resources_map :=
  foldl (λ m resource,
    match DeletionTimestamp (dcr_Meta resource) with
    | None => <[dcr_Name resource := resource]> m
    | Some _ => m
    end) ∅ resources.

(** What [ValidateGraph] returns: the visited resources, the name of the
    resource involved in the error, and the error. *)
Definition validation : Type := list DataCenterResource * string * option error.

(** The loop over the work queue: [visited] counts the prefix of [queue]
    already visited.  [None] stands for fuel that ran out. *)
Fixpoint graph_loop (fuel : nat) (name : string) (resourcesMap : resources_map)
    (queue : list string) (visited : nat) (visitedSet : gset string) : option validation :=
  match fuel with
  | O => None
  | S fuel' =>
      match queue !! visited with
      | None => Some (GetFromMap resourcesMap (take visited queue), "", None)
      | Some node =>
          if decide (node ∈ visitedSet) then
            graph_loop fuel' name resourcesMap
              (take visited queue ++ drop (S visited) queue) visited visitedSet
          else
            match resourcesMap !! node with
            | None =>
                Some (GetFromMap resourcesMap (take visited queue), node,
                      Some (err_ResourceNotFound (mkErrorResourceNotFound node)))
            | Some current =>
                if decide (name ∈ ParentNames (dcr_Spec current)) then
                  Some (GetFromMap resourcesMap (take visited queue), node,
                        Some (err_CycleDetected (mkErrorCycleDetected node)))
                else
                  graph_loop fuel' name resourcesMap
                    (queue ++ ParentNames (dcr_Spec current)) (S visited)
                    ({[node]} ∪ visitedSet)
            end
      end
  end.

Definition parent_count (r : DataCenterResource) : nat := length (ParentNames (dcr_Spec r)).

(** Every step of the loop uses up one edge of the graph. *)
Definition graph_fuel (resource : DataCenterResource) (resources : list DataCenterResource) : nat :=
  S (parent_count resource + sum_list (parent_count <$> resources)).

Definition validateGraph (resource : DataCenterResource) (resources : list DataCenterResource) :
    option validation :=
  graph_loop (graph_fuel resource resources) (dcr_Name resource) (live_map resources)
    (ParentNames (dcr_Spec resource)) 0 ∅.

(** ** The other validators *)
Definition validateResourceType (resource : DataCenterResource) : option error :=
  let t := dcr_Type (dcr_Spec resource) in
  if decide (t ∈ ["";  DataCenterResourceTypePDU; DataCenterResourceTypeBaremetal;
                  DataCenterResourceTypeVM; DataCenterResourceTypeKubernetes;
                  DataCenterResourceTypeHeat])
  then None
  else Some (err_UnknownType (mkErrorUnknownType t)).

Section Validators.
Context `{LabelValidation, MapOrder}.

Definition validateAdditionalLabelNames (resource : DataCenterResource) : option error :=
  match list_find (λ kv, IsValidLabelName kv.1 = false)
          (range_map (default ∅ (dcr_AdditionalLabels (dcr_Spec resource)))) with
  | Some (_, (labelName, _)) => Some (err_InvalidLabelName (mkErrorInvalidLabelName labelName))
  | None => None
  end.

Definition validators : list (DataCenterResource → option error) :=
  [validateResourceType; validateAdditionalLabelNames].

Fixpoint run_validators (vs : list (DataCenterResource → option error))
    (resource : DataCenterResource) : option error :=
  match vs with
  | [] => None
  | validate :: vs' =>
      match validate resource with
      | Some err => Some err
      | None => run_validators vs' resource
      end
  end.

Definition Validate (resource : DataCenterResource) (resources : list DataCenterResource) :
    option validation :=
  match validateGraph resource resources with
  | None => None
  | Some (involvedResources, involvedResourceName, Some err) =>
      Some (involvedResources, involvedResourceName, Some err)
  | Some (involvedResources, _, None) =>
      Some (involvedResources, "", run_validators validators resource)
  end.
End Validators.

(** * Theorems *)

(** ** The ancestors of a resource *)

(** The names reached from [start] along the parents of the map's resources. *)
Inductive ancestor (m : resources_map) (start : list string) : string → Prop :=
| ancestor_parent n : n ∈ start → ancestor m start n
| ancestor_step n r p :
    ancestor m start n → m !! n = Some r → p ∈ ParentNames (dcr_Spec r) →
    ancestor m start p.

Lemma live_map_lookup resources n r :
  live_map resources !! n = Some r →
  r ∈ resources ∧ dcr_Name r = n ∧ DeletionTimestamp (dcr_Meta r) = None.
Proof.
  unfold live_map. induction resources as [|x l IH] using rev_ind; [done|].
  rewrite foldl_app. simpl.
  destruct (DeletionTimestamp (dcr_Meta x)) eqn:Hx.
  - intros ?%IH. set_solver.
  - rewrite lookup_insert_Some. intros [[<- <-]|[? ?%IH]]; set_solver.
Qed.

(** With distinct names, the map holds every live resource. *)
Lemma live_map_complete resources r :
  NoDup (dcr_Name <$> resources) → r ∈ resources → DeletionTimestamp (dcr_Meta r) = None →
  live_map resources !! dcr_Name r = Some r.
Proof.
  unfold live_map. induction resources as [|x l IH] using rev_ind; [set_solver|].
  rewrite fmap_app, foldl_app, NoDup_app. simpl. intros (Hl & Hlx & _) Hr Hlive.
  apply elem_of_app in Hr as [Hr| ->%list_elem_of_singleton].
  - assert (dcr_Name r ≠ dcr_Name x).
    { intros E. apply (Hlx (dcr_Name r)); [by apply list_elem_of_fmap_2|]. rewrite E. set_solver. }
    destruct (DeletionTimestamp (dcr_Meta x)); [by apply IH|].
    rewrite lookup_insert_ne by done. by apply IH.
  - rewrite Hlive. apply lookup_insert_eq.
Qed.

(** ** Fuel *)

(** The edges out of the resources not visited yet. *)
Definition weight (vs : gset string) (r : DataCenterResource) : nat :=
  if decide (dcr_Name r ∈ vs) then 0 else parent_count r.
Definition potential (vs : gset string) (l : list DataCenterResource) : nat :=
  sum_list (weight vs <$> l).

Lemma potential_cons vs x l : potential vs (x :: l) = weight vs x + potential vs l.
Proof. reflexivity. Qed.

Lemma weight_mono vs n r : weight ({[n]} ∪ vs) r ≤ weight vs r.
Proof. unfold weight. repeat case_decide; set_solver || lia. Qed.

Lemma potential_mono vs n l : potential ({[n]} ∪ vs) l ≤ potential vs l.
Proof.
  induction l as [|x l IH]; [done|]. rewrite !potential_cons.
  pose proof (weight_mono vs n x). lia.
Qed.

Lemma potential_visit vs n r l :
  r ∈ l → dcr_Name r = n → n ∉ vs →
  potential ({[n]} ∪ vs) l + parent_count r ≤ potential vs l.
Proof.
  intros Hr Hn Hvs. induction l as [|x l IH]; [set_solver|].
  rewrite !potential_cons. apply elem_of_cons in Hr as [<-|Hr].
  - pose proof (potential_mono vs n l). unfold weight.
    rewrite decide_True by set_solver. rewrite decide_False by set_solver. lia.
  - pose proof (weight_mono vs n x). specialize (IH Hr). lia.
Qed.

Lemma potential_empty l : potential ∅ l = sum_list (parent_count <$> l).
Proof. reflexivity. Qed.

Lemma graph_loop_fuel resources name fuel : ∀ queue visited vs,
  (visited ≤ length queue) →
  (length queue - visited) + potential vs resources < fuel →
  is_Some (graph_loop fuel name (live_map resources) queue visited vs).
Proof.
  induction fuel as [|fuel IH]; intros queue visited vs Hle Hfuel; [lia|]. simpl.
  destruct (queue !! visited) as [node|] eqn:Hnode; [|eauto].
  pose proof (lookup_lt_Some _ _ _ Hnode) as Hlt.
  case_decide as Hvs.
  - apply IH; rewrite length_app, length_take, length_drop; lia.
  - destruct (live_map resources !! node) as [current|] eqn:Hcur; [|eauto].
    case_decide; [eauto|].
    apply live_map_lookup in Hcur as (Hin & Hname & _).
    pose proof (potential_visit vs node current resources Hin Hname Hvs).
    unfold parent_count in *. apply IH; rewrite length_app; lia.
Qed.

Lemma validateGraph_total resource resources : ∃ v, validateGraph resource resources = Some v.
Proof.
  apply graph_loop_fuel; [lia|]. rewrite potential_empty. unfold graph_fuel, parent_count. lia.
Qed.

Lemma Validate_total `{LabelValidation, MapOrder} resource resources :
  ∃ v, Validate resource resources = Some v.
Proof.
  unfold Validate. destruct (validateGraph_total resource resources) as [[[V s] [e|]] ->]; eauto.
Qed.

(** More fuel does not change a verdict. *)
Lemma graph_loop_more_fuel name m k fuel : ∀ queue visited vs v,
  graph_loop fuel name m queue visited vs = Some v →
  graph_loop (fuel + k) name m queue visited vs = Some v.
Proof.
  induction fuel as [|fuel IH]; intros queue visited vs v; [done|]. simpl.
  destruct (queue !! visited) as [node|]; [|done]. case_decide; [apply IH|].
  destruct (m !! node) as [current|]; [|done]. case_decide; [done|apply IH].
Qed.

(** C24: the validation of the graph always terminates: one more turn of the
    loop than the graph has edges reaches the verdict, cycles in the stored
    resources or not, and the loop given any more turns answers the same. *)
Theorem validateGraph_terminates resource resources :
  ∃ v, validateGraph resource resources = Some v ∧
    ∀ fuel, graph_fuel resource resources ≤ fuel →
      graph_loop fuel (dcr_Name resource) (live_map resources)
        (ParentNames (dcr_Spec resource)) 0 ∅ = Some v.
Proof.
  destruct (validateGraph_total resource resources) as [v Hv]. exists v. split; [done|].
  intros fuel Hf. replace fuel with (graph_fuel resource resources + (fuel - graph_fuel resource resources)) by lia.
  by apply graph_loop_more_fuel.
Qed.

(** ** The verdict of the loop *)

Section Graph.
Context (m : resources_map) (name : string) (start : list string).

(** A resource of the map that does not have [name] for parent. *)
Definition clear_of (n : string) : Prop :=
  ∃ r, m !! n = Some r ∧ name ∉ ParentNames (dcr_Spec r).

Inductive graph_verdict : validation → Prop :=
| verdict_ok L :
    NoDup L → (∀ n, n ∈ L ↔ ancestor m start n) →
    (∀ n, ancestor m start n → clear_of n) →
    graph_verdict (GetFromMap m L, "", None)
| verdict_missing L n :
    NoDup L → (∀ x, x ∈ L → ancestor m start x) →
    ancestor m start n → m !! n = None →
    graph_verdict (GetFromMap m L, n, Some (err_ResourceNotFound (mkErrorResourceNotFound n)))
| verdict_cycle L n r :
    NoDup L → (∀ x, x ∈ L → ancestor m start x) →
    ancestor m start n → m !! n = Some r → name ∈ ParentNames (dcr_Spec r) →
    graph_verdict (GetFromMap m L, n, Some (err_CycleDetected (mkErrorCycleDetected n))).

(** What the loop maintains: the prefix of the queue is the visited set, the
    queue holds ancestors only, and the parents of what was visited. *)
Record loop_inv (queue : list string) (visited : nat) (vs : gset string) : Prop := {
  inv_set : ∀ n, n ∈ vs ↔ n ∈ take visited queue;
  inv_nodup : NoDup (take visited queue);
  inv_ancestor : ∀ n, n ∈ queue → ancestor m start n;
  inv_start : ∀ n, n ∈ start → n ∈ queue;
  inv_closed : ∀ n, n ∈ take visited queue → ∃ r, m !! n = Some r ∧
    name ∉ ParentNames (dcr_Spec r) ∧ ∀ p, p ∈ ParentNames (dcr_Spec r) → p ∈ queue
}.

Lemma loop_inv_init : loop_inv start 0 ∅.
Proof. split; rewrite ?take_0; set_solver by eauto using ancestor_parent, NoDup_nil_2. Qed.

(** Dropping an element that was visited before. *)
Lemma loop_inv_skip queue visited vs node :
  queue !! visited = Some node → node ∈ vs → loop_inv queue visited vs →
  loop_inv (take visited queue ++ drop (S visited) queue) visited vs.
Proof.
  intros Hnode Hvs [Hset Hnd Hanc Hst Hcl].
  assert (Htake : take visited (take visited queue ++ drop (S visited) queue) = take visited queue).
  { apply take_app_length'. rewrite length_take. apply lookup_lt_Some in Hnode. lia. }
  assert (Hq : ∀ x, x ∈ queue ↔ x ∈ take visited queue ++ drop (S visited) queue).
  { intros x. rewrite <-(take_drop visited queue) at 1.
    rewrite (drop_S _ _ _ Hnode), !elem_of_app, elem_of_cons.
    apply Hset in Hvs. naive_solver. }
  split; rewrite ?Htake; try done.
  - intros n Hn. by apply Hanc, Hq.
  - intros n Hn. by apply Hq, Hst.
  - intros n Hn. destruct (Hcl n Hn) as (r & ? & ? & Hp).
    exists r. repeat split; [done..|]. intros p ?. by apply Hq, Hp.
Qed.

(** Visiting a resource of the map that does not close a cycle. *)
Lemma loop_inv_visit queue visited vs node r :
  queue !! visited = Some node → node ∉ vs → m !! node = Some r →
  name ∉ ParentNames (dcr_Spec r) → loop_inv queue visited vs →
  loop_inv (queue ++ ParentNames (dcr_Spec r)) (S visited) ({[node]} ∪ vs).
Proof.
  intros Hnode Hvs Hr Hname [Hset Hnd Hanc Hst Hcl].
  pose proof (lookup_lt_Some _ _ _ Hnode).
  assert (Htake : take (S visited) (queue ++ ParentNames (dcr_Spec r)) = take visited queue ++ [node]).
  { rewrite take_app_le by lia. by apply take_S_r. }
  assert (node ∈ queue) by (by eapply list_elem_of_lookup_2).
  split; rewrite ?Htake.
  - intros n. specialize (Hset n). set_solver.
  - apply NoDup_app. repeat split; [done| |apply NoDup_singleton].
    intros x Hx ->%list_elem_of_singleton. by apply Hvs, Hset.
  - intros n [?|?]%elem_of_app; [by apply Hanc|].
    eapply ancestor_step; [by apply Hanc| |]; done.
  - intros n ?. apply elem_of_app. auto.
  - intros n [Hn| ->%list_elem_of_singleton]%elem_of_app.
    + destruct (Hcl n Hn) as (r' & ? & ? & Hp). exists r'.
      repeat split; [done..|]. intros p ?. apply elem_of_app. auto.
    + exists r. repeat split; [done..|]. intros p ?. apply elem_of_app. auto.
Qed.

(** When nothing is left to visit, the queue is the set of ancestors. *)
Lemma loop_inv_end queue visited vs :
  queue !! visited = None → loop_inv queue visited vs →
  graph_verdict (GetFromMap m (take visited queue), "", None).
Proof.
  intros Hend [Hset Hnd Hanc Hst Hcl]. apply lookup_ge_None in Hend.
  rewrite take_ge in * by done.
  assert (∀ n, ancestor m start n → n ∈ queue) as Hall.
  { induction 1 as [n ?|n r p _ Hn Hr Hp]; [by apply Hst|].
    destruct (Hcl n Hn) as (r' & Hr' & _ & Hps). simplify_eq. by apply Hps. }
  constructor; [done|naive_solver|].
  intros n Hn%Hall. destruct (Hcl n Hn) as (r & ? & ? & _). by exists r.
Qed.

Lemma graph_loop_verdict fuel : ∀ queue visited vs v,
  loop_inv queue visited vs →
  graph_loop fuel name m queue visited vs = Some v → graph_verdict v.
Proof.
  induction fuel as [|fuel IH]; intros queue visited vs v Hinv; [done|]. simpl.
  destruct (queue !! visited) as [node|] eqn:Hnode; last first.
  { intros; simplify_eq. by eapply loop_inv_end. }
  assert (ancestor m start node) as Hanc
    by (eapply inv_ancestor; [done|by eapply list_elem_of_lookup_2]).
  assert (∀ x, x ∈ take visited queue → ancestor m start x) as Htk.
  { intros x Hx. eapply inv_ancestor; [done|]. by eapply subseteq_take. }
  case_decide as Hvs; [by apply IH, (loop_inv_skip _ _ _ node)|].
  destruct (m !! node) as [current|] eqn:Hcur; last first.
  { intros; simplify_eq. by constructor; [eapply inv_nodup| | |]. }
  case_decide.
  - intros; simplify_eq. by econstructor; [eapply inv_nodup| | | |].
  - by eapply IH, loop_inv_visit.
Qed.
End Graph.

Lemma validateGraph_verdict resource resources v :
  validateGraph resource resources = Some v →
  graph_verdict (live_map resources) (dcr_Name resource) (ParentNames (dcr_Spec resource)) v.
Proof. apply graph_loop_verdict, loop_inv_init. Qed.

(** ** Properties of the graph's validation *)

Lemma validateGraph_accepts resource resources :
  (∃ V s, validateGraph resource resources = Some (V, s, None)) ↔
  ∀ n, ancestor (live_map resources) (ParentNames (dcr_Spec resource)) n →
    clear_of (live_map resources) (dcr_Name resource) n.
Proof.
  split.
  - intros (V & s & Hv%validateGraph_verdict). inversion Hv; subst; done.
  - intros Hclear. destruct (validateGraph_total resource resources) as [v Hv].
    pose proof (validateGraph_verdict _ _ _ Hv) as Hverdict.
    inversion Hverdict as [L _ _ _|L n _ _ Hn Hnone|L n r _ _ Hn Hr Hin]; subst; [by eauto|..];
      exfalso; apply Hclear in Hn as (r' & ? & ?); by simplify_eq.
Qed.

(** C14: a resource is accepted exactly when every ancestor reached along the
    parents is a live resource that does not have the resource itself for a
    parent. *)
Theorem validateGraph_accepts_iff resource resources :
  (∃ V s, validateGraph resource resources = Some (V, s, None)) ↔
  ∀ n, ancestor (live_map resources) (ParentNames (dcr_Spec resource)) n →
    clear_of (live_map resources) (dcr_Name resource) n.
Proof. apply validateGraph_accepts. Qed.

(** On success the visited resources are the ancestors of the resource,
    each exactly once, each a live resource of the list. *)
Theorem validateGraph_visits_ancestors resource resources V s :
  validateGraph resource resources = Some (V, s, None) →
  s = "" ∧ NoDup (dcr_Name <$> V) ∧
  (∀ n, n ∈ dcr_Name <$> V ↔ ancestor (live_map resources) (ParentNames (dcr_Spec resource)) n) ∧
  (∀ r, r ∈ V → r ∈ resources ∧ DeletionTimestamp (dcr_Meta r) = None).
Proof.
  intros Hv%validateGraph_verdict. inversion Hv as [L Hnd HL Hclear| |]; subst.
  assert (Hmap : ∀ n, n ∈ L → ∃ r, live_map resources !! n = Some r).
  { intros n Hn%HL. destruct (Hclear n Hn) as (r & ? & _). eauto. }
  assert (Hnames : dcr_Name <$> GetFromMap (live_map resources) L = L).
  { unfold GetFromMap. rewrite <-list_fmap_compose. clear Hv Hnd HL Hclear.
    induction L as [|n L IH]; [done|]. csimpl. rewrite IH by set_solver. f_equal.
    destruct (Hmap n) as [r Hr]; [set_solver|]. rewrite Hr. simpl.
    by apply live_map_lookup in Hr as (_ & ? & _). }
  rewrite Hnames. repeat split; try done; [naive_solver..| |];
    intros; apply list_elem_of_fmap in H as (n & -> & Hn); destruct (Hmap n Hn) as [r' Hr];
    rewrite Hr; simpl; by apply live_map_lookup in Hr as (? & _ & ?).
Qed.

(** C25: an error names an ancestor, and is truthful: the resource reported
    missing is not a live resource, the one reported on a cycle has the
    validated resource for a parent. *)
Theorem validateGraph_error_sound resource resources V s e :
  validateGraph resource resources = Some (V, s, Some e) →
  ancestor (live_map resources) (ParentNames (dcr_Spec resource)) s ∧
  ((e = err_ResourceNotFound (mkErrorResourceNotFound s) ∧ live_map resources !! s = None) ∨
   (e = err_CycleDetected (mkErrorCycleDetected s) ∧
    ∃ r, live_map resources !! s = Some r ∧ dcr_Name resource ∈ ParentNames (dcr_Spec r))).
Proof. intros Hv%validateGraph_verdict. inversion Hv; subst; eauto 10. Qed.

(** The edges of the stored graph: [p] is a parent of the resource named [n]. *)
Definition parent_edge (m : resources_map) (p n : string) : Prop :=
  ∃ r, m !! n = Some r ∧ p ∈ ParentNames (dcr_Spec r).

Lemma tc_ancestor m p n r :
  tc (parent_edge m) p n → m !! n = Some r → ancestor m (ParentNames (dcr_Spec r)) p.
Proof.
  intros Htc Hr. induction Htc as [p n (r' & ? & ?)|p x n (rx & Hx & Hp) _ IH]; simplify_eq.
  - by apply ancestor_parent.
  - eapply ancestor_step; [by apply IH|done..].
Qed.

(** C13: when every live resource of a namespace passes the validation, the
    whole graph is acyclic: no resource is, through any number of parents, an
    ancestor of itself. *)
Theorem validated_graph_acyclic resources :
  NoDup (dcr_Name <$> resources) →
  (∀ r, r ∈ resources → DeletionTimestamp (dcr_Meta r) = None →
     ∃ V s, validateGraph r resources = Some (V, s, None)) →
  ∀ n, ¬ tc (parent_edge (live_map resources)) n n.
Proof.
  intros Hnd Hvalid n Htc.
  assert (∃ r, live_map resources !! n = Some r) as [r Hr].
  { clear Hvalid. remember n as n' eqn:E in Htc at 1. clear E.
    induction Htc as [? ? (r & ? & _)|]; eauto. }
  destruct (live_map_lookup _ _ _ Hr) as (Hin & Hname & Hlive).
  pose proof (proj1 (validateGraph_accepts r resources) (Hvalid r Hin Hlive)) as Hclear.
  rewrite Hname in Hclear.
  assert (∃ x, parent_edge (live_map resources) n x ∧
            ancestor (live_map resources) (ParentNames (dcr_Spec r)) x) as (x & (rx & Hx & Hp) & Hanc).
  { inversion Htc as [? ? He|? x ? He Hx]; subst.
    - exists (dcr_Name r). split; [done|]. destruct He as (r' & ? & ?); simplify_eq.
      by apply ancestor_parent.
    - exists x. split; [done|]. by eapply tc_ancestor. }
  destruct (Hclear x Hanc) as (r' & ? & ?). by simplify_eq.
Qed.

(** ** The validators *)

Section ValidateFacts.
Context `{LabelValidation} `{MapOrderLaws}.

Lemma elem_of_range {V} (m : gmap string V) k v : (k, v) ∈ range_map m ↔ m !! k = Some v.
Proof. rewrite range_perm. apply elem_of_map_to_list. Qed.

Lemma validateAdditionalLabelNames_None resource :
  validateAdditionalLabelNames resource = None ↔
  ∀ k v, default ∅ (dcr_AdditionalLabels (dcr_Spec resource)) !! k = Some v →
    IsValidLabelName k = true.
Proof.
  unfold validateAdditionalLabelNames.
  destruct (list_find _ _) as [[i [k v]]|] eqn:Hf.
  - apply list_find_Some in Hf as (Hi & Hk & _). split; [done|]. intros Hall.
    apply list_elem_of_lookup_2, elem_of_range, Hall in Hi. simpl in Hk. congruence.
  - split; [|done]. intros _ k v Hk%elem_of_range.
    apply list_find_None in Hf. rewrite Forall_forall in Hf.
    apply Hf in Hk. by apply not_false_is_true.
Qed.

Lemma validateAdditionalLabelNames_Some resource e :
  validateAdditionalLabelNames resource = Some e →
  ∃ k v, default ∅ (dcr_AdditionalLabels (dcr_Spec resource)) !! k = Some v ∧
    IsValidLabelName k = false ∧ e = err_InvalidLabelName (mkErrorInvalidLabelName k).
Proof.
  unfold validateAdditionalLabelNames.
  destruct (list_find _ _) as [[i [k v]]|] eqn:Hf; [|done]. intros; simplify_eq.
  apply list_find_Some in Hf as (Hi & Hk & _). exists k, v.
  split; [|done]. by apply elem_of_range, (list_elem_of_lookup_2 _ i).
Qed.

Definition known_type (t : string) : Prop :=
  t ∈ [""; DataCenterResourceTypePDU; DataCenterResourceTypeBaremetal;
       DataCenterResourceTypeVM; DataCenterResourceTypeKubernetes; DataCenterResourceTypeHeat].

(** The whole validation always answers, and answers without error
    exactly when the graph is accepted, the type is one of the known types
    (or empty) and every additional label has a valid name. *)
Theorem Validate_accepts_iff resource resources :
  ∃ V s err, Validate resource resources = Some (V, s, err) ∧
    (err = None ↔
     (∀ n, ancestor (live_map resources) (ParentNames (dcr_Spec resource)) n →
        clear_of (live_map resources) (dcr_Name resource) n) ∧
     known_type (dcr_Type (dcr_Spec resource)) ∧
     ∀ k v, default ∅ (dcr_AdditionalLabels (dcr_Spec resource)) !! k = Some v →
       IsValidLabelName k = true).
Proof.
  pose proof (validateGraph_accepts resource resources) as Hgraph.
  pose proof (validateAdditionalLabelNames_None resource) as Hlabels.
  destruct (validateGraph_total resource resources) as [[[V s] [e|]] Hv].
  - exists V, s, (Some e). unfold Validate. rewrite Hv. split; [done|].
    split; [done|]. intros [(? & ? & ?)%Hgraph _]. congruence.
  - exists V, "", (run_validators validators resource). unfold Validate. rewrite Hv.
    split; [done|]. simpl. unfold validateResourceType, known_type.
    case_decide; [|naive_solver].
    destruct (validateAdditionalLabelNames resource); naive_solver.
Qed.

(** The errors come in the order graph, type, labels, and only graph
    errors name an involved resource. *)
Theorem Validate_error_order resource resources V s e :
  Validate resource resources = Some (V, s, Some e) →
  validateGraph resource resources = Some (V, s, Some e) ∨
  (s = "" ∧ (∃ s', validateGraph resource resources = Some (V, s', None)) ∧
   ((e = err_UnknownType (mkErrorUnknownType (dcr_Type (dcr_Spec resource))) ∧
     ¬ known_type (dcr_Type (dcr_Spec resource))) ∨
    (known_type (dcr_Type (dcr_Spec resource)) ∧ ∃ k,
     e = err_InvalidLabelName (mkErrorInvalidLabelName k) ∧ IsValidLabelName k = false ∧
     is_Some (default ∅ (dcr_AdditionalLabels (dcr_Spec resource)) !! k)))).
Proof.
  unfold Validate. destruct (validateGraph resource resources) as [[[V' s'] [e'|]]|];
    [by intros; simplify_eq; left| |done].
  simpl. intros Hr. right. simplify_eq.
  split; [done|]. split; [eauto|]. unfold validateResourceType in *. fold (known_type (dcr_Type (dcr_Spec resource))) in *.
  case_decide; simplify_eq; [right|by left]. split; [done|].
  destruct (validateAdditionalLabelNames resource) eqn:Hl; simplify_eq.
  apply validateAdditionalLabelNames_Some in Hl as (k & v & ? & ? & ->). eauto.
Qed.
End ValidateFacts.

(** ** What the verdict depends on *)

Lemma live_map_fmap f resources :
  (∀ r, dcr_Name (f r) = dcr_Name r ∧
        DeletionTimestamp (dcr_Meta (f r)) = DeletionTimestamp (dcr_Meta r)) →
  live_map (f <$> resources) = f <$> live_map resources.
Proof.
  intros Hf. unfold live_map. induction resources as [|x l IH] using rev_ind.
  { symmetry. apply fmap_empty. }
  rewrite fmap_app, !foldl_app. simpl. destruct (Hf x) as [Hn Hd]. rewrite Hn, Hd, IH.
  destruct (DeletionTimestamp (dcr_Meta x)); [done|]. by rewrite fmap_insert.
Qed.

Lemma graph_loop_fmap f name fuel : ∀ (m : resources_map) queue visited vs,
  (∀ r, ParentNames (dcr_Spec (f r)) = ParentNames (dcr_Spec r)) →
  (λ v, (v.1.2, v.2)) <$> graph_loop fuel name (f <$> m) queue visited vs =
  (λ v, (v.1.2, v.2)) <$> graph_loop fuel name m queue visited vs.
Proof.
  induction fuel as [|fuel IH]; intros m queue visited vs Hf; [done|]. simpl.
  destruct (queue !! visited) as [node|]; [|done].
  case_decide; [by apply IH|].
  rewrite lookup_fmap. destruct (m !! node) as [r|]; [|done]. simpl. rewrite Hf.
  case_decide; [done|by apply IH].
Qed.

(** The verdict on the graph is decided by names, deletion timestamps and
    parents alone: no label, type or measurement of any resource can change
    the error or the resource it involves. *)
Theorem validateGraph_shape_only f resource resources :
  (∀ r, dcr_Name (f r) = dcr_Name r ∧
        DeletionTimestamp (dcr_Meta (f r)) = DeletionTimestamp (dcr_Meta r) ∧
        ParentNames (dcr_Spec (f r)) = ParentNames (dcr_Spec r)) →
  (λ v, (v.1.2, v.2)) <$> validateGraph (f resource) (f <$> resources) =
  (λ v, (v.1.2, v.2)) <$> validateGraph resource resources.
Proof.
  intros Hf. unfold validateGraph.
  assert (graph_fuel (f resource) (f <$> resources) = graph_fuel resource resources) as ->.
  { unfold graph_fuel, parent_count. destruct (Hf resource) as (_ & _ & ->).
    do 2 f_equal. rewrite <-list_fmap_compose. f_equal. apply list_fmap_ext.
    intros i r _. simpl. by destruct (Hf r) as (_ & _ & ->). }
  destruct (Hf resource) as (-> & _ & ->).
  rewrite live_map_fmap by naive_solver. apply graph_loop_fmap. naive_solver.
Qed.

(** The names of the resources, separated by commas. *)
Lemma format_from_Join l : ∀ i text,
  i ≠ 0 → format_from i text l = text +:+ foldr (λ r acc, ", " +:+ dcr_Name r +:+ acc) "" l.
Proof.
  induction l as [|r l IH]; intros i text Hi; simpl; [by rewrite str_app_nil_r|].
  rewrite decide_False, IH by done. by rewrite !str_app_assoc.
Qed.

Lemma Join_foldr sep l : ∀ x,
  strings.Join (x :: l) sep = x +:+ foldr (λ n acc, sep +:+ n +:+ acc) "" l.
Proof.
  induction l as [|y l IH]; intros x; [by rewrite str_app_nil_r|].
  change (strings.Join (x :: y :: l) sep) with (x +:+ sep +:+ strings.Join (y :: l) sep).
  by rewrite IH.
Qed.

Lemma FormatResources_Join l : FormatResources l = strings.Join (dcr_Name <$> l) ", ".
Proof.
  destruct l as [|r l]; [done|].
  change (FormatResources (r :: l)) with (format_from 1 (dcr_Name r) l).
  rewrite fmap_cons, Join_foldr, format_from_Join by done. f_equal.
  induction l as [|r' l IH]; [done|]. simpl. by rewrite IH.
Qed.

(** ** Witnesses: a PDU feeding a server feeding a virtual machine *)
Definition sample_resource (name typ : string) (parents : list string) : DataCenterResource :=
  {| dcr_Meta := mkObjectMeta name "chantico" name 1 None [];
     dcr_Spec := mkDataCenterResourceSpec typ []
                   ((λ p, mkParentRef p "1" None) <$> parents) "" None None;
     dcr_Status := mkDataCenterResourceStatus 0 "" [] |}.
Definition sample_pdu := sample_resource "pdu1" "pdu" [].
Definition sample_bm := sample_resource "bm1" "baremetal" ["pdu1"].
Definition sample_vm := sample_resource "vm1" "vm" ["bm1"; "pdu1"].
Definition sample_graph := [sample_pdu; sample_bm; sample_vm].

Lemma validateGraph_visits_ancestors_witness :
  NoDup (dcr_Name <$> [sample_bm; sample_pdu]).
Proof.
  apply (validateGraph_visits_ancestors sample_vm sample_graph [sample_bm; sample_pdu] "").
  vm_compute. reflexivity.
Defined.

Definition sample_loop := [sample_resource "a" "pdu" ["b"]; sample_resource "b" "pdu" ["a"]].

Lemma validateGraph_error_sound_witness :
  ancestor (live_map sample_loop) ["b"] "b".
Proof.
  apply (validateGraph_error_sound (sample_resource "a" "pdu" ["b"]) sample_loop []
           "b" (err_CycleDetected (mkErrorCycleDetected "b"))).
  vm_compute. reflexivity.
Defined.

Lemma validated_graph_acyclic_witness :
  ¬ tc (parent_edge (live_map sample_graph)) "vm1" "vm1".
Proof.
  apply validated_graph_acyclic.
  - apply (bool_decide_unpack _). vm_compute. exact I.
  - intros r Hr _. unfold sample_graph in Hr. rewrite !elem_of_cons in Hr.
    destruct Hr as [->|[->|[->|Hr]]]; [| | |by apply not_elem_of_nil in Hr];
      eexists _, _; vm_compute; reflexivity.
Defined.

Lemma Validate_error_order_witness :
  let l := Build_LabelValidation (λ _, true) in
  let o := Build_MapOrder (λ V, map_to_list) in
  validateGraph (sample_resource "x" "perpetuum" []) [] =
    Some ([], "", Some (err_UnknownType (mkErrorUnknownType "perpetuum"))) ∨
  ("" = "" ∧ (∃ s', validateGraph (sample_resource "x" "perpetuum" []) [] = Some ([], s', None)) ∧
   ((err_UnknownType (mkErrorUnknownType "perpetuum") = err_UnknownType (mkErrorUnknownType "perpetuum") ∧
     ¬ known_type "perpetuum") ∨
    (known_type "perpetuum" ∧ ∃ k,
     err_UnknownType (mkErrorUnknownType "perpetuum") = err_InvalidLabelName (mkErrorInvalidLabelName k) ∧
     IsValidLabelName k = false ∧ is_Some ((∅ : gmap string string) !! k)))).
Proof.
  intros l o.
  apply (Validate_error_order (H0 := o) (H1 := {| range_perm := λ V m, reflexivity (map_to_list m) |})
           (sample_resource "x" "perpetuum" []) []).
  vm_compute. reflexivity.
Defined.

(** Clearing every label, as a map of the service of a leaf would be. *)
Definition clear_labels (r : DataCenterResource) : DataCenterResource :=
  set_dcr_Spec (mkDataCenterResourceSpec (dcr_Type (dcr_Spec r)) [] (dcr_Parents (dcr_Spec r))
                  "" None None) r.

Lemma validateGraph_shape_only_witness :
  (λ v, (v.1.2, v.2)) <$> validateGraph (clear_labels sample_vm) (clear_labels <$> sample_graph) =
  (λ v, (v.1.2, v.2)) <$> validateGraph sample_vm sample_graph.
Proof. apply validateGraph_shape_only. intros r. repeat split. Defined.

Lemma Validate_accepts_iff_witness :
  let l := Build_LabelValidation (λ _, true) in
  let o := Build_MapOrder (λ V, map_to_list) in
  ∃ V s err, Validate (H := l) (H0 := o) sample_vm sample_graph = Some (V, s, err) ∧
    (err = None ↔
      (∀ n, ancestor (live_map sample_graph) ["bm1"; "pdu1"] n → clear_of (live_map sample_graph) "vm1" n) ∧
      known_type "vm" ∧
      ∀ k v, (∅ : gmap string string) !! k = Some v → IsValidLabelName (LabelValidation := l) k = true).
Proof.
  intros l o.
  exact (Validate_accepts_iff (H := l) (H0 := o) (H1 := {| range_perm := λ V m, reflexivity (map_to_list m) |})
           sample_vm sample_graph).
Defined.
