(* ===== verification/Rules.v ===== *)
(** [internal/datacenterresource]: the expressions of a resource once its
    templates are rendered ([template.go]) and the Prometheus recording rules
    built from them ([rules_pure.go]). *)
From S2P Require Import Prelude GoStd Errors Selector ApiTypes.

(** ** Rendered expressions *)
Record ResolvedParent := mkResolvedParent { rp_Name : string; rp_Coefficient : string }.
Record ResolvedExpressions := mkResolvedExpressions {
  re_EnergyMetric : string;
  re_Parents : list ResolvedParent
}.

Section TemplateRenderer.
Context {A : Type} `{SelectorClient A, TextTemplate}.
Implicit Types (client : A) (namespace : string).

Fixpoint resolve_parents client namespace (refs : list ParentRef) (parents : list ResolvedParent) :
    outcome (error + list ResolvedParent) :=
  match refs with
  | [] => Done (inr parents)
  | parent :: rest =>
      match Render (pr_CoefficientFrom parent) client namespace with
      | Panicked => Panicked
      | Done (inl err) => Done (inl err)
      | Done (inr coefficient) =>
          resolve_parents client namespace rest
            (parents ++ [mkResolvedParent (pr_Name parent) coefficient])
      end
  end.

Definition resolveParentExpressions client namespace (d : DataCenterResource) :
    outcome (error + list ResolvedParent) :=
  resolve_parents client namespace (dcr_Parents (dcr_Spec d)) [].

Definition resolveEnergyMetric client namespace (d : DataCenterResource) :
    outcome (error + string) :=
  match dcr_EnergyMetricFrom (dcr_Spec d) with
  | None => Done (inr "")
  | Some energyMetricFrom => Render (Some energyMetricFrom) client namespace
  end.

Definition resolveExpressions client namespace (d : DataCenterResource) :
    outcome (error + ResolvedExpressions) :=
  match resolveEnergyMetric client namespace d with
  | Panicked => Panicked
  | Done (inl err) => Done (inl err)
  | Done (inr energyMetric) =>
      match resolveParentExpressions client namespace d with
      | Panicked => Panicked
      | Done (inl err) => Done (inl err)
      | Done (inr parents) => Done (inr (mkResolvedExpressions energyMetric parents))
      end
  end.
End TemplateRenderer.

(** ** Recording rules *)
Record RecordingRule := mkRecordingRule {
  rr_Record : string;
  rr_Expr : string;
  rr_Labels : gmap string string
}.
Record RuleGroup := mkRuleGroup { rg_Name : string; rg_Rules : list RecordingRule }.
Record RuleFile := mkRuleFile { rf_Groups : list RuleGroup }.

Record RuleBuilder := NewRuleBuilder {
  rb_resource : DataCenterResource;
  rb_expressions : ResolvedExpressions
}.

Definition CoefficientMetricName : string := "chantico_power_coefficient".
Definition EnergyMetricName : string := "chantico_power_watts".

Definition EnergyMetricQuery (resourceName : string) : string :=
  EnergyMetricName +:+ "{resource=" +:+ dquote +:+ resourceName +:+ dquote +:+ "}".

Definition CoefficientMetricQuery (parentName childName : string) : string :=
  CoefficientMetricName +:+ "{parent=" +:+ dquote +:+ parentName +:+ dquote +:+
  ", child=" +:+ dquote +:+ childName +:+ dquote +:+ "}".

(** a-z, A-Z, 0-9 and the underscore. *)
Definition metric_rune (r : Z) : bool :=
  in_range 97 122 r || in_range 65 90 r || in_range 48 57 r || (r =? 95)%Z.

Definition SanitizeMetricName (name : string) : string :=
  strings.MapBytes
    (λ r, if metric_rune r then Ascii.ascii_of_N (Z.to_N r) else "_"%char) name.

(** [sort.Slice] sorts in place by a strict order; it need not be stable. *)
Class SortSlice := { sort_Slice : ∀ A : Type, (A → A → bool) → list A → list A }.
Arguments sort_Slice {_} {A} less l.

(** [a < b] on strings: the order of their bytes. *)
Definition str_less (a b : string) : bool := String.ltb a b.

(** [maps.Copy(dst, src)]: the entries of [src] replace those of [dst]. *)
Definition maps_Copy (dst src : gmap string string) : gmap string string := src ∪ dst.

(** Called with a map that is not nil; [maps.Clone] copies it. *)
Definition applyAdditionalLabels (base labels : gmap string string) : gmap string string :=
  maps_Copy labels base.

Section RuleBuilder.
Context `{SortSlice}.
Implicit Types (b : RuleBuilder).

Definition constructParentNamesLabel b : string :=
  strings.Join (ParentNames (dcr_Spec (rb_resource b))) ",".

Definition buildSharedLabels b (base : labels_ptr) : gmap string string :=
  let spec := dcr_Spec (rb_resource b) in
  let labels : gmap string string :=
    <["type" := dcr_Type spec]> {["resource" := dcr_Name (rb_resource b)]} in
  let labels :=
    if decide (0 < length (dcr_Parents spec))
    then <["parents" := constructParentNamesLabel b]> labels else labels in
  let labels :=
    match base with Some l => applyAdditionalLabels labels l | None => labels end in
  match dcr_AdditionalLabels spec with
  | Some l => applyAdditionalLabels labels l
  | None => labels
  end.

Definition BuildEnergyAliasRule b : option RecordingRule :=
  if decide (0 < length (dcr_Parents (dcr_Spec (rb_resource b)))) then None
  else Some {| rr_Record := EnergyMetricName;
               rr_Expr := re_EnergyMetric (rb_expressions b);
               rr_Labels := buildSharedLabels b (Some ∅) |}.

Definition coefficient_rule b (pc : ResolvedParent) : RecordingRule :=
  {| rr_Record := CoefficientMetricName;
     rr_Expr := rp_Coefficient pc;
     rr_Labels := <["parent" := rp_Name pc]> {["child" := dcr_Name (rb_resource b)]} |}.

Definition BuildCoefficientRules b : list RecordingRule :=
  if decide (length (re_Parents (rb_expressions b)) = 0) then []
  else
    let pcs := filter (λ p, rp_Coefficient p ≠ "") (re_Parents (rb_expressions b)) in
    coefficient_rule b <$> sort_Slice (λ p q, str_less (rp_Name p) (rp_Name q)) pcs.

Definition energy_expr b : string :=
  "sum(" +:+ CoefficientMetricName +:+ "{child=" +:+ dquote +:+ dcr_Name (rb_resource b) +:+
  dquote +:+ "} * on (parent) group_left () label_replace(" +:+ EnergyMetricName +:+ ", " +:+
  dquote +:+ "parent" +:+ dquote +:+ ", " +:+ dquote +:+ "$1" +:+ dquote +:+ ", " +:+
  dquote +:+ "resource" +:+ dquote +:+ ", " +:+ dquote +:+ "(.*)" +:+ dquote +:+ "))".

Definition BuildEnergyRule b : option RecordingRule :=
  if decide (length (dcr_Parents (dcr_Spec (rb_resource b))) = 0) then None
  else
    let labels : gmap string string := ∅ in
    let labels := maps_Copy labels (buildSharedLabels b (Some labels)) in
    Some {| rr_Record := EnergyMetricName; rr_Expr := energy_expr b; rr_Labels := labels |}.

Definition BuildRecordingRules b : list RecordingRule :=
  let rules := match BuildEnergyAliasRule b with Some r => [r] | None => [] end in
  let rules := rules ++ BuildCoefficientRules b in
  match BuildEnergyRule b with Some r => rules ++ [r] | None => rules end.

Definition BuildRuleFile b : option RuleFile :=
  let rules := BuildRecordingRules b in
  if decide (length rules = 0) then None
  else Some (mkRuleFile
         [mkRuleGroup ("chantico_" +:+ SanitizeMetricName (dcr_Name (rb_resource b))) rules]).
End RuleBuilder.

(** * Theorems *)

(** ** Sorting *)

(** What [sort.Slice] asks of its order: a strict weak order. *)
Definition strict_weak {A} (less : A → A → bool) : Prop :=
  (∀ x y, less x y = true → less y x = false) ∧
  (∀ x y z, less y x = false → less z y = false → less z x = false).

(** Its documented behaviour: the elements are kept, and come in order. *)
Class SortSliceLaws `{SortSlice} : Prop := {
  sort_perm {A} (less : A → A → bool) l : sort_Slice less l ≡ₚ l;
  sort_sorted {A} (less : A → A → bool) l :
    strict_weak less → StronglySorted (λ x y, less y x = false) (sort_Slice less l)
}.

Lemma str_less_leb a b : str_less a b = negb (String.leb b a).
Proof.
  unfold str_less, String.ltb, String.leb. rewrite (String.compare_antisym a b).
  by destruct (String.compare b a).
Qed.

Lemma str_less_le a b : str_less a b = false ↔ String.le b a.
Proof.
  rewrite str_less_leb. unfold String.le. destruct (String.leb b a); simpl; split; done.
Qed.

Lemma strict_weak_names : strict_weak (λ p q, str_less (rp_Name p) (rp_Name q)).
Proof.
  split.
  - intros p q Hpq. apply str_less_le.
    destruct (total String.le (rp_Name p) (rp_Name q)) as [?|Hle%str_less_le]; [done|congruence].
  - intros p q r. rewrite !str_less_le. intros. by trans (rp_Name q).
Qed.

Lemma StronglySorted_impl {A} (R1 R2 : relation A) l :
  (∀ x y, R1 x y → R2 x y) → StronglySorted R1 l → StronglySorted R2 l.
Proof. intros HR. induction 1; constructor; [done|]. eapply Forall_impl; eauto. Qed.

(** A list without duplicate keys has one order. *)
Lemma sorted_unique {A} (key : A → string) (l1 l2 : list A) :
  NoDup (key <$> l1) → l1 ≡ₚ l2 →
  StronglySorted (λ x y, String.le (key x) (key y)) l1 →
  StronglySorted (λ x y, String.le (key x) (key y)) l2 → l1 = l2.
Proof.
  intros Hnd Hperm H1 H2. eapply StronglySorted_unique_strong; [|exact H1|exact H2|done].
  intros x y Hx Hy Hxy Hyx.
  assert (key x = key y) as Hkey by (by apply (anti_symm String.le)).
  apply list_elem_of_lookup in Hx as [i Hi]. rewrite <-Hperm in Hy.
  apply list_elem_of_lookup in Hy as [j Hj].
  enough (i = j) as -> by congruence.
  apply (NoDup_lookup (key <$> l1) i j (key x)); [done| |];
    rewrite list_lookup_fmap, ?Hi, ?Hj; simpl; congruence.
Qed.

(** Insertion of the elements one by one: a concrete [sort.Slice]. *)
Module SimpleSort.
Fixpoint insert_sorted {A} (less : A → A → bool) (x : A) (l : list A) : list A :=
  match l with
  | [] => [x]
  | y :: l' => if less y x then y :: insert_sorted less x l' else x :: l
  end.
Definition insertion_sort {A} (less : A → A → bool) (l : list A) : list A :=
  foldr (insert_sorted less) [] l.

Lemma insert_sorted_perm {A} (less : A → A → bool) x l : insert_sorted less x l ≡ₚ x :: l.
Proof.
  induction l as [|y l IH]; simpl; [done|]. destruct (less y x); [|done].
  rewrite IH. apply Permutation_swap.
Qed.

#[export] Instance sort_slice : SortSlice := {| sort_Slice := @insertion_sort |}.
#[export] Instance sort_slice_laws : SortSliceLaws.
Proof.
  split; simpl.
  - intros A less l. induction l as [|x l IH]; simpl; [done|].
    by rewrite insert_sorted_perm, IH.
  - intros A less l [Hasym Htrans]. induction l as [|x l IH]; simpl; [constructor|].
    fold (insertion_sort less l). set (s := insertion_sort less l) in *. clearbody s.
    induction IH as [|y s Hs IH Hy]; simpl; [repeat constructor|].
    destruct (less y x) eqn:E.
    + constructor; [done|]. rewrite insert_sorted_perm. constructor; [by apply Hasym|done].
    + constructor; [by constructor|]. constructor; [done|].
      eapply Forall_impl; [exact Hy|]. intros z Hz. by eapply Htrans.
Qed.
End SimpleSort.

(** ** Rules *)

Definition no_parents (d : DataCenterResource) : bool := bool_decide (dcr_Parents (dcr_Spec d) = []).

Section RuleFacts.
Context `{SortSliceLaws}.
Implicit Types (b : RuleBuilder).

(** The labels of a resource's own series. *)
Definition default_labels b : gmap string string :=
  let spec := dcr_Spec (rb_resource b) in
  let labels : gmap string string :=
    <["type" := dcr_Type spec]> {["resource" := dcr_Name (rb_resource b)]} in
  if no_parents (rb_resource b) then labels
  else <["parents" := constructParentNamesLabel b]> labels.

Lemma buildSharedLabels_eq b :
  buildSharedLabels b (Some ∅) =
  default_labels b ∪ default ∅ (dcr_AdditionalLabels (dcr_Spec (rb_resource b))).
Proof.
  unfold buildSharedLabels, default_labels, applyAdditionalLabels, maps_Copy, no_parents.
  rewrite bool_decide_decide.
  destruct (dcr_AdditionalLabels _), (dcr_Parents _); simpl; by rewrite ?(right_id_L ∅ (∪)).
Qed.

(** The one rule for the power of the resource. *)
Definition power_rule b : RecordingRule :=
  {| rr_Record := EnergyMetricName;
     rr_Expr := if no_parents (rb_resource b) then re_EnergyMetric (rb_expressions b)
                else energy_expr b;
     rr_Labels := default_labels b ∪
                  default ∅ (dcr_AdditionalLabels (dcr_Spec (rb_resource b))) |}.

Lemma BuildRecordingRules_eq b :
  BuildRecordingRules b =
  if no_parents (rb_resource b) then power_rule b :: BuildCoefficientRules b
  else BuildCoefficientRules b ++ [power_rule b].
Proof.
  unfold BuildRecordingRules, BuildEnergyAliasRule, BuildEnergyRule, power_rule, maps_Copy.
  rewrite buildSharedLabels_eq. unfold no_parents. rewrite bool_decide_decide.
  destruct (dcr_Parents _); simpl; [done|]. by rewrite (right_id_L ∅ (∪)).
Qed.

Lemma BuildCoefficientRules_perm b :
  BuildCoefficientRules b ≡ₚ
  coefficient_rule b <$> filter (λ p, rp_Coefficient p ≠ "") (re_Parents (rb_expressions b)).
Proof.
  unfold BuildCoefficientRules. case_decide as Hlen.
  - apply nil_length_inv in Hlen. by rewrite Hlen.
  - apply fmap_Permutation, sort_perm.
Qed.

Lemma BuildRuleFile_some b :
  BuildRuleFile b =
    Some (mkRuleFile [mkRuleGroup ("chantico_" +:+ SanitizeMetricName (dcr_Name (rb_resource b)))
                        (BuildRecordingRules b)]) ∧
  BuildRecordingRules b ≠ [].
Proof.
  assert (BuildRecordingRules b ≠ []) as Hne.
  { rewrite BuildRecordingRules_eq. destruct (no_parents _); [done|].
    by intros [_ ?]%app_nil. }
  unfold BuildRuleFile. split; [|done]. rewrite decide_False; [done|].
  by intros ?%nil_length_inv.
Qed.

(** A resource always gets a rule file: one group named after the
    resource, holding its rules, of which there is at least one.  The branch
    that removes the file because no rule is needed is never taken. *)
Theorem BuildRuleFile_never_nil b :
  BuildRuleFile b =
    Some (mkRuleFile [mkRuleGroup ("chantico_" +:+ SanitizeMetricName (dcr_Name (rb_resource b)))
                        (BuildRecordingRules b)]) ∧
  BuildRecordingRules b ≠ [].
Proof. apply BuildRuleFile_some. Qed.

Lemma BuildRecordingRules_power b :
  filter (λ r, rr_Record r = EnergyMetricName) (BuildRecordingRules b) = [power_rule b].
Proof.
  assert (filter (λ r, rr_Record r = EnergyMetricName) (BuildCoefficientRules b) = []) as Hcoef.
  { apply Permutation_nil_r. rewrite BuildCoefficientRules_perm.
    generalize (filter (λ p, rp_Coefficient p ≠ "") (re_Parents (rb_expressions b))).
    intros l. induction l as [|p l IH]; [done|]. by rewrite fmap_cons, filter_cons_False. }
  rewrite BuildRecordingRules_eq. destruct (no_parents _).
  - by rewrite filter_cons_True, Hcoef.
  - by rewrite filter_app, Hcoef.
Qed.

(** C19: whatever the expressions, the rules define the power series of the
    resource exactly once: the alias of the raw metric for a resource
    without parents, the weighted sum over the parents otherwise. *)
Theorem BuildRecordingRules_one_power_rule b :
  filter (λ r, rr_Record r = EnergyMetricName) (BuildRecordingRules b) = [power_rule b].
Proof. apply BuildRecordingRules_power. Qed.

Lemma power_labels b k :
  rr_Labels (power_rule b) !! k =
    let additional := default ∅ (dcr_AdditionalLabels (dcr_Spec (rb_resource b))) in
    if decide (k = "resource") then Some (dcr_Name (rb_resource b))
    else if decide (k = "type") then Some (dcr_Type (dcr_Spec (rb_resource b)))
    else if decide (k = "parents" ∧ dcr_Parents (dcr_Spec (rb_resource b)) ≠ [])
         then Some (strings.Join (ParentNames (dcr_Spec (rb_resource b))) ",")
    else additional !! k.
Proof.
  simpl. unfold default_labels, no_parents, constructParentNamesLabel.
  rewrite lookup_union.
  destruct (dcr_Parents _); rewrite ?bool_decide_true, ?bool_decide_false by done;
    repeat case_decide; destruct_and?; simplify_map_eq; try done;
    rewrite ?lookup_insert_ne, ?lookup_singleton_ne by naive_solver;
    try by rewrite (left_id_L None _).
  all: by destruct (_ !! _).
Qed.

(** The labels of the power series: resource and type are the program's
    whatever the user asks for, and so is parents for a resource that has any;
    every other additional label is kept as it is. *)
Theorem power_rule_labels b r k :
  r ∈ BuildRecordingRules b → rr_Record r = EnergyMetricName →
  rr_Labels r !! k =
    let additional := default ∅ (dcr_AdditionalLabels (dcr_Spec (rb_resource b))) in
    if decide (k = "resource") then Some (dcr_Name (rb_resource b))
    else if decide (k = "type") then Some (dcr_Type (dcr_Spec (rb_resource b)))
    else if decide (k = "parents" ∧ dcr_Parents (dcr_Spec (rb_resource b)) ≠ [])
         then Some (strings.Join (ParentNames (dcr_Spec (rb_resource b))) ",")
    else additional !! k.
Proof.
  intros Hr Hn. rewrite <-power_labels. f_equal. f_equal.
  assert (r ∈ filter (λ r, rr_Record r = EnergyMetricName) (BuildRecordingRules b)) as Hf
    by (by apply list_elem_of_filter).
  rewrite BuildRecordingRules_power in Hf. by apply list_elem_of_singleton in Hf.
Qed.

(** C26: there is one coefficient rule per parent with a coefficient, carrying
    that coefficient and the edge it is for, and the rules come in the order
    of the parents' names. *)
Theorem BuildCoefficientRules_spec b :
  BuildCoefficientRules b ≡ₚ
    coefficient_rule b <$> filter (λ p, rp_Coefficient p ≠ "") (re_Parents (rb_expressions b)) ∧
  StronglySorted String.le (omap (λ r, rr_Labels r !! "parent") (BuildCoefficientRules b)).
Proof.
  split; [apply BuildCoefficientRules_perm|].
  unfold BuildCoefficientRules. case_decide; [constructor|].
  pose proof (sort_sorted _ (filter (λ p, rp_Coefficient p ≠ "") (re_Parents (rb_expressions b)))
                strict_weak_names) as Hs.
  induction Hs as [|p l _ IH Hp]; simpl; [constructor|]. rewrite lookup_insert_eq.
  constructor; [done|]. apply Forall_forall. intros x Hx.
  apply list_elem_of_omap in Hx as (r & Hr & Hx).
  apply list_elem_of_fmap in Hr as (q & -> & Hq).
  simpl in Hx. rewrite lookup_insert_eq in Hx. simplify_eq.
  rewrite Forall_forall in Hp. by apply str_less_le, Hp.
Qed.

(** The output is deterministic: with distinct parents, the rules do
    not depend on the order the parents are listed in. *)
Theorem BuildCoefficientRules_deterministic d e1 e2 :
  re_Parents e1 ≡ₚ re_Parents e2 → NoDup (rp_Name <$> re_Parents e1) →
  BuildCoefficientRules (NewRuleBuilder d e1) = BuildCoefficientRules (NewRuleBuilder d e2).
Proof.
  intros Hperm Hnd. unfold BuildCoefficientRules. simpl.
  rewrite (Permutation_length Hperm).
  case_decide; [done|]. change (coefficient_rule (NewRuleBuilder d e1))
    with (coefficient_rule (NewRuleBuilder d e2)). f_equal.
  apply (sorted_unique rp_Name).
  - rewrite sort_perm. eapply sublist_NoDup; [exact Hnd|].
    apply fmap_sublist, sublist_filter.
  - rewrite !sort_perm. by rewrite Hperm.
  - eapply StronglySorted_impl; [|apply sort_sorted, strict_weak_names].
    intros x y. by rewrite str_less_le.
  - eapply StronglySorted_impl; [|apply sort_sorted, strict_weak_names].
    intros x y. by rewrite str_less_le.
Qed.
End RuleFacts.

(** ** Metric names *)

Lemma metric_rune_bounds r : metric_rune r = true → (0 ≤ r < 128)%Z.
Proof.
  unfold metric_rune, in_range. rewrite !orb_true_iff, !andb_true_iff, !Z.leb_le, Z.eqb_eq. lia.
Qed.

Lemma metric_rune_byte r :
  metric_rune r = true → byte_val (Ascii.ascii_of_N (Z.to_N r)) = r.
Proof.
  intros H%metric_rune_bounds. unfold byte_val.
  rewrite Ascii.N_ascii_embedding by lia. lia.
Qed.

Definition metric_name (s : string) : Prop :=
  ∀ c, c ∈ chars s → metric_rune (byte_val c) = true.

Lemma SanitizeMetricName_metric s : metric_name (SanitizeMetricName s).
Proof.
  intros c. unfold SanitizeMetricName, strings.MapBytes. rewrite chars_string_of_chars.
  intros (r & -> & _)%list_elem_of_fmap.
  destruct (metric_rune r) eqn:Hr; [by rewrite metric_rune_byte|reflexivity].
Qed.

Lemma SanitizeMetricName_id s : metric_name s → SanitizeMetricName s = s.
Proof.
  intros Hs. unfold SanitizeMetricName, strings.MapBytes. rewrite runes_ascii.
  - rewrite <-list_fmap_compose. rewrite <-(string_of_chars_chars s) at 2. f_equal.
    rewrite <-(list_fmap_id (chars s)) at 2. apply list_fmap_ext.
    intros i c Hc%list_elem_of_lookup_2. simpl. rewrite Hs by done. apply ascii_of_byte_val.
  - apply Forall_forall. intros c Hc. by apply metric_rune_bounds, Hs.
Qed.

(** A sanitized name holds only characters a metric name may hold, a name
    that is already fine is kept, so sanitizing twice is sanitizing once. *)
Theorem SanitizeMetricName_spec s :
  metric_name (SanitizeMetricName s) ∧
  (metric_name s → SanitizeMetricName s = s) ∧
  SanitizeMetricName (SanitizeMetricName s) = SanitizeMetricName s.
Proof.
  split; [apply SanitizeMetricName_metric|]. split; [apply SanitizeMetricName_id|].
  apply SanitizeMetricName_id, SanitizeMetricName_metric.
Qed.

(** ** Rendering the templates of a resource *)

Section RendererFacts.
Context {A : Type} `{SelectorClient A, TextTemplate}.

(** The coefficient of a parent, rendered. *)
Definition rendered_parent (client : A) (ns : string) (ref : ParentRef) (p : ResolvedParent) : Prop :=
  rp_Name p = pr_Name ref ∧
  Render (pr_CoefficientFrom ref) client ns = Done (inr (rp_Coefficient p)).

Lemma resolve_parents_spec client ns refs : ∀ acc out,
  resolve_parents client ns refs acc = Done (inr out) ↔
  ∃ ps, out = acc ++ ps ∧ Forall2 (rendered_parent client ns) refs ps.
Proof.
  induction refs as [|ref refs IH]; intros acc out; simpl.
  { split.
    - intros; simplify_eq. exists []. by rewrite app_nil_r.
    - intros (ps & -> & Hps). inversion Hps. by rewrite app_nil_r. }
  destruct (Render (pr_CoefficientFrom ref) client ns) as [[e|c]|] eqn:Hr.
  - split; [done|]. intros (ps & _ & Hps). inversion Hps as [|? p ? ? [_ Hp]]. congruence.
  - rewrite IH. split.
    + intros (ps & -> & Hps). exists (mkResolvedParent (pr_Name ref) c :: ps).
      rewrite <-app_assoc. by repeat constructor.
    + intros (ps & -> & Hps). inversion Hps as [|? [n c'] ? ps' [Hn Hc]]; subst. simpl in *.
      exists ps'. rewrite <-app_assoc. simplify_eq. by rewrite Hc in Hr; simplify_eq.
  - split; [done|]. intros (ps & _ & Hps). inversion Hps as [|? p ? ? [_ Hp]]. congruence.
Qed.

(** The expressions of a resource are its templates rendered one by one:
    the raw metric (empty without a template) and, in the order of the
    parents, each parent's name with its own coefficient; they exist exactly
    when every one of these templates renders. *)
Theorem resolveExpressions_spec client ns d e :
  resolveExpressions client ns d = Done (inr e) ↔
  match dcr_EnergyMetricFrom (dcr_Spec d) with
  | None => re_EnergyMetric e = ""
  | Some tf => Render (Some tf) client ns = Done (inr (re_EnergyMetric e))
  end ∧
  Forall2 (rendered_parent client ns) (dcr_Parents (dcr_Spec d)) (re_Parents e).
Proof.
  destruct e as [m ps]. unfold resolveExpressions, resolveEnergyMetric, resolveParentExpressions.
  pose proof (resolve_parents_spec client ns (dcr_Parents (dcr_Spec d)) []) as Hp.
  set (metric := match dcr_EnergyMetricFrom (dcr_Spec d) with Some tf => Render (Some tf) client ns
                 | None => Done (inr "") end).
  assert (match dcr_EnergyMetricFrom (dcr_Spec d) with
          | None => m = "" | Some tf => Render (Some tf) client ns = Done (inr m) end ↔
          metric = Done (inr m)) as Hm.
  { unfold metric. destruct (dcr_EnergyMetricFrom _); naive_solver. }
  simpl. rewrite Hm. clearbody metric.
  destruct metric as [[|m']|]; [naive_solver| |naive_solver].
  destruct (resolve_parents _ _ _ _) as [[|ps']|] eqn:Hr.
  - split; [done|]. intros [_ Hps]. enough (Done (inl e) = Done (inr ps)) by done.
    apply Hp. by exists ps.
  - destruct (proj1 (Hp ps') eq_refl) as (ps'' & -> & Hps). split; [naive_solver|].
    intros [? Hps']. simplify_eq. do 2 f_equal. f_equal.
    enough (Done (A:=error + list ResolvedParent) (inr ([] ++ ps'')) = Done (inr ps)) by (by simplify_eq).
    apply Hp. by exists ps.
  - split; [done|]. intros [_ Hps]. enough (@Panicked (error + list ResolvedParent) = Done (inr ps)) by done.
    apply Hp. by exists ps.
Qed.
(** The templates depend on ConfigMaps and Secrets only. *)
Lemma resolve_reads a a' ns d : same_reads a a' → resolveExpressions a' ns d = resolveExpressions a ns d.
Proof.
  intros Hr. unfold resolveExpressions.
  assert (resolveEnergyMetric a' ns d = resolveEnergyMetric a ns d) as ->
    by (unfold resolveEnergyMetric; destruct (dcr_EnergyMetricFrom _); [by apply Render_reads|done]).
  assert (∀ refs acc, resolve_parents a' ns refs acc = resolve_parents a ns refs acc) as Hp.
  { intros refs. induction refs as [|p refs IH]; intros acc; [done|]. cbn [resolve_parents].
    rewrite (Render_reads a a') by done. by destruct (Render _ a ns) as [[]|]. }
  unfold resolveParentExpressions. by rewrite Hp.
Qed.
End RendererFacts.

(** ** Witness: two parents, listed in either order *)
Lemma BuildCoefficientRules_deterministic_witness :
  let e1 := mkResolvedExpressions "" [mkResolvedParent "pdu2" "0.5"; mkResolvedParent "pdu1" "1"] in
  let e2 := mkResolvedExpressions "" [mkResolvedParent "pdu1" "1"; mkResolvedParent "pdu2" "0.5"] in
  BuildCoefficientRules (H := SimpleSort.sort_slice) (NewRuleBuilder zero_dcr e1) =
  BuildCoefficientRules (H := SimpleSort.sort_slice) (NewRuleBuilder zero_dcr e2).
Proof.
  intros e1 e2.
  apply (BuildCoefficientRules_deterministic (H0 := SimpleSort.sort_slice_laws)).
  - apply Permutation_swap.
  - apply (bool_decide_unpack _). vm_compute. exact I.
Defined.

Lemma BuildRecordingRules_one_power_rule_witness :
  let b := NewRuleBuilder zero_dcr (mkResolvedExpressions "watts" []) in
  filter (λ r, rr_Record r = EnergyMetricName) (BuildRecordingRules (H := SimpleSort.sort_slice) b) =
  [power_rule b].
Proof. intros b. apply (BuildRecordingRules_one_power_rule (H0 := SimpleSort.sort_slice_laws)). Defined.

Lemma BuildCoefficientRules_spec_witness :
  let b := NewRuleBuilder zero_dcr (mkResolvedExpressions "" [mkResolvedParent "pdu2" "0.5"; mkResolvedParent "pdu1" ""]) in
  BuildCoefficientRules (H := SimpleSort.sort_slice) b ≡ₚ [coefficient_rule b (mkResolvedParent "pdu2" "0.5")].
Proof. intros b. apply (BuildCoefficientRules_spec (H0 := SimpleSort.sort_slice_laws) b). Defined.

(** A user's label named after the program's does not replace it. *)
Lemma power_rule_labels_witness :
  let d := set_dcr_Spec (mkDataCenterResourceSpec "pdu" [] [] "watts" None
             (Some {["resource" := "mine"; "room" := "b2"]})) zero_dcr in
  let b := NewRuleBuilder d (mkResolvedExpressions "watts" []) in
  rr_Labels (power_rule b) !! "resource" = Some "".
Proof.
  intros d b.
  refine (power_rule_labels (H0 := SimpleSort.sort_slice_laws) b (power_rule b) "resource" _ eq_refl).
  left.
Defined.
