(* ===== verification/RuleFiles.v ===== *)
(** What Prometheus asks of the names in a rule file, and when the file of a
    validated resource is as it asks. *)
From S2P Require Import Prelude GoStd Errors Selector ApiTypes Validate Rules.

(** Of the names of labels: with UTF-8 names, no plain name is refused. *)
Class LabelValidationLaws `{LabelValidation} : Prop := {
  plain_label s : s ≠ "" → (∀ c, c ∈ chars s → metric_rune (byte_val c) = true) → IsValidLabelName s = true
}.

(** The label a series keeps its metric name in: a rule may not set it. *)
Definition MetricNameLabel : string := "__name__".

(** A metric name: letters, digits and underscores, and no digit first. *)
Definition metric_identifier (s : string) : Prop :=
  metric_name s ∧ ∃ c, head (chars s) = Some c ∧ in_range 48 57 (byte_val c) = false.

Section RuleFiles.
Context `{LabelValidation}.

Definition rule_well_typed (r : RecordingRule) : Prop :=
  metric_identifier (rr_Record r) ∧
  ∀ k v, rr_Labels r !! k = Some v → IsValidLabelName k = true ∧ k ≠ MetricNameLabel.
Definition group_well_typed (g : RuleGroup) : Prop :=
  metric_identifier (rg_Name g) ∧ rg_Rules g ≠ [] ∧ Forall rule_well_typed (rg_Rules g).
Definition rule_file_well_typed (f : RuleFile) : Prop :=
  NoDup (rg_Name <$> rf_Groups f) ∧ Forall group_well_typed (rf_Groups f).
End RuleFiles.

Lemma metric_name_append s1 s2 : metric_name s1 → metric_name s2 → metric_name (s1 +:+ s2).
Proof. intros H1 H2 c. rewrite chars_app, elem_of_app. intros [?|?]; auto. Qed.

(** A literal name is plain. *)
Definition plain_name (s : string) : bool := forallb (λ c, metric_rune (byte_val c)) (chars s).
Lemma plain_metric_name s : plain_name s = true → metric_name s.
Proof. unfold plain_name, metric_name. rewrite forallb_forall. intros Hs c Hc. by apply Hs, list_elem_of_In. Qed.

Section RuleFileFacts.
Context `{LabelValidationLaws, MapOrderLaws, SortSliceLaws}.
Implicit Types (b : RuleBuilder) (d : DataCenterResource).

Lemma literal_label s : s ≠ "" → plain_name s = true → s ≠ MetricNameLabel →
  IsValidLabelName s = true ∧ s ≠ MetricNameLabel.
Proof. intros Hne Hs Hm. split; [|done]. apply plain_label; [done|by apply plain_metric_name]. Qed.

Lemma group_name_identifier name : metric_identifier ("chantico_" +:+ SanitizeMetricName name).
Proof.
  split; [|by eexists]. apply metric_name_append; [by apply plain_metric_name|apply SanitizeMetricName_metric].
Qed.

Lemma coefficient_rule_typed b p : rule_well_typed (coefficient_rule b p).
Proof.
  split; [split; [by apply plain_metric_name|by eexists]|]. cbn [rr_Labels coefficient_rule]. intros k v.
  intros [[<- _]|[_ [<- _]%lookup_singleton_Some]]%lookup_insert_Some; by apply literal_label.
Qed.

(** The labels the resource sets besides those it is given. *)
Lemma default_labels_typed b k v : default_labels b !! k = Some v →
  IsValidLabelName k = true ∧ k ≠ MetricNameLabel.
Proof.
  unfold default_labels. destruct (no_parents (rb_resource b));
    [|intros [[<- _]|[_ Hk]]%lookup_insert_Some; [by apply literal_label|revert Hk]];
    (intros [[<- _]|[_ [<- _]%lookup_singleton_Some]]%lookup_insert_Some; by apply literal_label).
Qed.

Lemma power_rule_typed b :
  (∀ k v, default ∅ (dcr_AdditionalLabels (dcr_Spec (rb_resource b))) !! k = Some v → IsValidLabelName k = true) →
  rule_well_typed (power_rule b) ↔
  default ∅ (dcr_AdditionalLabels (dcr_Spec (rb_resource b))) !! MetricNameLabel = None.
Proof.
  intros Hvalid. cbn [rule_well_typed power_rule rr_Record rr_Labels]. split.
  - intros [_ Hl]. destruct (default ∅ _ !! MetricNameLabel) as [v|] eqn:E; [|done]. exfalso.
    destruct (default_labels b !! MetricNameLabel) as [v'|] eqn:Ed;
      [by destruct (default_labels_typed b _ _ Ed)|].
    destruct (Hl MetricNameLabel v) as [_ Hne]; [|done]. cbn [power_rule rr_Labels]. by rewrite lookup_union_r.
  - intros Hno. split; [split; [by apply plain_metric_name|by eexists]|].
    intros k v [Hd|[_ Ha]]%lookup_union_Some_raw; [by eapply default_labels_typed|].
    split; [by eapply Hvalid|]. intros ->. congruence.
Qed.

Lemma rules_typed b :
  (∀ k v, default ∅ (dcr_AdditionalLabels (dcr_Spec (rb_resource b))) !! k = Some v → IsValidLabelName k = true) →
  Forall rule_well_typed (BuildRecordingRules b) ↔
  default ∅ (dcr_AdditionalLabels (dcr_Spec (rb_resource b))) !! MetricNameLabel = None.
Proof.
  intros Hvalid. rewrite <-(power_rule_typed b Hvalid).
  assert (Forall rule_well_typed (BuildCoefficientRules b)) as Hc.
  { rewrite BuildCoefficientRules_perm. apply Forall_fmap, Forall_true. intros p. apply coefficient_rule_typed. }
  rewrite BuildRecordingRules_eq. destruct (no_parents _); rewrite ?Forall_app, ?Forall_cons, ?Forall_nil; tauto.
Qed.
End RuleFileFacts.

Section RuleFileProperties.
Context `{LabelValidationLaws, MapOrderLaws, SortSliceLaws}.

(** C9: the rule file of a resource that is accepted is well typed: its one group
    has a name of its own and rules, every rule records under a proper metric name
    and sets labels with valid names only.  That is, but for one name: a resource is
    accepted with the label that holds the name of the metric among its additional
    ones, which a rule may not set, and then its file is not well typed. *)
Theorem rule_file_typed_iff d resources V s expressions rf :
  Validate d resources = Some (V, s, None) → BuildRuleFile (NewRuleBuilder d expressions) = Some rf →
  rule_file_well_typed rf ↔ default ∅ (dcr_AdditionalLabels (dcr_Spec d)) !! MetricNameLabel = None.
Proof.
  intros Hv. destruct (BuildRuleFile_some (NewRuleBuilder d expressions)) as [-> Hne]. intros [= <-].
  destruct (Validate_accepts_iff d resources) as (V' & s' & err & Hv' & Hiff).
  rewrite Hv in Hv'. injection Hv' as <- <- <-. destruct Hiff as [Hiff _]. destruct (Hiff eq_refl) as (_ & _ & Hvalid).
  rewrite <-(rules_typed (NewRuleBuilder d expressions) Hvalid).
  unfold rule_file_well_typed, group_well_typed. cbn [rf_Groups rg_Rules rg_Name].
  rewrite Forall_singleton. cbn. split; [tauto|]. intros Hr. split; [apply NoDup_singleton|].
  split; [apply group_name_identifier|done].
Qed.
End RuleFileProperties.

(** ** A PDU with a room among its labels, and one with the metric's own label *)
Module RuleFilesSample.
#[export] Instance labels : LabelValidation := {| IsValidLabelName s := bool_decide (s ≠ "") |}.
#[export] Instance labels_laws : LabelValidationLaws.
Proof. split. intros s Hs _. by apply bool_decide_eq_true. Qed.
#[export] Instance order : MapOrder := {| range_map V := map_to_list |}.
#[export] Instance order_laws : MapOrderLaws.
Proof. by split. Qed.
Definition labelled_pdu (k : string) : DataCenterResource :=
  set_dcr_Spec (mkDataCenterResourceSpec "pdu" [] [] "watts" None (Some {[k := "b2"]})) sample_pdu.
Definition file_of (d : DataCenterResource) : option RuleFile :=
  BuildRuleFile (H := SimpleSort.sort_slice) (NewRuleBuilder d (mkResolvedExpressions "watts" [])).
End RuleFilesSample.
Import RuleFilesSample.

Lemma rule_file_typed_iff_witness :
  (∀ rf, file_of (labelled_pdu "room") = Some rf → rule_file_well_typed rf) ∧
  (∀ rf, file_of (labelled_pdu "__name__") = Some rf → ¬ rule_file_well_typed rf).
Proof.
  split; intros rf Hrf.
  - apply (rule_file_typed_iff (H4 := SimpleSort.sort_slice_laws) (labelled_pdu "room") [] [] "" (mkResolvedExpressions "watts" []) rf); [|exact Hrf|].
    + vm_compute. reflexivity.
    + apply (bool_decide_unpack _). vm_compute. exact I.
  - intros Ht. apply (rule_file_typed_iff (H4 := SimpleSort.sort_slice_laws) (labelled_pdu "__name__") [] [] "" (mkResolvedExpressions "watts" []) rf)
      in Ht; [|vm_compute; reflexivity|exact Hrf]. vm_compute in Ht. discriminate Ht.
Defined.
