(* ===== verification/Configuration.v ===== *)
(** [internal/configuration]: the environment the operator is configured by,
    and how [cmd/operator] restricts its watches with it. *)
From stdpp Require Import pretty.
From S2P Require Import Prelude GoStd Regex Errors.

(** ** What the validation calls *)

(** The network and the file system outside, and the namespace syntax of
    k8s.io/apimachinery/pkg/util/validation. *)
Class EnvWorld := {
  conn : Type;
  LookupHost : string → list string * option error;
  DialTimeout : string → error + conn;
  Close : conn → option error;
  (** [os.Stat], as far as [IsDir]. *)
  Stat_IsDir : string → error + bool;
  IsDNS1123Label : string → list string
}.

(** [net.JoinHostPort]: a host with a colon is put in brackets. *)
Definition JoinHostPort (host port : string) : string :=
  if decide (":"%char ∈ chars host) then "[" +:+ host +:+ "]:" +:+ port
  else host +:+ ":" +:+ port.

(** ** Patterns *)

(** [[:alpha:]]. *)
Definition is_alpha (c : ascii) : bool :=
  in_range 65 90 (byte_val c) || in_range 97 122 (byte_val c).
Definition is_dash (c : ascii) : bool := bool_decide (c = "-"%char).

(** ^([[:alpha:]]*-)+([[:alpha:]]* )$ *)
Definition claim_regex : regex :=
  re_seq (re_plus (re_seq (re_star (re_class is_alpha)) (re_class is_dash)))
         (re_star (re_class is_alpha)).

(** ** The variables *)
Definition ChanticoVolumeLocationEnv : string := "CHANTICO_DATA_PATH".
Definition ChanticoVolumeClaimEnv : string := "CHANTICO_PERSISTENT_VOLUME_CLAIM_NAME".
Definition ChanticoPrometheusServiceHostEnv : string := "CHANTICO_PROMETHEUS_SERVICE_HOST".
Definition ChanticoPrometheusServicePortEnv : string := "CHANTICO_PROMETHEUS_SERVICE_PORT".
Definition ChanticoNamespaceEnv : string := "CHANTICO_NAMESPACE".
Definition ChanticoWatchNamespaceEnv : string := "CHANTICO_WATCH_NAMESPACE".
Definition AllNamespaces : string := "*".

Record validatedEnv := mkValidatedEnv {
  VolumeLocation : string;
  VolumeClaim : string;
  PrometheusServiceHost : string;
  PrometheusServicePort : string;
  PodNamespace : string;
  WatchNamespace : string
}.
Definition zero_env : validatedEnv := mkValidatedEnv "" "" "" "" "" "".
Definition set_VolumeLocation (v : string) (e : validatedEnv) : validatedEnv :=
  mkValidatedEnv v (VolumeClaim e) (PrometheusServiceHost e) (PrometheusServicePort e)
    (PodNamespace e) (WatchNamespace e).
Definition set_VolumeClaim (v : string) (e : validatedEnv) : validatedEnv :=
  mkValidatedEnv (VolumeLocation e) v (PrometheusServiceHost e) (PrometheusServicePort e)
    (PodNamespace e) (WatchNamespace e).
Definition set_PrometheusServiceHost (v : string) (e : validatedEnv) : validatedEnv :=
  mkValidatedEnv (VolumeLocation e) (VolumeClaim e) v (PrometheusServicePort e)
    (PodNamespace e) (WatchNamespace e).
Definition set_PrometheusServicePort (v : string) (e : validatedEnv) : validatedEnv :=
  mkValidatedEnv (VolumeLocation e) (VolumeClaim e) (PrometheusServiceHost e) v
    (PodNamespace e) (WatchNamespace e).
Definition set_namespaces (pod watch : string) (e : validatedEnv) : validatedEnv :=
  mkValidatedEnv (VolumeLocation e) (VolumeClaim e) (PrometheusServiceHost e)
    (PrometheusServicePort e) pod watch.

(** The process environment. *)
Abbreviation environ := (gmap string string).

Definition validateClaim (varName value : string) : option error :=
  if re_match claim_regex value then None
  else Some (err_Invalid (mkInvalidError varName value
         "PVC name should look like 'chantico-snmp-prometheus-volume-claim'" None)).

Definition validatePort (varName value : string) : option error :=
  match strconv.ParseUint value 16 with
  | inl k => Some (err_Invalid (mkInvalidError varName value
               "error converting to a 16-bit integer, is it a valid port?"
               (Some (NumError "ParseUint" value k))))
  | inr _ => None
  end.

Section Validation.
Context `{EnvWorld}.

Definition validateHostPort (varNames : list string) (host port : string) : option error :=
  let addr := JoinHostPort host port in
  match DialTimeout addr with
  | inl err => Some (err_Connect (mkConnectError ConnectErrorTypeAddress varNames addr
                 "If this is a development environment, make sure port forwarding has started" (Some err)))
  | inr c =>
      match Close c with
      | Some err => Some (err_Connect (mkConnectError ConnectErrorTypeAddress varNames addr
                      "error closing connection to host" (Some err)))
      | None => None
      end
  end.

Definition validateVar (env : environ) (varName : string)
    (extraTest : string → string → option error) : string * option error :=
  match env !! varName with
  | None => ("", Some (err_Unset (mkUnsetError varName)))
  | Some value =>
      if decide (value = "") then (value, Some (err_Empty (mkEmptyError varName)))
      else (value, extraTest varName value)
  end.

Definition validateLocation (varName value : string) : option error :=
  match Stat_IsDir value with
  | inl err => Some (err_Invalid (mkInvalidError varName value
                 "cannot find directory, should look like '.chantico-persistent-volume' or an absolute path"
                 (Some err)))
  | inr false => Some (err_Invalid (mkInvalidError varName value
                   "must be a directory, should look like '.chantico-persistent-volume' or an absolute path"
                   None))
  | inr true => None
  end.

Definition validateHost (varName value : string) : option error :=
  match LookupHost value with
  | (_, Some err) => Some (err_Connect (mkConnectError ConnectErrorTypeHost [varName] value
                       "error looking up host (is it a valid address?)" (Some err)))
  | ([], None) => Some (err_Connect (mkConnectError ConnectErrorTypeHost [varName] value
                    "lookup for host returned empty, is it a valid address?" None))
  | (_ :: _, None) => None
  end.

Definition lookupNamespace (env : environ) (envName : string) (allNamespacesAllowed : bool) :
    string * option error :=
  match env !! envName with
  | None => ("", Some (err_Unset (mkUnsetError envName)))
  | Some namespace =>
      if decide (namespace = "") then (namespace, Some (err_Empty (mkEmptyError envName)))
      else if allNamespacesAllowed && bool_decide (namespace = AllNamespaces) then (namespace, None)
      else match IsDNS1123Label namespace with
           | [] => (namespace, None)
           | errMsgs => (namespace, Some (err_Invalid (mkInvalidError envName namespace
                           (strings.Join errMsgs "; ") None)))
           end
  end.

(** The errors are a slice of interface values: an entry may be nil. *)
Definition validateNamespaces (env : environ) : string * string * list (option error) :=
  let '(podNamespace, podErr) := lookupNamespace env ChanticoNamespaceEnv false in
  let '(watchNamespace, watchErr) := lookupNamespace env ChanticoWatchNamespaceEnv true in
  match podErr with
  | Some _ => ("", "", [podErr; watchErr])
  | None =>
      match watchErr with
      | Some e =>
          if Is_UnsetError ChanticoWatchNamespaceEnv e then (podNamespace, podNamespace, [])
          else ("", "", [watchErr])
      | None => (podNamespace, watchNamespace, [])
      end
  end.

Definition varsToValidate :
    list (string * (string → string → option error) * (string → validatedEnv → validatedEnv)) :=
  [ (ChanticoVolumeClaimEnv, validateClaim, set_VolumeClaim);
    (ChanticoVolumeLocationEnv, validateLocation, set_VolumeLocation);
    (ChanticoPrometheusServiceHostEnv, validateHost, set_PrometheusServiceHost);
    (ChanticoPrometheusServicePortEnv, validatePort, set_PrometheusServicePort) ].

(** One turn of the loop over the variables. *)
Definition validate_one (env : environ) (acc : validatedEnv * list (option error))
    (v : string * (string → string → option error) * (string → validatedEnv → validatedEnv)) :
    validatedEnv * list (option error) :=
  let '(ret, errs) := acc in
  let '(varName, validator, set_field) := v in
  match validateVar env varName validator with
  | (_, Some err) => (ret, errs ++ [Some err])
  | (value, None) => (set_field value ret, errs)
  end.

Definition ValidateEnv (env : environ) : validatedEnv * list (option error) :=
  let '(podNamespace, watchNamespace, nsErrs) := validateNamespaces env in
  let '(ret, errs) :=
    foldl (validate_one env) (set_namespaces podNamespace watchNamespace zero_env, nsErrs)
      varsToValidate in
  if decide (PrometheusServiceHost ret ≠ "" ∧ PrometheusServicePort ret ≠ "") then
    match validateHostPort [ChanticoPrometheusServiceHostEnv; ChanticoPrometheusServicePortEnv]
            (PrometheusServiceHost ret) (PrometheusServicePort ret) with
    | Some err =>
        (set_PrometheusServicePort "" (set_PrometheusServiceHost "" ret), errs ++ [Some err])
    | None => (ret, errs)
    end
  else (ret, errs).
End Validation.

(** The namespaces the operator's cache is restricted to; nil for all. *)
Definition configureWatchNamespace (env : validatedEnv) : option (gset string) :=
  if decide (WatchNamespace env ≠ AllNamespaces) then
    let namespaces : gset string := {[WatchNamespace env]} in
    if decide (PodNamespace env ≠ WatchNamespace env)
    then Some ({[PodNamespace env]} ∪ namespaces)
    else Some namespaces
  else None.

(** * The pattern of claim names *)

(** A character of a claim name. *)
Definition claim_char (c : ascii) : Prop := is_alpha c = true ∨ c = "-"%char.

Lemma alpha_not_dash c : is_alpha c = true → c ≠ "-"%char.
Proof. by intros ? ->. Qed.

(** A segment: letters and then a dash. *)
Definition segment : regex := re_seq (re_star (re_class is_alpha)) (re_class is_dash).

Lemma lang_segment l :
  re_lang segment l ↔ ∃ w, l = w ++ ["-"%char] ∧ Forall (λ c, is_alpha c = true) w.
Proof.
  split.
  - inversion 1 as [| |? ? s1 s2 H1 H2 E1 E2| | | |]; subst.
    apply lang_star_class in H1. inversion H2 as [|? c Hc| | | | |]; subst.
    apply bool_decide_eq_true in Hc as ->. eauto.
  - intros (w & -> & Hw). constructor; [by apply lang_star_class|by constructor].
Qed.

Lemma claim_lang l :
  re_lang claim_regex l ↔ Forall claim_char l ∧ "-"%char ∈ l.
Proof.
  split.
  - inversion 1 as [| |? ? s1 s2 H1 H2 E1 E2| | | |]; subst.
    apply lang_star_class in H2.
    assert (Forall claim_char s2) by (eapply Forall_impl; [done|by left]).
    inversion H1 as [| |? ? t1 t2 G1 G2 F1 F2| | | |]; subst.
    apply lang_segment in G1 as (w & -> & Hw).
    assert (Forall claim_char w) by (eapply Forall_impl; [done|by left]).
    assert (Forall claim_char t2) as Ht2.
    { change (re_star _) with (re_star segment) in G2. remember (re_star segment) as q.
      clear -G2 Heqq. revert Heqq. induction G2 as [| | | | | |r u1 u2 K1 _ _ IH]; intros E; simplify_eq; [constructor|].
      apply lang_segment in K1 as (v & -> & Hv). apply Forall_app; split; [|by apply IH].
      apply Forall_app; split; [eapply Forall_impl; [done|by left]|]. apply Forall_singleton. by right. }
    split; [|set_solver]. rewrite !Forall_app, Forall_singleton. repeat split; try done. by right.
  - intros [Hl Hd].
    assert (∃ t s2, l = t ++ s2 ∧ re_lang (re_plus segment) t ∧ Forall (λ c, is_alpha c = true) s2)
      as (t & s2 & -> & Ht & Hs2); [|constructor; [done|by apply lang_star_class]].
    induction l as [|c l IH]; [set_solver|]. apply Forall_cons in Hl as [Hc Hl].
    destruct (decide ("-"%char ∈ l)) as [Hdl|Hdl].
    + destruct (IH Hl Hdl) as (t & s2 & -> & Ht & Hs2). exists (c :: t), s2. split; [done|].
      split; [|done]. destruct Hc as [Hc| ->].
      * inversion Ht as [| |? ? t1 t2 G1 G2 F1 F2| | | |]; subst.
        apply lang_segment in G1 as (w & -> & Hw).
        apply (lang_seq segment (re_star segment) (c :: w ++ ["-"%char]) t2); [|done].
        apply lang_segment. exists (c :: w). by repeat constructor.
      * apply (lang_seq segment (re_star segment) ["-"%char] t); [by apply lang_segment; exists []|].
        inversion Ht as [| |? ? t1 t2 G1 G2 F1 F2| | | |]; subst. by constructor.
    + apply elem_of_cons in Hd as [<-|?]; [|done].
      exists ["-"%char], l. split; [done|]. split.
      * rewrite <-(app_nil_r ["-"%char]). constructor; [by apply lang_segment; exists []|constructor].
      * apply Forall_forall. intros x Hx. rewrite Forall_forall in Hl.
        destruct (Hl x Hx) as [?| ->]; done.
Qed.

(** A claim name is accepted exactly when it is made of letters and dashes,
    with at least one dash. *)
Theorem validateClaim_spec varName value :
  validateClaim varName value = None ↔
  Forall claim_char (chars value) ∧ "-"%char ∈ chars value.
Proof.
  rewrite <-claim_lang, <-re_match_spec. unfold validateClaim.
  by destruct (re_match claim_regex value).
Qed.

(** * Ports *)

Definition is_digit (c : ascii) : Prop := in_range 48 57 (byte_val c) = true.
Definition decimal (n : Z) (l : list ascii) : Z :=
  foldl (λ n c, n * 10 + (byte_val c - 48))%Z n l.

Lemma decimal_mono l : ∀ n, (0 ≤ n)%Z → Forall is_digit l → (n ≤ decimal n l)%Z.
Proof.
  induction l as [|c l IH]; intros n Hn Hl; simpl; [lia|].
  apply Forall_cons in Hl as [Hc Hl]. unfold is_digit, in_range in Hc.
  apply andb_prop in Hc as [?%Z.leb_le ?%Z.leb_le].
  etransitivity; [|apply IH; [lia|done]]. lia.
Qed.

(** Without overflow, the digits' value: with it, the loop stops. *)
Lemma parse_digits_spec m s v : ∀ n,
  (0 ≤ n ≤ m)%Z →
  strconv.parse_digits m n s = inr v ↔
  Forall is_digit (chars s) ∧ decimal n (chars s) = v ∧ (v ≤ m)%Z.
Proof.
  induction s as [|c s IH]; intros n Hn; simpl.
  { split; [intros; simplify_eq; repeat constructor; lia|]. by intros (_ & -> & _). }
  unfold strconv.digit. destruct (in_range 48 57 (byte_val c)) eqn:Hc; last first.
  { split; [done|]. intros ([Hd _]%Forall_cons & _). unfold is_digit in Hd. congruence. }
  assert (0 ≤ byte_val c - 48)%Z.
  { unfold in_range in Hc. apply andb_prop in Hc as [?%Z.leb_le _]. lia. }
  destruct (Z.ltb_spec m (n * 10 + (byte_val c - 48))) as [Hlt|Hle].
  - split; [done|]. intros ([_ Hs]%Forall_cons & Hv & Hm). exfalso.
    pose proof (decimal_mono (chars s) (n * 10 + (byte_val c - 48))%Z ltac:(lia) Hs). lia.
  - rewrite IH by lia. rewrite Forall_cons. unfold is_digit at 2. tauto.
Qed.

(** A non-negative number is written in digits. *)
Lemma digits_FormatInt z : (0 ≤ z)%Z → Forall is_digit (chars (strconv.FormatInt z)) ∧ strconv.FormatInt z ≠ "".
Proof.
  intros Hz. unfold strconv.FormatInt.
  assert (pretty z = pretty (Z.to_N z)) as -> by (destruct z; [reflexivity|reflexivity|lia]).
  destruct (strconv_facts.pretty_N_head (Z.to_N z)) as (c & s & E & _). split; [|by rewrite E].
  pose proof (strconv_facts.parse_pretty_N (Z.of_N (Z.to_N z)) (Z.to_N z) ltac:(lia)) as Hp.
  by apply parse_digits_spec in Hp as (? & _); [|lia].
Qed.

(** A port is accepted exactly when it is a number in decimal digits below
    2^16; a larger number is refused however many digits it has. *)
Theorem validatePort_spec varName value :
  validatePort varName value = None ↔
  value ≠ "" ∧ Forall is_digit (chars value) ∧ (decimal 0 (chars value) < 2 ^ 16)%Z.
Proof.
  unfold validatePort. destruct value as [|c s]; [split; [done|by intros []]|].
  assert (∀ v, strconv.ParseUint (String c s) 16 = inr v ↔
    Forall is_digit (chars (String c s)) ∧ decimal 0 (chars (String c s)) = v ∧ (v ≤ 2 ^ 16 - 1)%Z)
    as Hp by (intros v; apply parse_digits_spec; lia).
  destruct (strconv.ParseUint (String c s) 16) as [k|v].
  - split; [done|]. intros (_ & Hd & Hv).
    enough (inl k = inr (decimal 0 (chars (String c s)))) by done.
    apply Hp. split; [done|]. split; [done|lia].
  - destruct (proj1 (Hp v) eq_refl) as (? & -> & ?). split; [|done].
    intros _. split; [done|]. split; [done|lia].
Qed.

(** * The whole environment *)
Section EnvFacts.
Context `{EnvWorld}.
Implicit Types (env : environ) (ret : validatedEnv).

(** A variable that is set, not empty, and passes its test. *)
Definition var_ok env (varName value : string) (test : string → string → option error) : Prop :=
  env !! varName = Some value ∧ value ≠ "" ∧ test varName value = None.

Lemma validateVar_ok env varName test value :
  validateVar env varName test = (value, None) ↔ var_ok env varName value test.
Proof.
  unfold validateVar, var_ok. destruct (env !! varName) as [v|]; [|by split; [|intros []]].
  case_decide; (split; [|intros (? & ? & ?)]); intros; simplify_eq; auto.
  by f_equal.
Qed.

Definition namespaces_ok env (pod watch : string) : Prop :=
  env !! ChanticoNamespaceEnv = Some pod ∧ pod ≠ "" ∧ IsDNS1123Label pod = [] ∧
  match env !! ChanticoWatchNamespaceEnv with
  | None => watch = pod
  | Some w => watch = w ∧ w ≠ "" ∧ (w = AllNamespaces ∨ IsDNS1123Label w = [])
  end.

Lemma lookupNamespace_ok env name all ns :
  lookupNamespace env name all = (ns, None) ↔
  env !! name = Some ns ∧ ns ≠ "" ∧ (all = true ∧ ns = AllNamespaces ∨ IsDNS1123Label ns = []).
Proof.
  unfold lookupNamespace. destruct (env !! name) as [v|]; [|naive_solver].
  case_decide; [naive_solver|].
  destruct all, (bool_decide_reflect (v = AllNamespaces)) as [E|E]; simpl;
    try (split; [intros; simplify_eq; by auto|naive_solver]);
    (destruct (IsDNS1123Label v) eqn:Hv;
      [split; [intros; simplify_eq; by auto|naive_solver]|
       split; [done|intros (? & ? & [[? ?]|?]); congruence]]).
Qed.

Lemma validateNamespaces_ok env pod watch :
  validateNamespaces env = (pod, watch, []) ↔ namespaces_ok env pod watch.
Proof.
  unfold validateNamespaces, namespaces_ok.
  pose proof (lookupNamespace_ok env ChanticoNamespaceEnv false) as Hp.
  pose proof (lookupNamespace_ok env ChanticoWatchNamespaceEnv true) as Hw.
  destruct (lookupNamespace env ChanticoNamespaceEnv false) as [p [pe|]].
  { destruct (lookupNamespace _ _ _) as [w we]. split; [done|].
    intros (? & ? & ? & _). enough ((p, Some pe) = (pod, None)) by done. apply Hp. auto. }
  destruct (proj1 (Hp p) eq_refl) as (Hp1 & Hp2 & [[? ?]|Hp3]); [done|].
  destruct (lookupNamespace env ChanticoWatchNamespaceEnv true) as [w [we|]] eqn:Hl.
  - assert (Is_UnsetError ChanticoWatchNamespaceEnv we = true ↔
            env !! ChanticoWatchNamespaceEnv = None) as Hu.
    { unfold lookupNamespace in Hl. destruct (env !! ChanticoWatchNamespaceEnv) as [v|];
        repeat case_match; simplify_eq; done. }
    destruct (env !! ChanticoWatchNamespaceEnv) as [v|] eqn:Hv.
    + destruct (Is_UnsetError _ we); [by discriminate (proj1 Hu eq_refl)|].
      split; [done|]. intros (_ & _ & _ & -> & ? & Hor).
      enough ((w, Some we) = (v, None)) by done. apply Hw. naive_solver.
    + rewrite (proj2 Hu) by done. naive_solver.
  - destruct (proj1 (Hw w) eq_refl) as (Hw1 & Hw2 & Hw3). rewrite Hw1. naive_solver.
Qed.

(** The environment is acceptable, and [ret] is what it says. *)
Record env_ok env ret : Prop := {
  ok_namespaces : namespaces_ok env (PodNamespace ret) (WatchNamespace ret);
  ok_claim : var_ok env ChanticoVolumeClaimEnv (VolumeClaim ret) validateClaim;
  ok_location : var_ok env ChanticoVolumeLocationEnv (VolumeLocation ret) validateLocation;
  ok_host : var_ok env ChanticoPrometheusServiceHostEnv (PrometheusServiceHost ret) validateHost;
  ok_port : var_ok env ChanticoPrometheusServicePortEnv (PrometheusServicePort ret) validatePort;
  ok_connect : validateHostPort
    [ChanticoPrometheusServiceHostEnv; ChanticoPrometheusServicePortEnv]
    (PrometheusServiceHost ret) (PrometheusServicePort ret) = None
}.

Lemma ValidateEnv_ok_iff env ret : ValidateEnv env = (ret, []) ↔ env_ok env ret.
Proof.
  unfold ValidateEnv.
  destruct (validateNamespaces env) as [[pod watch] nsErrs] eqn:Hns.
  destruct (foldl _ _ _) as [r errs] eqn:Hf. unfold varsToValidate, validate_one in Hf. cbn [foldl] in Hf.
  destruct (validateVar env ChanticoVolumeClaimEnv validateClaim) as [v1 e1] eqn:H1,
    (validateVar env ChanticoVolumeLocationEnv validateLocation) as [v2 e2] eqn:H2,
    (validateVar env ChanticoPrometheusServiceHostEnv validateHost) as [v3 e3] eqn:H3,
    (validateVar env ChanticoPrometheusServicePortEnv validatePort) as [v4 e4] eqn:H4.
  assert (env_ok env ret → errs = [] ∧ nsErrs = [] ∧ e1 = None ∧ e2 = None ∧ e3 = None ∧ e4 = None ∧
    ret = mkValidatedEnv v2 v1 v3 v4 pod watch) as Hok.
  { intros [On Oc Ol Oh Op Oc'].
    apply validateNamespaces_ok in On. rewrite Hns in On.
    apply validateVar_ok in Oc. apply validateVar_ok in Ol.
    apply validateVar_ok in Oh. apply validateVar_ok in Op.
    rewrite H1 in Oc. rewrite H2 in Ol. rewrite H3 in Oh. rewrite H4 in Op.
    destruct ret; simplify_eq/=. by simplify_eq. }
  split.
  - intros E.
    assert (errs = [] ∧ r = ret ∧ (PrometheusServiceHost r ≠ "" ∧ PrometheusServicePort r ≠ "" →
      validateHostPort [ChanticoPrometheusServiceHostEnv; ChanticoPrometheusServicePortEnv]
        (PrometheusServiceHost r) (PrometheusServicePort r) = None)) as (-> & -> & Hc).
    { case_decide; [destruct (validateHostPort _ (PrometheusServiceHost r) _) eqn:?|];
        simplify_eq; [by destruct errs|naive_solver..]. }
    clear E. destruct e1, e2, e3, e4; injection Hf as Hr He;
      try (apply app_nil in He as [_ He]; discriminate He).
    subst nsErrs ret. simpl in Hc.
    apply validateNamespaces_ok in Hns. apply validateVar_ok in H1. apply validateVar_ok in H2.
    apply validateVar_ok in H3. apply validateVar_ok in H4.
    split; try done. apply Hc. split; [apply H3|apply H4].
  - intros O. destruct (Hok O) as (-> & -> & -> & -> & -> & -> & ->). simplify_eq/=.
    destruct O as [On Oc Ol Oh Op Oc']; simpl in *.
    rewrite decide_True by (split; [apply Oh|apply Op]). by rewrite Oc'.
Qed.

(** C30: the environment is accepted, with no error, exactly when every
    variable is set and valid, the namespaces are (an unset watch namespace
    stands for the operator's own) and Prometheus answers; the fields are then
    the variables' values. *)
Theorem ValidateEnv_success env ret :
  ValidateEnv env = (ret, []) ↔ env_ok env ret.
Proof. apply ValidateEnv_ok_iff. Qed.

(** The error list of the namespaces may hold a nil entry, which is when
    the operator's own namespace is refused and the watched one is fine. *)
Theorem validateNamespaces_nil_error env :
  None ∈ (validateNamespaces env).2 ↔
  (lookupNamespace env ChanticoNamespaceEnv false).2 ≠ None ∧
  (lookupNamespace env ChanticoWatchNamespaceEnv true).2 = None.
Proof.
  unfold validateNamespaces.
  destruct (lookupNamespace env ChanticoNamespaceEnv false) as [p [pe|]],
    (lookupNamespace env ChanticoWatchNamespaceEnv true) as [w [we|]]; simpl;
    repeat case_match; simpl; rewrite ?elem_of_cons, ?elem_of_nil; naive_solver.
Qed.

(** With an accepted environment, the operator's cache covers its own
    namespace and the watched one: it is unrestricted exactly when the watched
    namespace is the sentinel for all of them, and holds otherwise those two,
    both valid names. *)
Theorem configureWatchNamespace_covers env ret :
  ValidateEnv env = (ret, []) →
  match configureWatchNamespace ret with
  | None => WatchNamespace ret = AllNamespaces
  | Some namespaces =>
      WatchNamespace ret ≠ AllNamespaces ∧
      namespaces = {[PodNamespace ret; WatchNamespace ret]} ∧
      ∀ ns, ns ∈ namespaces → IsDNS1123Label ns = []
  end.
Proof.
  intros Hv. apply ValidateEnv_ok_iff in Hv as [(_ & _ & Hpod & Hwatch) _ _ _ _ _].
  assert (WatchNamespace ret ≠ AllNamespaces → IsDNS1123Label (WatchNamespace ret) = []) as Hw.
  { destruct (env !! ChanticoWatchNamespaceEnv); [|congruence].
    destruct Hwatch as (-> & _ & [?|?]); done. }
  unfold configureWatchNamespace.
  destruct (decide (WatchNamespace ret ≠ AllNamespaces)) as [Hall|Hall]; [|by apply dec_stable].
  assert (∀ ns, ns ∈ ({[PodNamespace ret; WatchNamespace ret]} : gset string) → IsDNS1123Label ns = [])
    as Hns by (intros ns [->%elem_of_singleton| ->%elem_of_singleton]%elem_of_union; auto).
  destruct (decide (PodNamespace ret ≠ WatchNamespace ret)) as [Hne|Hne%dec_stable]; [done|].
  split; [done|].
  assert ({[WatchNamespace ret]} = ({[PodNamespace ret; WatchNamespace ret]} : gset string)) as E
    by (rewrite Hne; set_solver).
  split; [done|]. by rewrite E.
Qed.
End EnvFacts.

(** ** Witness: a world where every host answers *)
Definition friendly_world : EnvWorld :=
  {| conn := unit;
     LookupHost _ := (["10.0.0.1"], None);
     DialTimeout _ := inr tt;
     Close _ := None;
     Stat_IsDir _ := inr true;
     IsDNS1123Label s := if decide (s = "*") then ["invalid"] else [] |}.

Definition sample_environ : environ :=
  list_to_map
    [(ChanticoVolumeLocationEnv, "/data"); (ChanticoVolumeClaimEnv, "volume-claim");
     (ChanticoPrometheusServiceHostEnv, "prometheus"); (ChanticoPrometheusServicePortEnv, "9090");
     (ChanticoNamespaceEnv, "chantico"); (ChanticoWatchNamespaceEnv, "dc")].

Definition sample_env : validatedEnv :=
  mkValidatedEnv "/data" "volume-claim" "prometheus" "9090" "chantico" "dc".

Lemma configureWatchNamespace_covers_witness :
  match configureWatchNamespace sample_env with
  | None => WatchNamespace sample_env = AllNamespaces
  | Some namespaces =>
      WatchNamespace sample_env ≠ AllNamespaces ∧
      namespaces = {[PodNamespace sample_env; WatchNamespace sample_env]} ∧
      ∀ ns, ns ∈ namespaces → IsDNS1123Label (EnvWorld := friendly_world) ns = []
  end.
Proof.
  apply (configureWatchNamespace_covers (H := friendly_world) sample_environ sample_env).
  vm_compute. reflexivity.
Defined.
