(* ===== verification/Cluster.v ===== *)
(** The world a controller works in: the object under reconciliation, the
    volume and the Kubernetes API; and the shape the three [Reconcile] methods
    share: read the object, prepare the patch, run the steps, patch. *)
From S2P Require Import Prelude GoStd Errors FileStore ApiTypes Steps.

(** ** The Kubernetes client, one class per verb *)
Class Getter (A Obj : Type) := {
  Get : A → string → string → error + Obj
}.

(** cluster-api's patch helper: a snapshot of the object, and the patch of what
    changed since. *)
Class Patcher (A Obj : Type) := {
  helper : Type;
  NewHelper : A → Obj → error + helper;
  Patch : helper → Obj → A → option error * A
}.

Record World (Obj A : Type) := mkWorld {
  w_obj : Obj;
  w_fs : Fs;
  w_api : A
}.
Arguments mkWorld {Obj A}.
Arguments w_obj {Obj A}.
Arguments w_fs {Obj A}.
Arguments w_api {Obj A}.

Section World.
Context {Obj A : Type}.
Abbreviation W := (World Obj A).

Definition the_obj : Go W Obj := gets w_obj.
Definition the_api : Go W A := gets w_api.
Definition with_obj (f : Obj → Obj) : Go W unit :=
  modify (λ w, mkWorld (f (w_obj w)) (w_fs w) (w_api w)).
Definition fs_call {X} (op : Fs → X * Fs) : Go W X :=
  action (λ w, let '(x, fs') := op (w_fs w) in (x, mkWorld (w_obj w) fs' (w_api w))).
Definition api_call {X} (op : A → X * A) : Go W X :=
  action (λ w, let '(x, a') := op (w_api w) in (x, mkWorld (w_obj w) (w_fs w) a')).

(** Set a condition and report the error. *)
Definition fail_step `{MetaConditions, Conditioned Obj} (t : ConditionType)
    (reason : ConditionReason) (msg : string) (err : error) : Go W StepResult :=
  with_obj (UpdateStatusCondition t ConditionFalse reason msg);;
  mret (StepError err).

(** Set a condition and go on. *)
Definition pass_step `{MetaConditions, Conditioned Obj} (t : ConditionType)
    (s : ConditionStatus) (reason : ConditionReason) (msg : string) (res : StepResult) :
    Go W StepResult :=
  with_obj (UpdateStatusCondition t s reason msg);;
  mret res.
End World.

(** [errors.Join] of the named result and the error of the patch. *)
Definition Join_errors (reterr : option error) (err : error) : error :=
  match reterr with
  | Some e => joinError e err
  | None => wrapError "" err
  end.

Section Reconcile.
Context {Obj A : Type} `{MetaConditions, Conditioned Obj, Getter A Obj, Patcher A Obj}.

(** What happens between the snapshot and the patch. *)
Definition run_steps (steps : list (Func (World Obj A))) : Go (World Obj A) (Result * option error) :=
  with_obj (UpdateStatusCondition ConditionReady ConditionUnknown ReasonReconciling
              "Reconciliation is in progress");;
  Run steps.

(** The deferred patch runs when the steps return and when they panic. *)
Definition deferred_patch (h : helper) (r : outcome (Result * option error) * World Obj A) :
    outcome (Result * option error) * (Fs * A) :=
  let '(out, w) := r in
  let '(perr, api') := Patch h (w_obj w) (w_api w) in
  let out' :=
    match out, perr with
    | Done (res, reterr), Some err => Done (res, Some (Join_errors reterr err))
    | _, _ => out
    end in
  (out', (w_fs w, api')).

(** [prepare] is what a method does to the object before the snapshot. *)
Definition reconcile_with (prepare : Obj → Obj) (steps : list (Func (World Obj A)))
    (namespace name : string) (s : Fs * A) : outcome (Result * option error) * (Fs * A) :=
  let '(fs, api) := s in
  match Get api namespace name with
  | inl err =>
      (Done (no_requeue, if IsNotFound err then None else Some err), s)
  | inr stored =>
      let obj := prepare stored in
      match NewHelper api obj with
      | inl err => (Done (no_requeue, Some err), s)
      | inr h => deferred_patch h (run_steps steps (mkWorld obj fs api))
      end
  end.
End Reconcile.

(** ** Lemmas *)

(** A reconcile does nothing, or runs the steps and patches what they made of the
    object. *)
Lemma reconcile_with_inv `{Conditioned Obj, MetaConditions, Getter A Obj, Patcher A Obj} prepare steps ns n
    (s : Fs * A) out s' :
  reconcile_with prepare steps ns n s = (out, s') →
  s' = s ∨
  ∃ o h r (w' : World Obj A),
    Get s.2 ns n = inr o ∧ NewHelper s.2 (prepare o) = inr h ∧
    run_steps steps (mkWorld (prepare o) s.1 s.2) = (r, w') ∧
    s' = (w_fs w', (Patch h (w_obj w') (w_api w')).2).
Proof.
  destruct s as [fs a]. unfold reconcile_with. cbn [fst snd].
  destruct (Get a ns n) as [e|o]; [intros [= _ <-]; by left|].
  destruct (NewHelper a (prepare o)) as [e|h] eqn:Hh; [intros [= _ <-]; by left|].
  destruct (run_steps steps (mkWorld (prepare o) fs a)) as [r w'] eqn:Hrun. unfold deferred_patch.
  destruct (Patch h (w_obj w') (w_api w')) as [perr a'] eqn:Hp. intros [= _ <-]. right.
  exists o, h, r, w'. by rewrite Hp.
Qed.

Section WorldFacts.
Context {Obj A : Type}.
Implicit Types (w : World Obj A).

Lemma run_the_obj w : the_obj w = (Done (w_obj w), w).
Proof. reflexivity. Qed.
Lemma run_with_obj (f : Obj → Obj) w :
  with_obj f w = (Done tt, mkWorld (f (w_obj w)) (w_fs w) (w_api w)).
Proof. reflexivity. Qed.
Lemma run_fs_call {X} (op : Fs → X * Fs) w :
  fs_call op w = (Done (op (w_fs w)).1, mkWorld (w_obj w) (op (w_fs w)).2 (w_api w)).
Proof. unfold fs_call, action. by destruct (op (w_fs w)). Qed.
Lemma run_api_call {X} (op : A → X * A) w :
  api_call op w = (Done (op (w_api w)).1, mkWorld (w_obj w) (w_fs w) (op (w_api w)).2).
Proof. unfold api_call, action. by destruct (op (w_api w)). Qed.

(** Frames of the three parts. *)
Lemma frame_with_obj (R : relation (World Obj A)) f :
  (∀ w, R w (mkWorld (f (w_obj w)) (w_fs w) (w_api w))) → frame R (with_obj f).
Proof. intros Hf w. apply Hf. Qed.
Lemma frame_fs_call {X} (R : relation (World Obj A)) (op : Fs → X * Fs) :
  (∀ w, R w (mkWorld (w_obj w) (op (w_fs w)).2 (w_api w))) → frame R (fs_call op).
Proof. intros Hf w. rewrite run_fs_call. apply Hf. Qed.
Lemma frame_api_call {X} (R : relation (World Obj A)) (op : A → X * A) :
  (∀ w, R w (mkWorld (w_obj w) (w_fs w) (op (w_api w)).2)) → frame R (api_call op).
Proof. intros Hf w. rewrite run_api_call. apply Hf. Qed.

(** The object keeps what [f] reads of it. *)
Definition keeps {X} (f : Obj → X) : relation (World Obj A) := λ w w', f (w_obj w') = f (w_obj w).
Global Instance keeps_preorder {X} (f : Obj → X) : PreOrder (keeps f).
Proof. split; [by intros w|]. intros w1 w2 w3. unfold keeps. congruence. Qed.

(** The files stay as they are. *)
Definition same_files : relation (World Obj A) := λ w w', files (w_fs w') = files (w_fs w).
Global Instance same_files_preorder : PreOrder same_files.
Proof. split; [by intros w|]. intros w1 w2 w3. unfold same_files. congruence. Qed.
End WorldFacts.

#[export] Hint Resolve frame_with_obj frame_fs_call frame_api_call : go.

(** ** The Ready condition, and the generation it is of *)
Section Dated.
Context {Obj A : Type} `{MetaConditionsLaws, ConditionedLaws Obj}.
Implicit Types (o : Obj) (w : World Obj A).

Definition ready_condition o : option Condition :=
  FindStatusCondition (GetConditions o) (ConditionType_string ConditionReady).
(** Ready, for the spec as it is now. *)
Definition ready_now o : Prop :=
  ∃ c, ready_condition o = Some c ∧ cond_Status c = ConditionTrue ∧
       cond_ObservedGeneration c = Generation (obj_Meta o).

(** The Ready condition is of the generation that was reconciled. *)
Definition dated : relation (World Obj A) := λ w w',
  Generation (obj_Meta (w_obj w')) = Generation (obj_Meta (w_obj w)) ∧
  ((∀ c, ready_condition (w_obj w) = Some c →
      cond_ObservedGeneration c = Generation (obj_Meta (w_obj w))) →
   ∀ c, ready_condition (w_obj w') = Some c →
      cond_ObservedGeneration c = Generation (obj_Meta (w_obj w))).

#[export] Instance dated_preorder : PreOrder dated.
Proof.
  split; [by intros w; split; auto|]. intros w1 w2 w3 [Hg1 Hc1] [Hg2 Hc2].
  split; [congruence|]. intros Hc. rewrite <-Hg1. apply Hc2. rewrite Hg1. by apply Hc1.
Qed.

Lemma dated_condition t st r msg : frame dated (with_obj (A := A) (UpdateStatusCondition t st r msg)).
Proof.
  apply frame_with_obj. intros w. unfold dated, ready_condition, UpdateStatusCondition. cbn [w_obj].
  rewrite meta_set_conditions, get_set_conditions. split; [done|]. intros Hc c. rewrite find_set. case_decide; [by intros [= <-]|apply Hc].
Qed.

(** What does not touch the conditions or the generation. *)
Lemma dated_with_obj f :
  (∀ o, GetConditions (f o) = GetConditions o) → (∀ o, Generation (obj_Meta (f o)) = Generation (obj_Meta o)) →
  frame dated (with_obj (A := A) f).
Proof.
  intros Hc Hg. apply frame_with_obj. intros w. unfold dated, ready_condition. cbn [w_obj]. by rewrite Hc.
Qed.
Lemma dated_fs_call {X} (op : Fs → X * Fs) : frame dated (fs_call op).
Proof. apply frame_fs_call. by intros w. Qed.
Lemma dated_api_call {X} (op : A → X * A) : frame dated (api_call op).
Proof. apply frame_api_call. by intros w. Qed.
Lemma dated_the_obj : frame dated the_obj.
Proof. apply frame_gets, _. Qed.
Lemma dated_the_api : frame dated the_api.
Proof. apply frame_gets, _. Qed.
#[local] Hint Resolve dated_condition : go.
Lemma dated_fail t r msg e : frame dated (fail_step t r msg e).
Proof. unfold fail_step. frame_auto. Qed.
Lemma dated_pass t st r msg res : frame dated (pass_step t st r msg res).
Proof. unfold pass_step. frame_auto. Qed.

(** What a pass begins with is dated. *)
Lemma dated_run_steps steps w c :
  Forall (frame dated) steps → ready_condition (w_obj (run_steps steps w).2) = Some c →
  cond_ObservedGeneration c = Generation (obj_Meta (w_obj w)).
Proof.
  intros Hs. set (o1 := UpdateStatusCondition ConditionReady ConditionUnknown ReasonReconciling
    "Reconciliation is in progress" (w_obj w)).
  change (run_steps steps w) with (Run steps (mkWorld o1 (w_fs w) (w_api w))).
  destruct (Run_frame dated _ Hs (mkWorld o1 (w_fs w) (w_api w))) as [_ Hd]. cbn [w_obj] in Hd.
  assert (Generation (obj_Meta o1) = Generation (obj_Meta (w_obj w))) as Hg
    by (unfold o1, UpdateStatusCondition; by rewrite meta_set_conditions).
  rewrite <-Hg. apply Hd. intros c0. unfold o1, ready_condition, UpdateStatusCondition.
  rewrite get_set_conditions, find_set, decide_True, meta_set_conditions by done. by intros [= <-].
Qed.
End Dated.

#[export] Hint Resolve dated_condition dated_fs_call dated_api_call dated_the_obj dated_the_api
  dated_fail dated_pass : go.
#[export] Hint Extern 1 (ConditionedLaws _) => typeclasses eauto : go.
#[export] Hint Extern 1 (MetaConditionsLaws) => typeclasses eauto : go.

(** ** A small API server, that stores what it is sent *)
Module SimpleApi.
Record api := mkApi {
  api_dcrs : gmap (string * string) DataCenterResource;
  api_pms : gmap (string * string) PhysicalMeasurement;
  api_mds : gmap (string * string) MeasurementDevice
}.

Definition lookup_api {Obj} (m : gmap (string * string) Obj) (ns name : string) : error + Obj :=
  match m !! (ns, name) with
  | Some o => inr o
  | None => inl (StatusError true (name +:+ " not found"))
  end.
Definition key_of {Obj} `{Conditioned Obj} (o : Obj) : string * string :=
  (Namespace (obj_Meta o), Name (obj_Meta o)).

#[export] Instance unicode : UnicodeTables := {| IsPrint _ := false |}.
#[export] Instance get_dcr : Getter api DataCenterResource := {| Get a := lookup_api (api_dcrs a) |}.
#[export] Instance get_pm : Getter api PhysicalMeasurement := {| Get a := lookup_api (api_pms a) |}.
#[export] Instance get_md : Getter api MeasurementDevice := {| Get a := lookup_api (api_mds a) |}.
#[export] Instance patch_dcr : Patcher api DataCenterResource :=
  {| helper := unit; NewHelper _ _ := inr tt;
     Patch _ o a := (None, mkApi (<[key_of o := o]> (api_dcrs a)) (api_pms a) (api_mds a)) |}.
#[export] Instance patch_pm : Patcher api PhysicalMeasurement :=
  {| helper := unit; NewHelper _ _ := inr tt;
     Patch _ o a := (None, mkApi (api_dcrs a) (<[key_of o := o]> (api_pms a)) (api_mds a)) |}.
#[export] Instance patch_md : Patcher api MeasurementDevice :=
  {| helper := unit; NewHelper _ _ := inr tt;
     Patch _ o a := (None, mkApi (api_dcrs a) (api_pms a) (<[key_of o := o]> (api_mds a))) |}.
End SimpleApi.
