(* ===== verification/PhysicalMeasurement.v ===== *)
(** [internal/physicalmeasurement]: the file_sd target of a physical
    measurement, its file, and the file read back. *)
From S2P Require Import Prelude GoStd Errors Paths FileStore ApiTypes GoJson Utf8 JsonDecode.

Record FileSDTarget := mkFileSDTarget {
  Targets : list string;
  Labels : gmap string string
}.

(** [maps.Copy(dst, src)]: the entries of [src] replace those of [dst]. *)
Definition copy_labels (dst src : gmap string string) : gmap string string := src ∪ dst.

Definition applyDefaultAndAdditionalLabels (physicalMeasurement : PhysicalMeasurement)
    (labels : gmap string string) : gmap string string :=
  let labels := <["name" := pm_Name physicalMeasurement]> labels in
  let labels := <["instance" := pm_Ip (pm_Spec physicalMeasurement)]> labels in
  match pm_AdditionalLabels (pm_Spec physicalMeasurement) with
  | Some additional => copy_labels additional labels
  | None => labels
  end.

Definition CreateFileSDTarget (physicalMeasurement : PhysicalMeasurement) : FileSDTarget :=
  let spec := pm_Spec physicalMeasurement in
  let labels : gmap string string :=
    if decide (pm_Type spec = PhysicalMeasurementTypePrometheusExporter)
    then {["type" := "prometheus-exporter"]}
    else list_to_map [("__param_module", pm_MeasurementDevice spec);
                      ("__param_auth", pm_MeasurementDevice spec);
                      ("job", pm_MeasurementDevice spec);
                      ("type", "snmp")] in
  mkFileSDTarget [pm_Ip spec] (applyDefaultAndAdditionalLabels physicalMeasurement labels).

(** The fields of a target, in the order of the struct. *)
Definition target_text (depth : nat) (t : FileSDTarget) : string :=
  json.bracket "{" "}" depth
    [json.member "targets" (json.strings_text (S depth) (Targets t));
     json.member "labels" (json.map_text (S depth) (Labels t))].

(** Strings and maps of strings always marshal: there is no error. *)
Definition MarshalFileSDTargets (targets : list FileSDTarget) : error + string :=
  inr (json.bracket "[" "]" 0 (target_text 1 <$> targets)).

(** [json.Unmarshal] into a slice of targets: each field as a variable of its type. *)
Record target_variable := mkTargetVariable {
  var_targets : unmarshal.buffer string;
  var_labels : gmap string string
}.
Definition zero_target : target_variable := mkTargetVariable unmarshal.nil_buffer ∅.
Definition target_of (t : target_variable) : FileSDTarget :=
  mkFileSDTarget (unmarshal.visible (var_targets t)) (var_labels t).

Definition decode_targets_field (v : scanner.value) (t : target_variable) :
    unmarshal.json_error + target_variable :=
  match unmarshal.decode_slice "" unmarshal.decode_string v (var_targets t) with
  | inl e => inl e
  | inr l => inr (mkTargetVariable l (var_labels t))
  end.
Definition decode_labels_field (v : scanner.value) (t : target_variable) :
    unmarshal.json_error + target_variable :=
  match unmarshal.decode_map v (var_labels t) with
  | inl e => inl e
  | inr m => inr (mkTargetVariable (var_targets t) m)
  end.
Definition target_field (key : string) :
    option (scanner.value → target_variable → unmarshal.json_error + target_variable) :=
  if unmarshal.names key "targets" then Some decode_targets_field
  else if unmarshal.names key "labels" then Some decode_labels_field
  else None.

Definition json_Unmarshal (data : string) : unmarshal.json_error + list FileSDTarget :=
  match scanner.parse data with
  | None => inl unmarshal.SyntaxError
  | Some v =>
      match unmarshal.decode_slice zero_target (unmarshal.decode_struct target_field) v
              unmarshal.nil_buffer with
      | inl e => inl e
      | inr ts => inr (target_of <$> unmarshal.visible ts)
      end
  end.

Section Files.
Context `{Os, Renameio}.

(** The store has no root: the path is used as it is. *)
Definition WriteFileSDTargets (path data : string) (fs : Fs) : option error * Fs :=
  VolumeFileStore_Write "" path data fs.

Definition LoadFileSDTargets `{FileStore St, unmarshal.JsonErrors} (path : string) (s : St) :
    (error + list FileSDTarget) * St :=
  match fs_ReadAll path s with
  | (inl err, s') => (inl err, s')
  | (inr data, s') =>
      match json_Unmarshal data with
      | inl err => (inl (errorString (unmarshal.json_error_text err)), s')
      | inr targets => (inr targets, s')
      end
  end.
End Files.

(** * Theorems *)

(** The labels every target of the kind carries. *)
Definition default_target_labels (p : PhysicalMeasurement) : gmap string string :=
  let spec := pm_Spec p in
  if decide (pm_Type spec = PhysicalMeasurementTypePrometheusExporter) then
    list_to_map [("type", "prometheus-exporter"); ("name", pm_Name p); ("instance", pm_Ip spec)]
  else
    list_to_map [("__param_module", pm_MeasurementDevice spec);
                 ("__param_auth", pm_MeasurementDevice spec);
                 ("job", pm_MeasurementDevice spec);
                 ("type", "snmp"); ("name", pm_Name p); ("instance", pm_Ip spec)].

(** A target scrapes the measurement's address, and its labels are the
    ones of its kind (device for module, auth and job only for SNMP) whatever the
    user adds: an additional label is kept only under a name of its own. *)
Theorem CreateFileSDTarget_labels p k :
  Targets (CreateFileSDTarget p) = [pm_Ip (pm_Spec p)] ∧
  Labels (CreateFileSDTarget p) !! k =
    match default_target_labels p !! k with
    | Some v => Some v
    | None => default ∅ (pm_AdditionalLabels (pm_Spec p)) !! k
    end.
Proof.
  split; [done|]. unfold CreateFileSDTarget, applyDefaultAndAdditionalLabels, default_target_labels.
  simpl. set (ds := <["instance" := _]> _).
  match goal with |- _ = match ?m !! k with _ => _ end => assert (ds = m) as -> end.
  { unfold ds. apply map_eq. intros i. case_decide; cbn;
      rewrite ?lookup_insert, ?lookup_singleton, ?lookup_empty;
      repeat (destruct (decide _)); simplify_eq; done. }
  generalize (pm_AdditionalLabels (pm_Spec p)). intros [m|]; simpl.
  - unfold copy_labels. rewrite lookup_union.
    destruct ((if decide _ then _ else _) !! k); simpl; [by destruct (m !! k)|by rewrite (left_id_L None _)].
  - by destruct ((if decide _ then _ else _) !! k).
Qed.

(** ** Reading targets back *)

(** The strings of a target are UTF-8, as those of the API are. *)
Definition valid_target (t : FileSDTarget) : Prop :=
  Forall (λ s, to_valid s = s) (Targets t) ∧
  map_Forall (λ k v, to_valid k = k ∧ to_valid v = v) (Labels t).

#[export] Instance valid_target_dec t : Decision (valid_target t).
Proof. unfold valid_target. apply _. Defined.

Lemma Forall2_fmap_both {A B C} (P : B → C → Prop) (f : A → B) (g : A → C) l :
  Forall (λ x, P (f x) (g x)) l → Forall2 P (f <$> l) (g <$> l).
Proof. induction 1; by constructor. Qed.

Definition label_members (t : FileSDTarget) : list (string * string) :=
  merge_sort json.key_before (map_to_list (Labels t)).
Definition target_value (t : FileSDTarget) : scanner.value :=
  scanner.JObject
    [("targets", scanner.JArray (scanner.JString <$> Targets t));
     ("labels", scanner.JObject (prod_map id scanner.JString <$> label_members t))].

Lemma target_text_reads depth t : valid_target t →
  scanner_facts.reads 2 (target_text depth t) (target_value t).
Proof.
  intros [Ht Hl]. apply scanner_facts.reads_object.
  apply Forall2_cons. split; [|apply Forall2_cons; split; [|by apply Forall2_nil]].
  - exists "targets". eexists. split_and!; [done|done|]. apply scanner_facts.reads_array, Forall2_fmap_both.
    eapply Forall_impl; [exact Ht|]. intros s Hs. rewrite <- Hs at 2. apply scanner_facts.reads_string.
  - exists "labels". eexists. split_and!; [done|done|]. apply scanner_facts.reads_object, Forall2_fmap_both.
    apply Forall_forall. intros [k v] Hin. unfold label_members in Hin. rewrite merge_sort_Permutation in Hin.
    apply elem_of_map_to_list in Hin. destruct (Hl k v Hin) as [Hk Hv].
    exists k. eexists. split_and!; [done|by rewrite Hk|]. cbn. rewrite <- Hv at 2. apply scanner_facts.reads_string.
Qed.

Lemma list_to_map_label_members t : list_to_map (label_members t) = Labels t.
Proof.
  unfold label_members. rewrite (list_to_map_proper _ (map_to_list (Labels t))).
  - apply list_to_map_to_list.
  - rewrite merge_sort_Permutation. apply NoDup_fst_map_to_list.
  - apply merge_sort_Permutation.
Qed.

Lemma decode_target_value t : ∃ x,
  unmarshal.decode_struct target_field (target_value t) zero_target = inr x ∧ target_of x = t.
Proof.
  destruct (unmarshal.decode_slice_fresh "" unmarshal.decode_string (scanner.JString <$> Targets t) (Targets t))
    as (b & Hb & Hvis); [apply unmarshal.decode_strings|].
  eexists. split.
  - unfold unmarshal.decode_struct, target_value. cbn [unmarshal.decode_fields].
    change (target_field "targets") with (Some decode_targets_field).
    change (target_field "labels") with (Some decode_labels_field).
    unfold decode_targets_field at 1. cbn [zero_target var_targets var_labels]. rewrite Hb.
    unfold decode_labels_field. cbn [unmarshal.decode_map var_targets var_labels].
    rewrite unmarshal.decode_entries_list; [done| |].
    + unfold label_members. rewrite merge_sort_Permutation. apply NoDup_fst_map_to_list.
    + intros. apply lookup_empty.
  - unfold target_of. cbn [var_targets var_labels]. rewrite Hvis, (right_id_L ∅ (∪)), list_to_map_label_members.
    by destruct t.
Qed.

Lemma Unmarshal_Marshal ts text : Forall valid_target ts →
  MarshalFileSDTargets ts = inr text → json_Unmarshal text = inr ts.
Proof.
  intros Hts [= <-]. unfold json_Unmarshal.
  rewrite (scanner_facts.parse_reads 3 _ (scanner.JArray (target_value <$> ts))).
  - assert (∃ xs, unmarshal.decode_items zero_target (unmarshal.decode_struct target_field)
              (target_value <$> ts) [] = inr xs ∧ target_of <$> xs = ts) as (xs & Hd & Hxs).
    { clear Hts. induction ts as [|t ts (xs & Hd & Hxs)]; [by exists []|].
      destruct (decode_target_value t) as (x & Hx & Ht). exists (x :: xs).
      cbn [fmap list_fmap unmarshal.decode_items head default tail]. unfold default. rewrite Hx.
      split; [|by rewrite Ht, Hxs].  by rewrite Hd. }
    apply unmarshal.decode_slice_fresh in Hd as (b & -> & ->). by rewrite Hxs.
  - apply scanner_facts.reads_array, Forall2_fmap_both. eapply Forall_impl; [exact Hts|].
    intros t. apply target_text_reads.
  - unfold scanner.maxNestingDepth. lia.
Qed.

(** C21: Targets written to a file are read back: the text of a list of targets is
    parsed as that list, whatever characters its strings have (as long as they are
    UTF-8), so that loading the file it was written to answers the targets, or the
    error of the store. *)
Theorem LoadFileSDTargets_reads_back `{FileStoreLaws St content, unmarshal.JsonErrors} path ts text s s1 :
  Forall valid_target ts → MarshalFileSDTargets ts = inr text → fs_Write path text s = (None, s1) →
  json_Unmarshal text = inr ts ∧
  LoadFileSDTargets path s1 =
    match fs_ReadAll path s1 with
    | (inr _, s2) => (inr ts, s2)
    | (inl e, s2) => (inl e, s2)
    end.
Proof.
  intros Hts Hm Hw. pose proof (Unmarshal_Marshal ts text Hts Hm) as Hu. split; [done|].
  unfold LoadFileSDTargets. destruct (fs_ReadAll path s1) as [[e|data] s2] eqn:Hr; [done|].
  assert (content s1 path = Some text) as Hc.
  { rewrite (write_ok path text s s1 Hw). by rewrite decide_True. }
  rewrite (read_ok path s1 data) in Hc by (by rewrite Hr). injection Hc as ->. by rewrite Hu.
Qed.

(** A sample: characters that are escaped, and text that is refused. *)
Module TargetSample.
Import SimpleOs.
#[export] Instance store : FileStore Fs := VolumeFileStore_store "/data".
#[export] Instance messages : unmarshal.JsonErrors :=
  λ e, match e with
       | unmarshal.SyntaxError => "invalid character"
       | unmarshal.UnmarshalTypeError kind => "json: cannot unmarshal " +:+ kind
       end.
Definition targets : list FileSDTarget :=
  [mkFileSDTarget ["10.0.0.1"; "<pdu>"]
     (list_to_map [("room", "salle é & " +:+ dquote +:+ "b" +:+ dquote); ("a\b", newline)]);
   mkFileSDTarget [] ∅].
Definition text : string := match MarshalFileSDTargets targets with inr t => t | inl _ => "" end.
Definition quoted (s : string) : string := dquote +:+ s +:+ dquote.
Definition load (data : string) : error + list FileSDTarget :=
  (LoadFileSDTargets "t.json" (fs_Write "t.json" data empty_fs).2).1.

(** A field is found by its name whatever the case, of two the later one is read
    into the same variable, and one that is not known is passed over. *)
Example load_fields :
  load ("[{" +:+ quoted "TARGETS" +:+ ":[" +:+ quoted "a" +:+ "," +:+ quoted "b" +:+ "]," +:+
        quoted "other" +:+ ":[1.5e3,{}]," +:+ quoted "targets" +:+ ":[null]}]") =
    inr [mkFileSDTarget ["a"] ∅].
Proof. vm_compute. reflexivity. Qed.
Example load_refused :
  load "[{},]" = inl (errorString "invalid character") ∧
  load "[7]" = inl (errorString "json: cannot unmarshal number 7") ∧
  load "" = inl (errorString "invalid character") ∧ load " null " = inr [].
Proof. vm_compute. auto. Qed.
End TargetSample.
Import SimpleOs TargetSample.

Lemma LoadFileSDTargets_reads_back_witness :
  json_Unmarshal text = inr targets ∧
  LoadFileSDTargets "t.json" (fs_Write "t.json" text empty_fs).2 =
    match fs_ReadAll "t.json" (fs_Write "t.json" text empty_fs).2 with
    | (inr _, s2) => (inr targets, s2)
    | (inl e, s2) => (inl e, s2)
    end.
Proof.
  apply (LoadFileSDTargets_reads_back (St := Fs) (content := volume_content "/data")
           (H0 := VolumeFileStore_laws "/data" ltac:(done)) "t.json" targets text empty_fs).
  - apply (bool_decide_unpack _). vm_compute. exact I.
  - reflexivity.
  - reflexivity.
Defined.
