(* ===== verification/PhysicalMeasurementController.v ===== *)
(** [internal/controller/physicalmeasurement_controller.go]: a physical
    measurement becomes a target file of Prometheus. *)
From S2P Require Import Prelude GoStd GoJson Errors Paths FileStore.
From S2P Require Import Configuration ApiTypes Steps Cluster PhysicalMeasurement.

Definition prometheusTargetsDir : string := "prometheus/targets".

(** The subdirectory Prometheus reads for the kind of the measurement. *)
Definition getTargetFileSubdir (physicalMeasurement : PhysicalMeasurement) : string :=
  if decide (pm_Type (pm_Spec physicalMeasurement) = PhysicalMeasurementTypePrometheusExporter)
  then "prometheus-exporter" else "snmp".

Section Controller.
Context {A : Type} `{UnicodeTables, MetaConditions, FinalizerUtil, Os, Renameio,
  Getter A PhysicalMeasurement, Getter A MeasurementDevice, Patcher A PhysicalMeasurement}.
(** config.ValidatedEnv. *)
Context (ValidatedEnv : validatedEnv).

Abbreviation W := (World PhysicalMeasurement A).

Definition has_finalizer (p : PhysicalMeasurement) : bool :=
  ContainsFinalizer (Finalizers (pm_Meta p)) PhysicalMeasurementFinalizer.
Definition update_finalizers (f : list string → list string) (p : PhysicalMeasurement) :
    PhysicalMeasurement :=
  set_pm_Meta (set_Finalizers (f (Finalizers (pm_Meta p))) (pm_Meta p)) p.

Definition reconcileDeletion : Go W StepResult :=
  p ← the_obj;
  if decide (DeletionTimestamp (pm_Meta p) = None) then mret Continue
  else if negb (has_finalizer p) then mret Stop
  else
    let targetPath := filepath.Join [VolumeLocation ValidatedEnv; prometheusTargetsDir;
                                     getTargetFileSubdir p; pm_Name p +:+ ".json"] in
    err ← fs_call (Remove targetPath);
    match err with
    | Some e =>
        if negb (os_IsNotExist e) then
          fail_step ConditionApplied ReasonCleanupFailed
            ("Error deleting target file: " +:+ Error e) e
        else
          with_obj (update_finalizers (λ fs, RemoveFinalizer fs PhysicalMeasurementFinalizer));;
          mret Stop
    | None =>
        with_obj (update_finalizers (λ fs, RemoveFinalizer fs PhysicalMeasurementFinalizer));;
        mret Stop
    end.

Definition ensureFinalizerIsSet : Go W StepResult :=
  p ← the_obj;
  if has_finalizer p then mret Continue
  else
    with_obj (update_finalizers (λ fs, AddFinalizer fs PhysicalMeasurementFinalizer));;
    mret Stop.

Definition reconcileValidation : Go W StepResult :=
  p ← the_obj;
  let deviceName := pm_MeasurementDevice (pm_Spec p) in
  if decide (deviceName = "") then
    pass_step ConditionValidated ConditionTrue ReasonReconciled "Validation successful" Continue
  else
    api ← the_api;
    match Get (Obj := MeasurementDevice) api (Namespace (pm_Meta p)) deviceName with
    | inl err =>
        if IsNotFound err then
          pass_step ConditionValidated ConditionFalse ReasonDependencyUnavailable
            ("MeasurementDevice " +:+ deviceName +:+ " does not exist")
            (Requeue EndpointRequeueDelay)
        else
          fail_step ConditionValidated ReasonInvalidSpec
            ("Error getting MeasurementDevice " +:+ deviceName +:+ ": " +:+ Error err) err
    | inr _ =>
        pass_step ConditionValidated ConditionTrue ReasonReconciled "Validation successful" Continue
    end.

Definition writeTargetFile (targetsDir targetPath desired : string) : Go W StepResult :=
  merr ← fs_call (MkdirAll targetsDir);
  match merr with
  | Some err =>
      fail_step ConditionApplied ReasonApplyFailed
        ("Error creating targets directory: " +:+ Error err) err
  | None =>
      werr ← fs_call (WriteFileSDTargets targetPath desired);
      match werr with
      | Some err =>
          fail_step ConditionApplied ReasonApplyFailed
            ("Error writing target file: " +:+ Error err) err
      | None =>
          pass_step ConditionApplied ConditionTrue ReasonReconciled
            "Target file has been generated successfully" Continue
      end
  end.

(** A file that does not exist is observed as no bytes. *)
Definition reconcileTargetFile : Go W StepResult :=
  p ← the_obj;
  let target := CreateFileSDTarget p in
  match MarshalFileSDTargets [target] with
  | inl err =>
      fail_step ConditionApplied ReasonApplyFailed
        ("Error marshalling target file: " +:+ Error err) err
  | inr desired =>
      let targetsDir := filepath.Join [VolumeLocation ValidatedEnv; prometheusTargetsDir;
                                       getTargetFileSubdir p] in
      let targetPath := filepath.Join [targetsDir; pm_Name p +:+ ".json"] in
      r ← fs_call (ReadFile targetPath);
      let write_unless observed :=
        if decide (observed ≠ desired) then writeTargetFile targetsDir targetPath desired
        else pass_step ConditionApplied ConditionTrue ReasonReconciled
               "Target file is up to date" Continue in
      match r with
      | inl err =>
          if Is_ErrNotExist err then write_unless ""
          else fail_step ConditionApplied ReasonApplyFailed
                 ("Error reading target file: " +:+ Error err) err
      | inr observed => write_unless observed
      end
  end.

Definition reconcileReady : Go W StepResult :=
  pass_step ConditionReady ConditionTrue ReasonReconciled
    "Reconciliation completed successfully" Continue.

Definition reconcile_steps : list (Func W) :=
  [reconcileDeletion; ensureFinalizerIsSet; reconcileValidation; reconcileTargetFile;
   reconcileReady].

Definition Reconcile (namespace name : string) (s : Fs * A) :
    outcome (Result * option error) * (Fs * A) :=
  reconcile_with (λ p, p) reconcile_steps namespace name s.
End Controller.

(** * Theorems *)

(** The file a measurement is published in, and what it must hold. *)
Definition target_path (env : validatedEnv) (p : PhysicalMeasurement) : string :=
  filepath.Join [VolumeLocation env; prometheusTargetsDir; getTargetFileSubdir p;
                 pm_Name p +:+ ".json"].
Definition target_data (p : PhysicalMeasurement) : string :=
  json.bracket "[" "]" 0 [target_text 1 (CreateFileSDTarget p)].

(** ** The controller, abstractly

    What a pass is about: whether the finalizer is set, the files, and the
    Ready condition. *)
Record view := mkView {
  v_finalizer : bool;
  v_files : gmap string string;
  v_ready : option ConditionStatus
}.

(** What the measurement refers to, as the API answers. *)
Inductive dependency := Dep_present | Dep_missing | Dep_error (e : error).

(** One pass over a measurement: what it may answer and make of the view.  An
    operation the outside refuses ends the pass with its error and leaves the
    files alone. *)
Inductive pass (env : validatedEnv) (p : PhysicalMeasurement) (dep : dependency) :
    view → Result * option error → view → Prop :=
| pass_gone fs r :
    DeletionTimestamp (pm_Meta p) ≠ None →
    pass env p dep (mkView false fs r) (no_requeue, None) (mkView false fs (Some ConditionUnknown))
| pass_cleanup fs r :
    DeletionTimestamp (pm_Meta p) ≠ None →
    pass env p dep (mkView true fs r) (no_requeue, None)
      (mkView false (delete (target_path env p) fs) (Some ConditionUnknown))
| pass_cleanup_refused fs r e :
    DeletionTimestamp (pm_Meta p) ≠ None →
    pass env p dep (mkView true fs r) (no_requeue, Some e) (mkView true fs (Some ConditionUnknown))
| pass_adopt fs r :
    DeletionTimestamp (pm_Meta p) = None →
    pass env p dep (mkView false fs r) (no_requeue, None) (mkView true fs (Some ConditionUnknown))
| pass_wait fs r :
    DeletionTimestamp (pm_Meta p) = None → dep = Dep_missing →
    pass env p dep (mkView true fs r) (mkResult EndpointRequeueDelay, None)
      (mkView true fs (Some ConditionUnknown))
| pass_invalid fs r e :
    DeletionTimestamp (pm_Meta p) = None → dep = Dep_error e →
    pass env p dep (mkView true fs r) (no_requeue, Some e) (mkView true fs (Some ConditionUnknown))
| pass_apply fs r :
    DeletionTimestamp (pm_Meta p) = None → dep = Dep_present →
    pass env p dep (mkView true fs r) (no_requeue, None)
      (mkView true (<[target_path env p := target_data p]> fs) (Some ConditionTrue))
| pass_apply_refused fs r e :
    DeletionTimestamp (pm_Meta p) = None → dep = Dep_present →
    pass env p dep (mkView true fs r) (no_requeue, Some e) (mkView true fs (Some ConditionUnknown)).

(** A pass does not depend on the Ready condition it starts from. *)
Lemma pass_any env p p' dep fin fs r r' res v :
  DeletionTimestamp (pm_Meta p') = DeletionTimestamp (pm_Meta p) →
  target_path env p' = target_path env p → target_data p' = target_data p →
  pass env p dep (mkView fin fs r) res v → pass env p' dep (mkView fin fs r') res v.
Proof.
  intros Hd Hp Ht Hpass. inversion Hpass; subst; rewrite <-?Hp, <-?Ht.
  - apply pass_gone. congruence.
  - apply pass_cleanup. congruence.
  - apply pass_cleanup_refused. congruence.
  - apply pass_adopt. congruence.
  - apply pass_wait; congruence.
  - apply pass_invalid; congruence.
  - apply pass_apply; congruence.
  - apply pass_apply_refused; congruence.
Qed.

Section Facts.
Context {A : Type} `{UnicodeTables, MetaConditionsLaws, FinalizerUtilLaws, Os, RenameioLaws,
  Getter A PhysicalMeasurement, Getter A MeasurementDevice, Patcher A PhysicalMeasurement}.
Context (env : validatedEnv).
Abbreviation W := (World PhysicalMeasurement A).
Implicit Types (w : W) (p : PhysicalMeasurement).

Definition the_view w : view :=
  mkView (has_finalizer (w_obj w)) (files (w_fs w)) (condition_status ConditionReady (w_obj w)).

Definition dependency_of (api : A) p : dependency :=
  if decide (pm_MeasurementDevice (pm_Spec p) = "") then Dep_present
  else match Get (Obj := MeasurementDevice) api (Namespace (pm_Meta p))
               (pm_MeasurementDevice (pm_Spec p)) with
       | inr _ => Dep_present
       | inl e => if IsNotFound e then Dep_missing else Dep_error e
       end.

Lemma target_path_clean p : filepath.Clean (target_path env p) = target_path env p.
Proof.
  apply Clean_Join. unfold target_path, prometheusTargetsDir.
  destruct (decide (VolumeLocation env = "")) as [->|Hv]; cbn [filepath.Join].
  - apply Clean_ne.
  - rewrite decide_False by done. apply Clean_ne.
Qed.

(** The file is the same whether its path is joined at once or in two goes. *)
Lemma target_path_dir p :
  filepath.Join [filepath.Join [VolumeLocation env; prometheusTargetsDir; getTargetFileSubdir p];
                 pm_Name p +:+ ".json"] = target_path env p.
Proof. rewrite Join_Join; [done|]. exists prometheusTargetsDir. split; [set_solver|done]. Qed.

Lemma WriteFileSDTargets_inv p data fs r fs' :
  WriteFileSDTargets (target_path env p) data fs = (r, fs') →
  match r with
  | None => files fs' = <[target_path env p := data]> (files fs)
  | Some _ => files fs' = files fs
  end.
Proof.
  assert (VolumeFileStore_Resolve "" [target_path env p] = target_path env p) as E.
  { unfold VolumeFileStore_Resolve.
    change (filepath.Join ["" ; target_path env p]) with (filepath.Join [target_path env p]).
    rewrite Join_single; [apply target_path_clean|]. rewrite <-target_path_clean. apply Clean_ne. }
  intros Hw. apply Write_clean_inv in Hw; rewrite E in *; [done|apply target_path_clean].
Qed.

(** A condition touches nothing but itself. *)
Lemma has_finalizer_update t s r msg p :
  has_finalizer (UpdateStatusCondition t s r msg p) = has_finalizer p.
Proof. reflexivity. Qed.

Lemma ready_finalizers f p :
  condition_status ConditionReady (update_finalizers f p) = condition_status ConditionReady p.
Proof. reflexivity. Qed.

Lemma has_finalizer_add p :
  has_finalizer (update_finalizers (λ fs, AddFinalizer fs PhysicalMeasurementFinalizer) p) = true.
Proof. apply contains_finalizer, elem_of_add_finalizer. by right. Qed.

Lemma has_finalizer_remove p :
  has_finalizer (update_finalizers (λ fs, RemoveFinalizer fs PhysicalMeasurementFinalizer) p) = false.
Proof.
  apply not_true_is_false. unfold has_finalizer, update_finalizers. simpl.
  rewrite contains_finalizer, elem_of_remove_finalizer. naive_solver.
Qed.

(** ** The steps *)

(** Only conditions other than Ready, and the volume, may have changed. *)
Definition same_but_conditions w w' : Prop :=
  pm_Meta (w_obj w') = pm_Meta (w_obj w) ∧ pm_Spec (w_obj w') = pm_Spec (w_obj w) ∧
  w_api w' = w_api w ∧
  condition_status ConditionReady (w_obj w') = condition_status ConditionReady (w_obj w).

Lemma condition_same t s r msg w fs :
  t ≠ ConditionReady →
  same_but_conditions w (mkWorld (UpdateStatusCondition t s r msg (w_obj w)) fs (w_api w)).
Proof.
  intros Ht. split_and!; try reflexivity. cbn [w_obj].
  by rewrite condition_status_update, decide_False by done.
Qed.

(** A step that publishes: it goes on with the file written, or fails with
    the files left alone. *)
Definition publishes (path data : string) w (r : outcome StepResult * W) : Prop :=
  same_but_conditions w r.2 ∧
  (r.1 = Done Continue ∧ files (w_fs r.2) = <[path := data]> (files (w_fs w)) ∨
   ∃ e, r.1 = Done (StepError e) ∧ files (w_fs r.2) = files (w_fs w)).

Lemma writeTargetFile_publishes dir data w :
  publishes (target_path env (w_obj w)) data w
    (writeTargetFile dir (target_path env (w_obj w)) data w).
Proof.
  unfold writeTargetFile. rewrite run_bind, run_fs_call.
  pose proof (MkdirAll_files dir (w_fs w)) as Hm.
  destruct (MkdirAll dir (w_fs w)) as [[e|] fs1]; cbn [fst snd w_fs] in *.
  { split; [by apply (condition_same _ _ _ _ w)|]. right. by exists e. }
  rewrite run_bind, run_fs_call. cbn [w_fs w_obj].
  destruct (WriteFileSDTargets _ data fs1) as [r fs2] eqn:Hw. apply WriteFileSDTargets_inv in Hw.
  destruct r as [e|]; (split; [by apply (condition_same _ _ _ _ w)|]);
    rewrite Hm in Hw; [right; by exists e|by left].
Qed.

Lemma reconcileTargetFile_publishes w :
  publishes (target_path env (w_obj w)) (target_data (w_obj w)) w (reconcileTargetFile env w).
Proof.
  unfold reconcileTargetFile. rewrite run_bind, run_the_obj.
  change (MarshalFileSDTargets [CreateFileSDTarget (w_obj w)])
    with (@inr error string (target_data (w_obj w))).
  cbv zeta iota beta. rewrite target_path_dir, run_bind, run_fs_call.
  destruct (ReadFile (target_path env (w_obj w)) (w_fs w)) as [r fs1] eqn:Hr.
  apply ReadFile_inv in Hr as [Hfs1 Hr]; [|apply target_path_clean]. cbn [fst snd].
  set (w1 := mkWorld (w_obj w) fs1 (w_api w)).
  assert (∀ q, publishes (target_path env (w_obj w)) (target_data (w_obj w)) w1 q →
    publishes (target_path env (w_obj w)) (target_data (w_obj w)) w q) as Hw1
    by (unfold publishes, same_but_conditions; cbn; by rewrite Hfs1).
  destruct r as [e|observed].
  - destruct (Is_ErrNotExist e) eqn:He.
    + rewrite decide_True by done. apply Hw1, (writeTargetFile_publishes _ _ w1).
    + split; [by apply (condition_same _ _ _ _ w)|]. right. by exists e.
  - case_decide as Hd; [apply Hw1, (writeTargetFile_publishes _ _ w1)|].
    split; [by apply (condition_same _ _ _ _ w)|]. left. split; [done|].
    rewrite <-Hd, insert_id by done. exact Hfs1.
Qed.
(** ** The pass *)

Lemma reconcileValidation_spec w :
  ∃ res w', reconcileValidation w = (Done res, w') ∧ same_but_conditions w w' ∧
    files (w_fs w') = files (w_fs w) ∧
    res = match dependency_of (w_api w) (w_obj w) with
          | Dep_present => Continue
          | Dep_missing => Requeue EndpointRequeueDelay
          | Dep_error e => StepError e
          end.
Proof.
  unfold reconcileValidation, dependency_of. rewrite run_bind, run_the_obj. cbv zeta.
  assert (∀ s r msg res, ∃ res' w',
    pass_step ConditionValidated s r msg res w = (Done res', w') ∧ same_but_conditions w w' ∧
    files (w_fs w') = files (w_fs w) ∧ res' = res) as Hpass.
  { intros. eexists _, _. split; [reflexivity|].
    split; [by apply (condition_same _ _ _ _ w)|done]. }
  case_decide; [apply Hpass|]. rewrite run_bind. unfold the_api. rewrite run_gets.
  destruct (Get _ _ _) as [e|d]; [|apply Hpass].
  destruct (IsNotFound e); [apply Hpass|apply Hpass].
Qed.

(** The object after a pass: its spec, and its metadata but the finalizers. *)
Definition same_object p p' : Prop :=
  pm_Spec p' = pm_Spec p ∧
  set_Finalizers [] (pm_Meta p') = set_Finalizers [] (pm_Meta p).

Lemma same_object_target p p' :
  same_object p p' →
  target_path env p' = target_path env p ∧ target_data p' = target_data p ∧
  getTargetFileSubdir p' = getTargetFileSubdir p ∧
  DeletionTimestamp (pm_Meta p') = DeletionTimestamp (pm_Meta p) ∧
  ∀ api, dependency_of api p' = dependency_of api p.
Proof.
  intros [Hs Hm].
  assert (Name (pm_Meta p') = Name (pm_Meta p) ∧ Namespace (pm_Meta p') = Namespace (pm_Meta p) ∧
    DeletionTimestamp (pm_Meta p') = DeletionTimestamp (pm_Meta p)) as (Hn & Hns & Hd)
    by (unfold set_Finalizers in Hm; by simplify_eq).
  unfold target_path, target_data, CreateFileSDTarget, applyDefaultAndAdditionalLabels,
    getTargetFileSubdir, dependency_of, pm_Name. by rewrite Hs, Hn, Hns, Hd.
Qed.

(** The steps from a world whose Ready condition is already unknown. *)
Definition refines w (q : outcome (Result * option error) * W) : Prop :=
  (∃ res, q.1 = Done res ∧
    pass env (w_obj w) (dependency_of (w_api w) (w_obj w)) (the_view w) res (the_view q.2)) ∧
  same_object (w_obj w) (w_obj q.2) ∧ w_api q.2 = w_api w.

Lemma deletion_refines w :
  DeletionTimestamp (pm_Meta (w_obj w)) ≠ None →
  condition_status ConditionReady (w_obj w) = Some ConditionUnknown →
  refines w (Run (reconcile_steps env) w).
Proof.
  intros Hdel Hready. unfold reconcile_steps, refines, the_view.
  assert (∀ res w', reconcileDeletion env w = (Done res, w') → sr_Action res ≠ ActionContinue →
    ∃ out, halts res = Some out ∧
      Run [reconcileDeletion env; ensureFinalizerIsSet; reconcileValidation;
           reconcileTargetFile env; reconcileReady] w = (Done out, w')) as Hrun.
  { intros res w' Hs Hres. assert (∃ out, halts res = Some out) as [out Ho]
      by (unfold halts; destruct (sr_Action res); [done|eauto..]).
    exists out. split; [done|]. by rewrite (Run_cons _ _ _ _ _ Hs), Ho. }
  unfold reconcileDeletion in Hrun at 1. rewrite run_bind, run_the_obj, decide_False in Hrun by done.
  destruct (has_finalizer (w_obj w)) eqn:Hf; cbn [negb] in Hrun; last first.
  { edestruct Hrun as (out & Ho & ->); [reflexivity|done|]. injection Ho as <-.
    split; [|done]. exists (no_requeue, None). split; [done|].
    cbn [snd]. rewrite Hf, Hready. by apply pass_gone. }
  fold (target_path env (w_obj w)) in Hrun. rewrite run_bind, run_fs_call in Hrun.
  destruct (Remove (target_path env (w_obj w)) (w_fs w)) as [r fs1] eqn:Hr.
  apply Remove_clean_inv in Hr; [|apply target_path_clean]. cbn [fst snd] in Hrun.
  destruct r as [e|]; [destruct Hr as (Hfs & Hmiss & _); unfold os_IsNotExist in Hrun;
    destruct (is_not_exist e) eqn:He; cbn [negb] in Hrun|].
  - edestruct Hrun as (out & Ho & ->); [reflexivity|done|]. injection Ho as <-.
    split; [|done]. exists (no_requeue, None). split; [done|]. cbn [snd w_obj w_fs].
    assert (files fs1 = delete (target_path env (w_obj w)) (files (w_fs w))) as ->
      by (rewrite delete_id; auto).
    rewrite has_finalizer_remove, ready_finalizers, Hready. by apply pass_cleanup.
  - edestruct Hrun as (out & Ho & ->); [reflexivity|done|]. injection Ho as <-.
    split; [|done]. eexists. split; [done|]. cbn [snd w_obj w_fs].
    rewrite has_finalizer_update, Hf, Hfs, condition_status_update, decide_False, Hready by done.
    by apply pass_cleanup_refused.
  - edestruct Hrun as (out & Ho & ->); [reflexivity|done|]. injection Ho as <-.
    split; [|done]. exists (no_requeue, None). split; [done|]. cbn [snd w_obj w_fs].
    rewrite has_finalizer_remove, ready_finalizers, Hr, Hready. by apply pass_cleanup.
Qed.

(** The steps up to the target file. *)
Lemma live_run w :
  DeletionTimestamp (pm_Meta (w_obj w)) = None → has_finalizer (w_obj w) = true →
  ∃ w1, same_but_conditions w w1 ∧ files (w_fs w1) = files (w_fs w) ∧
    Run (reconcile_steps env) w =
    match dependency_of (w_api w) (w_obj w) with
    | Dep_present => Run [reconcileTargetFile env; reconcileReady] w1
    | Dep_missing => (Done (mkResult EndpointRequeueDelay, None), w1)
    | Dep_error e => (Done (no_requeue, Some e), w1)
    end.
Proof.
  intros Hdel Hf. unfold reconcile_steps.
  assert (reconcileDeletion env w = (Done Continue, w)) as Hd
    by (unfold reconcileDeletion; by rewrite run_bind, run_the_obj, decide_True).
  rewrite (Run_cons _ _ _ _ _ Hd). cbn [halts sr_Action Continue].
  assert (ensureFinalizerIsSet w = (Done Continue, w)) as He
    by (unfold ensureFinalizerIsSet; by rewrite run_bind, run_the_obj, Hf).
  rewrite (Run_cons _ _ _ _ _ He). cbn [halts sr_Action Continue].
  destruct (reconcileValidation_spec w) as (res & w1 & Hv & Hs & Hf1 & ->).
  exists w1. split; [done|]. split; [done|]. rewrite (Run_cons _ _ _ _ _ Hv).
  by destruct (dependency_of (w_api w) (w_obj w)).
Qed.

Lemma live_refines w :
  DeletionTimestamp (pm_Meta (w_obj w)) = None →
  condition_status ConditionReady (w_obj w) = Some ConditionUnknown →
  refines w (Run (reconcile_steps env) w).
Proof.
  intros Hdel Hready. unfold reconcile_steps.
  assert (reconcileDeletion env w = (Done Continue, w)) as Hd
    by (unfold reconcileDeletion; by rewrite run_bind, run_the_obj, decide_True).
  rewrite (Run_cons _ _ _ _ _ Hd). cbn [halts sr_Action Continue]. destruct (has_finalizer (w_obj w)) eqn:Hf; last first.
  { assert (∃ w', ensureFinalizerIsSet w = (Done Stop, w') ∧ w' = mkWorld (update_finalizers
        (λ fs, AddFinalizer fs PhysicalMeasurementFinalizer) (w_obj w)) (w_fs w) (w_api w))
      as (w' & He & ->) by (unfold ensureFinalizerIsSet; rewrite run_bind, run_the_obj, Hf; eauto).
    rewrite (Run_cons _ _ _ _ _ He). cbn [halts sr_Action Stop]. split; [|done]. exists (no_requeue, None). split; [done|]. unfold the_view. cbn [snd w_obj w_fs].
    rewrite Hf, has_finalizer_add, ready_finalizers, Hready. by apply pass_adopt. }
  destruct (live_run w Hdel Hf) as (w1 & (Hm1 & Hs1 & Ha1 & Hr1) & Hf1 & Hrun).
  unfold reconcile_steps in Hrun. rewrite (Run_cons _ _ _ _ _ Hd) in Hrun.
  cbn [halts sr_Action Continue] in Hrun. rewrite Hrun.
  assert (has_finalizer (w_obj w1) = true) as Hf'
    by (unfold has_finalizer in *; by rewrite Hm1).
  assert (∀ out, pass env (w_obj w) (dependency_of (w_api w) (w_obj w)) (the_view w) out
            (mkView true (files (w_fs w)) (Some ConditionUnknown)) →
          refines w (Done out, w1)) as Hstop.
  { intros out Hp. split; [|by cbn [snd]; unfold same_object; rewrite Hm1, Hs1].
    exists out. split; [done|]. cbn [snd].
    assert (the_view w1 = mkView true (files (w_fs w)) (Some ConditionUnknown)) as ->; [|done].
    unfold the_view. by rewrite Hf', Hf1, Hr1, Hready. }
  unfold the_view in Hstop. rewrite Hf, Hready in Hstop.
  destruct (dependency_of (w_api w) (w_obj w)) as [| |e] eqn:Hdep;
    [|by apply Hstop, pass_wait|by apply Hstop, pass_invalid].
  clear Hstop.
  destruct (reconcileTargetFile_publishes w1) as ((Hm2 & Hs2 & Ha2 & Hr2) & Hpub).
  destruct (reconcileTargetFile env w1) as [r2 w2] eqn:Ht. cbn [fst snd] in *.
  assert (same_object (w_obj w) (w_obj w2)) as Hobj
    by (unfold same_object; by rewrite Hm2, Hm1, Hs2, Hs1).
  assert (same_object (w_obj w) (w_obj w1)) as Hobj1
    by (unfold same_object; by rewrite Hm1, Hs1).
  destruct (same_object_target _ _ Hobj1) as (Hp & Hdata & _).
  rewrite Hp, Hdata in Hpub.
  destruct Hpub as [[-> Hw]|(e & -> & Hw)]; rewrite (Run_cons _ _ _ _ _ Ht);
    cbn [halts sr_Action sr_Err Continue StepError].
  - set (w3 := mkWorld (UpdateStatusCondition ConditionReady ConditionTrue ReasonReconciled
      "Reconciliation completed successfully" (w_obj w2)) (w_fs w2) (w_api w2)).
    assert (reconcileReady w2 = (Done Continue, w3)) as Hr by reflexivity.
    rewrite (Run_cons _ _ _ _ _ Hr). cbn [halts sr_Action Continue Run]. rewrite run_ret.
    split; [|split; [exact Hobj|cbn; congruence]]. exists (no_requeue, None). split; [done|].
    cbn [snd]. assert (the_view w3 = mkView true
      (<[target_path env (w_obj w) := target_data (w_obj w)]> (files (w_fs w))) (Some ConditionTrue)) as ->.
    { unfold the_view, w3. cbn [w_obj w_fs]. rewrite has_finalizer_update, Hw, Hf1.
      rewrite condition_status_update, decide_True by done.
      unfold has_finalizer in *. by rewrite Hm2, Hf'. }
    unfold the_view. rewrite Hf, Hready, Hdep. by apply pass_apply.
  - split; [|split; [exact Hobj|cbn; congruence]]. exists (no_requeue, Some e). split; [done|].
    cbn [snd]. assert (the_view w2 = mkView true (files (w_fs w)) (Some ConditionUnknown)) as ->.
    { unfold the_view. rewrite Hw, Hf1, Hr2, Hr1, Hready.
      unfold has_finalizer in *. by rewrite Hm2, Hf'. }
    unfold the_view. rewrite Hf, Hready, Hdep. by apply pass_apply_refused.
Qed.

(** A pass depends on the Ready condition it starts from in nothing. *)
Lemma run_steps_refines w :
  (∃ res, (run_steps (reconcile_steps env) w).1 = Done res ∧
    pass env (w_obj w) (dependency_of (w_api w) (w_obj w)) (the_view w) res
      (the_view (run_steps (reconcile_steps env) w).2)) ∧
  same_object (w_obj w) (w_obj (run_steps (reconcile_steps env) w).2) ∧
  w_api (run_steps (reconcile_steps env) w).2 = w_api w.
Proof.
  set (w1 := mkWorld (UpdateStatusCondition ConditionReady ConditionUnknown ReasonReconciling
    "Reconciliation is in progress" (w_obj w)) (w_fs w) (w_api w)).
  change (run_steps (reconcile_steps env) w) with (Run (reconcile_steps env) w1).
  assert (condition_status ConditionReady (w_obj w1) = Some ConditionUnknown) as Hr
    by (cbn [w1 w_obj]; by rewrite condition_status_update, decide_True).
  assert (refines w1 (Run (reconcile_steps env) w1)) as [(res & Hres & Hp) Hsame].
  { destruct (decide (DeletionTimestamp (pm_Meta (w_obj w1)) = None));
      [by apply live_refines|by apply deletion_refines]. }
  split; [|exact Hsame]. exists res. split; [done|].
  exact (pass_any env (w_obj w1) (w_obj w) _ _ _ _ (condition_status ConditionReady (w_obj w)) _ _
    eq_refl eq_refl eq_refl Hp).
Qed.
(** What a measurement left Ready is like. *)
Lemma ready_inv w w' res :
  run_steps (reconcile_steps env) w = (Done res, w') →
  condition_status ConditionReady (w_obj w') = Some ConditionTrue →
  res = (no_requeue, None) ∧
  DeletionTimestamp (pm_Meta (w_obj w')) = None ∧ has_finalizer (w_obj w') = true ∧
  dependency_of (w_api w') (w_obj w') = Dep_present ∧
  files (w_fs w') !! target_path env (w_obj w') = Some (target_data (w_obj w')).
Proof.
  intros Hrun Hready. destruct (run_steps_refines w) as ([r [Hr Hp]] & Hsame & Hapi).
  rewrite Hrun in Hr, Hp, Hsame, Hapi. cbn [fst snd] in *. simplify_eq.
  destruct (same_object_target _ _ Hsame) as (Hpath & Hdata & _ & Hdel & Hdep).
  rewrite Hpath, Hdata, Hdel, Hapi, Hdep.
  unfold the_view in Hp at 2. rewrite Hready in Hp.
  inversion Hp; subst. split_and!; try done. apply lookup_insert_eq.
Qed.

(** ** Paths *)

Lemma target_file_simple p :
  filepath.slash ∉ chars (pm_Name p) → filepath_facts.simple_elem (pm_Name p +:+ ".json").
Proof. intros Hn. apply filepath_facts.simple_ext; [done|compute_done|simpl; lia]. Qed.

Lemma subdir_simple p : filepath_facts.simple_elem (getTargetFileSubdir p).
Proof. unfold getTargetFileSubdir. case_decide; repeat split; compute_done. Qed.

(** The path tells the name and the subdirectory. *)
Lemma target_path_inj p q :
  filepath.slash ∉ chars (pm_Name p) → filepath.slash ∉ chars (pm_Name q) →
  target_path env p = target_path env q →
  pm_Name p = pm_Name q ∧ getTargetFileSubdir p = getTargetFileSubdir q.
Proof.
  intros Hp%target_file_simple Hq%target_file_simple E. unfold target_path in E.
  assert (getTargetFileSubdir p = getTargetFileSubdir q) as Hs.
  { destruct (decide (getTargetFileSubdir p = getTargetFileSubdir q)) as [|Hne]; [done|].
    exfalso. apply (Join_subdir_ne [VolumeLocation env; prometheusTargetsDir]
      _ _ _ _ ltac:(exists prometheusTargetsDir; split; [set_solver|done])
      (subdir_simple p) (subdir_simple q) Hp Hq Hne E). }
  split; [|done]. rewrite Hs in E.
  apply (Join_snoc_inj [VolumeLocation env; prometheusTargetsDir; getTargetFileSubdir q]) in E;
    [|exists prometheusTargetsDir; split; [set_solver|done]|done|done].
  by apply app_inj_suffix in E.
Qed.

(** With nothing refused, the target file is published. *)
Lemma reconcileTargetFile_accepted w :
  (∀ fs f, refuse_open fs f = None) → (∀ fs f, refuse_mkdir fs f = None) →
  (∀ f data fs, (renameio_WriteFile f data fs).1 = None) →
  (reconcileTargetFile env w).1 = Done Continue.
Proof.
  intros Ho Hm Hw.
  assert (∀ dir path data (w' : W), (writeTargetFile dir path data w').1 = Done Continue) as Hwrite.
  { intros dir path data w'. unfold writeTargetFile. rewrite run_bind, run_fs_call.
    assert (∀ d fs, (MkdirAll d fs).1 = None) as Hmk by (intros d fs; unfold MkdirAll; by rewrite Hm).
    rewrite Hmk. rewrite run_bind, run_fs_call. cbn [w_fs].
    assert (∀ fs, (WriteFileSDTargets path data fs).1 = None) as ->; [|done].
    intros fs. unfold WriteFileSDTargets, VolumeFileStore_Write. case_decide; [|apply Hw].
    specialize (Hmk (filepath.Dir (VolumeFileStore_Resolve "" [path])) fs).
    destruct (MkdirAll _ fs) as [[e|] fs']; [done|apply Hw]. }
  unfold reconcileTargetFile. rewrite run_bind, run_the_obj.
  change (MarshalFileSDTargets [CreateFileSDTarget (w_obj w)])
    with (@inr error string (target_data (w_obj w))).
  cbv zeta iota beta. rewrite run_bind, run_fs_call. unfold ReadFile. rewrite Ho.
  destruct (files (w_fs w) !! _); cbn [fst snd]; [case_decide|]; try apply Hwrite; try done.
Qed.

End Facts.

Section Properties.
Context {A : Type} `{UnicodeTables, MetaConditionsLaws, FinalizerUtilLaws, Os, RenameioLaws,
  Getter A PhysicalMeasurement, Getter A MeasurementDevice, Patcher A PhysicalMeasurement}.
Context (env : validatedEnv).
Abbreviation W := (World PhysicalMeasurement A).
Implicit Types (w : W) (p : PhysicalMeasurement).

(** C2: reconciling a stored measurement is one pass of the abstract
    controller: it never panics, answers what the pass answers (with the patch's
    error joined), hands to the patch an object with the same spec and metadata
    but finalizers, and leaves the files the pass leaves. *)
Theorem Reconcile_PhysicalMeasurement_refines ns name fs api p h :
  Get api ns name = inr p → NewHelper api p = inr h →
  ∃ res p' fs',
    pass env p (dependency_of api p)
      (mkView (has_finalizer p) (files fs) (condition_status ConditionReady p)) res
      (mkView (has_finalizer p') (files fs') (condition_status ConditionReady p')) ∧
    same_object p p' ∧
    Reconcile env ns name (fs, api) =
      (Done (res.1, match (Patch h p' api).1 with
                    | None => res.2
                    | Some err => Some (Join_errors res.2 err)
                    end), (fs', (Patch h p' api).2)).
Proof.
  intros Hget Hh. unfold Reconcile, reconcile_with. rewrite Hget, Hh.
  destruct (run_steps_refines env (mkWorld p fs api)) as ([res [Hres Hp]] & Hsame & Hapi).
  destruct (run_steps _ _) as [out w'] eqn:Hrun. simpl in *. subst out.
  exists res, (w_obj w'), (w_fs w'). split; [exact Hp|]. split; [exact Hsame|].
  rewrite Hapi. destruct res as [r e], (Patch h (w_obj w') api) as [[perr|] api']; done.
Qed.

(** Ready is truthful: when a pass leaves a measurement Ready, it is not
    being deleted, its finalizer is set, what it refers to exists, the pass
    reported no error, and its target file holds exactly the target of its
    spec. *)
Theorem PhysicalMeasurement_ready_truthful w w' res :
  run_steps (reconcile_steps env) w = (Done res, w') →
  condition_status ConditionReady (w_obj w') = Some ConditionTrue →
  res = (no_requeue, None) ∧
  DeletionTimestamp (pm_Meta (w_obj w')) = None ∧ has_finalizer (w_obj w') = true ∧
  dependency_of (w_api w') (w_obj w') = Dep_present ∧
  files (w_fs w') !! target_path env (w_obj w') = Some (target_data (w_obj w')).
Proof. apply ready_inv. Qed.

(** Reconciling is idempotent: once a pass has left a measurement Ready,
    another pass leaves every file as it is, whatever it is refused. *)
Theorem PhysicalMeasurement_idempotent w w1 res1 w2 res2 :
  run_steps (reconcile_steps env) w = (Done res1, w1) →
  condition_status ConditionReady (w_obj w1) = Some ConditionTrue →
  run_steps (reconcile_steps env) w1 = (Done res2, w2) →
  files (w_fs w2) = files (w_fs w1).
Proof.
  intros Hrun1 Hready Hrun2.
  destruct (ready_inv env w w1 res1 Hrun1 Hready) as (_ & Hdel & Hfin & Hdep & Hfile).
  destruct (run_steps_refines env w1) as ([r [Hr Hp]] & _ & _).
  rewrite Hrun2 in Hr, Hp. simpl in *. simplify_eq. unfold the_view in Hp. rewrite Hfin in Hp.
  inversion Hp; subst; try congruence. by rewrite insert_id.
Qed.

(** A pass is confined to one file, told apart by the measurement's name
    and kind: it leaves alone the target file of every measurement with another
    name or for another subdirectory. *)
Theorem PhysicalMeasurement_confined w w' res q :
  run_steps (reconcile_steps env) w = (Done res, w') →
  filepath.slash ∉ chars (pm_Name (w_obj w)) → filepath.slash ∉ chars (pm_Name q) →
  pm_Name q ≠ pm_Name (w_obj w) ∨ getTargetFileSubdir q ≠ getTargetFileSubdir (w_obj w) →
  files (w_fs w') !! target_path env q = files (w_fs w) !! target_path env q.
Proof.
  intros Hrun Hn Hq Hne.
  destruct (run_steps_refines env w) as ([r [Hr Hp]] & _ & _).
  rewrite Hrun in Hr, Hp. simpl in *. simplify_eq.
  assert (target_path env (w_obj w) ≠ target_path env q) as Hpath.
  { intros [? ?]%target_path_inj; [|done..]. destruct Hne; congruence. }
  inversion Hp; subst; by rewrite ?lookup_delete_ne, ?lookup_insert_ne.
Qed.

(** Reconciling succeeds when nothing is in its way: with a volume that
    refuses nothing and the device there, one pass over a measurement with its
    finalizer makes it Ready. *)
Theorem PhysicalMeasurement_converges w :
  (∀ fs f, refuse_open fs f = None) → (∀ fs f, refuse_mkdir fs f = None) →
  (∀ f data fs, (renameio_WriteFile f data fs).1 = None) →
  DeletionTimestamp (pm_Meta (w_obj w)) = None → has_finalizer (w_obj w) = true →
  dependency_of (w_api w) (w_obj w) = Dep_present →
  ∃ w', run_steps (reconcile_steps env) w = (Done (no_requeue, None), w') ∧
    condition_status ConditionReady (w_obj w') = Some ConditionTrue ∧
    files (w_fs w') = <[target_path env (w_obj w) := target_data (w_obj w)]> (files (w_fs w)).
Proof.
  intros Ho Hm Hw Hdel Hfin Hdep.
  set (w1 := mkWorld (UpdateStatusCondition ConditionReady ConditionUnknown ReasonReconciling
    "Reconciliation is in progress" (w_obj w)) (w_fs w) (w_api w)).
  assert ((run_steps (reconcile_steps env) w).1 = Done (no_requeue, None)) as Hres.
  { change (run_steps (reconcile_steps env) w) with (Run (reconcile_steps env) w1).
    destruct (live_run env w1 Hdel Hfin) as (w2 & _ & _ & ->).
    change (dependency_of (w_api w1) (w_obj w1)) with (dependency_of (w_api w) (w_obj w)).
    rewrite Hdep. pose proof (reconcileTargetFile_accepted env w2 Ho Hm Hw) as Ht.
    destruct (reconcileTargetFile env w2) as [r w3] eqn:E. cbn [fst] in Ht. subst r.
    rewrite (Run_cons _ _ _ _ _ E). reflexivity. }
  destruct (run_steps_refines env w) as ([r [Hr Hp]] & _ & _).
  rewrite Hres in Hr. simplify_eq. destruct (run_steps _ w) as [out w'] eqn:Hrun.
  cbn [fst snd] in *. subst out. exists w'. split; [done|].
  unfold the_view in Hp. rewrite Hfin, Hdep in Hp. inversion Hp; subst; try congruence. auto.
Qed.
End Properties.

(** ** Witnesses: a measurement of a device that exists *)
Import SimpleHelpers SimpleOs SimpleApi.

Definition sample_pm (name : string) : PhysicalMeasurement :=
  {| pm_Meta := mkObjectMeta name "dc" "u1" 1 None [PhysicalMeasurementFinalizer];
     pm_Spec := mkPhysicalMeasurementSpec "snmp" "10.0.0.7" "pdu" None;
     pm_Status := mkPhysicalMeasurementStatus 0 [] |}.
Definition sample_device : MeasurementDevice :=
  {| md_Meta := mkObjectMeta "pdu" "dc" "u2" 1 None [];
     md_Spec := mkMeasurementDeviceSpec ["1.3.6"] None;
     md_Status := mkMeasurementDeviceStatus 0 "" [] |}.
Definition sample_api : api :=
  mkApi ∅ {[("dc", "rack1") := sample_pm "rack1"]} {[("dc", "pdu") := sample_device]}.
Definition sample_world : World PhysicalMeasurement api :=
  mkWorld (sample_pm "rack1") empty_fs sample_api.
Definition sample_pass (w : World PhysicalMeasurement api) :
    outcome (Result * option error) * World PhysicalMeasurement api :=
  run_steps (reconcile_steps sample_env) w.
Definition sample_after : World PhysicalMeasurement api := (sample_pass sample_world).2.

Lemma Reconcile_PhysicalMeasurement_refines_witness :
  ∃ res p' fs',
    pass sample_env (sample_pm "rack1") Dep_present
      (mkView true ∅ None) res
      (mkView (has_finalizer p') (files fs') (condition_status ConditionReady p')) ∧
    same_object (sample_pm "rack1") p' ∧
    Reconcile sample_env "dc" "rack1" (empty_fs, sample_api) =
      (Done (res.1, match (Patch (Patcher := patch_pm) tt p' sample_api).1 with
                    | None => res.2
                    | Some err => Some (Join_errors res.2 err)
                    end), (fs', (Patch (Patcher := patch_pm) tt p' sample_api).2)).
Proof.
  exact (Reconcile_PhysicalMeasurement_refines sample_env "dc" "rack1" empty_fs sample_api
           (sample_pm "rack1") tt eq_refl eq_refl).
Defined.

Lemma PhysicalMeasurement_ready_truthful_witness :
  files (w_fs sample_after) !! target_path sample_env (w_obj sample_after) =
  Some (target_data (w_obj sample_after)).
Proof.
  refine (proj2 (proj2 (proj2 (proj2
    (PhysicalMeasurement_ready_truthful sample_env sample_world sample_after (no_requeue, None) _ _))))).
  - vm_compute. reflexivity.
  - vm_compute. reflexivity.
Defined.

Lemma PhysicalMeasurement_idempotent_witness :
  files (w_fs (sample_pass sample_after).2) = files (w_fs sample_after).
Proof.
  apply (PhysicalMeasurement_idempotent sample_env sample_world sample_after (no_requeue, None)
           (sample_pass sample_after).2 (no_requeue, None)).
  - vm_compute. reflexivity.
  - vm_compute. reflexivity.
  - vm_compute. reflexivity.
Defined.

Lemma PhysicalMeasurement_confined_witness :
  files (w_fs sample_after) !! target_path sample_env (sample_pm "rack2") =
  files (w_fs sample_world) !! target_path sample_env (sample_pm "rack2").
Proof.
  apply (PhysicalMeasurement_confined sample_env sample_world sample_after (no_requeue, None)).
  - vm_compute. reflexivity.
  - apply (bool_decide_unpack _). vm_compute. exact I.
  - apply (bool_decide_unpack _). vm_compute. exact I.
  - left. discriminate.
Defined.

Lemma PhysicalMeasurement_converges_witness :
  ∃ w', sample_pass sample_world = (Done (no_requeue, None), w') ∧
    condition_status ConditionReady (w_obj w') = Some ConditionTrue ∧
    files (w_fs w') = <[target_path sample_env (w_obj sample_world) := target_data (w_obj sample_world)]>
                        (files (w_fs sample_world)).
Proof. apply (PhysicalMeasurement_converges sample_env sample_world); reflexivity. Defined.
