(* ===== verification/DataCenterResourceController.v ===== *)
(** [internal/controller/datacenterresource_controller.go]: a data centre
    resource becomes a file of recording rules of Prometheus. *)
From S2P Require Import Prelude GoStd Errors Paths FileStore Selector Configuration.
From S2P Require Import ApiTypes Steps Cluster Validate Rules.

Definition prometheusRulesDir : string := "prometheus/rules".

(** ** What the controller calls *)

(** Lists in a namespace, of every resource or of those with a field's value; an
    error may come with a list.  The list of physical measurements, which the
    validation takes and does not look at, is left out. *)
Class DcrLister (A : Type) := {
  List_DCR : A → string → option (string * string) → list DataCenterResource * option error
}.

(** go.yaml.in/yaml on a rule file. *)
Class RuleYaml := { yaml_Marshal : RuleFile → error + string }.

(** The fields of url.URL the program sets. *)
Record URL := mkURL { url_Scheme : string; url_Host : string; url_Path : string }.

(** [http.Post] to a server that may read the volume: its status code. *)
Class HttpPost (A : Type) := { http_Post : URL → Fs → A → (error + Z) * A }.

Definition StatusOK : Z := 200.

(** ** Which resources a ConfigMap concerns *)
Definition configMapNameMatchesSelector (configMapName : string) (selector : option TemplateFrom) : bool :=
  match selector with
  | None => false
  | Some tf =>
      match ValueFrom (tf_Selector tf) with
      | None => false
      | Some src =>
          match ConfigMapKeyRef src with
          | None => false
          | Some ref => bool_decide (ref_Name ref = configMapName)
          end
      end
  end.

Definition dataCenterResourceReferencesConfigMap (d : DataCenterResource) (configMapName : string) : bool :=
  if configMapNameMatchesSelector configMapName (dcr_EnergyMetricFrom (dcr_Spec d)) then true
  else existsb (λ parent, configMapNameMatchesSelector configMapName (pr_CoefficientFrom parent))
         (dcr_Parents (dcr_Spec d)).

(** The requests, by namespace and name. *)
Definition dataCenterResourcesForConfigMap {A} `{DcrLister A} (api : A) (cmNamespace cmName : string) :
    list (string * string) :=
  match List_DCR api cmNamespace None with
  | (_, Some _) => []
  | (items, None) =>
      (λ d, (Namespace (dcr_Meta d), dcr_Name d)) <$>
        filter (λ d, dataCenterResourceReferencesConfigMap d cmName = true) items
  end.

(** ** Normalization *)
Definition literal_template (value : string) : TemplateFrom :=
  mkTemplateFrom (mkSelector value None) [].

Definition normalize_parent (parent : ParentRef) : ParentRef :=
  if decide (pr_Coefficient parent ≠ "") then
    mkParentRef (pr_Name parent) (pr_Coefficient parent) (Some (literal_template (pr_Coefficient parent)))
  else parent.

Definition normalizeDataCenterResource (d : DataCenterResource) : DataCenterResource :=
  let spec := dcr_Spec d in
  set_dcr_Spec
    (mkDataCenterResourceSpec (dcr_Type spec) (dcr_PhysicalMeasurements spec)
       (normalize_parent <$> dcr_Parents spec) (dcr_EnergyMetric spec)
       (if decide (dcr_EnergyMetric spec ≠ "") then Some (literal_template (dcr_EnergyMetric spec))
        else dcr_EnergyMetricFrom spec)
       (dcr_AdditionalLabels spec)) d.

(** ** Helpers *)
Definition validationFailureReason (err : error) : ConditionReason :=
  if As_ErrorResourceNotFound err then ReasonDependencyUnavailable else ReasonInvalidSpec.

(** The last resource of each name, in the order of [range]. *)
Definition mergeUnique `{MapOrder} (lists : list (list DataCenterResource)) : list DataCenterResource :=
  snd <$> range_map (foldl (λ m item, <[dcr_Name item := item]> m) ∅ (mjoin lists)).

Section Controller.
Context {A : Type} `{UnicodeTables, MetaConditions, FinalizerUtil, Os, MapOrder, LabelValidation, SortSlice}.
Context `{SelectorClient A, TextTemplate, DcrLister A, RuleYaml, HttpPost A}.
Context `{Getter A DataCenterResource, Patcher A DataCenterResource}.
(** config.ValidatedEnv. *)
Context (ValidatedEnv : validatedEnv).

Abbreviation W := (World DataCenterResource A).

Definition has_finalizer (d : DataCenterResource) : bool :=
  ContainsFinalizer (Finalizers (dcr_Meta d)) DataCenterResourceGraphFinalizer.
Definition update_finalizers (f : list string → list string) (d : DataCenterResource) :
    DataCenterResource :=
  set_dcr_Meta (set_Finalizers (f (Finalizers (dcr_Meta d))) (dcr_Meta d)) d.

Definition rule_path (d : DataCenterResource) : string :=
  filepath.Join [VolumeLocation ValidatedEnv; prometheusRulesDir; dcr_Name d +:+ ".yml"].

(** A file that is not there is deleted. *)
Definition deleteRuleFile (d : DataCenterResource) (fs : Fs) : option error * Fs :=
  match Remove (rule_path d) fs with
  | (Some err, fs') => if negb (os_IsNotExist err) then (Some err, fs') else (None, fs')
  | (None, fs') => (None, fs')
  end.

Definition prometheus_url : URL :=
  mkURL "http" (JoinHostPort (PrometheusServiceHost ValidatedEnv) (PrometheusServicePort ValidatedEnv))
    "/-/reload".

Definition reloadPrometheus : Go W (option error) :=
  w ← gets (λ w, w);
  r ← api_call (http_Post prometheus_url (w_fs w));
  match r with
  | inl err => mret (Some err)
  | inr status =>
      if decide (status ≠ StatusOK) then
        mret (Some (errorString ("prometheus reload returned status " +:+ strconv.FormatInt status)))
      else mret None
  end.

Definition reconcileDeletion : Go W StepResult :=
  d ← the_obj;
  if decide (DeletionTimestamp (dcr_Meta d) = None) then mret Continue
  else if negb (has_finalizer d) then mret Stop
  else
    derr ← fs_call (deleteRuleFile d);
    match derr with
    | Some err =>
        fail_step ConditionApplied ReasonCleanupFailed ("Error deleting rule file: " +:+ Error err) err
    | None =>
        rerr ← reloadPrometheus;
        match rerr with
        | Some err =>
            fail_step ConditionApplied ReasonReloadFailed ("Error reloading Prometheus: " +:+ Error err) err
        | None =>
            with_obj (update_finalizers (λ fs, RemoveFinalizer fs DataCenterResourceGraphFinalizer));;
            mret Stop
        end
    end.

Definition ensureFinalizerIsSet : Go W StepResult :=
  d ← the_obj;
  if has_finalizer d then mret Continue
  else
    with_obj (update_finalizers (λ fs, AddFinalizer fs DataCenterResourceGraphFinalizer));;
    mret Stop.

(** The errors of the patch are logged, and nothing else. *)
Definition clearReferencedValidation (referenced : DataCenterResource) : Go W unit :=
  d ← the_obj;
  if IsStatusConditionFalse (GetConditions referenced) (ConditionType_string ConditionValidated)
     || IsStatusConditionFalse (GetConditions d) (ConditionType_string ConditionValidated)
  then
    api ← the_api;
    match NewHelper api referenced with
    | inl _ => mret tt
    | inr patcher =>
        _ ← api_call (Patch patcher (set_dcr_InvolvedResource "" referenced));
        mret tt
    end
  else mret tt.

Fixpoint clear_all (items : list DataCenterResource) : Go W unit :=
  match items with
  | [] => mret tt
  | item :: rest => clearReferencedValidation item;; clear_all rest
  end.

(** The resources a valid one may have unblocked. *)
Definition referenced_items (api : A) (d : DataCenterResource) (visited : list DataCenterResource) :
    list DataCenterResource :=
  let ns := Namespace (dcr_Meta d) in
  let references := (List_DCR api ns (Some ("status.involvedResource", dcr_Name d))).1 in
  let children := (List_DCR api ns (Some ("spec.parents", dcr_Name d))).1 in
  let involved_name := dcr_InvolvedResource (dcr_Status d) in
  let visited' :=
    if decide (involved_name ≠ "") then
      visited ++ [match Get api ns involved_name with inr involved => involved | inl _ => zero_dcr end]
    else visited in
  mergeUnique [visited'; references; children].

(** The validation always answers, see [Validate_total]. *)
Definition reconcileValidation : Go W StepResult :=
  d ← the_obj;
  api ← the_api;
  let resources := (List_DCR api (Namespace (dcr_Meta d)) None).1 in
  match Validate d resources with
  | None => panic
  | Some (_, involvedResource, Some err) =>
      with_obj (set_dcr_InvolvedResource involvedResource);;
      fail_step ConditionValidated (validationFailureReason err) (Error err) err
  | Some (visited, _, None) =>
      clear_all (referenced_items api d visited);;
      with_obj (set_dcr_InvolvedResource "");;
      pass_step ConditionValidated ConditionTrue ReasonReconciled "Validation successful" Continue
  end.

(** The reload that ends both ways of applying. *)
Definition reload_applied (msg : string) : Go W StepResult :=
  rerr ← reloadPrometheus;
  match rerr with
  | Some err =>
      fail_step ConditionApplied ReasonReloadFailed ("Failed to reload Prometheus: " +:+ Error err) err
  | None => pass_step ConditionApplied ConditionTrue ReasonReconciled msg Continue
  end.

Definition write_rule_file (d : DataCenterResource) (ruleFile : RuleFile) : Go W StepResult :=
  let rulesDir := filepath.Join [VolumeLocation ValidatedEnv; prometheusRulesDir] in
  merr ← fs_call (MkdirAll rulesDir);
  match merr with
  | Some err =>
      fail_step ConditionApplied ReasonApplyFailed
        ("Failed to create directory " +:+ rulesDir +:+ ": " +:+ Error err) err
  | None =>
      match yaml_Marshal ruleFile with
      | inl err =>
          fail_step ConditionApplied ReasonApplyFailed ("Failed to marshal rule file: " +:+ Error err) err
      | inr data =>
          werr ← fs_call (WriteFile (filepath.Join [rulesDir; dcr_Name d +:+ ".yml"]) data);
          match werr with
          | Some err =>
              fail_step ConditionApplied ReasonApplyFailed ("Failed to write rule file: " +:+ Error err) err
          | None => reload_applied "Recording rule file applied successfully"
          end
      end
  end.

Definition reconcileWriteRuleFile : Go W StepResult :=
  d ← the_obj;
  api ← the_api;
  resolved ← lift_outcome (resolveExpressions api (Namespace (dcr_Meta d)) d);
  match resolved with
  | inl err =>
      fail_step ConditionApplied ReasonTemplateResolutionFailed
        ("Failed to resolve templates: " +:+ Error err) err
  | inr resolvedExpressions =>
      match BuildRuleFile (NewRuleBuilder d resolvedExpressions) with
      | None =>
          derr ← fs_call (deleteRuleFile d);
          match derr with
          | Some err =>
              fail_step ConditionApplied ReasonCleanupFailed
                ("Error deleting rule file: " +:+ Error err) err
          | None => reload_applied "No recording rule file required"
          end
      | Some ruleFile => write_rule_file d ruleFile
      end
  end.

Definition reconcileReady : Go W StepResult :=
  pass_step ConditionReady ConditionTrue ReasonReconciled "Fully reconciled and ready" Continue.

Definition reconcile_steps : list (Func W) :=
  [reconcileDeletion; ensureFinalizerIsSet; reconcileValidation; reconcileWriteRuleFile;
   reconcileReady].

Definition Reconcile (namespace name : string) (s : Fs * A) :
    outcome (Result * option error) * (Fs * A) :=
  reconcile_with normalizeDataCenterResource reconcile_steps namespace name s.
End Controller.

(** * Theorems *)

(** ** The controller, abstractly

    What a pass is about: the finalizer, the files and three conditions. *)
Record view := mkView {
  v_finalizer : bool;
  v_files : gmap string string;
  v_validated : option ConditionStatus;
  v_applied : option ConditionStatus;
  v_ready : option ConditionStatus
}.

(** The inputs of a pass: the verdict of the validation, and what the templates
    of a valid resource render to. *)
Record inputs := mkInputs {
  in_verdict : option error;
  in_rendered : outcome (error + ResolvedExpressions)
}.

Section Facts.
Context {A : Type} `{UnicodeTables, MetaConditionsLaws, FinalizerUtilLaws, Os, MapOrder, LabelValidation, SortSlice}.
Context `{SelectorClient A, TextTemplate, DcrLister A, RuleYaml, HttpPost A}.
Context `{Getter A DataCenterResource, Patcher A DataCenterResource}.
Context (env : validatedEnv).
Abbreviation W := (World DataCenterResource A).
Implicit Types (w : W) (d : DataCenterResource).

(** The bytes of the rule file for rendered expressions, or the error. *)
Definition rule_data d (e : ResolvedExpressions) : error + string :=
  yaml_Marshal (mkRuleFile [mkRuleGroup ("chantico_" +:+ SanitizeMetricName (dcr_Name d))
                              (BuildRecordingRules (NewRuleBuilder d e))]).

(** One pass over a resource.  A write the system cuts short leaves a prefix
    of the rules behind, and a refused reload comes after the write. *)
Inductive pass d (i : inputs) : view → outcome (Result * option error) → view → Prop :=
| pass_gone fs v a r :
    DeletionTimestamp (dcr_Meta d) ≠ None →
    pass d i (mkView false fs v a r) (Done (no_requeue, None)) (mkView false fs v a (Some ConditionUnknown))
| pass_cleanup fs v a r :
    DeletionTimestamp (dcr_Meta d) ≠ None →
    pass d i (mkView true fs v a r) (Done (no_requeue, None))
      (mkView false (delete (rule_path env d) fs) v a (Some ConditionUnknown))
| pass_cleanup_refused fs fs' v a r e :
    DeletionTimestamp (dcr_Meta d) ≠ None → fs' = fs ∨ fs' = delete (rule_path env d) fs →
    pass d i (mkView true fs v a r) (Done (no_requeue, Some e))
      (mkView true fs' v (Some ConditionFalse) (Some ConditionUnknown))
| pass_adopt fs v a r :
    DeletionTimestamp (dcr_Meta d) = None →
    pass d i (mkView false fs v a r) (Done (no_requeue, None)) (mkView true fs v a (Some ConditionUnknown))
| pass_invalid fs v a r e :
    DeletionTimestamp (dcr_Meta d) = None → in_verdict i = Some e →
    pass d i (mkView true fs v a r) (Done (no_requeue, Some e))
      (mkView true fs (Some ConditionFalse) a (Some ConditionUnknown))
| pass_panic fs v a r :
    DeletionTimestamp (dcr_Meta d) = None → in_verdict i = None → in_rendered i = Panicked →
    pass d i (mkView true fs v a r) Panicked
      (mkView true fs (Some ConditionTrue) a (Some ConditionUnknown))
| pass_unrendered fs v a r e :
    DeletionTimestamp (dcr_Meta d) = None → in_verdict i = None → in_rendered i = Done (inl e) →
    pass d i (mkView true fs v a r) (Done (no_requeue, Some e))
      (mkView true fs (Some ConditionTrue) (Some ConditionFalse) (Some ConditionUnknown))
| pass_refused fs fs' v a r ex e :
    DeletionTimestamp (dcr_Meta d) = None → in_verdict i = None → in_rendered i = Done (inr ex) →
    fs' = fs ∨ (∃ data n, rule_data d ex = inr data ∧ fs' = <[rule_path env d := take_bytes n data]> fs) ∨
      (∃ data, rule_data d ex = inr data ∧ fs' = <[rule_path env d := data]> fs) →
    pass d i (mkView true fs v a r) (Done (no_requeue, Some e))
      (mkView true fs' (Some ConditionTrue) (Some ConditionFalse) (Some ConditionUnknown))
| pass_apply fs v a r ex data :
    DeletionTimestamp (dcr_Meta d) = None → in_verdict i = None → in_rendered i = Done (inr ex) →
    rule_data d ex = inr data →
    pass d i (mkView true fs v a r) (Done (no_requeue, None))
      (mkView true (<[rule_path env d := data]> fs)
         (Some ConditionTrue) (Some ConditionTrue) (Some ConditionTrue)).

Definition the_view w : view :=
  mkView (has_finalizer (w_obj w)) (files (w_fs w))
    (condition_status ConditionValidated (w_obj w))
    (condition_status ConditionApplied (w_obj w))
    (condition_status ConditionReady (w_obj w)).

(** The last thing done to the API is a reload that Prometheus acknowledged,
    on a volume with the files as they are now. *)
Definition acknowledged w : Prop :=
  ∃ fs0 api0, files fs0 = files (w_fs w) ∧
    http_Post (prometheus_url env) fs0 api0 = (inr StatusOK, w_api w).

(** ** Paths *)

Lemma rule_path_clean d : filepath.Clean (rule_path env d) = rule_path env d.
Proof.
  apply Clean_Join, Join_ne. exists prometheusRulesDir. split; [set_solver|done].
Qed.

Lemma rule_path_dir d :
  filepath.Join [filepath.Join [VolumeLocation env; prometheusRulesDir]; dcr_Name d +:+ ".yml"] =
  rule_path env d.
Proof. rewrite Join_Join; [done|]. exists prometheusRulesDir. split; [set_solver|done]. Qed.

Lemma rule_path_inj d1 d2 :
  filepath.slash ∉ chars (dcr_Name d1) → filepath.slash ∉ chars (dcr_Name d2) →
  rule_path env d1 = rule_path env d2 → dcr_Name d1 = dcr_Name d2.
Proof.
  intros H1' H2' E.
  apply (Join_snoc_inj [VolumeLocation env; prometheusRulesDir]) in E.
  - by apply app_inj_suffix in E.
  - exists prometheusRulesDir. split; [set_solver|done].
  - apply filepath_facts.simple_ext; [done|compute_done|simpl; lia].
  - apply filepath_facts.simple_ext; [done|compute_done|simpl; lia].
Qed.

Lemma deleteRuleFile_inv d fs r fs' :
  deleteRuleFile env d fs = (r, fs') →
  match r with
  | None => files fs' = delete (rule_path env d) (files fs)
  | Some _ => files fs' = files fs
  end.
Proof.
  unfold deleteRuleFile. destruct (Remove (rule_path env d) fs) as [q fs1] eqn:Hr.
  apply Remove_clean_inv in Hr; [|apply rule_path_clean].
  destruct q as [e|]; [|by intros; simplify_eq].
  destruct Hr as (Hfs & Hmiss & _). unfold os_IsNotExist.
  destruct (is_not_exist e); intros; simplify_eq/=; [|done]. by rewrite delete_id by auto.
Qed.

(** ** The reload *)

Lemma reloadPrometheus_spec w :
  ∃ r w', reloadPrometheus env w = (Done r, w') ∧ w_obj w' = w_obj w ∧ w_fs w' = w_fs w ∧
    (r = None → acknowledged w').
Proof.
  unfold reloadPrometheus. rewrite run_bind, run_gets. cbv beta. rewrite run_bind, run_api_call.
  destruct (http_Post _ _ (w_api w)) as [[e|status] api'] eqn:Hp; cbn [fst snd].
  - eexists _, _. by split_and!.
  - case_decide as Hs; eexists _, _; (split_and!; [reflexivity|done|done|]); [done|].
    intros _. exists (w_fs w), (w_api w). split; [done|]. by rewrite Hp, Hs.
Qed.
(** ** Conditions and views *)

Definition set_view (t : ConditionType) (s : ConditionStatus) (v : view) : view :=
  match t with
  | ConditionValidated => mkView (v_finalizer v) (v_files v) (Some s) (v_applied v) (v_ready v)
  | ConditionApplied => mkView (v_finalizer v) (v_files v) (v_validated v) (Some s) (v_ready v)
  | ConditionReady => mkView (v_finalizer v) (v_files v) (v_validated v) (v_applied v) (Some s)
  | ConditionGenerated => v
  end.

Lemma the_view_cond t s r msg d fs api :
  the_view (mkWorld (UpdateStatusCondition t s r msg d) fs api) =
  set_view t s (the_view (mkWorld d fs api)).
Proof.
  unfold the_view. cbn [w_obj w_fs]. rewrite !condition_status_update.
  by destruct t.
Qed.

(** The spec and the metadata but the finalizers are those of [d]. *)
Definition same_object d d' : Prop :=
  dcr_Spec d' = dcr_Spec d ∧
  set_Finalizers [] (dcr_Meta d') = set_Finalizers [] (dcr_Meta d).

Lemma same_object_refl d : same_object d d.
Proof. done. Qed.

Lemma same_object_trans d1 d2 d3 : same_object d1 d2 → same_object d2 d3 → same_object d1 d3.
Proof. unfold same_object. intros [? ?] [? ?]. split; congruence. Qed.

(** What the files and the validation depend on is the same. *)
Lemma same_object_name d d' :
  same_object d d' →
  dcr_Name d' = dcr_Name d ∧ Namespace (dcr_Meta d') = Namespace (dcr_Meta d) ∧
  DeletionTimestamp (dcr_Meta d') = DeletionTimestamp (dcr_Meta d).
Proof. intros [_ Hm]. unfold set_Finalizers, dcr_Name in *. by simplify_eq. Qed.

Lemma same_object_rules d d' e :
  same_object d d' → rule_data d' e = rule_data d e ∧ rule_path env d' = rule_path env d.
Proof.
  intros Hsame. destruct (same_object_name _ _ Hsame) as (Hn & _). destruct Hsame as [Hs _].
  unfold rule_data, rule_path, BuildRecordingRules, BuildEnergyAliasRule, BuildCoefficientRules,
    BuildEnergyRule, coefficient_rule, energy_expr, buildSharedLabels, constructParentNamesLabel.
  cbn [rb_resource rb_expressions]. by rewrite Hn, Hs.
Qed.

Lemma same_object_resolve (api : A) d d' ns :
  same_object d d' → resolveExpressions api ns d' = resolveExpressions api ns d.
Proof.
  intros [Hs _]. unfold resolveExpressions, resolveEnergyMetric, resolveParentExpressions. by rewrite Hs.
Qed.

(** ** The steps *)

(** A step that answers [res], with the object and the view it leaves. *)
Definition does w (q : outcome StepResult * W) (res : StepResult) (v : view) : Prop :=
  q.1 = Done res ∧ same_object (w_obj w) (w_obj q.2) ∧ the_view q.2 = v.

Lemma condition_does t s r msg res w d fs api :
  same_object (w_obj w) d →
  does w (pass_step t s r msg res (mkWorld d fs api)) res (set_view t s (the_view (mkWorld d fs api))).
Proof. intros Hd. split; [done|]. split; [exact Hd|]. apply the_view_cond. Qed.

Lemma clear_all_spec items w :
  ∃ api, clear_all items w = (Done tt, mkWorld (w_obj w) (w_fs w) api).
Proof.
  revert w. induction items as [|item items IH]; intros w; simpl.
  { exists (w_api w). by destruct w. }
  assert (∃ api, clearReferencedValidation item w = (Done tt, mkWorld (w_obj w) (w_fs w) api))
    as [api Hc].
  { unfold clearReferencedValidation. rewrite run_bind, run_the_obj.
    destruct (_ || _); [|by exists (w_api w); destruct w].
    rewrite run_bind. unfold the_api. rewrite run_gets.
    destruct (NewHelper (w_api w) item) as [e|h]; [by exists (w_api w); destruct w|].
    rewrite run_bind, run_api_call. eauto. }
  rewrite (run_bind_done _ _ _ _ _ Hc).
  destruct (IH (mkWorld (w_obj w) (w_fs w) api)) as [api' ->]. by exists api'.
Qed.

Definition verdict_of (api : A) d : option error :=
  match Validate d (List_DCR api (Namespace (dcr_Meta d)) None).1 with
  | Some (_, _, err) => err
  | None => None
  end.

Lemma dcr_reconcileValidation_spec w :
  let q := reconcileValidation w in
  match verdict_of (w_api w) (w_obj w) with
  | Some e => does w q (StepError e) (set_view ConditionValidated ConditionFalse (the_view w))
  | None => does w q Continue (set_view ConditionValidated ConditionTrue (the_view w))
  end.
Proof.
  cbv zeta. unfold reconcileValidation, verdict_of. rewrite run_bind, run_the_obj, run_bind.
  unfold the_api. rewrite run_gets. cbv zeta.
  destruct (Validate_total (w_obj w) (List_DCR (w_api w) (Namespace (dcr_Meta (w_obj w))) None).1)
    as [[[visited involved] [e|]] ->].
  - rewrite run_bind, run_with_obj.
    apply (condition_does ConditionValidated ConditionFalse _ _ (StepError e) w
             (set_dcr_InvolvedResource involved (w_obj w)) (w_fs w) (w_api w)). done.
  - destruct (clear_all_spec (referenced_items (w_api w) (w_obj w) visited) w) as [api Hc].
    rewrite (run_bind_done _ _ _ _ _ Hc), run_bind, run_with_obj.
    by apply (condition_does ConditionValidated ConditionTrue _ _ Continue w
             (set_dcr_InvolvedResource "" (w_obj w)) (w_fs w) api).
Qed.

(** A step that publishes the data at the path: it goes on, with Prometheus
    having acknowledged the file, or fails with the file untouched, cut short, or
    written and not acknowledged. *)
Definition applied (path : string) (rendered : error + string) w (q : outcome StepResult * W) : Prop :=
  (∃ data, rendered = inr data ∧ acknowledged q.2 ∧
     does w q Continue (set_view ConditionApplied ConditionTrue
       (mkView (v_finalizer (the_view w)) (<[path := data]> (files (w_fs w)))
          (v_validated (the_view w)) (v_applied (the_view w)) (v_ready (the_view w))))) ∨
  (∃ e fs', (fs' = files (w_fs w) ∨
       (∃ data n, rendered = inr data ∧ fs' = <[path := take_bytes n data]> (files (w_fs w))) ∨
       (∃ data, rendered = inr data ∧ fs' = <[path := data]> (files (w_fs w)))) ∧
     does w q (StepError e) (set_view ConditionApplied ConditionFalse
       (mkView (v_finalizer (the_view w)) fs'
          (v_validated (the_view w)) (v_applied (the_view w)) (v_ready (the_view w))))).

Lemma WriteFile_inv path data fs r fs' :
  filepath.Clean path = path → WriteFile path data fs = (r, fs') →
  match r with
  | None => files fs' = <[path := data]> (files fs)
  | Some _ => files fs' = files fs ∨ ∃ n, files fs' = <[path := take_bytes n data]> (files fs)
  end.
Proof.
  intros Hp. unfold WriteFile. rewrite Hp. repeat case_match; intros; simplify_eq/=; eauto.
Qed.

(** The error message of a failed step does not matter. *)
Lemma fail_applied w d fs api reason msg e path rendered :
  same_object (w_obj w) d → the_view (mkWorld d fs api) = mkView (v_finalizer (the_view w)) (files fs)
    (v_validated (the_view w)) (v_applied (the_view w)) (v_ready (the_view w)) →
  (files fs = files (w_fs w) ∨
   (∃ data n, rendered = inr data ∧ files fs = <[path := take_bytes n data]> (files (w_fs w))) ∨
   (∃ data, rendered = inr data ∧ files fs = <[path := data]> (files (w_fs w)))) →
  applied path rendered w (fail_step ConditionApplied reason msg e (mkWorld d fs api)).
Proof.
  intros Hd Hv Hfs. right. exists e, (files fs). split; [done|]. rewrite <-Hv.
  by apply (condition_does ConditionApplied ConditionFalse reason msg (StepError e)).
Qed.

Lemma write_rule_file_applied w rf :
  applied (rule_path env (w_obj w)) (yaml_Marshal rf) w (write_rule_file env (w_obj w) rf w).
Proof.
  unfold write_rule_file. cbv zeta. rewrite run_bind, run_fs_call.
  pose proof (MkdirAll_files (filepath.Join [VolumeLocation env; prometheusRulesDir]) (w_fs w)) as Hm.
  destruct (MkdirAll _ (w_fs w)) as [[e|] fs1]; cbn [fst snd] in *.
  { apply fail_applied; [done|done|by left]. }
  destruct (yaml_Marshal rf) as [e|data].
  { apply fail_applied; [done|done|by left]. }
  rewrite rule_path_dir, run_bind, run_fs_call. cbn [w_fs w_obj w_api].
  destruct (WriteFile _ data fs1) as [r fs2] eqn:Hw.
  apply WriteFile_inv in Hw; [|apply rule_path_clean]. cbn [fst snd].
  destruct r as [e|].
  { apply fail_applied; [done|done|]. destruct Hw as [Hw|[n Hw]]; [left; congruence|].
    right; left. exists data, n. by rewrite Hw, Hm. }
  unfold reload_applied. rewrite run_bind.
  destruct (reloadPrometheus_spec (mkWorld (w_obj w) fs2 (w_api w))) as (q & w3 & -> & Hobj & Hfs & Hack).
  destruct w3 as [d3 fs3 api3]. cbn [w_obj w_fs] in *. subst d3 fs3.
  destruct q as [e|].
  { apply fail_applied; [done|done|]. right; right. exists data. by rewrite Hw, Hm. }
  left. exists data. split; [done|]. split.
  - destruct (Hack eq_refl) as (fs0 & api0 & ? & ?). exists fs0, api0. done.
  - rewrite <-Hm, <-Hw. by apply (condition_does ConditionApplied ConditionTrue _ _ Continue).
Qed.

Lemma reconcileWriteRuleFile_spec w :
  match resolveExpressions (w_api w) (Namespace (dcr_Meta (w_obj w))) (w_obj w) with
  | Panicked => reconcileWriteRuleFile env w = (Panicked, w)
  | Done (inl e) =>
      does w (reconcileWriteRuleFile env w) (StepError e) (set_view ConditionApplied ConditionFalse (the_view w))
  | Done (inr ex) =>
      applied (rule_path env (w_obj w)) (rule_data (w_obj w) ex) w (reconcileWriteRuleFile env w)
  end.
Proof.
  unfold reconcileWriteRuleFile. rewrite run_bind, run_the_obj, run_bind. unfold the_api.
  rewrite run_gets, run_bind. unfold lift_outcome.
  destruct (resolveExpressions (w_api w) _ (w_obj w)) as [[e|ex]|]; [| |done].
  - destruct w as [d fs api]. by apply (condition_does ConditionApplied ConditionFalse _ _ (StepError e)).
  - rewrite (proj1 (BuildRuleFile_some (NewRuleBuilder (w_obj w) ex))).
    apply write_rule_file_applied.
Qed.

(** ** The pass *)

Lemma run_does w step rest res v :
  does w (step w) res v →
  Run (step :: rest) w =
  match halts res with Some out => (Done out, (step w).2) | None => Run rest (step w).2 end.
Proof. intros (Hs & _ & _). apply Run_cons. rewrite <-Hs. by destruct (step w). Qed.

(** What a pass has to go by: the templates are read after the validation. *)
Definition inputs_of w : inputs :=
  mkInputs (verdict_of (w_api w) (w_obj w))
    (resolveExpressions (w_api (reconcileValidation w).2) (Namespace (dcr_Meta (w_obj w))) (w_obj w)).

Definition refines w (i : inputs) (q : outcome (Result * option error) * W) : Prop :=
  same_object (w_obj w) (w_obj q.2) ∧
  (q.1 = Done (no_requeue, None) →
   v_ready (the_view q.2) = Some ConditionTrue ∨
     (v_finalizer (the_view w) = true ∧ v_finalizer (the_view q.2) = false) → acknowledged q.2) ∧
  pass (w_obj w) i (the_view w) q.1 (the_view q.2).

Lemma refines_intro w i out w' :
  same_object (w_obj w) (w_obj w') →
  (out = Done (no_requeue, None) →
   v_ready (the_view w') = Some ConditionTrue ∨
     (v_finalizer (the_view w) = true ∧ v_finalizer (the_view w') = false) → acknowledged w') →
  pass (w_obj w) i (the_view w) out (the_view w') → refines w i (out, w').
Proof. done. Qed.

Lemma dcr_has_finalizer_add d :
  has_finalizer (update_finalizers (λ fs, AddFinalizer fs DataCenterResourceGraphFinalizer) d) = true.
Proof. apply contains_finalizer, elem_of_add_finalizer. by right. Qed.

Lemma dcr_has_finalizer_remove d :
  has_finalizer (update_finalizers (λ fs, RemoveFinalizer fs DataCenterResourceGraphFinalizer) d) = false.
Proof.
  apply not_true_is_false. unfold has_finalizer, update_finalizers. simpl.
  rewrite contains_finalizer, elem_of_remove_finalizer. naive_solver.
Qed.

(** The view when the finalizers change. *)
Lemma the_view_finalizers f w fs api :
  the_view (mkWorld (update_finalizers f (w_obj w)) fs api) =
  mkView (has_finalizer (update_finalizers f (w_obj w))) (files fs)
    (v_validated (the_view w)) (v_applied (the_view w)) (v_ready (the_view w)).
Proof. reflexivity. Qed.

Lemma halts_run w step rest res w' out :
  step w = (Done res, w') → halts res = Some out → Run (step :: rest) w = (Done out, w').
Proof. intros Hs Ho. by rewrite (Run_cons _ _ _ _ _ Hs), Ho. Qed.

Lemma dcr_deletion_refines w :
  DeletionTimestamp (dcr_Meta (w_obj w)) ≠ None → v_ready (the_view w) = Some ConditionUnknown →
  refines w (inputs_of w) (Run (reconcile_steps env) w).
Proof.
  intros Hdel Hr.
  assert (∀ res w' out, reconcileDeletion env w = (Done res, w') → halts res = Some out →
    refines w (inputs_of w) (Done out, w') → refines w (inputs_of w) (Run (reconcile_steps env) w)) as Hrun.
  { intros res w' out Hs Ho. unfold reconcile_steps. by rewrite (halts_run _ _ _ _ _ _ Hs Ho). }
  unfold reconcileDeletion in Hrun. rewrite run_bind, run_the_obj, decide_False in Hrun by done.
  unfold the_view in Hr. cbn [v_ready] in Hr.
  destruct (has_finalizer (w_obj w)) eqn:Hf; cbn [negb] in Hrun; last first.
  { eapply Hrun; [done..|]. apply refines_intro; [done| |].
    - intros _ [Hv|[Hv _]]; unfold the_view in Hv; cbn [v_ready v_finalizer] in Hv; congruence.
    - unfold the_view. rewrite Hf, Hr. by apply pass_gone. }
  rewrite run_bind, run_fs_call in Hrun.
  destruct (deleteRuleFile env (w_obj w) (w_fs w)) as [r fs1] eqn:Hd.
  apply deleteRuleFile_inv in Hd. cbn [fst snd] in Hrun.
  assert (∀ reason msg e fs' api,
    files fs' = files (w_fs w) ∨ files fs' = delete (rule_path env (w_obj w)) (files (w_fs w)) →
    refines w (inputs_of w) (Done (no_requeue, Some e), mkWorld (UpdateStatusCondition ConditionApplied ConditionFalse
      reason msg (w_obj w)) fs' api)) as Hfail.
  { intros reason msg e fs' api Hfs. apply refines_intro; [done|done|].
    rewrite the_view_cond. unfold the_view, set_view. cbn [v_finalizer v_files v_validated v_ready w_obj w_fs].
    rewrite Hf, Hr. by apply pass_cleanup_refused. }
  destruct r as [e|].
  { eapply Hrun; [reflexivity|done|]. apply Hfail. by left. }
  rewrite run_bind in Hrun.
  destruct (reloadPrometheus_spec (mkWorld (w_obj w) fs1 (w_api w))) as (q & w3 & Hq & Hobj & Hfs & Hack).
  rewrite Hq in Hrun. destruct w3 as [d3 fs3 api3]. cbn [w_obj w_fs] in *. subst d3 fs3.
  destruct q as [e|].
  { eapply Hrun; [reflexivity|done|]. apply Hfail. by right. }
  eapply Hrun; [reflexivity|done|]. cbn [sr_Action]. apply refines_intro; [done| |].
  - intros _ _. destruct (Hack eq_refl) as (fs0 & api0 & ? & ?). by exists fs0, api0.
  - cbn [w_obj w_fs w_api]. rewrite the_view_finalizers, dcr_has_finalizer_remove, Hd. unfold the_view.
    cbn [v_validated v_applied v_ready]. rewrite Hf, Hr. by apply pass_cleanup.
Qed.

(** The steps up to the rule file, over a live resource with its finalizer. *)
Lemma dcr_live_run w :
  DeletionTimestamp (dcr_Meta (w_obj w)) = None → has_finalizer (w_obj w) = true →
  Run (reconcile_steps env) w =
  match verdict_of (w_api w) (w_obj w) with
  | Some e => (Done (no_requeue, Some e), (reconcileValidation w).2)
  | None => Run [reconcileWriteRuleFile env; reconcileReady] (reconcileValidation w).2
  end.
Proof.
  intros Hdel Hf. unfold reconcile_steps.
  assert (reconcileDeletion env w = (Done Continue, w)) as Hd
    by (unfold reconcileDeletion; by rewrite run_bind, run_the_obj, decide_True).
  rewrite (Run_cons _ _ _ _ _ Hd). cbn [halts sr_Action Continue].
  assert (ensureFinalizerIsSet w = (Done Continue, w)) as He
    by (unfold ensureFinalizerIsSet; by rewrite run_bind, run_the_obj, Hf).
  rewrite (Run_cons _ _ _ _ _ He). cbn [halts sr_Action Continue].
  pose proof (dcr_reconcileValidation_spec w) as Hv. cbv zeta in Hv.
  destruct (verdict_of (w_api w) (w_obj w)); by rewrite (run_does _ _ _ _ _ Hv).
Qed.

(** The rule file and the Ready condition, over a resource found valid. *)
Lemma write_refines w w2 :
  DeletionTimestamp (dcr_Meta (w_obj w)) = None → verdict_of (w_api w) (w_obj w) = None →
  has_finalizer (w_obj w) = true → v_ready (the_view w) = Some ConditionUnknown →
  same_object (w_obj w) (w_obj w2) → the_view w2 = set_view ConditionValidated ConditionTrue (the_view w) →
  refines w (mkInputs None (resolveExpressions (w_api w2) (Namespace (dcr_Meta (w_obj w))) (w_obj w)))
    (Run [reconcileWriteRuleFile env; reconcileReady] w2).
Proof.
  intros Hdel Hval Hf Hr Hsame Hview.
  pose proof (reconcileWriteRuleFile_spec w2) as Hspec.
  destruct (same_object_name _ _ Hsame) as (_ & Hns & _).
  rewrite Hns, (same_object_resolve _ _ _ _ Hsame) in Hspec.
  assert (the_view w = mkView true (files (w_fs w)) (v_validated (the_view w)) (v_applied (the_view w))
    (Some ConditionUnknown)) as Hw by (unfold the_view in *; cbn in *; by rewrite Hf, Hr).
  rewrite Hw in Hview. unfold set_view in Hview. cbn in Hview.
  assert (files (w_fs w2) = files (w_fs w)) as Hfiles by exact (f_equal v_files Hview).
  destruct (resolveExpressions (w_api w2) _ (w_obj w)) as [[e|ex]|].
  - rewrite (run_does _ _ _ _ _ Hspec). destruct Hspec as (_ & Ho & Hv). cbn [halts sr_Action StepError sr_Err].
    rewrite Hview in Hv. unfold set_view in Hv. cbn in Hv.
    apply refines_intro; [by eapply same_object_trans|done|]. rewrite Hw, Hv. by apply pass_unrendered.
  - destruct (same_object_rules _ _ ex Hsame) as [Hdata Hpath]. rewrite Hdata, Hpath in Hspec.
    destruct Hspec as [(data & Hd & Hack & Hdoes)|(e & fs' & Hfs & Hdoes)];
      rewrite (run_does _ _ _ _ _ Hdoes); destruct Hdoes as (_ & Ho & Hv);
      rewrite Hview in Hv; unfold set_view in Hv; cbn in Hv.
    + destruct (reconcileWriteRuleFile env w2) as [q [d3 fs3 api3]]. cbn [snd] in *.
      cbn [halts sr_Action Continue].
      change (Run [reconcileReady] (mkWorld d3 fs3 api3)) with
        (Done (no_requeue, @None error), mkWorld (UpdateStatusCondition ConditionReady ConditionTrue
          ReasonReconciled "Fully reconciled and ready" d3) fs3 api3).
      apply refines_intro; [by eapply same_object_trans|intros _ _; exact Hack|].
      rewrite Hw, the_view_cond, Hv, Hfiles. by eapply pass_apply.
    + cbn [halts sr_Action StepError sr_Err].
      apply refines_intro; [by eapply same_object_trans|done|].
      rewrite Hw, Hv. eapply pass_refused; [done..|]. by rewrite <-Hfiles.
  - rewrite (Run_panic _ _ _ _ Hspec).
    apply refines_intro; [done|done|]. rewrite Hw, Hview. by apply pass_panic.
Qed.

(** With nothing refused, the rule file is published. *)
Lemma reconcileWriteRuleFile_accepted w ex data :
  (∀ fs p, refuse_mkdir fs p = None) → (∀ fs p c, refuse_write fs p c = None) →
  (∀ url fs api, (http_Post url fs api : (error + Z) * A).1 = inr StatusOK) →
  resolveExpressions (w_api w) (Namespace (dcr_Meta (w_obj w))) (w_obj w) = Done (inr ex) →
  rule_data (w_obj w) ex = inr data →
  (reconcileWriteRuleFile env w).1 = Done Continue.
Proof.
  intros Hm Hw Hpost Hren Hdata. unfold reconcileWriteRuleFile.
  rewrite run_bind, run_the_obj, run_bind. unfold the_api. rewrite run_gets, run_bind.
  unfold lift_outcome. rewrite Hren.
  rewrite (proj1 (BuildRuleFile_some (NewRuleBuilder (w_obj w) ex))).
  unfold write_rule_file. cbv zeta. rewrite run_bind, run_fs_call.
  unfold MkdirAll. rewrite Hm. cbn [fst snd]. cbn [rb_resource]. unfold rule_data in Hdata. rewrite Hdata.
  rewrite run_bind, run_fs_call. unfold WriteFile. rewrite Hw. cbn [fst snd].
  unfold reload_applied, reloadPrometheus. rewrite run_bind, run_bind, run_gets. cbv beta.
  rewrite run_bind, run_api_call, Hpost. by rewrite decide_False by (intros Hne; by apply Hne).
Qed.

Lemma dcr_live_refines w :
  DeletionTimestamp (dcr_Meta (w_obj w)) = None → v_ready (the_view w) = Some ConditionUnknown →
  refines w (inputs_of w) (Run (reconcile_steps env) w).
Proof.
  intros Hdel Hr.
  assert (∀ fin, has_finalizer (w_obj w) = fin → the_view w = mkView fin (files (w_fs w))
    (v_validated (the_view w)) (v_applied (the_view w)) (Some ConditionUnknown)) as Hw
    by (intros fin <-; rewrite <-Hr; reflexivity).
  destruct (has_finalizer (w_obj w)) eqn:Hf; specialize (Hw _ eq_refl); last first.
  { assert (reconcileDeletion env w = (Done Continue, w)) as Hd
      by (unfold reconcileDeletion; by rewrite run_bind, run_the_obj, decide_True).
    unfold reconcile_steps. rewrite (Run_cons _ _ _ _ _ Hd). cbn [halts sr_Action Continue].
    assert (∃ w', ensureFinalizerIsSet w = (Done Stop, w') ∧ w' = mkWorld (update_finalizers
        (λ fs, AddFinalizer fs DataCenterResourceGraphFinalizer) (w_obj w)) (w_fs w) (w_api w))
      as (w' & He & ->) by (unfold ensureFinalizerIsSet; rewrite run_bind, run_the_obj, Hf; eauto).
    rewrite (halts_run _ _ _ _ _ _ He eq_refl).
    apply refines_intro; [done| |].
    - intros _ [Hv|[Hv _]]; [|by rewrite Hw in Hv]. rewrite the_view_finalizers, Hr in Hv. done.
    - rewrite the_view_finalizers, dcr_has_finalizer_add, Hr, Hw. by apply pass_adopt. }
  rewrite dcr_live_run by done. pose proof (dcr_reconcileValidation_spec w) as Hv. cbv zeta in Hv.
  destruct (verdict_of (w_api w) (w_obj w)) as [e|] eqn:Hval; destruct Hv as (_ & Ho & Hv).
  - apply refines_intro; [exact Ho|done|]. rewrite Hv, Hw. unfold set_view. cbn.
    apply pass_invalid; [done|]. exact Hval.
  - unfold inputs_of. rewrite Hval. by apply write_refines.
Qed.

(** A pass does not depend on the Ready condition it starts from. *)
Lemma dcr_pass_any d d' i fin fs v a r r' out v' :
  DeletionTimestamp (dcr_Meta d') = DeletionTimestamp (dcr_Meta d) →
  rule_path env d' = rule_path env d → (∀ e, rule_data d' e = rule_data d e) →
  pass d i (mkView fin fs v a r) out v' → pass d' i (mkView fin fs v a r') out v'.
Proof.
  intros Hd Hp Hr Hpass. inversion Hpass; subst; rewrite <-?Hp.
  - apply pass_gone. congruence.
  - apply pass_cleanup. congruence.
  - apply pass_cleanup_refused; congruence.
  - apply pass_adopt. congruence.
  - apply pass_invalid; congruence.
  - apply pass_panic; congruence.
  - apply pass_unrendered; congruence.
  - eapply pass_refused; [congruence|done|done|]. by rewrite Hp, Hr.
  - eapply pass_apply; [congruence|done|done|]. by rewrite Hr.
Qed.

(** The object as the steps find it. *)
Definition in_progress w : W :=
  mkWorld (UpdateStatusCondition ConditionReady ConditionUnknown ReasonReconciling
    "Reconciliation is in progress" (w_obj w)) (w_fs w) (w_api w).

Lemma dcr_run_steps_pass w : refines w (inputs_of (in_progress w)) (run_steps (reconcile_steps env) w).
Proof.
  set (w1 := in_progress w).
  change (run_steps (reconcile_steps env) w) with (Run (reconcile_steps env) w1).
  assert (the_view w1 = set_view ConditionReady ConditionUnknown (the_view w)) as Hv1.
  { unfold w1, in_progress. rewrite the_view_cond. by destruct w. }
  assert (refines w1 (inputs_of w1) (Run (reconcile_steps env) w1)) as (Hs & Ha & Hp).
  { destruct (decide (DeletionTimestamp (dcr_Meta (w_obj w1)) = None));
      [apply dcr_live_refines|apply dcr_deletion_refines]; by rewrite ?Hv1. }
  split; [exact Hs|]. split; [by rewrite Hv1 in Ha|].
  rewrite Hv1 in Hp. exact (dcr_pass_any (w_obj w1) (w_obj w) _ _ _ _ _ _ (v_ready (the_view w)) _ _
    eq_refl eq_refl (λ e, eq_refl) Hp).
Qed.

Lemma dcr_run_steps_refines w :
  let q := run_steps (reconcile_steps env) w in
  ∃ i, in_verdict i = verdict_of (w_api w) (w_obj w) ∧
    (∃ api, in_rendered i = resolveExpressions api (Namespace (dcr_Meta (w_obj w))) (w_obj w)) ∧
    refines w i q.
Proof. exists (inputs_of (in_progress w)). split; [done|]. split; [by eexists|apply dcr_run_steps_pass]. Qed.

(** With nothing refused, a valid resource whose templates render is published. *)
Lemma dcr_live_accepted w ex data :
  (∀ fs p, refuse_mkdir fs p = None) → (∀ fs p c, refuse_write fs p c = None) →
  (∀ url fs api, (http_Post url fs api : (error + Z) * A).1 = inr StatusOK) →
  DeletionTimestamp (dcr_Meta (w_obj w)) = None → has_finalizer (w_obj w) = true →
  in_verdict (inputs_of (in_progress w)) = None → in_rendered (inputs_of (in_progress w)) = Done (inr ex) →
  rule_data (w_obj w) ex = inr data →
  ∃ w', run_steps (reconcile_steps env) w = (Done (no_requeue, None), w') ∧
    condition_status ConditionReady (w_obj w') = Some ConditionTrue ∧
    files (w_fs w') = <[rule_path env (w_obj w) := data]> (files (w_fs w)).
Proof.
  intros Hm Hw Hpost Hdel Hf Hval Hren Hdata.
  assert ((run_steps (reconcile_steps env) w).1 = Done (no_requeue, None)) as Hres.
  { change (run_steps (reconcile_steps env) w) with (Run (reconcile_steps env) (in_progress w)).
    rewrite dcr_live_run by done. pose proof (dcr_reconcileValidation_spec (in_progress w)) as Hv. cbv zeta in Hv.
    cbn [inputs_of in_verdict in_rendered] in *. rewrite Hval in *. destruct Hv as (_ & Ho & _).
    destruct (reconcileValidation (in_progress w)) as [q w2]. cbn [snd] in *.
    destruct (same_object_name _ _ Ho) as (_ & Hns & _).
    pose proof (reconcileWriteRuleFile_accepted w2 ex data Hm Hw Hpost) as Hacc.
    rewrite Hns, (same_object_resolve _ _ _ _ Ho) in Hacc. specialize (Hacc Hren).
    rewrite (proj1 (same_object_rules _ _ ex Ho)) in Hacc. specialize (Hacc Hdata).
    destruct (reconcileWriteRuleFile env w2) as [r w3] eqn:E. cbn [fst] in Hacc. subst r.
    rewrite (Run_cons _ _ _ _ _ E). reflexivity. }
  destruct (dcr_run_steps_pass w) as (_ & _ & Hp). rewrite Hres in Hp.
  destruct (run_steps _ w) as [out w'] eqn:Hrun. cbn [fst snd] in *. subst out.
  exists w'. split; [done|]. unfold the_view in Hp at 1. rewrite Hf in Hp.
  inversion Hp as [| | | | | | | |fs v a r ex' data' _ _ Hex Hd Ev1 Eout Ev2]; subst; [congruence..|].
  split; [done|]. congruence.
Qed.
End Facts.

(** ** Properties of the controller *)

Section Properties.
Context {A : Type} `{UnicodeTables, MetaConditionsLaws, FinalizerUtilLaws, Os, MapOrder, LabelValidation, SortSlice}.
Context `{SelectorClient A, TextTemplate, DcrLister A, RuleYaml, HttpPost A}.
Context `{Getter A DataCenterResource, Patcher A DataCenterResource}.
Context (env : validatedEnv).
Abbreviation W := (World DataCenterResource A).
Implicit Types (w : W) (d : DataCenterResource).

(** C1: reconciling a stored resource is one pass of the abstract controller
    over the normalized resource, whatever the volume, Prometheus and the API
    refuse: it answers what the pass answers (with the patch's error joined), and
    leaves the files and the conditions the pass leaves. *)
Theorem Reconcile_DataCenterResource_refines ns name fs api d h :
  Get api ns name = inr d → NewHelper api (normalizeDataCenterResource d) = inr h →
  let d0 := normalizeDataCenterResource d in
  ∃ i out w', in_verdict i = verdict_of api d0 ∧
    (∃ api', in_rendered i = resolveExpressions api' (Namespace (dcr_Meta d)) d0) ∧
    pass env d0 i (the_view (mkWorld d0 fs api)) out (the_view w') ∧ same_object d0 (w_obj w') ∧
    Reconcile env ns name (fs, api) =
      (match out, (Patch h (w_obj w') (w_api w')).1 with
       | Done (res, reterr), Some err => Done (res, Some (Join_errors reterr err))
       | _, _ => out
       end, (w_fs w', (Patch h (w_obj w') (w_api w')).2)).
Proof.
  intros Hget Hh d0. unfold Reconcile, reconcile_with. rewrite Hget, Hh. fold d0.
  destruct (dcr_run_steps_refines env (mkWorld d0 fs api)) as (i & Hi1 & Hi2 & Hs & _ & Hp).
  destruct (run_steps _ (mkWorld d0 fs api)) as [out w']. cbn [fst snd w_obj w_api] in *.
  exists i, out, w'. split; [done|]. split; [exact Hi2|]. split; [done|]. split; [done|].
  unfold deferred_patch. by destruct (Patch h (w_obj w') (w_api w')) as [perr api'].
Qed.

(** C12: Ready is truthful: a pass that leaves a resource Ready found it valid,
    rendered its templates, left the recording rules of the rendered resource in
    its file, and had Prometheus acknowledge a reload with the files as they are. *)
Theorem DataCenterResource_ready_truthful w w' out :
  run_steps (reconcile_steps env) w = (out, w') →
  condition_status ConditionReady (w_obj w') = Some ConditionTrue →
  verdict_of (w_api w) (w_obj w) = None ∧
  condition_status ConditionValidated (w_obj w') = Some ConditionTrue ∧
  condition_status ConditionApplied (w_obj w') = Some ConditionTrue ∧
  has_finalizer (w_obj w') = true ∧
  (∃ api ex data, resolveExpressions api (Namespace (dcr_Meta (w_obj w))) (w_obj w) = Done (inr ex) ∧
     rule_data (w_obj w) ex = inr data ∧ files (w_fs w') !! rule_path env (w_obj w) = Some data) ∧
  acknowledged env w'.
Proof.
  intros Hrun Hready.
  destruct (dcr_run_steps_refines env w) as (i & Hi & [api Hr] & _ & Ha & Hp).
  rewrite Hrun in Ha, Hp. cbn [fst snd] in *. unfold the_view in Hp at 2. rewrite Hready in Hp.
  inversion Hp as [| | | | | | | |fs v a r ex data Hdel Hval Hren Hdata Ev1 Eout Ev2]; subst.
  split_and!; [congruence|done..| |].
  - exists api, ex, data. split_and!; [congruence|done|]. by rewrite lookup_insert_eq.
  - apply Ha; [done|]. by left.
Qed.

(** Reconciling succeeds when nothing is in its way: on a volume that
    refuses nothing, with Prometheus up, a valid resource with its finalizer whose
    templates render becomes Ready in one pass, its rules in its file. *)
Theorem DataCenterResource_converges w ex data :
  (∀ fs p, refuse_mkdir fs p = None) → (∀ fs p c, refuse_write fs p c = None) →
  (∀ url fs api, (http_Post url fs api : (error + Z) * A).1 = inr StatusOK) →
  DeletionTimestamp (dcr_Meta (w_obj w)) = None → has_finalizer (w_obj w) = true →
  verdict_of (w_api w) (w_obj w) = None →
  (∀ api : A, resolveExpressions api (Namespace (dcr_Meta (w_obj w))) (w_obj w) = Done (inr ex)) →
  rule_data (w_obj w) ex = inr data →
  ∃ w', run_steps (reconcile_steps env) w = (Done (no_requeue, None), w') ∧
    condition_status ConditionReady (w_obj w') = Some ConditionTrue ∧
    files (w_fs w') = <[rule_path env (w_obj w) := data]> (files (w_fs w)).
Proof.
  intros Hm Hw Hpost Hdel Hf Hval Hren Hdata. apply (dcr_live_accepted env w ex data); auto. apply Hren.
Qed.

(** C16: the finalizer goes last: a pass that gives up the finalizer has removed
    the rule file, and Prometheus has acknowledged a reload without it. *)
Theorem DataCenterResource_finalizer_last w w' out :
  run_steps (reconcile_steps env) w = (out, w') →
  has_finalizer (w_obj w) = true → has_finalizer (w_obj w') = false →
  DeletionTimestamp (dcr_Meta (w_obj w)) ≠ None ∧
  files (w_fs w') = delete (rule_path env (w_obj w)) (files (w_fs w)) ∧ acknowledged env w'.
Proof.
  intros Hrun Hf Hf'.
  destruct (dcr_run_steps_refines env w) as (i & _ & _ & _ & Ha & Hp).
  rewrite Hrun in Ha, Hp. cbn [fst snd] in *. unfold the_view in Hp. rewrite Hf, Hf' in Hp.
  inversion Hp; subst. split_and!; [done|done|]. apply Ha; [done|]. by right.
Qed.

(** Rule files are told apart by the resources' names, and by nothing else:
    resources of one name in two namespaces share a file. *)
Theorem rule_path_names d1 d2 :
  filepath.slash ∉ chars (dcr_Name d1) → filepath.slash ∉ chars (dcr_Name d2) →
  rule_path env d1 = rule_path env d2 ↔ dcr_Name d1 = dcr_Name d2.
Proof. intros Hn1 Hn2. split; [by apply rule_path_inj|]. unfold rule_path. by intros ->. Qed.

Lemma dcr_run_confined w w' out q :
  run_steps (reconcile_steps env) w = (out, w') → q ≠ rule_path env (w_obj w) →
  files (w_fs w') !! q = files (w_fs w) !! q.
Proof.
  intros Hrun Hq. destruct (dcr_run_steps_refines env w) as (i & _ & _ & _ & _ & Hp).
  rewrite Hrun in Hp. cbn [fst snd] in Hp. unfold the_view in Hp.
  revert Hp. generalize (files (w_fs w)) (files (w_fs w')). intros f f' Hp.
  inversion Hp; subst; repeat match goal with
    | Hor : _ ∨ _ |- _ => destruct Hor
    | Hex : ∃ _, _ |- _ => destruct Hex
    | Hand : _ ∧ _ |- _ => destruct Hand
    end; subst; by rewrite ?lookup_delete_ne, ?lookup_insert_ne.
Qed.

(** A pass is confined to the rule file of the resource's name: it leaves
    every other file as it is. *)
Theorem DataCenterResource_confined w w' out q :
  run_steps (reconcile_steps env) w = (out, w') → q ≠ rule_path env (w_obj w) →
  files (w_fs w') !! q = files (w_fs w) !! q.
Proof. apply dcr_run_confined. Qed.

(** An invalid resource changes nothing but its own status: the error is
    answered and shown as the reason and message of a false Validated condition,
    with the name of the resource involved; no file is written, no reload asked,
    and no other resource patched. *)
Theorem DataCenterResource_invalid_inert w visited involved e :
  DeletionTimestamp (dcr_Meta (w_obj w)) = None → has_finalizer (w_obj w) = true →
  Validate (w_obj w) (List_DCR (w_api w) (Namespace (dcr_Meta (w_obj w))) None).1 =
    Some (visited, involved, Some e) →
  ∃ w', run_steps (reconcile_steps env) w = (Done (no_requeue, Some e), w') ∧
    w_fs w' = w_fs w ∧ w_api w' = w_api w ∧
    dcr_InvolvedResource (dcr_Status (w_obj w')) = involved ∧
    FindStatusCondition (GetConditions (w_obj w')) "Validated" =
      Some (mkCondition "Validated" ConditionFalse
        (ConditionReason_string (if As_ErrorResourceNotFound e then ReasonDependencyUnavailable
                                 else ReasonInvalidSpec))
        (Error e) (Generation (dcr_Meta (w_obj w)))).
Proof.
  intros Hdel Hf Hv.
  set (w1 := mkWorld (UpdateStatusCondition ConditionReady ConditionUnknown ReasonReconciling
    "Reconciliation is in progress" (w_obj w)) (w_fs w) (w_api w)).
  change (run_steps (reconcile_steps env) w) with (Run (reconcile_steps env) w1).
  assert (Validate (w_obj w1) (List_DCR (w_api w1) (Namespace (dcr_Meta (w_obj w1))) None).1 =
    Some (visited, involved, Some e)) as Hv1 by exact Hv.
  rewrite (dcr_live_run env w1 Hdel Hf). unfold verdict_of. rewrite Hv1.
  unfold reconcileValidation. rewrite run_bind, run_the_obj, run_bind. unfold the_api.
  rewrite run_gets. cbv zeta. rewrite Hv1, run_bind, run_with_obj.
  eexists. split; [reflexivity|]. split_and!; [done..|].
  etransitivity; [apply find_set|]. by rewrite decide_True.
Qed.

(** A template that rendering cannot take: none at all, or neither a literal
    nor a source. *)
Definition malformed (tf : option TemplateFrom) : Prop :=
  match tf with
  | None => True
  | Some tf => Value (tf_Selector tf) = "" ∧ ValueFrom (tf_Selector tf) = None
  end.

Definition renders (api : A) ns (tf : option TemplateFrom) : Prop := ∃ text, Render tf api ns = Done (inr text).

(** Rendering comes to a template it cannot take: that of the metric, or, if the
    metric renders, that of a parent all before which render. *)
Definition comes_to_malformed (api : A) ns d : Prop :=
  (∃ tf, dcr_EnergyMetricFrom (dcr_Spec d) = Some tf ∧ malformed (Some tf)) ∨
  (∀ tf, dcr_EnergyMetricFrom (dcr_Spec d) = Some tf → renders api ns (Some tf)) ∧
  ∃ before p after, dcr_Parents (dcr_Spec d) = before ++ p :: after ∧
    Forall (λ q, renders api ns (pr_CoefficientFrom q)) before ∧ malformed (pr_CoefficientFrom p).

Lemma resolve_parents_panics (api : A) ns refs acc :
  resolve_parents api ns refs acc = Panicked ↔
  ∃ before p after, refs = before ++ p :: after ∧
    Forall (λ q, renders api ns (pr_CoefficientFrom q)) before ∧ malformed (pr_CoefficientFrom p).
Proof.
  revert acc. induction refs as [|p refs IH]; intros acc; cbn [resolve_parents].
  { split; [done|]. by intros ([|? ?] & ? & ? & [=] & _). }
  assert (Render (pr_CoefficientFrom p) api ns = Panicked ↔ malformed (pr_CoefficientFrom p)) as Hp by apply Render_panics.
  destruct (Render (pr_CoefficientFrom p) api ns) as [[e|c]|] eqn:Hr.
  - split; [done|]. intros ([|q before] & p' & after & [= <- E] & Hb & Hm).
    + apply Hp in Hm. done.
    + apply Forall_cons in Hb as [[text Ht] _]. congruence.
  - rewrite IH. split.
    + intros (before & p' & after & -> & Hb & Hm). exists (p :: before), p', after. split; [done|].
      split; [|done]. constructor; [by exists c|done].
    + intros ([|q before] & p' & after & [= <- E] & Hb & Hm); [by apply Hp in Hm|].
      apply Forall_cons in Hb as [_ Hb]. by exists before, p', after.
  - split; [|done]. intros _. exists [], p, refs. split; [done|]. split; [constructor|by apply Hp].
Qed.

Lemma resolveExpressions_panics (api : A) ns d :
  resolveExpressions api ns d = Panicked ↔ comes_to_malformed api ns d.
Proof.
  unfold resolveExpressions, resolveEnergyMetric, resolveParentExpressions, comes_to_malformed.
  pose proof (resolve_parents_panics api ns (dcr_Parents (dcr_Spec d)) []) as Hps.
  destruct (dcr_EnergyMetricFrom (dcr_Spec d)) as [tf|].
  - assert (Render (Some tf) api ns = Panicked ↔ malformed (Some tf)) as Hp by apply Render_panics. destruct (Render (Some tf) api ns) as [[e|m]|] eqn:Hr.
    + split; [done|]. intros [(? & [= <-] & Hm)|[Hm _]]; [by apply Hp in Hm|].
      destruct (Hm tf eq_refl) as [text Ht]. congruence.
    + rewrite <-Hps. split.
      * intros E. right. split; [intros ? [= <-]; by exists m|]. by destruct (resolve_parents _ _ _ _) as [[]|].
      * intros [(? & [= <-] & Hm)|[_ ->]]; [by apply Hp in Hm|done].
    + split; [|done]. intros _. left. exists tf. split; [done|by apply Hp].
  - rewrite <-Hps. split.
    + intros E. right. split; [done|]. by destruct (resolve_parents _ _ _ _) as [[]|].
    + by intros [(? & [=] & _)|[_ ->]].
Qed.

(** C27: the controller panics exactly on a missing template: a pass panics if and
    only if the resource is live, has its finalizer and is valid, and rendering it
    (with what the API answers once the validation has patched the resources that
    were waiting) comes to a template that is neither a text nor a source: the one
    of the metric, or, when the metric is absent or renders, the one of a parent
    all before which render. *)
Theorem DataCenterResource_panics w :
  (run_steps (reconcile_steps env) w).1 = Panicked ↔
  DeletionTimestamp (dcr_Meta (w_obj w)) = None ∧ has_finalizer (w_obj w) = true ∧
  verdict_of (w_api w) (w_obj w) = None ∧
  comes_to_malformed (w_api (reconcileValidation (in_progress w)).2) (Namespace (dcr_Meta (w_obj w))) (w_obj w).
Proof.
  rewrite <-resolveExpressions_panics.
  change (resolveExpressions _ _ _) with (in_rendered (inputs_of (in_progress w))).
  change (verdict_of _ _) with (in_verdict (inputs_of (in_progress w))).
  destruct (dcr_run_steps_pass env w) as (_ & _ & Hp). unfold the_view in Hp at 1. split.
  - intros Hpanic. rewrite Hpanic in Hp. by inversion Hp.
  - intros (Hdel & Hf & Hval & Hren). rewrite Hf in Hp. inversion Hp; congruence.
Qed.

(** A resource given in literals renders to them, whatever the cluster
    holds: normalization turns the shorthands into templates that need nothing. *)
Theorem normalize_literals (api : A) ns d :
  Forall (λ p, pr_Coefficient p ≠ "") (dcr_Parents (dcr_Spec d)) →
  dcr_EnergyMetric (dcr_Spec d) ≠ "" ∨ dcr_EnergyMetricFrom (dcr_Spec d) = None →
  resolveExpressions api ns (normalizeDataCenterResource d) =
    Done (inr (mkResolvedExpressions (dcr_EnergyMetric (dcr_Spec d))
      ((λ p, mkResolvedParent (pr_Name p) (pr_Coefficient p)) <$> dcr_Parents (dcr_Spec d)))).
Proof.
  intros Hps Hm. unfold resolveExpressions.
  assert (resolveEnergyMetric api ns (normalizeDataCenterResource d) =
    Done (inr (dcr_EnergyMetric (dcr_Spec d)))) as ->.
  { unfold resolveEnergyMetric. simpl. case_decide as Hd; [by apply Render_literal|].
    destruct Hm as [?|Hm]; [congruence|]. rewrite Hm, Hd. done. }
  assert (resolveParentExpressions api ns (normalizeDataCenterResource d) =
    Done (inr ((λ p, mkResolvedParent (pr_Name p) (pr_Coefficient p)) <$> dcr_Parents (dcr_Spec d)))) as ->; [|done].
  unfold resolveParentExpressions. simpl.
  assert (∀ acc, resolve_parents api ns (normalize_parent <$> dcr_Parents (dcr_Spec d)) acc =
    Done (inr (acc ++ ((λ p, mkResolvedParent (pr_Name p) (pr_Coefficient p)) <$> dcr_Parents (dcr_Spec d)))))
    as Hall; [|apply (Hall [])].
  induction Hps as [|p ps Hp _ IH]; intros acc; [by rewrite app_nil_r|].
  rewrite !fmap_cons. unfold normalize_parent at 1. rewrite decide_True by done.
  cbn [resolve_parents pr_CoefficientFrom pr_Name]. unfold literal_template.
  rewrite Render_literal by done. by rewrite IH, <-(assoc_L (++)).
Qed.
End Properties.

(** ** Which resources a ConfigMap concerns *)
Section Watch.
Context {A : Type} `{SelectorClient A, TextTemplate}.

(** A template that takes no parameters. *)
Definition no_parameters (tf : option TemplateFrom) : Prop :=
  match tf with Some tf => TemplateParameters tf = [] | None => True end.

Lemma Render_unwatched (r1 r2 : A) ns cm tf :
  (∀ n, n ≠ cm → Get_ConfigMap r1 ns n = Get_ConfigMap r2 ns n) →
  (∀ n, Get_Secret r1 ns n = Get_Secret r2 ns n) →
  no_parameters tf → configMapNameMatchesSelector cm tf = false →
  Render tf r1 ns = Render tf r2 ns.
Proof.
  intros Hcm Hsec Hnp Hm. destruct tf as [tf|]; [|done]. simpl in *.
  assert (ResolveTemplate tf r1 ns = ResolveTemplate tf r2 ns) as ->.
  { unfold ResolveTemplate. case_decide; [done|].
    destruct (ValueFrom (tf_Selector tf)) as [src|]; [|done]. f_equal.
    unfold ValueSource_Resolve, fetchFromConfigMap, fetchFromSecret.
    destruct (ConfigMapKeyRef src) as [ref|].
    - apply bool_decide_eq_false in Hm. by rewrite (Hcm _ Hm).
    - destruct (SecretKeyRef src); [by rewrite Hsec|done]. }
  unfold ResolveTemplateParameters. by rewrite Hnp.
Qed.

(** C28: the watch on ConfigMaps misses nothing a template without parameters
    reads: a resource it does not requeue for a ConfigMap renders to the same
    expressions whatever that ConfigMap holds. *)
Theorem ConfigMap_watch_complete (r1 r2 : A) ns cm d :
  (∀ n, n ≠ cm → Get_ConfigMap r1 ns n = Get_ConfigMap r2 ns n) →
  (∀ n, Get_Secret r1 ns n = Get_Secret r2 ns n) →
  no_parameters (dcr_EnergyMetricFrom (dcr_Spec d)) →
  Forall (λ p, no_parameters (pr_CoefficientFrom p)) (dcr_Parents (dcr_Spec d)) →
  dataCenterResourceReferencesConfigMap d cm = false →
  resolveExpressions r1 ns d = resolveExpressions r2 ns d.
Proof.
  intros Hcm Hsec Hm Hps Href. unfold dataCenterResourceReferencesConfigMap in Href.
  destruct (configMapNameMatchesSelector cm (dcr_EnergyMetricFrom (dcr_Spec d))) eqn:Hem; [done|].
  assert (resolveEnergyMetric r1 ns d = resolveEnergyMetric r2 ns d) as Hmetric.
  { unfold resolveEnergyMetric. destruct (dcr_EnergyMetricFrom _); [|done].
    by eapply Render_unwatched. }
  assert (∀ acc, resolve_parents r1 ns (dcr_Parents (dcr_Spec d)) acc =
                 resolve_parents r2 ns (dcr_Parents (dcr_Spec d)) acc) as Hparents.
  { clear Hmetric. induction Hps as [|p ps Hp _ IH]; intros acc; [done|]. simpl in *.
    apply orb_false_iff in Href as [Hrp Hrps].
    rewrite (Render_unwatched r1 r2 ns cm) by done.
    destruct (Render _ r2 ns) as [[|]|]; [done|by apply IH|done]. }
  unfold resolveExpressions, resolveParentExpressions. by rewrite Hmetric, Hparents.
Qed.
End Watch.

(** ** Witnesses: a virtual machine on a server that a PDU feeds *)
Module SampleDcr.
Import SimpleHelpers SimpleOs SimpleApi SimpleSort.

#[export] Instance map_order : MapOrder := {| range_map V := map_to_list |}.
#[export] Instance labels : LabelValidation := {| IsValidLabelName s := bool_decide (s ≠ "") |}.
#[export] Instance selector_client : SelectorClient api :=
  {| Get_ConfigMap _ _ n := inl (StatusError true n); Get_Secret _ _ n := inl (StatusError true n) |}.
#[export] Instance text_template : TextTemplate :=
  {| template := string; Parse := inr; Execute t _ := inr t |}.
(** Lists by field fail: no index is registered. *)
#[export] Instance lister : DcrLister api :=
  {| List_DCR a ns field :=
       match field with
       | None => (snd <$> filter (λ kv, kv.1.1 = ns) (map_to_list (api_dcrs a)), None)
       | Some _ => ([], Some (errorString "no index"))
       end |}.
#[export] Instance rule_yaml : RuleYaml :=
  {| yaml_Marshal rf := inr (strings.Join (rr_Expr <$> mjoin (rg_Rules <$> rf_Groups rf)) newline) |}.
#[export] Instance http_post : HttpPost api := {| http_Post _ _ a := (inr StatusOK, a) |}.

Definition with_finalizer (d : DataCenterResource) : DataCenterResource :=
  update_finalizers (λ fs, AddFinalizer fs DataCenterResourceGraphFinalizer) d.
Definition deleted (d : DataCenterResource) : DataCenterResource :=
  set_dcr_Meta (mkObjectMeta (dcr_Name d) "chantico" "u" 1 (Some 7%Z) (Finalizers (dcr_Meta d))) d.
Definition cluster (l : list DataCenterResource) : api :=
  mkApi (list_to_map ((λ d, (key_of d, d)) <$> l)) ∅ ∅.
Definition vm : DataCenterResource := with_finalizer sample_vm.
Definition world (d : DataCenterResource) (l : list DataCenterResource) : World DataCenterResource api :=
  mkWorld (normalizeDataCenterResource d) empty_fs (cluster l).
Definition pass_over (w : World DataCenterResource api) :
    outcome (Result * option error) * World DataCenterResource api :=
  run_steps (reconcile_steps sample_env) w.
Definition before : World DataCenterResource api := world vm [sample_pdu; sample_bm; vm].
Definition after : World DataCenterResource api := (pass_over before).2.
End SampleDcr.
Import SimpleHelpers SimpleOs SimpleApi SimpleSort SampleDcr.

Lemma DataCenterResource_ready_truthful_witness :
  condition_status ConditionApplied (w_obj after) = Some ConditionTrue ∧ acknowledged sample_env after.
Proof.
  destruct (DataCenterResource_ready_truthful sample_env before after (pass_over before).1)
    as (_ & _ & Ha & _ & _ & Hack).
  - vm_compute. reflexivity.
  - vm_compute. reflexivity.
  - split; [exact Ha|exact Hack].
Defined.

Lemma Reconcile_DataCenterResource_refines_witness :
  let d0 := normalizeDataCenterResource vm in
  ∃ i out w', in_verdict i = verdict_of (w_api before) d0 ∧
    (∃ api', in_rendered i = resolveExpressions api' "chantico" d0) ∧
    pass sample_env d0 i (the_view before) out (the_view w') ∧ same_object d0 (w_obj w') ∧
    Reconcile sample_env "chantico" "vm1" (empty_fs, w_api before) =
      (match out, (Patch (Patcher := patch_dcr) tt (w_obj w') (w_api w')).1 with
       | Done (res, reterr), Some err => Done (res, Some (Join_errors reterr err))
       | _, _ => out
       end, (w_fs w', (Patch (Patcher := patch_dcr) tt (w_obj w') (w_api w')).2)).
Proof.
  intros d0.
  apply (Reconcile_DataCenterResource_refines sample_env "chantico" "vm1" empty_fs (w_api before) vm
           (tt : @helper api DataCenterResource patch_dcr)).
  - vm_compute. reflexivity.
  - reflexivity.
Defined.

Definition vm_expressions : ResolvedExpressions :=
  mkResolvedExpressions "" [mkResolvedParent "bm1" "1"; mkResolvedParent "pdu1" "1"].

Lemma normalize_literals_witness :
  resolveExpressions (cluster []) "chantico" (normalizeDataCenterResource vm) = Done (inr vm_expressions).
Proof.
  apply (normalize_literals (cluster []) "chantico" vm).
  - apply (bool_decide_unpack _). vm_compute. exact I.
  - right. reflexivity.
Defined.

Lemma DataCenterResource_converges_witness :
  ∃ w', pass_over before = (Done (no_requeue, None), w') ∧
    condition_status ConditionReady (w_obj w') = Some ConditionTrue.
Proof.
  destruct (DataCenterResource_converges sample_env before vm_expressions
    (strings.Join (rr_Expr <$> BuildRecordingRules
       (NewRuleBuilder (normalizeDataCenterResource vm) vm_expressions)) newline))
    as (w' & Hrun & Hready & _).
  1-3: reflexivity.
  1-3: vm_compute; reflexivity.
  - intros a. reflexivity.
  - vm_compute. reflexivity.
  - exists w'. split; [exact Hrun|exact Hready].
Defined.

Definition dying : World DataCenterResource api := world (deleted vm) [deleted vm].

Lemma DataCenterResource_finalizer_last_witness :
  files (w_fs (pass_over dying).2) =
    delete (rule_path sample_env (w_obj dying)) (files (w_fs dying)) ∧
  acknowledged sample_env (pass_over dying).2.
Proof.
  apply (DataCenterResource_finalizer_last sample_env dying (pass_over dying).2 (pass_over dying).1).
  - vm_compute. reflexivity.
  - vm_compute. reflexivity.
  - vm_compute. reflexivity.
Defined.

Lemma rule_path_names_witness :
  rule_path sample_env sample_vm = rule_path sample_env sample_bm ↔
  dcr_Name sample_vm = dcr_Name sample_bm.
Proof.
  apply rule_path_names.
  - apply (bool_decide_unpack _). vm_compute. exact I.
  - apply (bool_decide_unpack _). vm_compute. exact I.
Defined.

Lemma DataCenterResource_confined_witness :
  files (w_fs after) !! rule_path sample_env sample_bm =
  files (w_fs before) !! rule_path sample_env sample_bm.
Proof.
  apply (DataCenterResource_confined sample_env before after (pass_over before).1).
  - vm_compute. reflexivity.
  - apply (bool_decide_unpack _). vm_compute. exact I.
Defined.

(** The server is not there. *)
Definition orphan : World DataCenterResource api := world vm [vm].

Lemma DataCenterResource_invalid_inert_witness :
  ∃ w', pass_over orphan =
      (Done (no_requeue, Some (err_ResourceNotFound (mkErrorResourceNotFound "bm1"))), w') ∧
    w_fs w' = w_fs orphan ∧ w_api w' = w_api orphan ∧
    dcr_InvolvedResource (dcr_Status (w_obj w')) = "bm1" ∧
    FindStatusCondition (GetConditions (w_obj w')) "Validated" =
      Some (mkCondition "Validated" ConditionFalse "DependencyUnavailable"
              "could not locate resource: bm1" 1).
Proof.
  apply (DataCenterResource_invalid_inert sample_env orphan [] "bm1"
           (err_ResourceNotFound (mkErrorResourceNotFound "bm1"))).
  - reflexivity.
  - vm_compute. reflexivity.
  - vm_compute. reflexivity.
Defined.

(** A second parent without any coefficient. *)
Definition no_coefficient : DataCenterResource :=
  set_dcr_Spec (mkDataCenterResourceSpec "vm" []
    [mkParentRef "bm1" "" (Some (mkTemplateFrom (mkSelector "0.5" None) [])); mkParentRef "pdu1" "" None] "" None None) vm.

Lemma DataCenterResource_panics_witness :
  (pass_over (world no_coefficient [sample_pdu; sample_bm; no_coefficient])).1 = Panicked.
Proof.
  apply (DataCenterResource_panics sample_env (world no_coefficient [sample_pdu; sample_bm; no_coefficient])).
  split; [reflexivity|]. split; [vm_compute; reflexivity|]. split; [vm_compute; reflexivity|].
  right. split; [intros tf [=]|].
  exists [mkParentRef "bm1" "" (Some (mkTemplateFrom (mkSelector "0.5" None) []))], (mkParentRef "pdu1" "" None), [].
  split; [reflexivity|]. split; [|exact I]. constructor; [|constructor]. by eexists.
Defined.

Lemma ConfigMap_watch_complete_witness :
  resolveExpressions (cluster []) "chantico" vm = resolveExpressions (cluster [vm]) "chantico" vm.
Proof.
  apply (ConfigMap_watch_complete (cluster []) (cluster [vm]) "chantico" "coefficients" vm).
  - reflexivity.
  - reflexivity.
  - exact I.
  - repeat constructor.
  - vm_compute. reflexivity.
Defined.
