(* ===== verification/Sha256.v ===== *)
(** [crypto/sha256] and [encoding/hex]: the digest the program compares
    configurations by. *)
From S2P Require Import Prelude GoStd Errors.

Open Scope Z_scope.

(** ** 32-bit words *)
Definition w32 (x : Z) : Z := Z.land x (2 ^ 32 - 1).
Definition add32 (x y : Z) : Z := w32 (x + y).
Definition rotr (n x : Z) : Z := Z.lor (Z.shiftr x n) (w32 (Z.shiftl x (32 - n))).
Definition not32 (x : Z) : Z := Z.lxor x (2 ^ 32 - 1).

(** The constants come from the first primes: 32 bits of the fraction of
    their cube roots for the rounds, of their square roots for the state. *)
Definition primes : list Z :=
  filter (λ n, Forall (λ d, (n mod d)%Z ≠ 0) (seqZ 2 (n - 2))) (seqZ 2 310).

(** The root of degree three, one bit at a time from the highest. *)
Fixpoint cube_root (bits : nat) (acc n : Z) : Z :=
  match bits with
  | O => acc
  | S bits' =>
      let acc' := acc + 2 ^ Z.of_nat bits' in
      cube_root bits' (if acc' ^ 3 <=? n then acc' else acc) n
  end.

Definition round_constants : list Z :=
  Eval vm_compute in ((λ p, w32 (cube_root 40 0 (p * 2 ^ 96))) <$> primes).
Definition initial_words : list Z :=
  Eval vm_compute in ((λ p, w32 (Z.sqrt (p * 2 ^ 64))) <$> take 8 primes).

(** The eight words of a digest under construction. *)
Record hash_state := mkHash { ha : Z; hb : Z; hc : Z; hd : Z; he : Z; hf : Z; hg : Z; hh : Z }.

Definition initial_hash : hash_state :=
  let w i := nth i initial_words 0 in
  mkHash (w 0%nat) (w 1%nat) (w 2%nat) (w 3%nat) (w 4%nat) (w 5%nat) (w 6%nat) (w 7%nat).

(** ** Padding *)
Definition big_endian (n : nat) (x : Z) : list Z :=
  (λ i, Z.land (Z.shiftr x (8 * Z.of_nat (n - 1 - i))) 255) <$> seq 0 n.

Definition pad (msg : list Z) : list Z :=
  let zeros := Z.to_nat ((55 - Z.of_nat (length msg)) mod 64) in
  msg ++ [128] ++ replicate zeros 0 ++ big_endian 8 (8 * Z.of_nat (length msg)).

Fixpoint words (bytes : list Z) : list Z :=
  match bytes with
  | a :: b :: c :: d :: rest =>
      Z.lor (Z.shiftl a 24) (Z.lor (Z.shiftl b 16) (Z.lor (Z.shiftl c 8) d)) :: words rest
  | _ => []
  end.

(** ** Compression of one block of 16 words *)

(** The message schedule, the last 16 words of it kept in order: each new word
    is emitted and shifted in. *)
Definition next_word (window : list Z) : Z :=
  let w i := nth i window 0 in
  let s0 := Z.lxor (rotr 7 (w 1%nat)) (Z.lxor (rotr 18 (w 1%nat)) (Z.shiftr (w 1%nat) 3)) in
  let s1 := Z.lxor (rotr 17 (w 14%nat)) (Z.lxor (rotr 19 (w 14%nat)) (Z.shiftr (w 14%nat) 10)) in
  add32 (add32 (w 0%nat) s0) (add32 (w 9%nat) s1).

Definition round (st : hash_state) (k w : Z) : hash_state :=
  let s1 := Z.lxor (rotr 6 (he st)) (Z.lxor (rotr 11 (he st)) (rotr 25 (he st))) in
  let ch := Z.lxor (Z.land (he st) (hf st)) (Z.land (not32 (he st)) (hg st)) in
  let t1 := add32 (add32 (hh st) s1) (add32 ch (add32 k w)) in
  let s0 := Z.lxor (rotr 2 (ha st)) (Z.lxor (rotr 13 (ha st)) (rotr 22 (ha st))) in
  let maj := Z.lxor (Z.land (ha st) (hb st)) (Z.lxor (Z.land (ha st) (hc st)) (Z.land (hb st) (hc st))) in
  let t2 := add32 s0 maj in
  mkHash (add32 t1 t2) (ha st) (hb st) (hc st) (add32 (hd st) t1) (he st) (hf st) (hg st).

Fixpoint rounds (ks window : list Z) (st : hash_state) : hash_state :=
  match ks with
  | [] => st
  | k :: ks' =>
      rounds ks' (tail window ++ [next_word window]) (round st k (default 0 (head window)))
  end.

Definition compress (st : hash_state) (block : list Z) : hash_state :=
  let r := rounds round_constants block st in
  mkHash (add32 (ha st) (ha r)) (add32 (hb st) (hb r)) (add32 (hc st) (hc r)) (add32 (hd st) (hd r))
    (add32 (he st) (he r)) (add32 (hf st) (hf r)) (add32 (hg st) (hg r)) (add32 (hh st) (hh r)).

Fixpoint compress_blocks (fuel : nat) (ws : list Z) (st : hash_state) : hash_state :=
  match fuel, ws with
  | S fuel', _ :: _ => compress_blocks fuel' (drop 16 ws) (compress st (take 16 ws))
  | _, _ => st
  end.

(** [sha256.Sum256]: the 32 bytes of the digest.  There are fewer blocks than
    words. *)
Definition Sum256 (content : string) : list Z :=
  let ws := words (pad (byte_val <$> chars content)) in
  let st := compress_blocks (length ws) ws initial_hash in
  mjoin (big_endian 4 <$> [ha st; hb st; hc st; hd st; he st; hf st; hg st; hh st]).

(** [hex.EncodeToString]. *)
Definition EncodeToString (bytes : list Z) : string :=
  foldr (λ b s, hex_digits 2 b +:+ s) "" bytes.

Close Scope Z_scope.

(** * Facts *)

(** The test vectors of the standard. *)
Example sha256_abc :
  EncodeToString (Sum256 "abc") = "ba7816bf8f01cfea414140de5dae2223b00361a396177a9cb410ff61f20015ad".
Proof. vm_compute. reflexivity. Qed.
Example sha256_empty :
  EncodeToString (Sum256 "") = "e3b0c44298fc1c149afbf4c8996fb92427ae41e4649b934ca495991b7852b855".
Proof. vm_compute. reflexivity. Qed.
Example sha256_two_blocks :
  EncodeToString (Sum256 "abcdbcdecdefdefgefghfghighijhijkijkljklmklmnlmnomnopnopq") =
  "248d6a61d20638b8e5c026930c3e6039a33ce45964ff2167f6ecedd419db06c1".
Proof. vm_compute. reflexivity. Qed.

Lemma length_Sum256 content : length (Sum256 content) = 32.
Proof. reflexivity. Qed.

Lemma Sum256_bytes content : Forall (λ b, 0 ≤ b < 256)%Z (Sum256 content).
Proof.
  assert (∀ n x, Forall (λ b, 0 ≤ b < 256)%Z (big_endian n x)) as Hbe.
  { intros n x. unfold big_endian. apply Forall_fmap, Forall_forall. intros i _. simpl.
    change 255%Z with (Z.ones 8). rewrite Z.land_ones by lia. apply Z.mod_pos_bound. lia. }
  unfold Sum256. apply Forall_forall. intros b (l & Hb & (x & -> & _)%list_elem_of_fmap)%list_elem_of_join.
  by eapply Forall_forall in Hb; [|apply Hbe].
Qed.

(** A lower-case hexadecimal digit. *)
Definition is_hex (c : ascii) : Prop :=
  in_range 48 57 (byte_val c) = true ∨ in_range 97 102 (byte_val c) = true.

Lemma hex_digit_hex n : (0 ≤ n < 16)%Z → is_hex (hex_digit n).
Proof.
  intros Hn. assert (n ∈ (Z.of_nat <$> seq 0 16)) as Hin.
  { apply list_elem_of_fmap. exists (Z.to_nat n). split; [lia|]. apply elem_of_seq. lia. }
  assert (Forall (λ n, is_hex (hex_digit n)) (Z.of_nat <$> seq 0 16)) as Hall.
  { unfold is_hex. apply (bool_decide_unpack _). vm_compute. exact I. }
  rewrite Forall_forall in Hall. by apply Hall.
Qed.

Lemma hex_digits_byte b :
  (0 ≤ b < 256)%Z → ∃ c1 c2, hex_digits 2 b = String c1 (String c2 "") ∧ is_hex c1 ∧ is_hex c2.
Proof.
  intros Hb. exists (hex_digit (Z.land (Z.shiftr b 4) 15)), (hex_digit (Z.land b 15)).
  split; [reflexivity|].
  assert (∀ x, 0 ≤ Z.land x 15 < 16)%Z as Hl.
  { intros x. change 15%Z with (Z.ones 4). rewrite Z.land_ones by lia. apply Z.mod_pos_bound. lia. }
  split; apply hex_digit_hex, Hl.
Qed.

Lemma EncodeToString_hex bytes :
  Forall (λ b, 0 ≤ b < 256)%Z bytes →
  length (chars (EncodeToString bytes)) = 2 * length bytes ∧
  Forall is_hex (chars (EncodeToString bytes)).
Proof.
  induction 1 as [|b bytes Hb _ [IHl IHf]]; [by split|]. unfold EncodeToString in *. cbn [foldr].
  destruct (hex_digits_byte b Hb) as (c1 & c2 & -> & ? & ?).
  rewrite !str_app_cons, str_app_nil_l. cbn [chars length].
  split; [rewrite IHl; lia|]. by do 2 (constructor; [done|]).
Qed.
