(* ===== verification/Snmp.v ===== *)
(** [internal/snmp]: the merge of the per-device SNMP configurations into the
    one file of the exporter. *)
From S2P Require Import Prelude GoStd Errors Paths FileStore Sha256 Rules.

(** ** Configurations ([snmp.go]) *)
Record GeneratorAuth := mkGeneratorAuth {
  Community : string;
  SecurityLevel : string;
  Username : string;
  Password : string;
  AuthProtocol : string;
  PrivProtocol : string;
  PrivPassword : string;
  ContextName : string;
  AuthVersion : Z
}.

Record GeneratorModule := mkGeneratorModule { Walk : list string }.

Record GeneratorConfig := mkGeneratorConfig {
  gc_Auths : gmap string GeneratorAuth;
  gc_Modules : gmap string GeneratorModule;
  gc_Version : Z
}.

Record MergedConfig (any : Type) := mkMergedConfig {
  Auths : gmap string any;
  Modules : gmap string any;
  Version : Z
}.
Arguments mkMergedConfig {any}.
Arguments Auths {any}.
Arguments Modules {any}.
Arguments Version {any}.

(** go.yaml.in/yaml, on the types above; a value it decodes without a type. *)
Class SnmpYaml := {
  any : Type;
  Unmarshal_MergedConfig : string → error + MergedConfig any;
  Marshal_MergedConfig : MergedConfig any → error + string;
  Unmarshal_GeneratorAuth : string → error + GeneratorAuth;
  Marshal_GeneratorConfig : GeneratorConfig → error + string
}.

(** A struct whose fields are not omitted is never printed as nothing. *)
Class SnmpYamlLaws `{SnmpYaml} : Prop := {
  Marshal_MergedConfig_ne c text : Marshal_MergedConfig c = inr text → text ≠ ""
}.

(** Hash returns the hex-encoded SHA-256 of the content. *)
Definition Hash (content : string) : string := EncodeToString (Sum256 content).

(** The values of a map in the order of its keys. *)
Definition name_before (p q : string * string) : Prop := String.leb p.1 q.1 = true.
#[export] Instance name_before_dec : RelDecision name_before.
Proof. intros p q. unfold name_before. apply _. Defined.

Definition sortedConfigs (filesByName : gmap string string) : list string :=
  snd <$> merge_sort name_before (map_to_list filesByName).

Section Merge.
Context `{SnmpYaml}.

(** The loop of [merge] from the index [i] and the configuration so far. *)
Fixpoint merge_from (i : nat) (out : MergedConfig any) (configs : list string) :
    error + MergedConfig any :=
  match configs with
  | [] => inr out
  | raw :: rest =>
      if trims_to_empty raw then merge_from (S i) out rest
      else
        match Unmarshal_MergedConfig raw with
        | inl err => inl (wrapError ("fragment " +:+ strconv.FormatInt (Z.of_nat i) +:+ ": ") err)
        | inr frag =>
            merge_from (S i)
              (mkMergedConfig (Auths frag ∪ Auths out) (Modules frag ∪ Modules out) (Version out)) rest
        end
  end.

Definition merge (configs : list string) : error + string :=
  match merge_from 0 (mkMergedConfig ∅ ∅ 0%Z) configs with
  | inl err => inl err
  | inr out => Marshal_MergedConfig out
  end.

Context {St : Type} `{FileStore St}.

(** Per-device files only: snmp-<uid>.yaml, not the merged file. *)
Definition per_device (name : string) : bool :=
  strings.HasPrefix (filepath.Base name) "snmp-" && bool_decide (filepath.Ext name = ".yaml").

(** The loop over the names listed. *)
Fixpoint read_configs (entries : list string) (out : gmap string string) (s : St) :
    (error + gmap string string) * St :=
  match entries with
  | [] => (inr out, s)
  | name :: rest =>
      if per_device name then
        match fs_ReadAll (filepath.Join [name]) s with
        | (inl err, s') => (inl (wrapError ("read " +:+ name +:+ ": ") err), s')
        | (inr content, s') =>
            if trims_to_empty content then read_configs rest out s'
            else read_configs rest (<[name := content]> out) s'
        end
      else read_configs rest out s
  end.

(** A directory that does not exist holds no configuration. *)
Definition readPerDeviceSnmpConfigs (dir : string) (s : St) : (error + gmap string string) * St :=
  match fs_CollectSubFiles dir s with
  | ((_, Some err), s') =>
      if Is_ErrNotExist err then (inr ∅, s')
      else (inl (wrapError ("list " +:+ dir +:+ ": ") err), s')
  | ((entries, None), s') => read_configs entries ∅ s'
  end.

Definition GetMergedSortedSNMPConfig (dir : string) (s : St) : (error + string) * St :=
  match readPerDeviceSnmpConfigs dir s with
  | (inl err, s') => (inl err, s')
  | (inr filesByName, s') => (merge (sortedConfigs filesByName), s')
  end.
End Merge.

(** * Properties *)

(** ** The loop of the merge *)

Lemma name_before_le p q : name_before p q ↔ String.le p.1 q.1.
Proof. unfold name_before, String.le. destruct (String.leb p.1 q.1); naive_solver. Qed.

#[export] Instance name_before_trans : Transitive name_before.
Proof. intros p q r. rewrite !name_before_le. by intros ? ?; etrans. Qed.
#[export] Instance name_before_total : Total name_before.
Proof. intros p q. rewrite !name_before_le. apply (total String.le). Qed.

(** The contents in the order of the names: each file once, and a later file
    has a later name. *)
Lemma sorted_names (m : gmap string string) :
  let l := merge_sort name_before (map_to_list m) in
  l ≡ₚ map_to_list m ∧
  ∀ i j p q, l !! i = Some p → l !! j = Some q → i < j → String.le p.1 q.1 ∧ p.1 ≠ q.1.
Proof.
  intros l. assert (l ≡ₚ map_to_list m) as Hp by apply merge_sort_Permutation.
  split; [done|]. intros i j p q Hi Hj Hij.
  pose proof (StronglySorted_merge_sort name_before (map_to_list m)) as Hs. fold l in Hs.
  assert (NoDup l.*1) as Hnd by (rewrite Hp; apply NoDup_fst_map_to_list).
  split.
  - rewrite <-name_before_le. clear Hp Hnd.
    revert i j Hi Hj Hij. induction Hs as [|x l' Hs IH Hx]; intros i j Hi Hj Hij; [done|].
    destruct i as [|i], j as [|j]; simplify_eq/=; try lia.
    + rewrite Forall_forall in Hx. apply Hx. by eapply list_elem_of_lookup_2.
    + eapply IH; eauto; lia.
  - intros He. assert (i = j) as ->; [|lia].
    eapply (NoDup_lookup l.*1); [done| |]; rewrite list_lookup_fmap.
    + by rewrite Hi.
    + rewrite Hj. simpl. by rewrite He.
Qed.

Section MergeFacts.
Context `{SnmpYaml}.
Implicit Types (c : MergedConfig any) (configs : list string).

(** The fragments that are read, blank contents left out. *)
Definition fragment (raw : string) : option (MergedConfig any) :=
  if trims_to_empty raw then None
  else match Unmarshal_MergedConfig raw with inl _ => None | inr frag => Some frag end.

(** A section of the merge: the last fragment with the key gives its value. *)
Definition last_with (get : MergedConfig any → gmap string any) configs (k : string) (v : any) : Prop :=
  ∃ i raw frag, configs !! i = Some raw ∧ fragment raw = Some frag ∧ get frag !! k = Some v ∧
    ∀ j raw' frag', i < j → configs !! j = Some raw' → fragment raw' = Some frag' → get frag' !! k = None.

Definition none_with (get : MergedConfig any → gmap string any) configs (k : string) : Prop :=
  ∀ raw frag, raw ∈ configs → fragment raw = Some frag → get frag !! k = None.

Lemma merge_from_Version configs : ∀ i out c,
  merge_from i out configs = inr c → Version c = Version out.
Proof.
  induction configs as [|raw configs IH]; intros i out c; simpl; [by intros [= ->]|].
  destruct (trims_to_empty raw); [apply IH|].
  destruct (Unmarshal_MergedConfig raw); [done|]. intros Hc. by rewrite (IH _ _ _ Hc).
Qed.

Lemma last_with_skip get raw configs k v :
  last_with get configs k v → last_with get (raw :: configs) k v.
Proof.
  intros (i & r & f & Hr & Hf & Hv & Hl). exists (S i), r, f. split_and!; [done..|].
  intros [|j] r' f' Hj; [lia|]. apply Hl. lia.
Qed.

Lemma last_with_here get raw frag configs k v :
  fragment raw = Some frag → get frag !! k = Some v → none_with get configs k →
  last_with get (raw :: configs) k v.
Proof.
  intros Hf Hv Hn. exists 0, raw, frag. split_and!; [done..|].
  intros [|j] r' f' Hj; [lia|]. intros Hr. eapply Hn. by eapply list_elem_of_lookup_2.
Qed.

Lemma none_with_cons get raw configs k :
  (∀ frag, fragment raw = Some frag → get frag !! k = None) →
  none_with get configs k → none_with get (raw :: configs) k.
Proof. intros Hr Hc r f [->|Hin]%elem_of_cons; eauto. Qed.

(** What the loop makes of one section. *)
Lemma merge_from_section get out_of configs :
  (∀ frag c, out_of frag c = get frag ∪ get c) →
  (∀ a b v, get (mkMergedConfig (Auths a ∪ Auths b) (Modules a ∪ Modules b) v) = out_of a b) →
  ∀ i out c k, merge_from i out configs = inr c →
  (∀ v, get c !! k = Some v →
    last_with get configs k v ∨ (none_with get configs k ∧ get out !! k = Some v)) ∧
  (get c !! k = None → none_with get configs k ∧ get out !! k = None).
Proof.
  intros Hout Hget. induction configs as [|raw configs IH]; intros i out c k; simpl.
  { intros [= ->]. split; [|split; [by intros ? ? ?%not_elem_of_nil|done]].
    right. split; [by intros ? ? ?%not_elem_of_nil|done]. }
  assert (fragment raw = if trims_to_empty raw then None else
    match Unmarshal_MergedConfig raw with inl _ => None | inr frag => Some frag end) as Hfr by done.
  destruct (trims_to_empty raw).
  { intros Hm. destruct (IH _ _ _ k Hm) as [Hs Hn]. split.
    - intros v [?|[??]]%Hs; [left; by apply last_with_skip|right].
      split; [apply none_with_cons; [congruence|done]|done].
    - intros [??]%Hn. split; [apply none_with_cons; [congruence|done]|done]. }
  destruct (Unmarshal_MergedConfig raw) as [e|frag] eqn:Hu; [done|].
  intros Hm. destruct (IH _ _ _ k Hm) as [Hs Hn]. rewrite Hget, Hout in Hs, Hn. split.
  - intros v [?|[Hno Hv]]%Hs; [left; by apply last_with_skip|].
    apply lookup_union_Some_raw in Hv as [Hv|[Hv Ho]].
    + left. by eapply last_with_here.
    + right. split; [|done]. apply none_with_cons; [congruence|done].
  - intros [Hno [Hv Ho]%lookup_union_None]%Hn. split; [|done].
    apply none_with_cons; [congruence|done].
Qed.
End MergeFacts.

(** ** The files of the directory *)

(** The configuration a device's file holds, once the job has written it. *)
Definition device_config {St} (content : St → string → option string) (s : St) (name : string) :
    option string :=
  c ← content s name; if trims_to_empty c then None else Some c.

(** The names that count below [dir]. *)
Definition device_file {St} `{FileStore St} (dir name : string) : Prop :=
  local name ∧ filepath.Clean name = name ∧ inside (St := St) dir name ∧ per_device name = true.
#[export] Instance device_file_dec {St} `{FileStore St} dir name : Decision (device_file (St := St) dir name).
Proof. unfold device_file, inside. apply _. Defined.

Section ReadFacts.
Context `{SnmpYaml} {St : Type} `{FileStoreLaws St content}.
Implicit Types (s : St).

Lemma Join_clean_name name : local name → filepath.Clean name = name → filepath.Join [name] = name.
Proof.
  intros (_ & Hk & _) Hc. unfold filepath.Join, strings.Join.
  destruct (decide (name = "")) as [->|]; [by exfalso|done].
Qed.

Lemma read_configs_spec entries : ∀ out s m s',
  Forall (λ n, local n ∧ filepath.Clean n = n) entries →
  read_configs entries out s = (inr m, s') →
  (∀ q, content s' q = content s q) ∧
  ∀ n, m !! n =
    if decide (n ∈ entries ∧ per_device n = true ∧ is_Some (device_config content s n))
    then device_config content s n else out !! n.
Proof.
  induction entries as [|name entries IH]; intros out s m s' Hnames; cbn [read_configs].
  { intros [= -> ->]. split; [done|]. intros n. rewrite decide_False; [done|].
    intros [?%not_elem_of_nil _]. done. }
  apply Forall_cons in Hnames as [[Hloc Hcl] Hnames].
  destruct (per_device name) eqn:Hpd.
  2:{ intros Hr. destruct (IH _ _ _ _ Hnames Hr) as [Hf Hm]. split; [done|].
      intros n. rewrite Hm. apply decide_ext. rewrite elem_of_cons.
      split; [tauto|]. intros ([->|?] & ? & ?); [congruence|tauto]. }
  rewrite Join_clean_name by done.
  pose proof (read_frame name s) as Hfr. pose proof (read_ok name s) as Hok.
  destruct (fs_ReadAll name s) as [[e|raw] s1]; [done|]. simpl in *.
  specialize (Hok raw eq_refl).
  assert (device_config content s name = if trims_to_empty raw then None else Some raw) as Hdev
    by (unfold device_config; by rewrite Hok).
  assert (∀ n, device_config content s1 n = device_config content s n) as Hdev1
    by (intros n; unfold device_config; by rewrite Hfr).
  destruct (trims_to_empty raw); intros Hr; destruct (IH _ _ _ _ Hnames Hr) as [Hf Hm];
    (split; [intros q; by rewrite Hf, Hfr|]); intros n; rewrite Hm, Hdev1.
  - apply decide_ext. rewrite elem_of_cons. split; [tauto|].
    intros ([->|?] & ? & Hs); [|tauto]. rewrite Hdev in Hs. by destruct Hs.
  - destruct (decide (n = name)) as [->|Hne].
    + rewrite lookup_insert_eq, Hdev.
      rewrite (decide_True (P := name ∈ name :: entries ∧ _)); [by case_decide|].
      split_and!; [left|done|done].
    + rewrite lookup_insert_ne by done. apply decide_ext. rewrite elem_of_cons.
      split; [tauto|]. intros ([->|?] & ? & ?); [congruence|tauto].
Qed.

(** The map read back is the directory's per-device files, whatever the order
    and the other files of the listing. *)
Lemma readPerDeviceSnmpConfigs_spec dir s m s' :
  local dir → readPerDeviceSnmpConfigs dir s = (inr m, s') →
  (∀ q, content s' q = content s q) ∧
  ∀ n, m !! n = if decide (device_file (St := St) dir n) then device_config content s n else None.
Proof.
  intros Hd. unfold readPerDeviceSnmpConfigs.
  pose proof (collect_frame dir s) as Hfr.
  pose proof (λ l e, collect_missing dir s l e Hd) as Hmiss.
  pose proof (λ l, collect_sound dir s l Hd) as Hsound.
  pose proof (λ l, collect_complete dir s l Hd) as Hcomp.
  destruct (fs_CollectSubFiles dir s) as [[entries [err|]] s1]; simpl in *.
  { destruct (Is_ErrNotExist err) eqn:He; [|done]. intros [= <- <-].
    split; [done|]. intros n. rewrite lookup_empty. case_decide as Hn; [|done].
    unfold device_config. by rewrite (Hmiss _ _ eq_refl He n) by apply Hn. }
  destruct (Hsound _ eq_refl) as [_ Hs]. intros Hr.
  destruct (read_configs_spec entries ∅ s1 m s') as [Hf Hm]; [|done|].
  { apply Forall_forall. intros n Hn. by destruct (Hs n Hn) as (_ & _ & ?). }
  split; [intros q; by rewrite Hf, Hfr|]. intros n.
  assert (device_config content s1 n = device_config content s n) as Hdev by (unfold device_config; by rewrite Hfr).
  rewrite Hm, Hdev, lookup_empty.
  destruct (device_config content s n) as [c|] eqn:Hc; [|by repeat case_decide].
  apply decide_ext. split.
  - intros (Hin & Hpd & _). by destruct (Hs n Hin) as (_ & ? & ? & ?).
  - intros (Hloc & Hcl & Hins & Hpd). split_and!; [|done|done].
    assert (is_Some (content s n)) as Hx.
    { unfold device_config in Hc. by destruct (content s n). }
    destruct (Hcomp _ eq_refl n Hx Hins) as (n' & Hin & Hres).
    destruct (Hs n' Hin) as (_ & _ & Hloc' & Hcl').
    assert (n = n') as ->; [|done].
    rewrite <-Hcl, <-Hcl'. by apply resolve_inj.
Qed.
End ReadFacts.

(** The fragment the file [name] of [dir] contributes. *)
Definition device_fragment `{SnmpYaml} {St} `{FileStore St} (content : St → string → option string)
    (s : St) (dir name : string) : option (MergedConfig any) :=
  if decide (device_file (St := St) dir name) then device_config content s name ≫= fragment else None.

(** The section [get] of [c] is the union of the devices' sections, where the
    last name wins. *)
Definition section_spec `{SnmpYaml} {St} `{FileStore St} (content : St → string → option string)
    (s : St) (dir : string) (get : MergedConfig any → gmap string any)
    (c : MergedConfig any) : Prop :=
  ∀ k v, get c !! k = Some v ↔
    ∃ name frag, device_fragment content s dir name = Some frag ∧ get frag !! k = Some v ∧
      ∀ name' frag', String.le name name' → name ≠ name' →
        device_fragment content s dir name' = Some frag' → get frag' !! k = None.

(** The text the merge of a directory gives. *)
Definition merged_text `{SnmpYaml} {St} `{FileStore St} (content : St → string → option string)
    (s : St) (dir text : string) : Prop :=
  ∃ c, Marshal_MergedConfig c = inr text ∧ Version c = 0%Z ∧
    section_spec content s dir Auths c ∧ section_spec content s dir Modules c.

Section MergeProperties.
Context `{SnmpYaml} {St : Type} `{FileStoreLaws St content}.
Implicit Types (s : St).

Lemma merge_section s dir get m i out c :
  (∀ n, m !! n = if decide (device_file (St := St) dir n) then device_config content s n else None) →
  get = Auths ∨ get = Modules → get out = ∅ →
  merge_from i out (sortedConfigs m) = inr c → section_spec content s dir get c.
Proof.
  intros Hm Hget Hout Hc k v. destruct (sorted_names m) as [Hp Hs].
  unfold sortedConfigs in Hc. set (l := merge_sort name_before (map_to_list m)) in *.
  assert (∀ n raw, (n, raw) ∈ l ↔ m !! n = Some raw) as Hl
    by (intros; by rewrite Hp, elem_of_map_to_list).
  assert (∀ j raw, l.*2 !! j = Some raw → ∃ n, l !! j = Some (n, raw)) as Hj.
  { intros j raw (p & -> & ?)%list_lookup_fmap_Some. destruct p. eauto. }
  assert (∀ n frag, device_fragment content s dir n = Some frag →
    ∃ j raw, l !! j = Some (n, raw) ∧ fragment raw = Some frag) as Hdev.
  { intros n frag. unfold device_fragment. specialize (Hm n). case_decide; [|done].
    intros (raw & Hraw & Hf)%bind_Some. rewrite Hraw in Hm. apply Hl in Hm.
    apply list_elem_of_lookup in Hm as [j ?]. eauto. }
  assert (∀ j n raw, l !! j = Some (n, raw) → device_fragment content s dir n = fragment raw) as Hfr.
  { intros j n raw Hin%list_elem_of_lookup_2%Hl. unfold device_fragment.
    rewrite Hm in Hin. case_decide; [|done]. by rewrite Hin. }
  destruct (merge_from_section get (λ a b, get a ∪ get b) l.*2 (λ _ _, eq_refl)
    ltac:(by destruct Hget as [-> | ->]) i out c k Hc) as [Hsome Hnone].
  rewrite Hout, lookup_empty in Hsome, Hnone.
  assert (∀ v, last_with get l.*2 k v → ∃ name frag,
    device_fragment content s dir name = Some frag ∧ get frag !! k = Some v ∧
    ∀ name' frag', String.le name name' → name ≠ name' →
      device_fragment content s dir name' = Some frag' → get frag' !! k = None) as Hfwd.
  { intros v' (j & raw & frag & (n & Hn)%Hj & Hf & Hv & Hlast). exists n, frag.
    split_and!; [by rewrite (Hfr _ _ _ Hn)|done|].
    intros n' f' Hle Hne (j' & raw' & Hn' & Hf')%Hdev.
    destruct (decide (j < j')) as [Hlt|Hge].
    - eapply (Hlast j' raw'); [done| |done]. by rewrite list_lookup_fmap, Hn'.
    - exfalso. destruct (decide (j = j')) as [->|]; [congruence|].
      destruct (Hs j' j _ _ Hn' Hn) as [Hle' _]; [lia|]. apply Hne.
      by apply (anti_symm String.le). }
  split.
  - intros [?|[_ ?]]%Hsome; [by apply Hfwd|done].
  - intros (n & frag & Hf & Hv & Hlast). destruct (get c !! k) as [v'|] eqn:Hk.
    + destruct (Hsome v' eq_refl) as [(n' & f' & Hf' & Hv' & Hlast')%Hfwd|[_ ?]]; [|done].
      destruct (decide (n = n')) as [->|Hne]; [congruence|].
      destruct (total String.le n n') as [Hle|Hle].
      * rewrite (Hlast _ _ Hle Hne Hf') in Hv'. done.
      * rewrite (Hlast' _ _ Hle (not_eq_sym Hne) Hf) in Hv. done.
    + destruct (Hnone eq_refl) as [Hno _]. destruct (Hdev _ _ Hf) as (j & raw & Hn & Hfrag).
      rewrite (Hno raw frag) in Hv; [done| |done].
      apply list_elem_of_fmap. exists (n, raw). split; [done|]. by eapply list_elem_of_lookup_2.
Qed.

(** Reading changes nothing, whatever it answers. *)
Lemma GetMergedSortedSNMPConfig_frame dir s q :
  content (GetMergedSortedSNMPConfig dir s).2 q = content s q.
Proof.
  assert (∀ entries out s1, content (read_configs entries out s1).2 q = content s1 q) as Hread.
  { induction entries as [|name entries IH]; intros out s1; cbn [read_configs]; [done|].
    destruct (per_device name); [|apply IH].
    pose proof (read_frame (filepath.Join [name]) s1 q) as Hf.
    destruct (fs_ReadAll (filepath.Join [name]) s1) as [[e|c] s2]; cbn [snd] in *; [done|].
    destruct (trims_to_empty c); by rewrite IH. }
  unfold GetMergedSortedSNMPConfig, readPerDeviceSnmpConfigs.
  pose proof (collect_frame dir s q) as Hf.
  destruct (fs_CollectSubFiles dir s) as [[entries [e|]] s1]; cbn [snd] in *.
  - by destruct (Is_ErrNotExist e).
  - pose proof (Hread entries ∅ s1) as Hr. destruct (read_configs entries ∅ s1) as [[e|m] s2];
      cbn [snd] in *; congruence.
Qed.

Lemma GetMergedSortedSNMPConfig_text dir s bytes s' :
  local dir → GetMergedSortedSNMPConfig dir s = (inr bytes, s') →
  (∀ q, content s' q = content s q) ∧ merged_text content s dir bytes.
Proof.
  intros Hd. unfold GetMergedSortedSNMPConfig.
  destruct (readPerDeviceSnmpConfigs dir s) as [[e|m] s1] eqn:Hr; [done|].
  destruct (readPerDeviceSnmpConfigs_spec dir s m s1 Hd Hr) as [Hf Hm].
  unfold merge. destruct (merge_from 0 _ _) as [e|c] eqn:Hc; [done|].
  intros [= Hb <-]. split; [done|]. exists c. split; [done|]. split; [by apply (merge_from_Version _ _ _ _ Hc)|].
  split; [apply (merge_section s dir Auths m 0 (mkMergedConfig ∅ ∅ 0%Z) c Hm (or_introl eq_refl) eq_refl Hc)|].
  apply (merge_section s dir Modules m 0 (mkMergedConfig ∅ ∅ 0%Z) c Hm (or_intror eq_refl) eq_refl Hc).
Qed.

(** C18: what the exporter is given is the union of the per-device
    configurations, a device whose file comes later in the order of the names
    taking precedence; the merged file itself, the blank placeholders and every
    other file of the directory are left out, and nothing is written. *)
Theorem GetMergedSortedSNMPConfig_spec dir s bytes s' :
  local dir → GetMergedSortedSNMPConfig dir s = (inr bytes, s') →
  (∀ q, content s' q = content s q) ∧
  merged_text content s dir bytes.
Proof.
  apply GetMergedSortedSNMPConfig_text.
Qed.

(** The contents of the device files are all the merge is about. *)
Lemma merged_text_ext dir s1 s2 text :
  (∀ n, device_file (St := St) dir n → device_config content s1 n = device_config content s2 n) →
  merged_text content s1 dir text → merged_text content s2 dir text.
Proof.
  intros Hs (c & Hc & Hv & Ha & Hm).
  assert (∀ n, device_fragment content s1 dir n = device_fragment content s2 dir n) as Hfr
    by (intros n; unfold device_fragment; case_decide; [by rewrite Hs|done]).
  exists c. split_and!; [done|done| |]; intros k v; [rewrite (Ha k v)|rewrite (Hm k v)];
    setoid_rewrite Hfr; done.
Qed.

Lemma section_spec_unique dir s get c1 c2 :
  section_spec content s dir get c1 → section_spec content s dir get c2 → get c1 = get c2.
Proof. intros H1' H2'. apply map_eq. intros k. apply option_eq. intros v. by rewrite (H1' k v), (H2' k v). Qed.

(** The files determine the text. *)
Lemma merged_text_unique dir s t1 t2 :
  merged_text content s dir t1 → merged_text content s dir t2 → t1 = t2.
Proof.
  intros ([a1 m1 v1] & Hc1 & Hv1 & Ha1 & Hm1) ([a2 m2 v2] & Hc2 & Hv2 & Ha2 & Hm2).
  pose proof (section_spec_unique _ _ _ _ _ Ha1 Ha2) as Ea.
  pose proof (section_spec_unique _ _ _ _ _ Hm1 Hm2) as Em. simpl in *. subst. congruence.
Qed.

End MergeProperties.

(** ** A small YAML *)
Module SimpleYaml.
(** One line [key: value] gives the configuration of one device. *)
#[export] Instance yaml : SnmpYaml :=
  {| any := string;
     Unmarshal_MergedConfig raw :=
       if decide (strings.HasPrefix raw "!") then inl (errorString "yaml: bad fragment")
       else inr (mkMergedConfig {[raw := raw]} {[raw := raw]} 0%Z);
     Marshal_MergedConfig c :=
       inr ("auths: " +:+ strings.Join (merge_sort String.le (map_to_list (Auths c)).*1) ",");
     Unmarshal_GeneratorAuth raw := inr (mkGeneratorAuth raw "" "" "" "" "" "" "" 2%Z);
     Marshal_GeneratorConfig c :=
       inr (strings.Join ((λ p, p.1 +:+ ": " +:+ Community p.2) <$> map_to_list (gc_Auths c)) "," +:+
            strings.Join ((λ p, p.1 +:+ ": " +:+ strings.Join (Walk p.2) " ") <$> map_to_list (gc_Modules c)) ",") |}.
#[export] Instance yaml_laws : SnmpYamlLaws.
Proof. split. by intros c text [= <-]. Qed.
End SimpleYaml.

Module SnmpSample.
Import SimpleOs SimpleYaml.
#[export] Instance store : FileStore Fs := VolumeFileStore_store "/data".
#[export] Instance store_laws : FileStoreLaws Fs (volume_content "/data").
Proof. by apply VolumeFileStore_laws. Defined.

Definition write_all (fs : list (string * string)) : Fs :=
  foldl (λ s p, (fs_Write p.1 p.2 s).2) empty_fs fs.
Definition two_devices : Fs :=
  write_all [("snmp/yml/snmp-b.yaml", "pdu: v2"); ("snmp/yml/snmp.yml", "old");
             ("snmp/yml/snmp-c.yaml", " "); ("snmp/yml/snmp-a.yaml", "ups: v3")].
End SnmpSample.

Lemma GetMergedSortedSNMPConfig_spec_witness :
  let get : MergedConfig string → gmap string string := Auths in
  GetMergedSortedSNMPConfig (H := SimpleYaml.yaml) (H0 := SnmpSample.store) "snmp/yml/"
    SnmpSample.two_devices =
    (inr "auths: pdu: v2,ups: v3", (GetMergedSortedSNMPConfig (H := SimpleYaml.yaml) (H0 := SnmpSample.store)
       "snmp/yml/" SnmpSample.two_devices).2) ∧
  ∃ c, section_spec (H := SimpleYaml.yaml) (H0 := SnmpSample.store) (volume_content "/data") SnmpSample.two_devices "snmp/yml/" get c.
Proof.
  intros get. split; [vm_compute; reflexivity|].
  destruct (GetMergedSortedSNMPConfig_spec (H := SimpleYaml.yaml) (H1 := SnmpSample.store_laws)
    "snmp/yml/" SnmpSample.two_devices "auths: pdu: v2,ups: v3"
    (GetMergedSortedSNMPConfig (H := SimpleYaml.yaml) (H0 := SnmpSample.store)
       "snmp/yml/" SnmpSample.two_devices).2) as (_ & c & _ & _ & Hc & _).
  - apply (bool_decide_unpack _). vm_compute. exact I.
  - vm_compute. reflexivity.
  - exists c. exact Hc.
Defined.
