(* ===== verification/MeasurementDeviceJob.v ===== *)
(** [internal/measurementdevice]: the files of a measurement device on the
    volume ([paths.go]) and the job that generates its SNMP configuration
    ([config.go]), with [internal/images] and [internal/volumes]. *)
From S2P Require Import Prelude GoStd Errors Paths FileStore.
From S2P Require Import Configuration ApiTypes Snmp.

(** ** Paths *)
Definition GenerationAnnotation : string := "chantico-project.github.io/generation".
Definition ConfigHashAnnotation : string := "chantico-project.github.io/config-hash".

Definition SnmpSubDir : string := "snmp/yml/".
Definition SnmpMergedFile : string := "snmp/yml/snmp.yml".
Definition MibsSubDir : string := "snmp/mibs/".

Definition GeneratorFile (uid : string) : string :=
  "snmp/generators/generator-" +:+ uid +:+ ".yaml".
Definition SnmpFile (uid : string) : string := "snmp/yml/snmp-" +:+ uid +:+ ".yaml".

(** ** Images and volumes *)
Definition SnmpGenerator : string := "prom/snmp-generator:v0.29.0".
Definition ChanticoVolumeMount : string := "chantico-volume-mount".

(** corev1.Volume, for a persistent volume claim. *)
Record Volume := mkVolume { vol_Name : string; vol_ClaimName : string }.

Definition GetChanticoVolume (ValidatedEnv : validatedEnv) : error + Volume :=
  inr (mkVolume ChanticoVolumeMount (VolumeClaim ValidatedEnv)).

(** ** Jobs: the fields of batchv1.Job the program sets or reads *)
Record VolumeMount := mkVolumeMount { vm_Name : string; vm_MountPath : string }.
Record Container := mkContainer {
  ct_Name : string;
  ct_Image : string;
  ct_Command : list string;
  ct_Args : list string;
  ct_VolumeMounts : list VolumeMount
}.

(** Pointers to integers and booleans are the values the program points to. *)
Record SecurityContext := mkSecurityContext {
  sc_RunAsNonRoot : bool;
  sc_RunAsUser : Z;
  sc_RunAsGroup : Z;
  sc_SeccompProfile : string
}.
Record JobSpec := mkJobSpec {
  js_BackoffLimit : Z;
  js_SecurityContext : SecurityContext;
  js_Containers : list Container;
  js_Volumes : list Volume;
  js_RestartPolicy : string
}.
Record JobCondition := mkJobCondition { jc_Type : string; jc_Status : string }.
Record Job := mkJob {
  job_Name : string;
  job_Namespace : string;
  job_Annotations : labels_ptr;
  job_OwnerUIDs : list string;
  job_Spec : JobSpec;
  job_Conditions : list JobCondition
}.

(** [os.Getuid] and [os.Getgid]. *)
Class ProcessIds := { Getuid : Z; Getgid : Z }.

Definition podMountPath : string := "/data".

Definition BuildGeneratorJob `{ProcessIds} (ValidatedEnv : validatedEnv)
    (measurementDevice : MeasurementDevice) : error + Job :=
  match GetChanticoVolume ValidatedEnv with
  | inl err => inl err
  | inr volume =>
      let uid := UID (md_Meta measurementDevice) in
      let generatorPath := VolumeFileStore_Resolve podMountPath [GeneratorFile uid] in
      let mibsDir := VolumeFileStore_Resolve podMountPath [MibsSubDir] in
      let outputPath := VolumeFileStore_Resolve podMountPath [SnmpFile uid] in
      inr {| job_Name := Name (md_Meta measurementDevice);
             job_Namespace := Namespace (md_Meta measurementDevice);
             job_Annotations :=
               Some {[GenerationAnnotation :=
                        strconv.FormatInt (Generation (md_Meta measurementDevice))]};
             job_OwnerUIDs := [];
             job_Spec :=
               {| js_BackoffLimit := 0;
                  js_SecurityContext :=
                    mkSecurityContext (negb (Getuid =? 0)%Z) Getuid Getgid "RuntimeDefault";
                  js_Containers :=
                    [mkContainer "snmp-generator" SnmpGenerator ["/bin/generator"]
                       ["generate"; "--output-path"; outputPath;
                        "--generator-path"; generatorPath; "--mibs-dir"; mibsDir]
                       [mkVolumeMount ChanticoVolumeMount podMountPath]];
                  js_Volumes := [volume];
                  js_RestartPolicy := "Never" |};
             job_Conditions := [] |}
  end.

(** ** What the controller reads of a job *)

(** A map that is nil, a key that is missing and a value that is no number all
    give generation 0, or the end of the range of a number out of it. *)
Definition jobGeneration (job : Job) : Z :=
  let s := default "" (default ∅ (job_Annotations job) !! GenerationAnnotation) in
  (strconv.ParseInt s).1.

Fixpoint has_condition (conditions : list JobCondition) (t : string) : bool :=
  match conditions with
  | [] => false
  | condition :: rest =>
      if decide (jc_Type condition = t ∧ jc_Status condition = "True") then true
      else has_condition rest t
  end.

Definition isJobFailed (job : Job) : bool := has_condition (job_Conditions job) "Failed".
Definition isJobSuccessful (job : Job) : bool := has_condition (job_Conditions job) "Complete".

(** * Lemmas *)

Lemma has_condition_spec cs t : has_condition cs t = true ↔ mkJobCondition t "True" ∈ cs.
Proof.
  induction cs as [|[t' st] cs IH]; cbn [has_condition jc_Type jc_Status].
  - split; [done|]. by intros ?%not_elem_of_nil.
  - case_decide as Hd; rewrite elem_of_cons.
    + destruct Hd as [-> ->]. tauto.
    + rewrite IH. split; [tauto|]. intros [[= <- <-]|?]; tauto.
Qed.

(** ** The files of a device *)

Section DevicePaths.
Context (uid : string) (Huid : filepath.slash ∉ chars uid).

Lemma device_elem_simple pre :
  filepath.slash ∉ chars pre → filepath_facts.simple_elem (pre +:+ uid +:+ ".yaml").
Proof.
  intros Hpre. replace (pre +:+ uid +:+ ".yaml") with ((pre +:+ uid) +:+ ".yaml")
    by (by rewrite str_app_assoc).
  apply filepath_facts.simple_ext; [|compute_done|simpl; lia].
  rewrite chars_app, elem_of_app. tauto.
Qed.

Lemma SnmpFile_plain :
  local (SnmpFile uid) ∧ filepath.Clean (SnmpFile uid) = SnmpFile uid ∧
  kept (SnmpFile uid) = ["snmp"; "yml"; "snmp-" +:+ uid +:+ ".yaml"].
Proof.
  apply (plain_path ["snmp"; "yml"; "snmp-" +:+ uid +:+ ".yaml"]); [done|].
  repeat constructor; try compute_done. all: apply device_elem_simple; compute_done.
Qed.

Lemma GeneratorFile_plain :
  local (GeneratorFile uid) ∧ filepath.Clean (GeneratorFile uid) = GeneratorFile uid ∧
  kept (GeneratorFile uid) = ["snmp"; "generators"; "generator-" +:+ uid +:+ ".yaml"].
Proof.
  apply (plain_path ["snmp"; "generators"; "generator-" +:+ uid +:+ ".yaml"]); [done|].
  repeat constructor; try compute_done. all: apply device_elem_simple; compute_done.
Qed.
End DevicePaths.

Lemma ext_from_app s t e : filepath.ext_from t = Some e → filepath.ext_from (s +:+ t) = Some e.
Proof. intros Ht. induction s as [|c s IH]; [done|]. rewrite str_app_cons. simpl. by rewrite IH. Qed.

(** The last element of a path that ends in [e]. *)
Lemma split_slash_last p e :
  filepath.slash ∉ chars e → ∃ l, filepath.split_slash (p +:+ "/" +:+ e) = l ++ [e].
Proof.
  intros He. exists (filepath.split_slash p).
  change ("/" +:+ e) with (String filepath.slash e).
  rewrite filepath_facts.split_slash_app. f_equal. by apply filepath_facts.split_slash_single.
Qed.

Lemma Base_Ext p e :
  filepath.slash ∉ chars e → e ≠ "" →
  filepath.Base (p +:+ "/" +:+ e) = e ∧
  filepath.Ext (p +:+ "/" +:+ e) = default "" (filepath.ext_from e).
Proof.
  intros He Hne. destruct (split_slash_last p e He) as [l Hl].
  unfold filepath.Base, filepath.Ext, filepath.last_elem. rewrite Hl, last_snoc.
  split; [|done]. rewrite decide_False by (by destruct p).
  rewrite reverse_snoc. simpl. by destruct e.
Qed.

Lemma SnmpFile_per_device uid : filepath.slash ∉ chars uid → per_device (SnmpFile uid) = true.
Proof.
  intros Hu. change (SnmpFile uid) with ("snmp/yml" +:+ "/" +:+ ("snmp-" +:+ uid +:+ ".yaml")).
  destruct (device_elem_simple uid Hu "snmp-") as (Hs & He & _); [compute_done|].
  unfold per_device. destruct (Base_Ext "snmp/yml" _ Hs He) as [-> ->].
  rewrite andb_true_iff, bool_decide_eq_true. split; [reflexivity|].
  rewrite (ext_from_app "snmp-" _ ".yaml"); [done|]. by apply ext_from_app.
Qed.

Lemma SnmpMergedFile_not_per_device : per_device SnmpMergedFile = false.
Proof. reflexivity. Qed.

Lemma SnmpSubDir_local : local SnmpSubDir.
Proof. apply (bool_decide_unpack _). vm_compute. exact I. Qed.

Lemma SnmpMergedFile_plain :
  local SnmpMergedFile ∧ filepath.Clean SnmpMergedFile = SnmpMergedFile ∧
  kept SnmpMergedFile = ["snmp"; "yml"; "snmp.yml"].
Proof. split; [apply (bool_decide_unpack _); vm_compute; exact I|done]. Qed.

(** The file the job writes counts for the merge, under any store. *)
Lemma SnmpFile_device_file {St} `{FileStoreLaws St content} uid :
  filepath.slash ∉ chars uid → device_file (St := St) SnmpSubDir (SnmpFile uid).
Proof.
  intros Hu. destruct (SnmpFile_plain uid Hu) as (Hl & Hc & Hk). split_and!; [done|done| |].
  - apply (inside_kept _ _ ["snmp-" +:+ uid +:+ ".yaml"] SnmpSubDir_local Hl); [|done].
    by rewrite Hk.
  - by apply SnmpFile_per_device.
Qed.

(** Two plain paths are the same file only if they are equal. *)
Lemma plain_resolve {St} `{FileStoreLaws St content} p q :
  local p → filepath.Clean p = p → local q → filepath.Clean q = q →
  fs_Resolve [p] = fs_Resolve [q] → p = q.
Proof. intros Hp Hcp Hq Hcq E. rewrite <-Hcp, <-Hcq. by apply resolve_inj. Qed.

Lemma SnmpFile_inj uid1 uid2 : SnmpFile uid1 = SnmpFile uid2 → uid1 = uid2.
Proof. intros E%(inj (String.append "snmp/yml/snmp-")). by apply app_inj_suffix in E. Qed.
Lemma GeneratorFile_inj uid1 uid2 : GeneratorFile uid1 = GeneratorFile uid2 → uid1 = uid2.
Proof.
  intros E%(inj (String.append "snmp/generators/generator-")).
  by apply app_inj_suffix in E.
Qed.
Lemma SnmpFile_not_merged uid : SnmpFile uid ≠ SnmpMergedFile.
Proof. discriminate. Qed.
Lemma GeneratorFile_not_merged uid : GeneratorFile uid ≠ SnmpMergedFile.
Proof. discriminate. Qed.
Lemma GeneratorFile_not_SnmpFile uid1 uid2 : GeneratorFile uid1 ≠ SnmpFile uid2.
Proof. discriminate. Qed.

Section JobProperties.
Context `{ProcessIds} (env : validatedEnv).
Implicit Types (md : MeasurementDevice) (job : Job).

Lemma jobGeneration_built md job :
  (- 2 ^ 63 ≤ Generation (md_Meta md) < 2 ^ 63)%Z →
  BuildGeneratorJob env md = inr job → jobGeneration job = Generation (md_Meta md).
Proof.
  intros Hg [= <-]. unfold jobGeneration. cbn [job_Annotations].
  assert (({[GenerationAnnotation := strconv.FormatInt (Generation (md_Meta md))]} : gmap string string)
    !! GenerationAnnotation = Some (strconv.FormatInt (Generation (md_Meta md)))) as E
    by apply lookup_singleton_eq.
  change (default ∅ (Some ?m)) with m. rewrite E.
  change (default "" (Some ?v)) with v. by rewrite strconv_facts.ParseInt_FormatInt.
Qed.

(** The job built for a device carries the generation it was built for:
    reading the annotation back gives it, over the whole range of generations. *)
Theorem jobGeneration_BuildGeneratorJob md job :
  (- 2 ^ 63 ≤ Generation (md_Meta md) < 2 ^ 63)%Z →
  BuildGeneratorJob env md = inr job → jobGeneration job = Generation (md_Meta md).
Proof. apply jobGeneration_built. Qed.

(** The job and the operator mean the same files: the path each file has in
    the job's container leads to the same place below the mounted volume as the
    operator's path leads to below its own root. *)
Theorem BuildGeneratorJob_paths Root md job :
  Root ≠ "" → filepath.slash ∉ chars (UID (md_Meta md)) → BuildGeneratorJob env md = inr job →
  ∃ container output generator mibs,
    js_Containers (job_Spec job) = [container] ∧
    vm_MountPath <$> ct_VolumeMounts container = [podMountPath] ∧
    ct_Args container = ["generate"; "--output-path"; output; "--generator-path"; generator;
                         "--mibs-dir"; mibs] ∧
    below podMountPath output = below Root (VolumeFileStore_Resolve Root [SnmpFile (UID (md_Meta md))]) ∧
    below podMountPath generator =
      below Root (VolumeFileStore_Resolve Root [GeneratorFile (UID (md_Meta md))]) ∧
    below podMountPath output = Some ["snmp"; "yml"; "snmp-" +:+ UID (md_Meta md) +:+ ".yaml"].
Proof.
  intros HR Hu [= <-]. eexists _, _, _, _. split; [reflexivity|]. split; [reflexivity|].
  split; [reflexivity|].
  destruct (SnmpFile_plain _ Hu) as (Hl & _ & Hk), (GeneratorFile_plain _ Hu) as (Hl' & _ & Hk').
  rewrite !Resolve_below by done. by rewrite Hk.
Qed.
End JobProperties.

Module JobSample.
#[export] Instance process_ids : ProcessIds := {| Getuid := 1000; Getgid := 1000 |}.
Definition env : validatedEnv := mkValidatedEnv "/mnt" "chantico-claim" "prom" "9090" "chantico" "".
Definition device : MeasurementDevice :=
  {| md_Meta := mkObjectMeta "tno" "chantico" "a-random-uid" 7 None [SNMPUpdateFinalizer];
     md_Spec := mkMeasurementDeviceSpec ["1.3.6.1"] (Some (Selector.mkSelector "public" None));
     md_Status := mkMeasurementDeviceStatus 0 "" [] |}.
Definition job : Job :=
  match BuildGeneratorJob env device with
  | inr j => j
  | inl _ => mkJob "" "" None [] (mkJobSpec 0 (mkSecurityContext false 0 0 "") [] [] "") []
  end.
End JobSample.
Import JobSample.

Lemma jobGeneration_BuildGeneratorJob_witness : jobGeneration JobSample.job = 7%Z.
Proof.
  apply (jobGeneration_BuildGeneratorJob JobSample.env JobSample.device JobSample.job).
  - split; reflexivity || discriminate.
  - reflexivity.
Defined.

Lemma BuildGeneratorJob_paths_witness :
  ∃ container output generator mibs,
    js_Containers (job_Spec JobSample.job) = [container] ∧
    vm_MountPath <$> ct_VolumeMounts container = [podMountPath] ∧
    ct_Args container = ["generate"; "--output-path"; output; "--generator-path"; generator;
                         "--mibs-dir"; mibs] ∧
    below podMountPath output =
      below "/mnt" (VolumeFileStore_Resolve "/mnt" [SnmpFile (UID (md_Meta JobSample.device))]) ∧
    below podMountPath generator =
      below "/mnt" (VolumeFileStore_Resolve "/mnt" [GeneratorFile (UID (md_Meta JobSample.device))]) ∧
    below podMountPath output =
      Some ["snmp"; "yml"; "snmp-" +:+ UID (md_Meta JobSample.device) +:+ ".yaml"].
Proof.
  apply (BuildGeneratorJob_paths JobSample.env "/mnt" JobSample.device JobSample.job).
  - discriminate.
  - apply (bool_decide_unpack _). vm_compute. exact I.
  - reflexivity.
Defined.
