(* ===== verification/MeasurementDeviceController.v ===== *)
(** [internal/controller/measurementdevice_controller.go]: a measurement device
    becomes a generator file, a job that turns it into an SNMP configuration,
    its share of the merged configuration, and a reload of the exporter. *)
From S2P Require Import Prelude GoStd Errors Paths FileStore Selector.
From S2P Require Import Configuration ApiTypes Steps Cluster.
From S2P Require Import Sha256 Snmp MeasurementDeviceJob.

(** ** What the controller asks of the cluster *)
Class JobClient (A : Type) := {
  List_Jobs : A → string → error + list Job;
  Create_Job : Job → A → option error * A;
  Delete_Job : Job → A → option error * A
}.

(** controllerutil.SetControllerReference, with the manager's scheme. *)
Class OwnerUtil := { SetControllerReference : MeasurementDevice → Job → error + Job }.

(** [Patch_Deployment old new]: what changed from [old] to [new] is sent. *)
Class DeploymentClient (A : Type) := {
  Get_Deployment : A → string → string → error + Deployment;
  Patch_Deployment : Deployment → Deployment → A → option error * A
}.

(** client.IgnoreNotFound. *)
Definition IgnoreNotFound (err : option error) : option error :=
  match err with
  | Some e => if IsNotFound e then None else Some e
  | None => None
  end.

(** One [append] for every owner reference that matches. *)
Definition owned_by (uid : string) (jobs : list Job) : list Job :=
  jobs ≫= λ job, (λ _, job) <$> filter (λ owner, owner = uid) (job_OwnerUIDs job).

Definition set_template_annotation (key value : string) (d : Deployment) : Deployment :=
  {| deploy_Name := deploy_Name d; deploy_Namespace := deploy_Namespace d;
     deploy_Generation := deploy_Generation d;
     deploy_ObservedGeneration := deploy_ObservedGeneration d;
     deploy_UnavailableReplicas := deploy_UnavailableReplicas d;
     deploy_TemplateAnnotations :=
       Some (<[key := value]> (default ∅ (deploy_TemplateAnnotations d))) |}.

Section Controller.
Context {A : Type} `{UnicodeTables, MetaConditions, FinalizerUtil, ProcessIds, OwnerUtil, SnmpYaml}.
Context `{SelectorClient A, JobClient A, DeploymentClient A}.
Context `{Getter A MeasurementDevice, Patcher A MeasurementDevice, FileStore Fs}.
(** config.ValidatedEnv. *)
Context (ValidatedEnv : validatedEnv).

Abbreviation W := (World MeasurementDevice A).

Definition has_finalizer (d : MeasurementDevice) : bool :=
  ContainsFinalizer (Finalizers (md_Meta d)) SNMPUpdateFinalizer.
Definition update_finalizers (f : list string → list string) (d : MeasurementDevice) :
    MeasurementDevice :=
  set_md_Meta (set_Finalizers (f (Finalizers (md_Meta d))) (md_Meta d)) d.

Definition getOwnedJobs (api : A) (measurementDevice : MeasurementDevice) : error + list Job :=
  match List_Jobs api (Namespace (md_Meta measurementDevice)) with
  | inl err => inl err
  | inr items => inr (owned_by (UID (md_Meta measurementDevice)) items)
  end.

Definition getSnmpExporterDeployment (api : A) : error + Deployment :=
  Get_Deployment api (PodNamespace ValidatedEnv) "chantico-snmp".

(** [Resolve] dereferences its receiver: an unset [AuthFrom] panics. *)
Definition desiredGeneratorConfig (api : A) (measurementDevice : MeasurementDevice) :
    outcome (error + string) :=
  match md_AuthFrom (md_Spec measurementDevice) with
  | None => Panicked
  | Some authFrom =>
      Done match Selector_Resolve authFrom api (Namespace (md_Meta measurementDevice)) with
           | inl err => inl err
           | inr authString =>
               match Unmarshal_GeneratorAuth authString with
               | inl err => inl err
               | inr ga =>
                   Marshal_GeneratorConfig
                     (mkGeneratorConfig {[Name (md_Meta measurementDevice) := ga]}
                        {[Name (md_Meta measurementDevice) :=
                            mkGeneratorModule (md_Walks (md_Spec measurementDevice))]} 0)
               end
           end
  end.

(** ** The generator file *)
Definition reconcileGeneratorFile : Go W StepResult :=
  d ← the_obj;
  let path := GeneratorFile (UID (md_Meta d)) in
  r ← fs_call (fs_ReadAll path);
  match r with
  | inl err =>
      if Is_ErrNotExist err then
        api ← the_api;
        dr ← lift_outcome (desiredGeneratorConfig api d);
        match dr with
        | inl derr =>
            fail_step ConditionGenerated ReasonGenerationFailed
              ("Failed to marshal generator config: " +:+ Error err) derr
        | inr desired =>
            w ← fs_call (fs_Write path desired);
            match w with
            | Some werr =>
                fail_step ConditionGenerated ReasonGenerationFailed
                  ("Failed to marshal generator config: " +:+ Error err) werr
            | None =>
                pass_step ConditionGenerated ConditionTrue ReasonReconciled
                  "Generator file has been generated successfully." Continue
            end
        end
      else
        fail_step ConditionGenerated ReasonGenerationFailed
          ("Failed to read generator file " +:+ path +:+ ": " +:+ Error err) err
  | inr observed =>
      api ← the_api;
      dr ← lift_outcome (desiredGeneratorConfig api d);
      match dr with
      | inl err =>
          fail_step ConditionGenerated ReasonGenerationFailed
            ("Failed to marshal generator config: " +:+ Error err) err
      | inr desired =>
          if decide (observed = desired) then
            pass_step ConditionGenerated ConditionTrue ReasonReconciled
              "Generator file is up to date" Continue
          else
            w ← fs_call (fs_Write path desired);
            match w with
            | Some err =>
                fail_step ConditionGenerated ReasonReconciled
                  ("Failed to write generator file at path: " +:+ Error err) err
            | None =>
                pass_step ConditionGenerated ConditionTrue ReasonReconciled
                  "Generator file has been generated successfully" Continue
            end
      end
  end.

(** ** The generator job *)
Definition createGeneratorJob : Go W StepResult :=
  d ← the_obj;
  match BuildGeneratorJob ValidatedEnv d with
  | inl err =>
      fail_step ConditionGenerated ReasonGenerationFailed
        ("Failed to build SNMP Generator job: " +:+ Error err) err
  | inr built =>
      match SetControllerReference d built with
      | inl err =>
          fail_step ConditionGenerated ReasonGenerationFailed
            ("Failed to set controller reference for SNMP Generator job: " +:+ Error err) err
      | inr job =>
          cerr ← api_call (Create_Job job);
          match cerr with
          | Some err =>
              fail_step ConditionGenerated ReasonGenerationFailed
                ("Failed to create SNMP Generator job: " +:+ Error err) err
          | None =>
              pass_step ConditionGenerated ConditionUnknown ReasonGenerationPending
                "SNMP Generator Job created" Stop
          end
      end
  end.

Definition evaluateGeneratorJob (job : Job) : Go W StepResult :=
  d ← the_obj;
  if decide (jobGeneration job ≠ Generation (md_Meta d)) then
    derr ← api_call (Delete_Job job);
    match IgnoreNotFound derr with
    | Some err =>
        fail_step ConditionGenerated ReasonGenerationFailed
          ("Failed to delete stale SNMP Generator job " +:+ job_Name job +:+ ": " +:+ Error err) err
    | None => mret Stop
    end
  else if isJobSuccessful job then
    pass_step ConditionGenerated ConditionUnknown ReasonGenerationPending
      "SNMP Generator Job succeeded; generated config is being verified" Continue
  else if isJobFailed job then
    pass_step ConditionGenerated ConditionFalse ReasonGenerationFailed
      "SNMP Generator Job failed" Stop
  else
    pass_step ConditionGenerated ConditionUnknown ReasonGenerationPending
      "SNMP Generator Job is running" Stop.

Definition reconcileSNMPGeneratorJob : Go W StepResult :=
  d ← the_obj;
  api ← the_api;
  match getOwnedJobs api d with
  | inl err =>
      fail_step ConditionGenerated ReasonGenerationFailed
        ("Failed to get owned SNMP Generator jobs: " +:+ Error err) err
  | inr [] => createGeneratorJob
  | inr [job] => evaluateGeneratorJob job
  | inr jobs =>
      let n := strconv.FormatInt (Z.of_nat (length jobs)) in
      fail_step ConditionGenerated ReasonGenerationFailed
        ("Expected at most 1 owned job, found " +:+ n)
        (errorString ("expected at most 1 owned job, found " +:+ n))
  end.

(** ** The generated configuration *)
Definition reconcileSNMPFileContent : Go W StepResult :=
  d ← the_obj;
  let path := SnmpFile (UID (md_Meta d)) in
  r ← fs_call (fs_ReadAll path);
  match r with
  | inl err =>
      fail_step ConditionGenerated ReasonGenerationFailed
        ("Failed to read SNMP file " +:+ path +:+ ": " +:+ Error err) err
  | inr config =>
      let configHash := EncodeToString (Sum256 config) in
      if decide (md_ConfigHash (md_Status d) = configHash) then
        pass_step ConditionGenerated ConditionTrue ReasonReconciled
          "ConfigHash matches with SNMP configuration" Continue
      else
        with_obj (set_md_ConfigHash configHash);;
        pass_step ConditionGenerated ConditionTrue ReasonReconciled
          "ConfigHash has been updated to match with SNMP configuration" Continue
  end.

(** The bytes compared: none when the file does not exist. *)
Definition write_merged (existing merged : string) : Go W StepResult :=
  if decide (existing = merged) then
    pass_step ConditionApplied ConditionUnknown ReasonReconciling
      "Merged SNMP file is up to date; exporter reload is being verified" Continue
  else
    w ← fs_call (fs_Write SnmpMergedFile merged);
    match w with
    | Some err =>
        fail_step ConditionApplied ReasonApplyFailed
          ("Failed to write merged SNMP file " +:+ SnmpMergedFile +:+ ": " +:+ Error err) err
    | None =>
        pass_step ConditionApplied ConditionUnknown ReasonReconciling
          "Merged SNMP file has been written successfully; exporter reload is pending" Continue
    end.

Definition reconcileMergedSNMPFile : Go W StepResult :=
  m ← fs_call (GetMergedSortedSNMPConfig SnmpSubDir);
  match m with
  | inl err =>
      fail_step ConditionApplied ReasonApplyFailed ("Failed to read SNMP configs: " +:+ Error err) err
  | inr merged =>
      r ← fs_call (fs_ReadAll SnmpMergedFile);
      match r with
      | inl err =>
          if negb (Is_ErrNotExist err) then
            fail_step ConditionApplied ReasonApplyFailed
              ("Failed to read merged SNMP file: " +:+ Error err) err
          else write_merged "" merged
      | inr existing => write_merged existing merged
      end
  end.

(** ** The exporter *)

(** The annotation is compared as a string: one that is missing is empty. *)
Definition apply_exporter (desiredHash : string) (exporter : Deployment) : Go W StepResult :=
  let current := default "" (default ∅ (deploy_TemplateAnnotations exporter) !! ConfigHashAnnotation) in
  if decide (current = desiredHash) then
    pass_step ConditionApplied ConditionTrue ReasonReconciled
      "SNMP exporter is up to date with merged config." Continue
  else
    perr ← api_call (Patch_Deployment exporter
                       (set_template_annotation ConfigHashAnnotation desiredHash exporter));
    match perr with
    | Some err =>
        fail_step ConditionApplied ReasonApplyFailed
          ("Failed to patch SNMP exporter deployment " +:+ deploy_Name exporter +:+ ": " +:+ Error err) err
    | None =>
        pass_step ConditionApplied ConditionTrue ReasonReconciled
          "SNMP exporter deployment annotation updated to trigger reload" Continue
    end.

Definition reconcileExporterReload : Go W StepResult :=
  r ← fs_call (fs_ReadAll SnmpMergedFile);
  match r with
  | inl err =>
      if Is_ErrNotExist err then
        pass_step ConditionApplied ConditionUnknown ReasonGenerationPending
          "Merged SNMP file does not exist yet" Continue
      else
        fail_step ConditionApplied ReasonApplyFailed
          ("Failed to read merged SNMP file: " +:+ Error err) err
  | inr merged =>
      api ← the_api;
      match getSnmpExporterDeployment api with
      | inl err =>
          fail_step ConditionApplied ReasonDependencyUnavailable
            ("Failed to get SNMP exporter deployment: " +:+ Error err) err
      | inr exporter => apply_exporter (Hash merged) exporter
      end
  end.

(** ** Deletion *)
Fixpoint delete_jobs (jobs : list Job) : Go W (option error) :=
  match jobs with
  | [] => mret None
  | job :: rest =>
      derr ← api_call (Delete_Job job);
      match IgnoreNotFound derr with
      | Some err => mret (Some err)
      | None => delete_jobs rest
      end
  end.

Fixpoint remove_files (paths : list string) : Go W (option error) :=
  match paths with
  | [] => mret None
  | path :: rest =>
      rerr ← fs_call (fs_Remove path);
      match rerr with
      | Some err => if Is_ErrNotExist err then remove_files rest else mret (Some err)
      | None => remove_files rest
      end
  end.

(** Run a step and go on unless it fails. *)
Definition unless_error (step next : Go W StepResult) : Go W StepResult :=
  res ← step;
  if decide (sr_Action res = ActionError) then mret res else next.

Definition reconcileDeletion : Go W StepResult :=
  d ← the_obj;
  if decide (DeletionTimestamp (md_Meta d) = None) then mret Continue
  else if negb (has_finalizer d) then mret Stop
  else
    api ← the_api;
    match getOwnedJobs api d with
    | inl err =>
        fail_step ConditionApplied ReasonCleanupFailed
          ("Failed to get owned jobs: " +:+ Error err) err
    | inr jobs =>
        jerr ← delete_jobs jobs;
        match jerr with
        | Some err =>
            fail_step ConditionApplied ReasonCleanupFailed
              ("Failed to delete owned job: " +:+ Error err) err
        | None =>
            rerr ← remove_files [GeneratorFile (UID (md_Meta d)); SnmpFile (UID (md_Meta d))];
            match rerr with
            | Some err =>
                fail_step ConditionApplied ReasonCleanupFailed
                  ("Error while removing SNMP file: " +:+ Error err) err
            | None =>
                unless_error reconcileMergedSNMPFile
                  (unless_error reconcileExporterReload
                     (with_obj (update_finalizers (λ fs, RemoveFinalizer fs SNMPUpdateFinalizer));;
                      mret Stop))
            end
        end
    end.

Definition ensureFinalizerIsSet : Go W StepResult :=
  d ← the_obj;
  if has_finalizer d then mret Continue
  else
    with_obj (update_finalizers (λ fs, AddFinalizer fs SNMPUpdateFinalizer));;
    mret Stop.

Definition reconcileReady : Go W StepResult :=
  pass_step ConditionReady ConditionTrue ReasonReconciled "Fully reconciled and ready" Continue.

Definition reconcile_steps : list (Func W) :=
  [reconcileDeletion; ensureFinalizerIsSet; reconcileGeneratorFile; reconcileSNMPGeneratorJob;
   reconcileSNMPFileContent; reconcileMergedSNMPFile; reconcileExporterReload; reconcileReady].

Definition Reconcile (namespace name : string) (s : Fs * A) :
    outcome (Result * option error) * (Fs * A) :=
  reconcile_with (λ d, d) reconcile_steps namespace name s.
End Controller.

(** * Theorems *)

(** ** The generator job, abstractly

    What a pass makes of the jobs: its answer, the API after it, and what the
    Generated condition shows. *)
Section JobPass.
Context {A : Type} `{ProcessIds, OwnerUtil, JobClient A}.
Inductive job_pass (env : validatedEnv) (d : MeasurementDevice) (api : A)
    (shown : option ConditionStatus) : StepResult → A → option ConditionStatus → Prop :=
| jobs_unknown e :
    getOwnedJobs api d = inl e →
    job_pass env d api shown (StepError e) api (Some ConditionFalse)
| job_unbuilt e :
    getOwnedJobs api d = inr [] →
    BuildGeneratorJob env d = inl e ∨
      (∃ built, BuildGeneratorJob env d = inr built ∧ SetControllerReference d built = inl e) →
    job_pass env d api shown (StepError e) api (Some ConditionFalse)
| job_created built job api' :
    getOwnedJobs api d = inr [] → BuildGeneratorJob env d = inr built →
    SetControllerReference d built = inr job → Create_Job job api = (None, api') →
    job_pass env d api shown Stop api' (Some ConditionUnknown)
| job_refused built job e api' :
    getOwnedJobs api d = inr [] → BuildGeneratorJob env d = inr built →
    SetControllerReference d built = inr job → Create_Job job api = (Some e, api') →
    job_pass env d api shown (StepError e) api' (Some ConditionFalse)
| job_stale job err api' :
    getOwnedJobs api d = inr [job] → jobGeneration job ≠ Generation (md_Meta d) →
    Delete_Job job api = (err, api') → IgnoreNotFound err = None →
    job_pass env d api shown Stop api' shown
| job_stuck job err e api' :
    getOwnedJobs api d = inr [job] → jobGeneration job ≠ Generation (md_Meta d) →
    Delete_Job job api = (err, api') → IgnoreNotFound err = Some e →
    job_pass env d api shown (StepError e) api' (Some ConditionFalse)
| job_succeeded job :
    getOwnedJobs api d = inr [job] → jobGeneration job = Generation (md_Meta d) →
    mkJobCondition "Complete" "True" ∈ job_Conditions job →
    job_pass env d api shown Continue api (Some ConditionUnknown)
| job_failed job :
    getOwnedJobs api d = inr [job] → jobGeneration job = Generation (md_Meta d) →
    mkJobCondition "Complete" "True" ∉ job_Conditions job →
    mkJobCondition "Failed" "True" ∈ job_Conditions job →
    job_pass env d api shown Stop api (Some ConditionFalse)
| job_running job :
    getOwnedJobs api d = inr [job] → jobGeneration job = Generation (md_Meta d) →
    mkJobCondition "Complete" "True" ∉ job_Conditions job →
    mkJobCondition "Failed" "True" ∉ job_Conditions job →
    job_pass env d api shown Stop api (Some ConditionUnknown)
| jobs_many jobs e :
    getOwnedJobs api d = inr jobs → 2 ≤ length jobs →
    job_pass env d api shown (StepError e) api (Some ConditionFalse).
End JobPass.

Section Facts.
Context {A : Type} `{UnicodeTables, MetaConditionsLaws, FinalizerUtilLaws, ProcessIds, OwnerUtil, SnmpYaml}.
Context `{SelectorClient A, JobClient A, DeploymentClient A}.
Context `{Getter A MeasurementDevice, Patcher A MeasurementDevice, FileStoreLaws Fs content}.
Context (env : validatedEnv).
Abbreviation W := (World MeasurementDevice A).
Implicit Types (w : W) (d : MeasurementDevice) (job : Job).

(** ** What the steps leave alone *)

(** The object keeps its metadata, its spec and its Ready condition. *)
Definition same_core : relation W := λ w w',
  md_Meta (w_obj w') = md_Meta (w_obj w) ∧ md_Spec (w_obj w') = md_Spec (w_obj w) ∧
  condition_status ConditionReady (w_obj w') = condition_status ConditionReady (w_obj w).
Global Instance same_core_preorder : PreOrder same_core.
Proof. split; [by intros w|]. unfold same_core. intros w1 w2 w3. intuition congruence. Qed.

(** Every file reads as before, but those [P] names. *)
Definition same_contents_but (P : string → Prop) : relation W := λ w w',
  ∀ q, ¬ P q → content (w_fs w') q = content (w_fs w) q.
Definition same_contents : relation W := same_contents_but (λ _, False).
Global Instance same_contents_preorder P : PreOrder (same_contents_but P).
Proof.
  split; [by intros w|]. unfold same_contents_but. intros w1 w2 w3 Ha Hb q Hq.
  by rewrite Hb, Ha.
Qed.

Definition is_file (p q : string) : Prop := fs_Resolve [q] = fs_Resolve [p].

Lemma core_condition t s r msg w fs api :
  t ≠ ConditionReady → same_core w (mkWorld (UpdateStatusCondition t s r msg (w_obj w)) fs api).
Proof.
  intros Ht. split_and!; [done..|]. cbn [w_obj]. by rewrite condition_status_update, decide_False.
Qed.

Lemma core_hash h w fs api : same_core w (mkWorld (set_md_ConfigHash h (w_obj w)) fs api).
Proof. done. Qed.

(** Both kinds of step endings. *)
Lemma run_fail_step t r msg e w :
  fail_step t r msg e w =
  (Done (StepError e), mkWorld (UpdateStatusCondition t ConditionFalse r msg (w_obj w)) (w_fs w) (w_api w)).
Proof. reflexivity. Qed.
Lemma run_pass_step t s r msg res w :
  pass_step t s r msg res w =
  (Done res, mkWorld (UpdateStatusCondition t s r msg (w_obj w)) (w_fs w) (w_api w)).
Proof. reflexivity. Qed.

(** ** Each step, by its answer *)

(** The generator file: it holds the configuration of the spec, or the step
    fails, or panics when the authentication is not set. *)
Definition generates (api : A) d path w (q : outcome StepResult * W) : Prop :=
  same_core w q.2 ∧ w_api q.2 = w_api w ∧ same_contents_but (is_file path) w q.2 ∧
  match q.1 with
  | Panicked => md_AuthFrom (md_Spec d) = None ∧ same_contents w q.2
  | Done res =>
      (∃ desired, res = Continue ∧ desiredGeneratorConfig api d = Done (inr desired) ∧
         content (w_fs q.2) path = Some desired) ∨
      ((∃ e, res = StepError e) ∧ same_contents w q.2)
  end.

Lemma generates_fail api d path w fs t r msg e :
  t ≠ ConditionReady → (∀ q, content fs q = content (w_fs w) q) →
  generates api d path w (fail_step t r msg e (mkWorld (w_obj w) fs (w_api w))).
Proof.
  intros Ht Hfs. rewrite run_fail_step. split_and!; [by apply (core_condition _ _ _ _ w)|done|..].
  - intros q _. apply Hfs.
  - right. split; [eauto|]. intros q _. apply Hfs.
Qed.

Lemma generates_write api d path desired w fs t s r msg r' msg' :
  t ≠ ConditionReady → (∀ q, content fs q = content (w_fs w) q) →
  desiredGeneratorConfig api d = Done (inr desired) →
  generates api d path w
    ((fs_call (fs_Write path desired) ≫= λ we : option error,
       match we with
       | Some err => fail_step t r (msg err) err
       | None => pass_step t s r' msg' Continue
       end) (mkWorld (w_obj w) fs (w_api w))).
Proof.
  intros Ht Hfs Hd. rewrite run_bind, run_fs_call. cbn [w_obj w_fs w_api].
  destruct (fs_Write path desired fs) as [[e|] fs2] eqn:Ew; cbn [fst snd].
  - apply generates_fail; [done|]. intros q. by rewrite (write_err _ _ _ _ _ Ew).
  - pose proof (write_ok _ _ _ _ Ew) as Hc. rewrite run_pass_step.
    split_and!; [by apply (core_condition _ _ _ _ w)|done| |].
    + intros q Hq. cbn [w_fs snd]. by rewrite Hc, decide_False.
    + left. exists desired. split_and!; [done..|]. cbn [w_fs snd]. by rewrite Hc, decide_True.
Qed.

Lemma generates_panic d path api w fs :
  desiredGeneratorConfig api d = Panicked → (∀ q, content fs q = content (w_fs w) q) →
  generates api d path w (Panicked, mkWorld (w_obj w) fs (w_api w)).
Proof.
  intros Hp Hfs. split; [done|]. split; [done|]. split; [intros q _; apply Hfs|].
  split; [|intros q _; apply Hfs].
  revert Hp. unfold desiredGeneratorConfig. by destruct (md_AuthFrom _).
Qed.

Lemma reconcileGeneratorFile_spec w :
  generates (w_api w) (w_obj w) (GeneratorFile (UID (md_Meta (w_obj w)))) w (reconcileGeneratorFile w).
Proof.
  unfold reconcileGeneratorFile. rewrite run_bind, run_the_obj.
  set (path := GeneratorFile _). rewrite run_bind, run_fs_call.
  pose proof (read_frame path (w_fs w)) as Hfr. pose proof (read_ok path (w_fs w)) as Hok.
  destruct (fs_ReadAll path (w_fs w)) as [r fs1]. cbn [fst snd] in *.
  destruct r as [e|observed]; [destruct (Is_ErrNotExist e); [|by apply generates_fail]|];
    rewrite run_bind; unfold the_api; rewrite run_gets; cbn [w_obj w_fs w_api];
    rewrite run_bind; unfold lift_outcome;
    destruct (desiredGeneratorConfig (w_api w) (w_obj w)) as [[err|desired]|] eqn:Hd;
    try (by apply generates_fail); try (by apply generates_panic); [by apply generates_write|].
  case_decide as Heq; [|by apply (generates_write _ _ _ _ _ _ _ _ _ _ _ _)].
  rewrite run_pass_step. split_and!; [by apply (core_condition _ _ _ _ w)|done| |].
  - intros q _. apply Hfr.
  - left. exists desired. split_and!; [done..|]. cbn [w_fs snd]. rewrite Hfr. subst. by apply Hok.
Qed.

(** ** The job *)
Definition job_refines w (q : outcome StepResult * W) : Prop :=
  same_core w q.2 ∧ w_fs q.2 = w_fs w ∧
  ∃ res, q.1 = Done res ∧
    job_pass env (w_obj w) (w_api w) (condition_status ConditionGenerated (w_obj w)) res
      (w_api q.2) (condition_status ConditionGenerated (w_obj q.2)).

(** The end of the step: the Generated condition is set and the answer given. *)
Lemma job_refines_end w s r msg res api' :
  job_pass env (w_obj w) (w_api w) (condition_status ConditionGenerated (w_obj w)) res api' (Some s) →
  job_refines w
    (Done res, mkWorld (UpdateStatusCondition ConditionGenerated s r msg (w_obj w)) (w_fs w) api').
Proof.
  intros Hp. split; [by apply (core_condition _ _ _ _ w)|]. split; [done|].
  exists res. split; [done|]. cbn [snd w_obj w_api].
  by rewrite condition_status_update, decide_True.
Qed.

Lemma createGeneratorJob_refines w :
  getOwnedJobs (w_api w) (w_obj w) = inr [] → job_refines w (createGeneratorJob env w).
Proof.
  intros Hj. unfold createGeneratorJob. rewrite run_bind, run_the_obj.
  destruct (BuildGeneratorJob env (w_obj w)) as [e|built] eqn:Hb.
  { rewrite run_fail_step. apply job_refines_end, job_unbuilt; auto. }
  destruct (SetControllerReference (w_obj w) built) as [e|job] eqn:Hs.
  { rewrite run_fail_step. apply job_refines_end, job_unbuilt; eauto. }
  rewrite run_bind, run_api_call.
  destruct (Create_Job job (w_api w)) as [[e|] api'] eqn:Hc; cbn [fst snd];
    rewrite ?run_fail_step, ?run_pass_step; cbn [w_obj w_fs w_api]; apply job_refines_end;
    [by eapply job_refused|by eapply job_created].
Qed.

Lemma evaluateGeneratorJob_refines w job :
  getOwnedJobs (w_api w) (w_obj w) = inr [job] → job_refines w (evaluateGeneratorJob job w).
Proof.
  intros Hj. unfold evaluateGeneratorJob. rewrite run_bind, run_the_obj.
  case_decide as Hg.
  - rewrite run_bind, run_api_call.
    destruct (Delete_Job job (w_api w)) as [err api'] eqn:Hd; cbn [fst snd].
    destruct (IgnoreNotFound err) as [e|] eqn:Hi.
    + rewrite run_fail_step. cbn [w_obj w_fs w_api]. by eapply job_refines_end, job_stuck.
    + rewrite run_ret. split; [done|]. split; [done|]. exists Stop. split; [done|].
      by eapply job_stale.
  - pose proof (has_condition_spec (job_Conditions job) "Complete") as Hcomp.
    pose proof (has_condition_spec (job_Conditions job) "Failed") as Hfail.
    unfold isJobSuccessful, isJobFailed.
    destruct (has_condition _ "Complete"); [|destruct (has_condition _ "Failed")];
      rewrite run_pass_step; apply job_refines_end;
      [eapply job_succeeded|eapply job_failed|eapply job_running]; naive_solver.
Qed.

Lemma job_step_refines w : job_refines w (reconcileSNMPGeneratorJob env w).
Proof.
  unfold reconcileSNMPGeneratorJob. rewrite run_bind, run_the_obj.
  rewrite run_bind. unfold the_api. rewrite run_gets.
  destruct (getOwnedJobs (w_api w) (w_obj w)) as [e|[|j1 [|j2 js]]] eqn:Hj.
  - rewrite run_fail_step. by apply job_refines_end, jobs_unknown.
  - by apply createGeneratorJob_refines.
  - by apply evaluateGeneratorJob_refines.
  - cbv zeta. rewrite run_fail_step. eapply job_refines_end, jobs_many; [done|simpl; lia].
Qed.

(** ** The generated configuration *)
Lemma reconcileSNMPFileContent_spec w :
  let q := reconcileSNMPFileContent w in
  same_core w q.2 ∧ w_api q.2 = w_api w ∧ same_contents w q.2 ∧
  ((∃ e, q.1 = Done (StepError e)) ∨
   ∃ config, q.1 = Done Continue ∧
     content (w_fs q.2) (SnmpFile (UID (md_Meta (w_obj w)))) = Some config ∧
     md_ConfigHash (md_Status (w_obj q.2)) = Hash config).
Proof.
  unfold reconcileSNMPFileContent. rewrite run_bind, run_the_obj.
  set (path := SnmpFile _). rewrite run_bind, run_fs_call.
  pose proof (read_frame path (w_fs w)) as Hfr. pose proof (read_ok path (w_fs w)) as Hok.
  destruct (fs_ReadAll path (w_fs w)) as [[e|config] fs1]; cbn [fst snd] in *.
  - rewrite run_fail_step. split_and!; [by apply (core_condition _ _ _ _ w)|done| |eauto].
    intros q _. apply Hfr.
  - case_decide as Hh.
    + rewrite run_pass_step. split_and!; [by apply (core_condition _ _ _ _ w)|done| |].
      * intros q _. apply Hfr.
      * right. exists config. split_and!; [done| |done]. cbn [w_fs snd]. rewrite Hfr. by apply Hok.
    + rewrite run_bind, run_with_obj, run_pass_step.
      split_and!; [|done| |].
      * etrans; [apply (core_hash (Hash config) w fs1 (w_api w))|].
        by apply (core_condition _ _ _ _ (mkWorld _ fs1 (w_api w))).
      * intros q _. apply Hfr.
      * right. exists config. split_and!; [done| |done]. cbn [w_fs snd]. rewrite Hfr. by apply Hok.
Qed.

(** ** The merged configuration *)

(** Writing the merged file leaves every device's file as it was. *)
Lemma device_config_but_merged w w' n :
  same_contents_but (is_file SnmpMergedFile) w w' → device_file (St := Fs) SnmpSubDir n →
  device_config content (w_fs w) n = device_config content (w_fs w') n.
Proof.
  intros Hs (Hl & Hc & _ & Hp). unfold device_config. rewrite Hs; [done|].
  intros E. destruct SnmpMergedFile_plain as (Hml & Hmc & _).
  rewrite (plain_resolve n SnmpMergedFile) in Hp by done. done.
Qed.

Lemma merged_text_but_merged w w' text :
  same_contents_but (is_file SnmpMergedFile) w w' →
  merged_text content (w_fs w) SnmpSubDir text → merged_text content (w_fs w') SnmpSubDir text.
Proof. intros Hs. apply merged_text_ext. intros n. by apply device_config_but_merged. Qed.

(** What the merged file is read as: one that is missing is empty. *)
Definition merged_read w : string := default "" (content (w_fs w) SnmpMergedFile).

Definition merges w (q : outcome StepResult * W) : Prop :=
  same_core w q.2 ∧ w_api q.2 = w_api w ∧ same_contents_but (is_file SnmpMergedFile) w q.2 ∧
  md_ConfigHash (md_Status (w_obj q.2)) = md_ConfigHash (md_Status (w_obj w)) ∧
  ((∃ e, q.1 = Done (StepError e) ∧ same_contents w q.2) ∨
   q.1 = Done Continue ∧ merged_text content (w_fs q.2) SnmpSubDir (merged_read q.2)).

Lemma merges_fail w fs t r msg e :
  t ≠ ConditionReady → (∀ q, content fs q = content (w_fs w) q) →
  merges w (fail_step t r msg e (mkWorld (w_obj w) fs (w_api w))).
Proof.
  intros Ht Hfs. rewrite run_fail_step. split; [by apply (core_condition _ _ _ _ w)|].
  split; [done|]. split; [intros q _; apply Hfs|]. split; [done|].
  left. exists e. split; [done|]. intros q _. apply Hfs.
Qed.

Lemma write_merged_merges w fs merged :
  (∀ q, content fs q = content (w_fs w) q) →
  merged_text content (w_fs w) SnmpSubDir merged →
  merges w (write_merged (merged_read w) merged (mkWorld (w_obj w) fs (w_api w))).
Proof.
  intros Hfs Hm. unfold write_merged. case_decide as Hd.
  - rewrite run_pass_step. split; [by apply (core_condition _ _ _ _ w)|].
    assert (same_contents_but (is_file SnmpMergedFile) w (mkWorld (w_obj w) fs (w_api w))) as Hs
      by (intros q _; apply Hfs).
    split; [done|]. split; [exact Hs|]. split; [done|]. right. split; [done|].
    unfold merged_read in *. cbn [snd w_fs]. rewrite Hfs, Hd.
    by apply (merged_text_but_merged w (mkWorld (w_obj w) fs (w_api w))).
  - rewrite run_bind, run_fs_call. cbn [w_obj w_fs w_api].
    destruct (fs_Write SnmpMergedFile merged fs) as [[e|] fs2] eqn:Ew; cbn [fst snd].
    + apply merges_fail; [done|]. intros q. by rewrite (write_err _ _ _ _ _ Ew).
    + pose proof (write_ok _ _ _ _ Ew) as Hc. rewrite run_pass_step.
      set (w' := mkWorld _ _ _).
      assert (same_contents_but (is_file SnmpMergedFile) w w') as Hs.
      { intros q Hq. cbn [w_fs w']. by rewrite Hc, decide_False. }
      split; [by apply (core_condition _ _ _ _ w)|]. split; [done|]. split; [exact Hs|].
      split; [done|]. right. split; [done|]. cbn [snd].
      assert (merged_read w' = merged) as ->.
      { unfold merged_read. cbn [w_fs w']. by rewrite Hc, decide_True. }
      by apply (merged_text_but_merged w w').
Qed.

Lemma reconcileMergedSNMPFile_merges w : merges w (reconcileMergedSNMPFile w).
Proof.
  unfold reconcileMergedSNMPFile. rewrite run_bind, run_fs_call.
  destruct (GetMergedSortedSNMPConfig SnmpSubDir (w_fs w)) as [[e|merged] fs1] eqn:Hg;
    cbn [fst snd].
  { apply merges_fail; [done|]. intros q. pose proof (GetMergedSortedSNMPConfig_frame SnmpSubDir (w_fs w) q) as Hf.
    by rewrite Hg in Hf. }
  destruct (GetMergedSortedSNMPConfig_text _ _ _ _ SnmpSubDir_local Hg) as [Hf1 Hm].
  rewrite run_bind, run_fs_call. cbn [w_obj w_fs w_api].
  pose proof (read_frame SnmpMergedFile fs1) as Hfr.
  pose proof (read_ok SnmpMergedFile fs1) as Hok.
  pose proof (read_missing SnmpMergedFile fs1) as Hmiss.
  destruct (fs_ReadAll SnmpMergedFile fs1) as [[e|existing] fs2]; cbn [fst snd] in *.
  - destruct (Is_ErrNotExist e) eqn:He; cbn [negb].
    + assert (merged_read w = "") as <-
        by (unfold merged_read; by rewrite <-Hf1, (Hmiss e)).
      apply write_merged_merges; [|done]. intros q. by rewrite Hfr.
    + apply merges_fail; [done|]. intros q. by rewrite Hfr.
  - assert (merged_read w = existing) as <-
      by (unfold merged_read; by rewrite <-Hf1, (Hok existing)).
    apply write_merged_merges; [|done]. intros q. by rewrite Hfr.
Qed.

(** ** The exporter *)
Definition annotation_of (dep : Deployment) : string :=
  default "" (default ∅ (deploy_TemplateAnnotations dep) !! ConfigHashAnnotation).

(** The exporter runs with the configuration of this hash: it already did, or
    the API accepted the patch that says so. *)
Definition told (api : A) (hash : string) (api' : A) : Prop :=
  ∃ dep, getSnmpExporterDeployment env api = inr dep ∧
    (annotation_of dep = hash ∧ api' = api ∨
     annotation_of dep ≠ hash ∧
       Patch_Deployment dep (set_template_annotation ConfigHashAnnotation hash dep) api = (None, api')).

Definition reloads w (q : outcome StepResult * W) : Prop :=
  same_core w q.2 ∧ same_contents w q.2 ∧
  md_ConfigHash (md_Status (w_obj q.2)) = md_ConfigHash (md_Status (w_obj w)) ∧
  ((∃ e, q.1 = Done (StepError e)) ∨
   q.1 = Done Continue ∧
     (content (w_fs w) SnmpMergedFile = None ∧ w_api q.2 = w_api w ∨
      ∃ merged, content (w_fs w) SnmpMergedFile = Some merged ∧
        told (w_api w) (Hash merged) (w_api q.2))).

Lemma reloads_fail w fs api t r msg e :
  t ≠ ConditionReady → (∀ q, content fs q = content (w_fs w) q) →
  reloads w (fail_step t r msg e (mkWorld (w_obj w) fs api)).
Proof.
  intros Ht Hfs. rewrite run_fail_step. split; [by apply (core_condition _ _ _ _ w)|].
  split; [intros q _; apply Hfs|]. split; [done|]. left. by exists e.
Qed.

Lemma reconcileExporterReload_reloads w : reloads w (reconcileExporterReload env w).
Proof.
  unfold reconcileExporterReload. rewrite run_bind, run_fs_call.
  pose proof (read_frame SnmpMergedFile (w_fs w)) as Hfr.
  pose proof (read_ok SnmpMergedFile (w_fs w)) as Hok.
  pose proof (read_missing SnmpMergedFile (w_fs w)) as Hmiss.
  destruct (fs_ReadAll SnmpMergedFile (w_fs w)) as [[e|merged] fs1]; cbn [fst snd] in *.
  { destruct (Is_ErrNotExist e) eqn:He; [|by apply reloads_fail].
    rewrite run_pass_step. split; [by apply (core_condition _ _ _ _ w)|].
    split; [intros q _; apply Hfr|]. split; [done|]. right. split; [done|]. left.
    split; [by apply (Hmiss e)|done]. }
  rewrite run_bind. unfold the_api. rewrite run_gets. cbn [w_api].
  destruct (getSnmpExporterDeployment env (w_api w)) as [e|dep] eqn:Hdep; [by apply reloads_fail|].
  unfold apply_exporter. fold (annotation_of dep). case_decide as Hann.
  - rewrite run_pass_step. split; [by apply (core_condition _ _ _ _ w)|].
    split; [intros q _; apply Hfr|]. split; [done|]. right. split; [done|]. right.
    exists merged. split; [by apply Hok|]. exists dep. split; [done|]. by left.
  - rewrite run_bind, run_api_call. cbn [w_obj w_fs w_api].
    destruct (Patch_Deployment dep _ (w_api w)) as [[e|] api'] eqn:Hp; cbn [fst snd].
    + by apply reloads_fail.
    + rewrite run_pass_step. split; [by apply (core_condition _ _ _ _ w)|].
      split; [intros q _; apply Hfr|]. split; [done|]. right. split; [done|]. right.
      exists merged. split; [by apply Hok|]. exists dep. split; [done|]. by right.
Qed.

(** ** Deletion *)

(** Every job was deleted, or was gone already. *)
Inductive deleted : list Job → A → A → Prop :=
| deleted_nil api : deleted [] api api
| deleted_cons job jobs api err api1 api2 :
    Delete_Job job api = (err, api1) → IgnoreNotFound err = None →
    deleted jobs api1 api2 → deleted (job :: jobs) api api2.

Lemma delete_jobs_spec jobs : ∀ w,
  ∃ r api', delete_jobs jobs w = (Done r, mkWorld (w_obj w) (w_fs w) api') ∧
    (r = None → deleted jobs (w_api w) api').
Proof.
  induction jobs as [|job jobs IH]; intros w; cbn [delete_jobs].
  { exists None, (w_api w). split; [by destruct w|]. intros _. constructor. }
  rewrite run_bind, run_api_call.
  destruct (Delete_Job job (w_api w)) as [err api1] eqn:Hd; cbn [fst snd].
  destruct (IgnoreNotFound err) as [e|] eqn:Hi.
  { by exists (Some e), api1. }
  destruct (IH (mkWorld (w_obj w) (w_fs w) api1)) as (r & api' & -> & Hr).
  exists r, api'. split; [done|]. intros Hn. by econstructor; [..|apply Hr].
Qed.

Definition one_of (paths : list string) (q : string) : Prop := Exists (λ p, is_file p q) paths.

Definition removes paths w (q : outcome (option error) * W) : Prop :=
  ∃ r fs', q = (Done r, mkWorld (w_obj w) fs' (w_api w)) ∧
    same_contents_but (one_of paths) w (mkWorld (w_obj w) fs' (w_api w)) ∧
    (∀ q, content (w_fs w) q = None → content fs' q = None) ∧
    (r = None → Forall (λ p, content fs' p = None) paths).

Lemma remove_one p s rerr s1 :
  fs_Remove p s = (rerr, s1) →
  (∀ q, ¬ is_file p q → content s1 q = content s q) ∧
  (∀ q, content s q = None → content s1 q = None) ∧
  (rerr = None ∨ (∃ e, rerr = Some e ∧ Is_ErrNotExist e = true) → content s1 p = None).
Proof.
  intros Hrm. destruct rerr as [e|].
  - destruct (remove_err _ _ _ _ Hrm) as [Hf Hm]. split_and!; try (intros q; by rewrite Hf).
    intros [?|(? & [= <-] & He)]; [done|]. rewrite Hf. by apply Hm.
  - pose proof (remove_ok _ _ _ Hrm) as Hf. split_and!; try (intros q Hq; rewrite Hf).
    + by rewrite decide_False.
    + by case_decide.
    + intros _. by rewrite Hf, decide_True.
Qed.

Lemma remove_files_spec paths : ∀ w, removes paths w (remove_files paths w).
Proof.
  induction paths as [|p paths IH]; intros w; cbn [remove_files].
  { exists None, (w_fs w). split; [by destruct w|]. split; [by intros q|]. split; auto. }
  rewrite run_bind, run_fs_call.
  destruct (fs_Remove p (w_fs w)) as [rerr fs1] eqn:Hrm; cbn [fst snd].
  destruct (remove_one _ _ _ _ Hrm) as (Hs & Hnone & Hgone).
  set (w1 := mkWorld (w_obj w) fs1 (w_api w)).
  assert (content fs1 p = None → removes (p :: paths) w (remove_files paths w1)) as Hgo.
  { intros Hp. destruct (IH w1) as (r & fs' & Hr & Hsame & Hn & Hall). exists r, fs'.
    split; [exact Hr|]. split; [|split].
    - intros q Hq. unfold one_of in Hq. rewrite Exists_cons in Hq. rewrite Hsame by tauto.
      apply Hs. tauto.
    - auto.
    - intros Hnil. constructor; [by apply Hn|by apply Hall]. }
  destruct rerr as [e|]; [|by apply Hgo, Hgone; left].
  destruct (Is_ErrNotExist e) eqn:He; [apply Hgo, Hgone; right; by exists e|].
  exists (Some e), fs1. split; [done|]. split; [|done].
  intros q Hq. apply Hs. intros Hx. apply Hq. by left.
Qed.

(** What a pass over a deleted device leaves when it gives up the finalizer. *)
Definition cleaned w w' : Prop :=
  md_Spec (w_obj w') = md_Spec (w_obj w) ∧
  set_Finalizers [] (md_Meta (w_obj w')) = set_Finalizers [] (md_Meta (w_obj w)) ∧
  condition_status ConditionReady (w_obj w') = condition_status ConditionReady (w_obj w) ∧
  content (w_fs w') (GeneratorFile (UID (md_Meta (w_obj w)))) = None ∧
  content (w_fs w') (SnmpFile (UID (md_Meta (w_obj w)))) = None ∧
  merged_text content (w_fs w') SnmpSubDir (merged_read w') ∧
  ∃ jobs api1, getOwnedJobs (w_api w) (w_obj w) = inr jobs ∧ deleted jobs (w_api w) api1 ∧
    (content (w_fs w') SnmpMergedFile = None ∧ w_api w' = api1 ∨
     ∃ merged, content (w_fs w') SnmpMergedFile = Some merged ∧ told api1 (Hash merged) (w_api w')).

(** A deletion fails and keeps the finalizer, or cleans up and drops it. *)
Definition deletes w (q : outcome StepResult * W) : Prop :=
  (∃ e, q.1 = Done (StepError e) ∧ same_core w q.2) ∨
  (q.1 = Done Stop ∧ has_finalizer (w_obj q.2) = false ∧ cleaned w q.2).

Lemma md_has_finalizer_remove d :
  has_finalizer (update_finalizers (λ fs, RemoveFinalizer fs SNMPUpdateFinalizer) d) = false.
Proof.
  apply not_true_is_false. unfold has_finalizer, update_finalizers. simpl.
  rewrite contains_finalizer, elem_of_remove_finalizer. naive_solver.
Qed.

(** The end of the deletion: merge, reload, give up the finalizer. *)
Lemma deletion_tail w jobs api1 fs1 :
  filepath.slash ∉ chars (UID (md_Meta (w_obj w))) →
  getOwnedJobs (w_api w) (w_obj w) = inr jobs → deleted jobs (w_api w) api1 →
  content fs1 (GeneratorFile (UID (md_Meta (w_obj w)))) = None →
  content fs1 (SnmpFile (UID (md_Meta (w_obj w)))) = None →
  deletes w (unless_error reconcileMergedSNMPFile
    (unless_error (reconcileExporterReload env)
       (with_obj (update_finalizers (λ fs, RemoveFinalizer fs SNMPUpdateFinalizer));;
        mret Stop)) (mkWorld (w_obj w) fs1 api1)).
Proof.
  intros Hu Hjobs Hdel Hgen Hsnmp. set (w1 := mkWorld (w_obj w) fs1 api1).
  unfold unless_error. rewrite run_bind.
  destruct (reconcileMergedSNMPFile_merges w1) as (Hc1 & Ha1 & Hs1 & _ & Hres1).
  destruct (reconcileMergedSNMPFile w1) as [r1 w2]. cbn [fst snd] in *.
  destruct Hres1 as [(e & -> & _)|[-> Hm]].
  { rewrite decide_True by done. left. by exists e. }
  rewrite decide_False by done. rewrite run_bind.
  destruct (reconcileExporterReload_reloads w2) as (Hc2 & Hs2 & _ & Hres2).
  destruct (reconcileExporterReload env w2) as [r2 w3]. cbn [fst snd] in *.
  assert (same_core w w3) as Hc3 by (etrans; [exact Hc1|exact Hc2]).
  destruct Hres2 as [(e & ->)|[-> Hrel]].
  { rewrite decide_True by done. left. by exists e. }
  rewrite decide_False by done. rewrite run_bind, run_with_obj, run_ret.
  right. split; [done|]. cbn [snd w_obj w_fs w_api]. split; [apply md_has_finalizer_remove|].
  destruct Hc3 as (Hmeta & Hspec & Hready).
  destruct (SnmpFile_plain _ Hu) as (Hsl & Hsc & _), (GeneratorFile_plain _ Hu) as (Hgl & Hgc & _).
  destruct SnmpMergedFile_plain as (Hml & Hmc & _).
  assert (∀ p, p ≠ SnmpMergedFile → local p → filepath.Clean p = p →
    content (w_fs w3) p = content fs1 p) as Hfiles.
  { intros p Hne Hl Hcl. rewrite Hs2 by tauto. rewrite Hs1; [done|].
    intros E. apply Hne. by apply plain_resolve. }
  split; [exact Hspec|]. split; [cbn; by rewrite Hmeta|]. split; [exact Hready|].
  cbn [w_fs w_api]. split_and!.
  - by rewrite Hfiles.
  - by rewrite Hfiles.
  - replace (merged_read _) with (merged_read w2)
      by (unfold merged_read; cbn [w_fs]; by rewrite Hs2 by tauto).
    apply (merged_text_but_merged w2 w3); [|done]. intros q _. apply Hs2. tauto.
  - exists jobs, api1. split; [done|]. split; [done|]. rewrite Hs2 by tauto. rewrite Ha1 in Hrel. exact Hrel.
Qed.

Lemma reconcileDeletion_deletes w :
  filepath.slash ∉ chars (UID (md_Meta (w_obj w))) →
  DeletionTimestamp (md_Meta (w_obj w)) ≠ None → has_finalizer (w_obj w) = true →
  deletes w (reconcileDeletion env w).
Proof.
  intros Hu Hdel Hfin. unfold reconcileDeletion.
  rewrite run_bind, run_the_obj, decide_False by done. rewrite Hfin. cbn [negb].
  rewrite run_bind. unfold the_api. rewrite run_gets.
  assert (∀ t r msg e fs api, t ≠ ConditionReady →
    deletes w (fail_step t r msg e (mkWorld (w_obj w) fs api))) as Hfail.
  { intros t r msg e fs api Ht. rewrite run_fail_step. left. exists e. split; [done|].
    by apply (core_condition _ _ _ _ w). }
  destruct (getOwnedJobs (w_api w) (w_obj w)) as [e|jobs] eqn:Hj.
  { destruct w. by apply Hfail. }
  rewrite run_bind. destruct (delete_jobs_spec jobs w) as (r & api1 & -> & Hd).
  destruct r as [e|]; [by apply Hfail|].
  rewrite run_bind.
  destruct (remove_files_spec [GeneratorFile (UID (md_Meta (w_obj w))); SnmpFile (UID (md_Meta (w_obj w)))]
    (mkWorld (w_obj w) (w_fs w) api1)) as (r & fs1 & -> & _ & _ & Hall).
  cbn [w_obj w_fs w_api]. destruct r as [e|]; [by apply Hfail|].
  specialize (Hall eq_refl). rewrite !Forall_cons in Hall.
  eapply deletion_tail; [done..|by apply Hd|tauto|tauto].
Qed.

(** ** The pass *)
Abbreviation ready_of w := (condition_status ConditionReady (w_obj w)).

(** A step that leaves Ready alone goes on in every run that ends Ready. *)
Lemma peel step rest w out w' :
  same_core w (step w).2 → ready_of w = Some ConditionUnknown →
  Run (step :: rest) w = (out, w') → ready_of w' = Some ConditionTrue →
  ∃ res w1, step w = (Done res, w1) ∧ halts res = None ∧ Run rest w1 = (out, w') ∧
    ready_of w1 = Some ConditionUnknown.
Proof.
  intros (_ & _ & Hs) Hw Hrun Hr. destruct (step w) as [[res|] w1] eqn:Hstep; cbn [snd] in Hs.
  - exists res, w1. rewrite (Run_cons _ _ _ _ _ Hstep) in Hrun.
    destruct (halts res); [simplify_eq; congruence|]. split_and!; [done..|congruence].
  - rewrite (Run_panic _ _ _ _ Hstep) in Hrun. simplify_eq. congruence.
Qed.

Lemma ensureFinalizerIsSet_spec w :
  ensureFinalizerIsSet w =
  if has_finalizer (w_obj w) then (Done Continue, w)
  else (Done Stop, mkWorld (update_finalizers (λ fs, AddFinalizer fs SNMPUpdateFinalizer) (w_obj w))
                     (w_fs w) (w_api w)).
Proof.
  unfold ensureFinalizerIsSet. rewrite run_bind, run_the_obj. by destruct (has_finalizer (w_obj w)).
Qed.

(** A run that ends Ready got past the deletion and the finalizer. *)
Lemma live_inv w out w' :
  filepath.slash ∉ chars (UID (md_Meta (w_obj w))) →
  ready_of w = Some ConditionUnknown → Run (reconcile_steps env) w = (out, w') →
  ready_of w' = Some ConditionTrue →
  DeletionTimestamp (md_Meta (w_obj w)) = None ∧ has_finalizer (w_obj w) = true ∧
  Run (drop 2 (reconcile_steps env)) w = (out, w').
Proof.
  intros Hu Hw Hrun Hr. unfold reconcile_steps in Hrun.
  destruct (decide (DeletionTimestamp (md_Meta (w_obj w)) = None)) as [Hdel|Hdel].
  - assert (reconcileDeletion env w = (Done Continue, w)) as Hd
      by (unfold reconcileDeletion; by rewrite run_bind, run_the_obj, decide_True).
    rewrite (Run_cons _ _ _ _ _ Hd) in Hrun. cbn [halts sr_Action Continue] in Hrun.
    pose proof (ensureFinalizerIsSet_spec w) as He.
    destruct (has_finalizer (w_obj w)); rewrite (Run_cons _ _ _ _ _ He) in Hrun;
      cbn [halts sr_Action Continue Stop] in Hrun; [done|].
    simplify_eq. change (ready_of w = Some ConditionTrue) in Hr. congruence.
  - exfalso. destruct (has_finalizer (w_obj w)) eqn:Hf.
    + destruct (reconcileDeletion_deletes w Hu Hdel Hf) as [(e & He & Hc)|(He & _ & Hc)];
        destruct (reconcileDeletion env w) as [r w1] eqn:Hstep; cbn [fst snd] in *; subst r;
        rewrite (Run_cons _ _ _ _ _ Hstep) in Hrun; simplify_eq/=.
      * by destruct Hc as (_ & _ & Hc); rewrite Hr, Hw in Hc.
      * by destruct Hc as (_ & _ & Hc & _); rewrite Hr, Hw in Hc.
    + assert (reconcileDeletion env w = (Done Stop, w)) as Hd.
      { unfold reconcileDeletion. by rewrite run_bind, run_the_obj, decide_False, Hf. }
      rewrite (Run_cons _ _ _ _ _ Hd) in Hrun. by simplify_eq/=.
Qed.

(** What a pass that ends Ready has established. *)
Definition established w w' : Prop :=
  (∃ desired, desiredGeneratorConfig (w_api w) (w_obj w) = Done (inr desired) ∧
     content (w_fs w') (GeneratorFile (UID (md_Meta (w_obj w)))) = Some desired) ∧
  (∃ job, getOwnedJobs (w_api w) (w_obj w) = inr [job] ∧
     jobGeneration job = Generation (md_Meta (w_obj w)) ∧
     mkJobCondition "Complete" "True" ∈ job_Conditions job) ∧
  (∃ config, content (w_fs w') (SnmpFile (UID (md_Meta (w_obj w)))) = Some config ∧
     md_ConfigHash (md_Status (w_obj w')) = Hash config) ∧
  merged_text content (w_fs w') SnmpSubDir (merged_read w') ∧
  (content (w_fs w') SnmpMergedFile = None ∧ w_api w' = w_api w ∨
   ∃ merged, content (w_fs w') SnmpMergedFile = Some merged ∧ told (w_api w) (Hash merged) (w_api w')).

Lemma job_pass_continue d api shown api' shown' res :
  job_pass env d api shown res api' shown' → halts res = None →
  api' = api ∧ ∃ job, getOwnedJobs api d = inr [job] ∧ jobGeneration job = Generation (md_Meta d) ∧
    mkJobCondition "Complete" "True" ∈ job_Conditions job.
Proof. intros [] Hh; try done. eauto. Qed.

(** One job of the current generation is left alone. *)
Lemma job_pass_current d api shown res api' shown' job :
  job_pass env d api shown res api' shown' → getOwnedJobs api d = inr [job] →
  jobGeneration job = Generation (md_Meta d) →
  api' = api ∧ (res = Continue ↔ mkJobCondition "Complete" "True" ∈ job_Conditions job).
Proof.
  intros Hp Hj Hg. destruct Hp as [e Hj'|e Hj'|b j a Hj'|b j e a Hj'|j r a Hj'|j r e a Hj'|j Hj'|j Hj'|j Hj'|js e Hj'];
    rewrite Hj in Hj'; simplify_eq; try done; simpl in *; lia.
Qed.

(** The steps from the merge on. *)
Lemma published_run w out w' :
  ready_of w = Some ConditionUnknown → Run (drop 5 (reconcile_steps env)) w = (out, w') →
  ready_of w' = Some ConditionTrue →
  out = Done (no_requeue, None) ∧ md_Meta (w_obj w') = md_Meta (w_obj w) ∧
  md_Spec (w_obj w') = md_Spec (w_obj w) ∧
  md_ConfigHash (md_Status (w_obj w')) = md_ConfigHash (md_Status (w_obj w)) ∧
  same_contents_but (is_file SnmpMergedFile) w w' ∧
  merged_text content (w_fs w') SnmpSubDir (merged_read w') ∧
  (content (w_fs w') SnmpMergedFile = None ∧ w_api w' = w_api w ∨
   ∃ merged, content (w_fs w') SnmpMergedFile = Some merged ∧ told (w_api w) (Hash merged) (w_api w')).
Proof.
  intros Hw Hrun Hr. cbn [drop reconcile_steps] in Hrun.
  destruct (reconcileMergedSNMPFile_merges w) as (Hc4 & Ha4 & Hs4 & Hh4 & H4').
  destruct (peel _ _ _ _ _ Hc4 Hw Hrun Hr) as (r4 & w4 & E4 & Hhl4 & Hrun4 & Hw4).
  rewrite E4 in *. cbn [fst snd] in *. destruct H4' as [(e & [= ->] & _)|[[= ->] Hm]]; [done|].
  destruct (reconcileExporterReload_reloads w4) as (Hc5 & Hs5 & Hh5 & H5').
  destruct (peel _ _ _ _ _ Hc5 Hw4 Hrun4 Hr) as (r5 & w5 & E5 & Hhl5 & Hrun5 & Hw5).
  rewrite E5 in *. cbn [fst snd] in *. destruct H5' as [(e & [= ->])|[[= ->] Hrel]]; [done|].
  unfold reconcileReady in Hrun5.
  rewrite (Run_cons _ _ _ _ _ (run_pass_step _ _ _ _ _ _)) in Hrun5.
  cbn [halts sr_Action Continue Run] in Hrun5. rewrite run_ret in Hrun5. injection Hrun5 as <- <-.
  assert (same_core w w5) as (Hmeta & Hspec & _) by (by etrans).
  split; [done|]. split; [exact Hmeta|]. split; [exact Hspec|].
  split; [by transitivity (md_ConfigHash (md_Status (w_obj w4)))|]. cbn [w_fs w_api].
  split; [|split].
  - intros q Hq. cbn [w_fs]. rewrite Hs5 by tauto. by apply Hs4.
  - replace (merged_read _) with (merged_read w4)
      by (unfold merged_read; cbn [w_fs]; by rewrite Hs5 by tauto).
    apply (merged_text_but_merged w4 w5); [|done]. intros q _. apply Hs5. tauto.
  - rewrite Hs5 by tauto. rewrite Ha4 in Hrel. exact Hrel.
Qed.

(** A device's own files are not the merged one. *)
Lemma own_files uid :
  filepath.slash ∉ chars uid →
  ¬ is_file SnmpMergedFile (GeneratorFile uid) ∧ ¬ is_file SnmpMergedFile (SnmpFile uid).
Proof.
  intros Hu.
  destruct (SnmpFile_plain uid Hu) as (Hsl & Hsc & _), (GeneratorFile_plain uid Hu) as (Hgl & Hgc & _).
  destruct SnmpMergedFile_plain as (Hml & Hmc & _).
  split; intros E; apply plain_resolve in E; done.
Qed.

(** The steps from the generator file on. *)
Lemma established_run w out w' :
  filepath.slash ∉ chars (UID (md_Meta (w_obj w))) →
  ready_of w = Some ConditionUnknown → Run (drop 2 (reconcile_steps env)) w = (out, w') →
  ready_of w' = Some ConditionTrue →
  out = Done (no_requeue, None) ∧ md_Meta (w_obj w') = md_Meta (w_obj w) ∧
  md_Spec (w_obj w') = md_Spec (w_obj w) ∧ established w w'.
Proof.
  intros Hu Hw Hrun Hr. cbn [drop reconcile_steps] in Hrun.
  destruct (reconcileGeneratorFile_spec w) as (Hc1 & Ha1 & Hs1 & H1').
  destruct (peel _ _ _ _ _ Hc1 Hw Hrun Hr) as (r1 & w1 & E1 & Hh1 & Hrun1 & Hw1).
  rewrite E1 in *. cbn [fst snd] in *.
  destruct H1' as [(desired & -> & Hdes & Hgen)|[(e & ->) _]]; [|done].
  destruct (job_step_refines w1) as (Hc2 & Hf2 & H2').
  destruct (peel _ _ _ _ _ Hc2 Hw1 Hrun1 Hr) as (r2 & w2 & E2 & Hh2 & Hrun2 & Hw2).
  rewrite E2 in *. cbn [fst snd] in *. destruct H2' as (? & [= <-] & Hjob).
  destruct (job_pass_continue _ _ _ _ _ _ Hjob Hh2) as (Ha2 & job & Hj & Hjg & Hjc).
  destruct (reconcileSNMPFileContent_spec w2) as (Hc3 & Ha3 & Hs3 & H3').
  destruct (peel _ _ _ _ _ Hc3 Hw2 Hrun2 Hr) as (r3 & w3 & E3 & Hh3 & Hrun3 & Hw3).
  rewrite E3 in *. cbn [fst snd] in *.
  destruct H3' as [(e & [= ->])|(config & [= ->] & Hcfg & Hhash)]; [done|].
  destruct (published_run w3 out w' Hw3 Hrun3 Hr) as (Hout & Hm4 & Hsp4 & Hh4 & Hs4 & Hm & Hrel).
  assert (same_core w w3) as (Hm3 & Hsp3 & _)
    by (etrans; [exact Hc1|]; etrans; [exact Hc2|exact Hc3]).
  assert (same_core w w2) as (Hm2 & _ & _) by (by etrans).
  destruct Hc1 as (Hmeta1 & Hspec1 & _). destruct (own_files _ Hu) as [Hg Hs].
  split; [done|]. split; [congruence|]. split; [congruence|].
  split; [|split; [|split; [|split; [done|]]]].
  - exists desired. split; [done|]. rewrite Hs4, Hs3, Hf2 by (done || tauto). exact Hgen.
  - exists job. rewrite <-Ha1. unfold getOwnedJobs in *. by rewrite Hmeta1 in *.
  - exists config. rewrite Hm2 in Hcfg. split; [by rewrite Hs4|congruence].
  - rewrite Ha3, Ha2, Ha1 in Hrel. exact Hrel.
Qed.

(** ** A device that has settled *)

(** Everything is in place: the steps have nothing to do. *)
Definition settled w : Prop :=
  DeletionTimestamp (md_Meta (w_obj w)) = None ∧ has_finalizer (w_obj w) = true ∧
  (∃ desired, desiredGeneratorConfig (w_api w) (w_obj w) = Done (inr desired) ∧
     content (w_fs w) (GeneratorFile (UID (md_Meta (w_obj w)))) = Some desired) ∧
  (∃ job, getOwnedJobs (w_api w) (w_obj w) = inr [job] ∧
     jobGeneration job = Generation (md_Meta (w_obj w)) ∧
     mkJobCondition "Complete" "True" ∈ job_Conditions job) ∧
  (∃ merged dep, content (w_fs w) SnmpMergedFile = Some merged ∧
     merged_text content (w_fs w) SnmpSubDir merged ∧
     getSnmpExporterDeployment env (w_api w) = inr dep ∧ annotation_of dep = Hash merged).

(** From a settled world a step changes no file and nothing in the cluster. *)
Definition quiet : relation W := λ w w',
  settled w → same_contents w w' ∧ w_api w' = w_api w ∧
    md_Meta (w_obj w') = md_Meta (w_obj w) ∧ md_Spec (w_obj w') = md_Spec (w_obj w).

Lemma settled_same w w' :
  settled w → same_contents w w' → w_api w' = w_api w →
  md_Meta (w_obj w') = md_Meta (w_obj w) → md_Spec (w_obj w') = md_Spec (w_obj w) → settled w'.
Proof.
  intros (Hd & Hf & (des & Hdes & Hgen) & Hjob & merged & dep & Hm & Ht & Hdep & Hann) Hs Ha Hmeta Hspec.
  assert (∀ q, content (w_fs w') q = content (w_fs w) q) as Hc by (intros q; apply Hs; tauto).
  unfold settled, has_finalizer, getOwnedJobs, desiredGeneratorConfig in *.
  rewrite Hmeta, Hspec, Ha, !Hc. split_and!; [done|done|eauto|done|].
  exists merged, dep. split_and!; [done| |done|done].
  apply (merged_text_but_merged w w'); [|done]. intros q _. apply Hc.
Qed.

Global Instance quiet_preorder : PreOrder quiet.
Proof.
  split; [by intros w _|]. intros w1 w2 w3 Ha Hb H12'.
  destruct (Ha H12') as (Hs1 & Ha1 & Hm1 & Hsp1).
  destruct (Hb (settled_same _ _ H12' Hs1 Ha1 Hm1 Hsp1)) as (Hs2 & Ha2 & Hm2 & Hsp2).
  split; [by etrans|]. split_and!; congruence.
Qed.

(** A file that was rewritten with what it held is as it was. *)
Lemma rewritten p w w' v :
  same_contents_but (is_file p) w w' → content (w_fs w) p = Some v → content (w_fs w') p = Some v →
  same_contents w w'.
Proof.
  intros Hs Hw Hw' q _. destruct (decide (fs_Resolve [q] = fs_Resolve [p])) as [E|E]; [|by apply Hs].
  by rewrite !(content_resolve _ _ _ E), Hw, Hw'.
Qed.

Lemma quiet_reload w : quiet w (reconcileExporterReload env w).2.
Proof.
  intros (_ & _ & _ & _ & merged & dep & Hm & _ & Hdep & Hann).
  assert (w_api (reconcileExporterReload env w).2 = w_api w) as Ha.
  { unfold reconcileExporterReload. rewrite run_bind, run_fs_call.
    pose proof (read_ok SnmpMergedFile (w_fs w)) as Hok.
    destruct (fs_ReadAll SnmpMergedFile (w_fs w)) as [[e|m] fs1]; cbn [fst snd] in *;
      [by destruct (Is_ErrNotExist e)|].
    specialize (Hok m eq_refl). simplify_eq. rewrite run_bind. unfold the_api. rewrite run_gets.
    cbn [w_api]. rewrite Hdep. unfold apply_exporter. fold (annotation_of dep).
    by rewrite decide_True. }
  destruct (reconcileExporterReload_reloads w) as ((Hmeta & Hspec & _) & Hs & _). done.
Qed.

Lemma quiet_steps `{!SnmpYamlLaws} : Forall (frame quiet) (reconcile_steps env).
Proof.
  unfold reconcile_steps. rewrite !Forall_cons, Forall_nil. split_and!; [..|done].
  - intros w (Hd & _). unfold reconcileDeletion. rewrite run_bind, run_the_obj, decide_True by done. done.
  - intros w (_ & Hf & _). rewrite ensureFinalizerIsSet_spec, Hf. done.
  - intros w (_ & _ & (des & Hdes & Hgen) & _).
    destruct (reconcileGeneratorFile_spec w) as ((Hm & Hsp & _) & Ha & Hs & Hr).
    split; [|done]. destruct (reconcileGeneratorFile w) as [[res|] w1]; cbn [fst snd] in *; [|tauto].
    destruct Hr as [(des' & -> & Hdes' & Hgen')|[_ Hr]]; [|done].
    rewrite Hdes in Hdes'. injection Hdes' as <-. exact (rewritten _ _ _ _ Hs Hgen Hgen').
  - intros w (_ & _ & _ & (job & Hj & Hg & Hc) & _).
    destruct (job_step_refines w) as ((Hm & Hsp & _) & Hfs & res & _ & Hjob).
    split; [intros q _; by rewrite Hfs|]. split; [|done].
    inversion Hjob; simplify_eq; congruence || done || (simpl in *; lia).
  - intros w _. destruct (reconcileSNMPFileContent_spec w) as ((Hm & Hsp & _) & Ha & Hs & _). done.
  - intros w (_ & _ & _ & _ & merged & dep & Hm & Ht & _).
    destruct (reconcileMergedSNMPFile_merges w) as ((Hmeta & Hsp & _) & Ha & Hs & _ & Hr).
    split; [|done]. destruct Hr as [(e & _ & Hr)|[_ Hr]]; [done|].
    refine (rewritten _ _ _ _ Hs Hm _).
    apply (merged_text_but_merged _ _ _ Hs) in Ht.
    pose proof (merged_text_unique _ _ _ _ Hr Ht) as E.
    destruct Hr as (c & Hc & _). apply Marshal_MergedConfig_ne in Hc.
    unfold merged_read in *. destruct (content (w_fs (reconcileMergedSNMPFile w).2) SnmpMergedFile); simpl in *; congruence.
  - intros w. apply quiet_reload.
  - intros w _. done.
Qed.

(** ** The files a pass may touch *)
Definition own (uid q : string) : Prop :=
  is_file (GeneratorFile uid) q ∨ is_file (SnmpFile uid) q ∨ is_file SnmpMergedFile q.

Definition confined : relation W := λ w w',
  UID (md_Meta (w_obj w')) = UID (md_Meta (w_obj w)) ∧
  same_contents_but (own (UID (md_Meta (w_obj w)))) w w'.

Global Instance confined_preorder : PreOrder confined.
Proof.
  split; [by intros w|]. intros w1 w2 w3 [Hu1 Hs1] [Hu2 Hs2]. split; [congruence|].
  intros q Hq. rewrite Hs2 by (by rewrite Hu1). by apply Hs1.
Qed.

Lemma confined_but P w w' :
  md_Meta (w_obj w') = md_Meta (w_obj w) → same_contents_but P w w' →
  (∀ q, P q → own (UID (md_Meta (w_obj w))) q) → confined w w'.
Proof. intros Hm Hs HP. split; [by rewrite Hm|]. intros q Hq. apply Hs. auto. Qed.

Lemma confined_condition t s r msg w fs api :
  (∀ q, content fs q = content (w_fs w) q) →
  confined w (mkWorld (UpdateStatusCondition t s r msg (w_obj w)) fs api).
Proof. intros Hf. apply (confined_but (λ _, False)); [done|intros q _; apply Hf|done]. Qed.

Lemma confined_merge : frame confined reconcileMergedSNMPFile.
Proof.
  intros w. destruct (reconcileMergedSNMPFile_merges w) as ((Hm & _) & _ & Hs & _).
  eapply confined_but; [done..|]. intros q Hq. right. by right.
Qed.

Lemma confined_reload : frame confined (reconcileExporterReload env).
Proof.
  intros w. destruct (reconcileExporterReload_reloads w) as ((Hm & _) & Hs & _).
  by eapply confined_but.
Qed.

Lemma confined_deletion : frame confined (reconcileDeletion env).
Proof.
  intros w. unfold reconcileDeletion. rewrite run_bind, run_the_obj.
  case_decide; [done|]. destruct (negb _); [done|].
  rewrite run_bind. unfold the_api. rewrite run_gets.
  destruct (getOwnedJobs (w_api w) (w_obj w)) as [e|jobs]; [by apply confined_condition|].
  rewrite run_bind. destruct (delete_jobs_spec jobs w) as (r & api1 & -> & _).
  destruct r as [e|]; [by apply (confined_condition _ _ _ _ w)|]. rewrite run_bind.
  destruct (remove_files_spec [GeneratorFile (UID (md_Meta (w_obj w))); SnmpFile (UID (md_Meta (w_obj w)))]
    (mkWorld (w_obj w) (w_fs w) api1)) as (r & fs1 & -> & Hs & _).
  cbn [w_obj w_fs w_api] in *.
  assert (confined w (mkWorld (w_obj w) fs1 api1)) as Hw1.
  { apply (confined_but (one_of [GeneratorFile (UID (md_Meta (w_obj w))); SnmpFile (UID (md_Meta (w_obj w)))]));
      [done|exact Hs|].
    intros q. unfold one_of, own. rewrite !Exists_cons, Exists_nil. tauto. }
  etrans; [exact Hw1|]. destruct r as [e|];
    [by apply (confined_condition _ _ _ _ (mkWorld (w_obj w) fs1 api1))|].
  assert (frame confined (unless_error reconcileMergedSNMPFile
    (unless_error (reconcileExporterReload env)
       (with_obj (update_finalizers (λ fs, RemoveFinalizer fs SNMPUpdateFinalizer));; mret Stop))))
    as Hf; [|apply Hf].
  unfold unless_error. pose proof confined_merge. pose proof confined_reload.
  apply frame_bind; [apply _|done|]. intros res. case_decide; [apply frame_ret, _|].
  apply frame_bind; [apply _|done|]. intros res'. case_decide; [apply frame_ret, _|].
  apply frame_bind; [apply _| |intros _; apply frame_ret, _].
  apply frame_with_obj. intros w'. split; [done|by intros q].
Qed.

Lemma confined_steps : Forall (frame confined) (reconcile_steps env).
Proof.
  unfold reconcile_steps. rewrite !Forall_cons, Forall_nil. split_and!; [..|done].
  - apply confined_deletion.
  - intros w. rewrite ensureFinalizerIsSet_spec. destruct (has_finalizer (w_obj w)); [done|].
    split; [done|by intros q].
  - intros w. destruct (reconcileGeneratorFile_spec w) as ((Hm & _) & _ & Hs & _).
    eapply confined_but; [done..|]. intros q Hq. by left.
  - intros w. destruct (job_step_refines w) as ((Hm & _) & Hf & _).
    apply (confined_but (λ _, False)); [done| |done]. intros q _. by rewrite Hf.
  - intros w. destruct (reconcileSNMPFileContent_spec w) as ((Hm & _) & _ & Hs & _).
    by eapply confined_but.
  - apply confined_merge.
  - apply confined_reload.
  - intros w. by apply confined_condition.
Qed.

(** A pass starts with Ready unknown. *)
Definition begun w : W :=
  mkWorld (UpdateStatusCondition ConditionReady ConditionUnknown ReasonReconciling
    "Reconciliation is in progress" (w_obj w)) (w_fs w) (w_api w).

Lemma run_steps_begun w :
  run_steps (reconcile_steps env) w = Run (reconcile_steps env) (begun w) ∧
  ready_of (begun w) = Some ConditionUnknown.
Proof. split; [done|]. cbn [begun w_obj]. by rewrite condition_status_update, decide_True. Qed.

(** A live device with its finalizer keeps its metadata. *)
Definition keeps_meta : relation W := λ w w',
  DeletionTimestamp (md_Meta (w_obj w)) = None → has_finalizer (w_obj w) = true →
  md_Meta (w_obj w') = md_Meta (w_obj w).
Global Instance keeps_meta_preorder : PreOrder keeps_meta.
Proof.
  split; [by intros w|]. intros w1 w2 w3 Ha Hb Hd Hf. pose proof (Ha Hd Hf) as E.
  rewrite <-E. apply Hb; [by rewrite E|]. unfold has_finalizer in *. by rewrite E.
Qed.

Lemma keeps_meta_steps : Forall (frame keeps_meta) (reconcile_steps env).
Proof.
  unfold reconcile_steps. rewrite !Forall_cons, Forall_nil.
  split_and!; [..|done]; intros w Hd Hf.
  - unfold reconcileDeletion. by rewrite run_bind, run_the_obj, decide_True.
  - by rewrite ensureFinalizerIsSet_spec, Hf.
  - apply reconcileGeneratorFile_spec.
  - apply job_step_refines.
  - apply reconcileSNMPFileContent_spec.
  - apply reconcileMergedSNMPFile_merges.
  - apply reconcileExporterReload_reloads.
  - done.
Qed.

(** A pass that gives up the finalizer is a deletion that succeeded. *)
Lemma finalizer_inv w out w' :
  filepath.slash ∉ chars (UID (md_Meta (w_obj w))) →
  Run (reconcile_steps env) w = (out, w') →
  has_finalizer (w_obj w) = true → has_finalizer (w_obj w') = false →
  DeletionTimestamp (md_Meta (w_obj w)) ≠ None ∧ out = Done (no_requeue, None) ∧ cleaned w w'.
Proof.
  intros Hu Hrun Hf Hf'.
  destruct (decide (DeletionTimestamp (md_Meta (w_obj w)) = None)) as [Hdel|Hdel].
  - pose proof (Run_frame keeps_meta _ keeps_meta_steps w Hdel Hf) as E. rewrite Hrun in E.
    cbn [snd] in E. unfold has_finalizer in *. rewrite E in Hf'. congruence.
  - split; [done|]. unfold reconcile_steps in Hrun.
    destruct (reconcileDeletion_deletes w Hu Hdel Hf) as [(e & He & Hm & _)|(He & _ & Hc)];
      destruct (reconcileDeletion env w) as [r w1] eqn:Hstep; cbn [fst snd] in *; subst r;
      rewrite (Run_cons _ _ _ _ _ Hstep) in Hrun; simplify_eq/=; [|done].
    unfold has_finalizer in *. rewrite Hm in Hf'. congruence.
Qed.
End Facts.

(** The jobs of others do not count. *)
Lemma owned_by_others uid jobs : Forall (λ k, uid ∉ job_OwnerUIDs k) jobs → owned_by uid jobs = [].
Proof.
  induction 1 as [|k jobs Hk _ IH]; [done|]. unfold owned_by in *. rewrite bind_cons, IH, app_nil_r.
  destruct (filter _ (job_OwnerUIDs k)) as [|o os] eqn:E; [done|]. exfalso. apply Hk.
  assert (o ∈ filter (λ owner, owner = uid) (job_OwnerUIDs k)) as [-> Ho]%list_elem_of_filter by (rewrite E; by left). done.
Qed.

(** controllerutil.SetControllerReference adds an owner and keeps the rest. *)
Class OwnerUtilLaws `{OwnerUtil} : Prop := {
  set_owner_annotations d job job' :
    SetControllerReference d job = inr job' → job_Annotations job' = job_Annotations job;
  set_owner_uid d job job' :
    SetControllerReference d job = inr job' →
    UID (md_Meta d) ∈ job_OwnerUIDs job' ∧ job_Conditions job' = job_Conditions job
}.

Section Properties.
Context {A : Type} `{UnicodeTables, MetaConditionsLaws, FinalizerUtilLaws, ProcessIds, OwnerUtil, SnmpYamlLaws}.
Context `{SelectorClient A, JobClient A, DeploymentClient A}.
Context `{Getter A MeasurementDevice, Patcher A MeasurementDevice, FileStoreLaws Fs content}.
Context (env : validatedEnv).
Abbreviation W := (World MeasurementDevice A).
Implicit Types (w : W) (d : MeasurementDevice) (job : Job).

(** C11: Ready is truthful: when a pass leaves a device Ready, it is live and has
    its finalizer, its generator file holds the configuration of its spec, its one
    job is of its generation and completed, its status holds the hash of the
    configuration the job wrote, the merged file is the merge of the per-device
    files as they are, and the exporter runs with the hash of that file or the API
    has accepted the patch that makes it. *)
Theorem MeasurementDevice_ready_truthful w w' out :
  filepath.slash ∉ chars (UID (md_Meta (w_obj w))) →
  run_steps (reconcile_steps env) w = (out, w') →
  condition_status ConditionReady (w_obj w') = Some ConditionTrue →
  out = Done (no_requeue, None) ∧
  DeletionTimestamp (md_Meta (w_obj w')) = None ∧ has_finalizer (w_obj w') = true ∧
  (∃ desired, desiredGeneratorConfig (w_api w) (w_obj w) = Done (inr desired) ∧
     content (w_fs w') (GeneratorFile (UID (md_Meta (w_obj w)))) = Some desired) ∧
  (∃ job, getOwnedJobs (w_api w) (w_obj w) = inr [job] ∧
     jobGeneration job = Generation (md_Meta (w_obj w)) ∧
     mkJobCondition "Complete" "True" ∈ job_Conditions job) ∧
  (∃ config, content (w_fs w') (SnmpFile (UID (md_Meta (w_obj w)))) = Some config ∧
     md_ConfigHash (md_Status (w_obj w')) = Hash config) ∧
  (∃ merged, content (w_fs w') SnmpMergedFile = Some merged ∧
     merged_text content (w_fs w') SnmpSubDir merged ∧ told env (w_api w) (Hash merged) (w_api w')).
Proof.
  intros Hu Hrun Hr. destruct (run_steps_begun (A := A) env w) as [E Hw]. rewrite E in Hrun.
  destruct (live_inv env (begun w) out w' Hu Hw Hrun Hr) as (Hdel & Hfin & Hrun').
  destruct (established_run env (begun w) out w' Hu Hw Hrun' Hr)
    as (Hout & Hm & _ & Hgen & Hjob & Hcfg & Htext & Hpub).
  split; [done|]. split; [by rewrite Hm|]. split; [unfold has_finalizer in *; by rewrite Hm|].
  split; [exact Hgen|]. split; [exact Hjob|]. split; [exact Hcfg|].
  destruct Hpub as [[Hnone _]|(merged & Hc & Htold)].
  - exfalso. unfold merged_read in Htext. rewrite Hnone in Htext.
    destruct Htext as (c & Hc & _). by apply Marshal_MergedConfig_ne in Hc.
  - exists merged. split; [done|]. split; [|done].
    unfold merged_read in Htext. by rewrite Hc in Htext.
Qed.

(** C15: the finalizer goes last: a pass that gives up the finalizer had a
    deleted device (whose UID has no slash), deleted every job of it, left neither
    its generator file nor its configuration in the store, left a merged file that
    is the merge of the files that are there, without it, and told the exporter so. *)
Theorem MeasurementDevice_finalizer_last w w' out :
  filepath.slash ∉ chars (UID (md_Meta (w_obj w))) →
  run_steps (reconcile_steps env) w = (out, w') →
  has_finalizer (w_obj w) = true → has_finalizer (w_obj w') = false →
  DeletionTimestamp (md_Meta (w_obj w)) ≠ None ∧ out = Done (no_requeue, None) ∧
  content (w_fs w') (GeneratorFile (UID (md_Meta (w_obj w)))) = None ∧
  content (w_fs w') (SnmpFile (UID (md_Meta (w_obj w)))) = None ∧
  device_fragment content (w_fs w') SnmpSubDir (SnmpFile (UID (md_Meta (w_obj w)))) = None ∧
  ∃ jobs api1 merged,
    getOwnedJobs (w_api w) (w_obj w) = inr jobs ∧ deleted jobs (w_api w) api1 ∧
    content (w_fs w') SnmpMergedFile = Some merged ∧
    merged_text content (w_fs w') SnmpSubDir merged ∧ told env api1 (Hash merged) (w_api w').
Proof.
  intros Hu Hrun Hf Hf'. destruct (run_steps_begun (A := A) env w) as [E _]. rewrite E in Hrun.
  destruct (finalizer_inv env (begun w) out w' Hu Hrun Hf Hf')
    as (Hdel & Hout & _ & _ & _ & Hgen & Hsnmp & Htext & jobs & api1 & Hjobs & Hd & Hpub).
  split; [done|]. split; [done|]. split; [exact Hgen|]. split; [exact Hsnmp|]. split.
  { unfold device_fragment. case_decide; [|done]. unfold device_config.
    change (md_Meta (w_obj (begun w))) with (md_Meta (w_obj w)) in Hsnmp. by rewrite Hsnmp. }
  exists jobs, api1. destruct Hpub as [[Hnone _]|(merged & Hc & Htold)].
  - exfalso. unfold merged_read in Htext. rewrite Hnone in Htext.
    destruct Htext as (c & Hc & _). by apply Marshal_MergedConfig_ne in Hc.
  - exists merged. split_and!; [done..| |done].
    unfold merged_read in Htext. by rewrite Hc in Htext.
Qed.

(** C17: the generator job follows its state machine: the step creates a job only
    when the device owns none, deletes the one job only when it is of another
    generation, goes on only when it completed, waits while it runs, and touches
    no file; the Generated condition says which. *)
Theorem reconcileSNMPGeneratorJob_refines w :
  ∃ res w', reconcileSNMPGeneratorJob env w = (Done res, w') ∧
    w_fs w' = w_fs w ∧ md_Meta (w_obj w') = md_Meta (w_obj w) ∧
    md_Spec (w_obj w') = md_Spec (w_obj w) ∧
    job_pass env (w_obj w) (w_api w) (condition_status ConditionGenerated (w_obj w)) res
      (w_api w') (condition_status ConditionGenerated (w_obj w')).
Proof.
  destruct (job_step_refines env w) as ((Hm & Hs & _) & Hf & res & Hres & Hp).
  destruct (reconcileSNMPGeneratorJob env w) as [r w']. cbn [fst snd] in *. subst r.
  by exists res, w'.
Qed.

(** C29: jobs do not churn: let a pass have built a job for a device, and let the
    namespace list that job, owned by the device and in whatever state of its run,
    among any jobs that other objects own.  As long as the device has the UID, the
    namespace and the generation it had then, whatever else of it has changed, the
    next job step deletes no job and creates none, and it goes on exactly if the job
    is complete. *)
Theorem created_job_kept `{!OwnerUtilLaws} w d built job conditions before after :
  (- 2 ^ 63 ≤ Generation (md_Meta d) < 2 ^ 63)%Z →
  BuildGeneratorJob env d = inr built → SetControllerReference d built = inr job →
  UID (md_Meta (w_obj w)) = UID (md_Meta d) → Namespace (md_Meta (w_obj w)) = Namespace (md_Meta d) →
  Generation (md_Meta (w_obj w)) = Generation (md_Meta d) →
  Forall (λ k, UID (md_Meta d) ∉ job_OwnerUIDs k) (before ++ after) →
  List_Jobs (w_api w) (Namespace (md_Meta d)) =
    inr (before ++ mkJob (job_Name job) (job_Namespace job) (job_Annotations job) [UID (md_Meta d)]
           (job_Spec job) conditions :: after) →
  w_api (reconcileSNMPGeneratorJob env w).2 = w_api w ∧
  ((reconcileSNMPGeneratorJob env w).1 = Done Continue ↔ mkJobCondition "Complete" "True" ∈ conditions).
Proof.
  intros Hg Hb Hs Hu Hns Hgen [Hbefore Hafter]%Forall_app Hl. set (j := mkJob _ _ _ _ _ _) in Hl.
  assert (getOwnedJobs (w_api w) (w_obj w) = inr [j]) as Hj.
  { unfold getOwnedJobs. rewrite Hns, Hu, Hl. f_equal. unfold owned_by. rewrite bind_app, bind_cons.
    change (before ≫= _) with (owned_by (UID (md_Meta d)) before). change (after ≫= _) with (owned_by (UID (md_Meta d)) after).
    rewrite !owned_by_others by done. unfold j. cbn. by rewrite decide_True. }
  assert (jobGeneration j = Generation (md_Meta d)) as Hjg.
  { unfold jobGeneration, j. cbn [job_Annotations]. rewrite (set_owner_annotations _ _ _ Hs).
    by apply (jobGeneration_built env). }
  destruct (job_step_refines env w) as (_ & _ & res & Hres & Hp). rewrite Hres.
  destruct (job_pass_current _ _ _ _ _ _ _ _ Hp Hj) as [Ha Hc]; [by rewrite Hgen|].
  split; [done|]. change (job_Conditions j) with conditions in Hc. rewrite <-Hc. split; congruence.
Qed.

(** C20: a device that has settled is left alone: the steps of a pass over it change
    no file and nothing in the cluster, whatever the store refuses; what is left is
    the patch of its own status, which comes after the steps. *)
Theorem MeasurementDevice_stable w w' out :
  settled (content := content) env w → run_steps (reconcile_steps env) w = (out, w') →
  (∀ q, content (w_fs w') q = content (w_fs w) q) ∧ w_api w' = w_api w.
Proof.
  intros Hset Hrun. destruct (run_steps_begun (A := A) env w) as [E _]. rewrite E in Hrun.
  assert (settled (content := content) env (begun w)) as Hb by exact Hset.
  destruct (Run_frame _ _ (quiet_steps env) (begun w) Hb) as (Hs & Ha & _).
  rewrite Hrun in Hs, Ha. split; [intros q; apply Hs; tauto|done].
Qed.

Lemma md_run_confined w w' out p :
  filepath.slash ∉ chars (UID (md_Meta (w_obj w))) →
  run_steps (reconcile_steps env) w = (out, w') → local p → filepath.Clean p = p →
  p ≠ GeneratorFile (UID (md_Meta (w_obj w))) → p ≠ SnmpFile (UID (md_Meta (w_obj w))) →
  p ≠ SnmpMergedFile → content (w_fs w') p = content (w_fs w) p.
Proof.
  intros Hu Hrun Hl Hc Hng Hns Hnm. destruct (run_steps_begun (A := A) env w) as [E _]. rewrite E in Hrun.
  destruct (Run_frame _ _ (confined_steps env) (begun w)) as [_ Hs]. rewrite Hrun in Hs. apply Hs.
  destruct (SnmpFile_plain _ Hu) as (? & ? & _), (GeneratorFile_plain _ Hu) as (? & ? & _).
  destruct SnmpMergedFile_plain as (? & ? & _).
  intros [Ep|[Ep|Ep]]; apply plain_resolve in Ep; done.
Qed.

(** A pass over a device touches its generator file, its configuration and
    the merged file, and no other file of the store: not those of another
    device, nor anything else. *)
Theorem MeasurementDevice_confined w w' out p :
  filepath.slash ∉ chars (UID (md_Meta (w_obj w))) →
  run_steps (reconcile_steps env) w = (out, w') → local p → filepath.Clean p = p →
  p ≠ GeneratorFile (UID (md_Meta (w_obj w))) → p ≠ SnmpFile (UID (md_Meta (w_obj w))) →
  p ≠ SnmpMergedFile → content (w_fs w') p = content (w_fs w) p.
Proof. apply md_run_confined. Qed.
End Properties.

(** ** A device whose job has run *)
Module MdSample.
Import SimpleHelpers SimpleOs SimpleYaml SnmpSample JobSample.

Record cluster := mkCluster {
  c_jobs : list Job;
  c_exporter : Deployment;
  c_devices : gmap (string * string) MeasurementDevice
}.

#[export] Instance unicode : UnicodeTables := {| IsPrint _ := false |}.
#[export] Instance selectors : SelectorClient cluster :=
  {| Get_ConfigMap _ _ n := inl (StatusError true (n +:+ " not found"));
     Get_Secret _ _ n := inl (StatusError true (n +:+ " not found")) |}.
#[export] Instance jobs : JobClient cluster :=
  {| List_Jobs c ns := inr (filter (λ j, job_Namespace j = ns) (c_jobs c));
     Create_Job j c := (None, mkCluster (c_jobs c ++ [j]) (c_exporter c) (c_devices c));
     Delete_Job j c :=
       (None, mkCluster (filter (λ k, job_Name k ≠ job_Name j ∨ job_Namespace k ≠ job_Namespace j)
                           (c_jobs c)) (c_exporter c) (c_devices c)) |}.
#[export] Instance deployments : DeploymentClient cluster :=
  {| Get_Deployment c ns n :=
       if decide (deploy_Name (c_exporter c) = n ∧ deploy_Namespace (c_exporter c) = ns)
       then inr (c_exporter c) else inl (StatusError true (n +:+ " not found"));
     Patch_Deployment _ new c := (None, mkCluster (c_jobs c) new (c_devices c)) |}.
#[export] Instance devices : Getter cluster MeasurementDevice :=
  {| Get c ns n := match c_devices c !! (ns, n) with
                   | Some d => inr d
                   | None => inl (StatusError true (n +:+ " not found"))
                   end |}.
#[export] Instance patcher : Patcher cluster MeasurementDevice :=
  {| helper := unit; NewHelper _ _ := inr tt;
     Patch _ d c := (None, mkCluster (c_jobs c) (c_exporter c)
                             (<[(Namespace (md_Meta d), Name (md_Meta d)) := d]> (c_devices c))) |}.

Definition own_job (uid : string) (conditions : list JobCondition) (j : Job) : Job :=
  mkJob (job_Name j) (job_Namespace j) (job_Annotations j) [uid] (job_Spec j) conditions.
#[export] Instance owner : OwnerUtil :=
  {| SetControllerReference d j := inr (own_job (UID (md_Meta d)) (job_Conditions j) j) |}.
#[export] Instance owner_laws : OwnerUtilLaws.
Proof. split; intros d j j' [= <-]; [done|]. split; [left|done]. Defined.

Definition done_job : Job :=
  own_job "a-random-uid" [mkJobCondition "Complete" "True"] JobSample.job.
Definition exporter : Deployment := Selector.mkDeployment "chantico-snmp" "chantico" 1 1 0 None.
Definition after_job (jobs : list Job) : World MeasurementDevice cluster :=
  mkWorld device (write_all [("snmp/yml/snmp-a-random-uid.yaml", "tno: v2")])
    (mkCluster jobs exporter {[("chantico", "tno") := device]}).
Definition pass (w : World MeasurementDevice cluster) :
    outcome (Result * option error) * World MeasurementDevice cluster :=
  run_steps (reconcile_steps env) w.

(** The same device, deleted. *)
Definition deleted_world : World MeasurementDevice cluster :=
  mkWorld (set_md_Meta (mkObjectMeta "tno" "chantico" "a-random-uid" 8 (Some 1%Z)
                          [SNMPUpdateFinalizer]) device)
    (w_fs (pass (after_job [done_job])).2) (w_api (pass (after_job [done_job])).2).
End MdSample.
Import MdSample.
Import SimpleHelpers SimpleOs SimpleYaml SnmpSample JobSample.

Abbreviation data := (volume_content "/data").

Lemma MeasurementDevice_ready_truthful_witness :
  ∃ merged, data (w_fs (pass (after_job [done_job])).2) SnmpMergedFile = Some merged ∧
    merged_text data (w_fs (pass (after_job [done_job])).2) SnmpSubDir merged ∧
    told JobSample.env (w_api (after_job [done_job])) (Hash merged) (w_api (pass (after_job [done_job])).2).
Proof.
  refine (proj2 (proj2 (proj2 (proj2 (proj2 (proj2 (MeasurementDevice_ready_truthful
    (content := data) JobSample.env (after_job [done_job]) (pass (after_job [done_job])).2
    (Done (no_requeue, None)) _ _ _))))))).
  - apply (bool_decide_unpack _). vm_compute. exact I.
  - vm_compute. reflexivity.
  - vm_compute. reflexivity.
Defined.

Lemma MeasurementDevice_finalizer_last_witness :
  data (w_fs (pass deleted_world).2) (SnmpFile "a-random-uid") = None ∧
  c_jobs (w_api (pass deleted_world).2) = [].
Proof.
  split; [|vm_compute; reflexivity].
  refine (proj1 (proj2 (proj2 (proj2 (MeasurementDevice_finalizer_last
    (content := data) JobSample.env deleted_world (pass deleted_world).2
    (Done (no_requeue, None)) _ _ _ _))))).
  - apply (bool_decide_unpack _). vm_compute. exact I.
  - vm_compute. reflexivity.
  - vm_compute. reflexivity.
  - vm_compute. reflexivity.
Defined.

(** Between the jobs of two other devices. *)
Definition crowded : World MeasurementDevice cluster :=
  after_job [own_job "other-uid" [] JobSample.job; done_job; own_job "third-uid" [] JobSample.job].

Lemma created_job_kept_witness :
  w_api (reconcileSNMPGeneratorJob JobSample.env crowded).2 = w_api crowded ∧
  ((reconcileSNMPGeneratorJob JobSample.env crowded).1 = Done Continue ↔
   mkJobCondition "Complete" "True" ∈ [mkJobCondition "Complete" "True"]).
Proof.
  apply (created_job_kept JobSample.env crowded device JobSample.job
           (own_job "a-random-uid" [] JobSample.job) [mkJobCondition "Complete" "True"]
           [own_job "other-uid" [] JobSample.job] [own_job "third-uid" [] JobSample.job]).
  - split; reflexivity || discriminate.
  - reflexivity.
  - reflexivity.
  - reflexivity.
  - reflexivity.
  - reflexivity.
  - apply (bool_decide_unpack _). vm_compute. exact I.
  - reflexivity.
Defined.

(** The pass after a Ready one. *)
Lemma settled_sample :
  settled (content := data) JobSample.env (pass (after_job [done_job])).2.
Proof.
  unfold settled. split; [vm_compute; reflexivity|]. split; [vm_compute; reflexivity|].
  split; [eexists; split; vm_compute; reflexivity|].
  split.
  { exists done_job. split; [vm_compute; reflexivity|]. split; [vm_compute; reflexivity|left]. }
  set (s := w_fs (pass (after_job [done_job])).2).
  assert (∃ text, GetMergedSortedSNMPConfig SnmpSubDir s =
    (inr text, (GetMergedSortedSNMPConfig SnmpSubDir s).2) ∧ text = "auths: tno: v2") as (text & Hg & ->)
    by (eexists; split; [vm_compute; reflexivity|reflexivity]).
  apply (GetMergedSortedSNMPConfig_text (content := data)) in Hg as [_ Hm]; [|apply SnmpSubDir_local].
  exists "auths: tno: v2", (set_template_annotation ConfigHashAnnotation (Hash "auths: tno: v2") exporter).
  split; [vm_compute; reflexivity|]. split; [exact Hm|]. split; vm_compute; reflexivity.
Qed.

Lemma MeasurementDevice_stable_witness :
  (∀ q, data (w_fs (pass (pass (after_job [done_job])).2).2) q =
        data (w_fs (pass (after_job [done_job])).2) q) ∧
  w_api (pass (pass (after_job [done_job])).2).2 = w_api (pass (after_job [done_job])).2.
Proof.
  apply (MeasurementDevice_stable (content := data) JobSample.env (pass (after_job [done_job])).2
           (pass (pass (after_job [done_job])).2).2 (Done (no_requeue, None))).
  - apply settled_sample.
  - vm_compute. reflexivity.
Defined.

Lemma MeasurementDevice_confined_witness :
  data (w_fs (pass (after_job [done_job])).2) (SnmpFile "other") =
  data (w_fs (after_job [done_job])) (SnmpFile "other").
Proof.
  apply (MeasurementDevice_confined (content := data) JobSample.env (after_job [done_job])
           (pass (after_job [done_job])).2 (Done (no_requeue, None)) (SnmpFile "other")).
  - apply (bool_decide_unpack _). vm_compute. exact I.
  - vm_compute. reflexivity.
  - apply (bool_decide_unpack _). vm_compute. exact I.
  - reflexivity.
  - discriminate.
  - discriminate.
  - discriminate.
Defined.

Lemma reconcileSNMPGeneratorJob_refines_witness :
  ∃ res w', reconcileSNMPGeneratorJob JobSample.env (after_job []) = (Done res, w') ∧
    w_fs w' = w_fs (after_job []) ∧ md_Meta (w_obj w') = md_Meta device ∧
    md_Spec (w_obj w') = md_Spec device ∧
    job_pass JobSample.env device (w_api (after_job [])) None res (w_api w')
      (condition_status ConditionGenerated (w_obj w')).
Proof. exact (reconcileSNMPGeneratorJob_refines JobSample.env (after_job [])). Defined.
