(* ===== verification/DeviceLife.v ===== *)
(** The life of a measurement device: with nothing refused, a live device comes from
    wherever it is to a generator file and a job of its generation, and once the job
    is done, to Ready. *)
From S2P Require Import Prelude GoStd Errors Paths FileStore Configuration Selector ApiTypes.
From S2P Require Import Steps Cluster Sha256 Snmp MeasurementDeviceJob MeasurementDeviceController.

(** ** Nothing is refused *)

(** The store reads what is there, and takes what it is given. *)
Class StoreAccepts (St : Type) `{FileStore St} (content : St → string → option string) : Prop := {
  read_found p s data : content s p = Some data → (fs_ReadAll p s).1 = inr data;
  read_absent p s : content s p = None → ∃ e, (fs_ReadAll p s).1 = inl e ∧ Is_ErrNotExist e = true;
  write_taken p data s : (fs_Write p data s).1 = None;
  collect_taken d s : local d → ∃ entries r, (fs_CollectSubFiles d s).1 = (entries, r) ∧
    (∀ e, r = Some e → Is_ErrNotExist e = true)
}.

Class YamlAccepts `{SnmpYaml} : Prop := { marshal_taken c : ∃ text, Marshal_MergedConfig c = inr text }.

(** The owner reference is added to a job without owners. *)
Class OwnerAccepts `{OwnerUtil} : Prop := {
  owner_set d job : ∃ job', SetControllerReference d job = inr job' ∧
    job_Annotations job' = job_Annotations job ∧ job_Namespace job' = job_Namespace job ∧
    job_Name job' = job_Name job ∧
    (job_OwnerUIDs job = [] → job_OwnerUIDs job' = [UID (md_Meta d)])
}.

(** The cluster lists jobs, makes one whose name is not taken and deletes it, and has
    a deployment of the exporter that can be patched; none of that is about
    ConfigMaps and Secrets. *)
Class ClusterAccepts (A : Type) `{SelectorClient A, JobClient A, DeploymentClient A} (env : validatedEnv) : Prop := {
  jobs_taken a ns : ∃ l, List_Jobs a ns = inr l;
  jobs_namespace a ns l job : List_Jobs a ns = inr l → job ∈ l → job_Namespace job = ns;
  create_taken job a l : List_Jobs a (job_Namespace job) = inr l → (∀ k, k ∈ l → job_Name k ≠ job_Name job) →
    (Create_Job job a).1 = None ∧
    ∃ l', List_Jobs (Create_Job job a).2 (job_Namespace job) = inr l' ∧ l' ≡ₚ job :: l;
  create_reads job a : same_reads a (Create_Job job a).2;
  delete_taken job a : IgnoreNotFound (Delete_Job job a).1 = None;
  delete_listed job a l : List_Jobs a (job_Namespace job) = inr l →
    ∃ l', List_Jobs (Delete_Job job a).2 (job_Namespace job) = inr l' ∧
      l' ≡ₚ filter (λ k, job_Name k ≠ job_Name job) l;
  delete_reads job a : same_reads a (Delete_Job job a).2;
  exporter_found a : ∃ dep, getSnmpExporterDeployment env a = inr dep;
  exporter_taken dep dep' a : (Patch_Deployment dep dep' a).1 = None;
  exporter_reads dep dep' a : same_reads a (Patch_Deployment dep dep' a).2;
  exporter_jobs dep dep' a ns : List_Jobs (Patch_Deployment dep dep' a).2 ns = List_Jobs a ns
}.

(** ** The merge succeeds if every configuration can be read *)
Section Readable.
Context `{SnmpYaml} {St : Type} `{FileStoreLaws St content, !StoreAccepts St content, !YamlAccepts}.
Implicit Types (s : St).

Definition readable dir s : Prop := ∀ n raw,
  device_file (St := St) dir n → device_config content s n = Some raw → is_Some (fragment raw).

Lemma read_configs_accepted entries : ∀ out s,
  Forall (λ n, local n ∧ filepath.Clean n = n ∧ is_Some (content s n)) entries →
  ∃ m s', read_configs entries out s = (inr m, s').
Proof.
  induction entries as [|name entries IH]; intros out s; cbn [read_configs]; [by eexists _, _|].
  intros [(Hl & Hc & [raw Hraw]) Hn]%Forall_cons. destruct (per_device name); [|by apply IH].
  rewrite Join_clean_name by done. pose proof (read_found name s raw Hraw) as Hr.
  pose proof (read_frame name s) as Hfr. destruct (fs_ReadAll name s) as [r s1]. cbn [fst snd] in *. subst r.
  assert (Forall (λ n, local n ∧ filepath.Clean n = n ∧ is_Some (content s1 n)) entries) as Hn'.
  { eapply Forall_impl; [exact Hn|]. intros n (? & ? & ?). by rewrite Hfr. }
  destruct (trims_to_empty raw); by apply IH.
Qed.

Lemma merge_from_accepted configs : ∀ i out,
  Forall (λ raw, is_Some (fragment raw)) configs → ∃ c, merge_from i out configs = inr c.
Proof.
  induction configs as [|raw configs IH]; intros i out; cbn [merge_from]; [by eexists|].
  intros [[frag Hf] Hcs]%Forall_cons. revert Hf. unfold fragment.
  destruct (trims_to_empty raw); [done|]. destruct (Unmarshal_MergedConfig raw); [done|]. intros _. by apply IH.
Qed.

Lemma merge_accepted dir s :
  local dir → readable dir s → ∃ text, (GetMergedSortedSNMPConfig dir s).1 = inr text.
Proof.
  intros Hdir Hs. unfold GetMergedSortedSNMPConfig.
  assert (∃ m s', readPerDeviceSnmpConfigs dir s = (inr m, s')) as (m & s' & Hm).
  { unfold readPerDeviceSnmpConfigs. destruct (collect_taken dir s Hdir) as (entries & r & Hc & Hr).
    pose proof (collect_sound dir s entries Hdir) as Hsound. pose proof (collect_frame dir s) as Hfr.
    destruct (fs_CollectSubFiles dir s) as [q s1]. cbn [fst snd] in *. subst q.
    destruct r as [e|]; [rewrite (Hr e eq_refl); by eexists _, _|].
    apply read_configs_accepted. apply Forall_forall. intros n Hn.
    destruct (Hsound eq_refl) as [_ Hall]. destruct (Hall n Hn) as (? & _ & ? & ?). by rewrite Hfr. }
  rewrite Hm. destruct (readPerDeviceSnmpConfigs_spec dir s m s' Hdir Hm) as [_ Hlookup]. cbn [fst].
  unfold merge. destruct (merge_from_accepted (sortedConfigs m) 0 (mkMergedConfig ∅ ∅ 0%Z)) as [c ->].
  - apply Forall_forall. intros raw Hraw. unfold sortedConfigs in Hraw.
    apply list_elem_of_fmap in Hraw as ([n raw'] & -> & Hin). rewrite merge_sort_Permutation in Hin.
    apply elem_of_map_to_list in Hin. rewrite Hlookup in Hin. case_decide; [|done]. by eapply Hs.
  - apply marshal_taken.
Qed.
End Readable.

Section DeviceLife.
Context {A : Type} `{UnicodeTables, MetaConditionsLaws, FinalizerUtilLaws, ProcessIds, OwnerUtil, SnmpYaml}.
Context `{SelectorClient A, JobClient A, DeploymentClient A}.
Context `{Getter A MeasurementDevice, Patcher A MeasurementDevice, FileStoreLaws Fs content}.
Context (env : validatedEnv).
Context `{!StoreAccepts Fs content, !YamlAccepts, !OwnerAccepts, !ClusterAccepts A env}.
Abbreviation W := (World MeasurementDevice A).
Implicit Types (w : W) (d : MeasurementDevice) (job : Job).

(** ** The steps, when nothing is refused *)
Lemma run_read p w :
  (∃ e, content (w_fs w) p = None ∧ (fs_ReadAll p (w_fs w)).1 = inl e ∧ Is_ErrNotExist e = true) ∨
  (∃ data, content (w_fs w) p = Some data ∧ (fs_ReadAll p (w_fs w)).1 = inr data).
Proof.
  destruct (content (w_fs w) p) as [data|] eqn:Hc.
  - right. exists data. by rewrite (read_found _ _ _ Hc).
  - left. destruct (read_absent _ _ Hc) as (e & ? & ?). by exists e.
Qed.

Lemma write_pass (k : error → Go W StepResult) (next : Go W StepResult) p data w :
  (∀ w', (next w').1 = Done Continue) →
  ((r ← fs_call (fs_Write p data); match r with Some err => k err | None => next end) w).1 = Done Continue.
Proof.
  intros Hn. rewrite run_bind, run_fs_call. pose proof (write_taken p data (w_fs w)) as Hw.
  destruct (fs_Write p data (w_fs w)) as [r fs']. cbn [fst snd] in *. subst r. apply Hn.
Qed.

Lemma generator_goes_on w desired :
  desiredGeneratorConfig (w_api w) (w_obj w) = Done (inr desired) → (reconcileGeneratorFile w).1 = Done Continue.
Proof.
  intros Hd. unfold reconcileGeneratorFile. rewrite run_bind, run_the_obj, run_bind, run_fs_call.
  destruct (run_read (GeneratorFile (UID (md_Meta (w_obj w)))) w) as [(e & _ & -> & ->)|(data & _ & ->)];
    cbn [fst snd]; rewrite run_bind; unfold the_api; rewrite run_gets; cbn [w_api];
    rewrite run_bind; unfold lift_outcome; rewrite Hd; [|case_decide; [done|]]; by apply write_pass.
Qed.

Lemma content_goes_on w config :
  content (w_fs w) (SnmpFile (UID (md_Meta (w_obj w)))) = Some config → (reconcileSNMPFileContent w).1 = Done Continue.
Proof.
  intros Hc. unfold reconcileSNMPFileContent. rewrite run_bind, run_the_obj, run_bind, run_fs_call.
  rewrite (read_found _ _ _ Hc). case_decide; [done|]. by rewrite run_bind, run_with_obj.
Qed.

Lemma merged_goes_on w : readable (content := content) SnmpSubDir (w_fs w) → (reconcileMergedSNMPFile w).1 = Done Continue.
Proof.
  intros Hr. unfold reconcileMergedSNMPFile. rewrite run_bind, run_fs_call.
  destruct (merge_accepted SnmpSubDir (w_fs w) SnmpSubDir_local Hr) as [text ->].
  rewrite run_bind, run_fs_call. set (w1 := mkWorld _ _ _).
  assert (∀ existing merged w', (write_merged existing merged w').1 = Done Continue) as Hw
    by (intros existing merged w'; unfold write_merged; case_decide; [done|by apply write_pass]).
  destruct (run_read SnmpMergedFile w1) as [(e & _ & -> & ->)|(data & _ & ->)]; apply Hw.
Qed.

Lemma reload_goes_on w : (reconcileExporterReload env w).1 = Done Continue.
Proof.
  unfold reconcileExporterReload. rewrite run_bind, run_fs_call.
  destruct (run_read SnmpMergedFile w) as [(e & _ & -> & ->)|(data & _ & ->)]; [done|].
  rewrite run_bind. unfold the_api. rewrite run_gets. cbn [w_api].
  destruct (exporter_found (w_api w)) as [dep ->]. unfold apply_exporter. case_decide; [done|].
  rewrite run_bind, run_api_call. cbn [w_api]. pose proof (exporter_taken dep
    (set_template_annotation ConfigHashAnnotation (Hash data) dep) (w_api w)) as Hp.
  by destruct (Patch_Deployment dep _ (w_api w)) as [r a']; cbn [fst snd] in *; subst r.
Qed.

(** A step that goes on, and one that ends the pass. *)
Lemma Run_on step rest w : (step w).1 = Done Continue → Run (step :: rest) w = Run rest (step w).2.
Proof. intros Hs. destruct (step w) as [r w'] eqn:E. cbn [fst snd] in *. subst r. by rewrite (Run_cons _ _ _ _ _ E). Qed.
Lemma Run_end step rest w : (step w).1 = Done Stop → Run (step :: rest) w = (Done (no_requeue, None), (step w).2).
Proof. intros Hs. destruct (step w) as [r w'] eqn:E. cbn [fst snd] in *. subst r. by rewrite (Run_cons _ _ _ _ _ E). Qed.

(** ** The turns of a device *)
Definition jobs_of w : error + list Job := getOwnedJobs (w_api w) (w_obj w).
Abbreviation generation_of w := (Generation (md_Meta (w_obj w))).
Abbreviation generator_of w := (content (w_fs w) (GeneratorFile (UID (md_Meta (w_obj w))))).

(** Adopted, rid of a job of an earlier generation, given one of its own: the turns
    that are left until there is nothing to do but wait for it. *)
Definition turns_left w : nat :=
  if has_finalizer (w_obj w) then
    match jobs_of w with
    | inr [] => 1
    | inr [job] => if decide (jobGeneration job = generation_of w) then 0 else 2
    | _ => 0
    end
  else 3.

(** The jobs of the device's name are its own. *)
Definition owns_name (a : A) d : Prop :=
  ∀ l job, List_Jobs a (Namespace (md_Meta d)) = inr l → job ∈ l → job_Name job = Name (md_Meta d) →
  UID (md_Meta d) ∈ job_OwnerUIDs job.

(** What a turn needs: the device is live, owns one job at most, nobody else's has its
    name, and the configuration of its generator can be made. *)
Record fit (desired : string) w : Prop := {
  fit_live : DeletionTimestamp (md_Meta (w_obj w)) = None;
  fit_generation : (- 2 ^ 63 ≤ generation_of w < 2 ^ 63)%Z;
  fit_jobs : ∃ jobs, jobs_of w = inr jobs ∧ length jobs ≤ 1;
  fit_named : owns_name (w_api w) (w_obj w);
  fit_desired : desiredGeneratorConfig (w_api w) (w_obj w) = Done (inr desired)
}.

(** Not but the finalizers change of the metadata. *)
Definition same_device d d' : Prop :=
  md_Spec d' = md_Spec d ∧ set_Finalizers [] (md_Meta d') = set_Finalizers [] (md_Meta d).

Lemma same_device_fields d d' : same_device d d' →
  UID (md_Meta d') = UID (md_Meta d) ∧ Namespace (md_Meta d') = Namespace (md_Meta d) ∧
  Name (md_Meta d') = Name (md_Meta d) ∧ Generation (md_Meta d') = Generation (md_Meta d) ∧
  DeletionTimestamp (md_Meta d') = DeletionTimestamp (md_Meta d).
Proof. intros [_ Hm]. unfold set_Finalizers in Hm. by simplify_eq. Qed.

Lemma same_device_desired a a' d d' : same_device d d' → same_reads a a' →
  desiredGeneratorConfig a' d' = desiredGeneratorConfig a d.
Proof.
  intros Hs Hr. destruct (same_device_fields _ _ Hs) as (_ & Hns & Hn & _). destruct Hs as [Hs _].
  unfold desiredGeneratorConfig. rewrite Hs, Hns, Hn. destruct (md_AuthFrom (md_Spec d)); [|done].
  by rewrite (Selector_reads a a').
Qed.
Lemma same_device_jobs (a : A) d d' : same_device d d' → getOwnedJobs a d' = getOwnedJobs a d.
Proof. intros Hs. destruct (same_device_fields _ _ Hs) as (Hu & Hns & _). unfold getOwnedJobs. by rewrite Hu, Hns. Qed.

Lemma same_device_named (a a' : A) d d' :
  same_device d d' → (∀ ns, List_Jobs a' ns = List_Jobs a ns) → owns_name a d → owns_name a' d'.
Proof.
  intros Hs Hl Hn. destruct (same_device_fields _ _ Hs) as (Hu & Hns & Hname & _). unfold owns_name.
  rewrite Hu, Hns, Hname, Hl. exact Hn.
Qed.
Lemma same_meta d d' : md_Meta d' = md_Meta d → md_Spec d' = md_Spec d → same_device d d'.
Proof. intros Hm Hs. split; [done|by rewrite Hm]. Qed.

(** ** What the job step makes of the jobs *)
Lemma owned_by_perm uid l l' : l' ≡ₚ l → owned_by uid l' ≡ₚ owned_by uid l.
Proof. unfold owned_by. by intros ->. Qed.

Lemma elem_of_owned uid job l : job ∈ owned_by uid l ↔ job ∈ l ∧ uid ∈ job_OwnerUIDs job.
Proof.
  unfold owned_by. rewrite list_elem_of_bind. split.
  - intros (k & Hk & Hin). apply list_elem_of_fmap in Hk as (o & -> & [-> Ho]%list_elem_of_filter). done.
  - intros [Hin Ho]. exists job. split; [|done]. apply list_elem_of_fmap. exists uid. by rewrite list_elem_of_filter.
Qed.

Lemma create_owned a d built :
  getOwnedJobs a d = inr [] → owns_name a d → BuildGeneratorJob env d = inr built →
  (- 2 ^ 63 ≤ Generation (md_Meta d) < 2 ^ 63)%Z →
  ∃ job, SetControllerReference d built = inr job ∧ (Create_Job job a).1 = None ∧
    owns_name (Create_Job job a).2 d ∧
    ∃ job', getOwnedJobs (Create_Job job a).2 d = inr [job'] ∧ jobGeneration job' = Generation (md_Meta d).
Proof.
  intros Hj Hnamed Hb Hg. destruct (owner_set d built) as (job & Hset & Hann & Hns & Hname & Hown). exists job.
  split; [done|]. pose proof (jobGeneration_built env _ _ Hg Hb) as Hgen. injection Hb as Hb.
  assert (job_Namespace job = Namespace (md_Meta d)) as Hns' by (by rewrite Hns, <-Hb).
  assert (job_Name job = Name (md_Meta d)) as Hname' by (by rewrite Hname, <-Hb).
  assert (job_OwnerUIDs job = [UID (md_Meta d)]) as Hu by (apply Hown; by rewrite <-Hb).
  unfold getOwnedJobs, owns_name in *. rewrite <-Hns', <-Hname' in *.
  destruct (List_Jobs a (job_Namespace job)) as [e|l] eqn:Hl; [done|]. injection Hj as Hj.
  destruct (create_taken job a l Hl) as (Hok & l' & Hl' & Hp).
  { intros k Hk Hkn. eapply (not_elem_of_nil k). rewrite <-Hj. apply elem_of_owned. split; [done|by eapply Hnamed]. }
  split; [done|]. rewrite Hl'. split.
  - intros l0 k [= <-] Hk Hkn. rewrite Hp in Hk. apply elem_of_cons in Hk as [->|Hk]; [rewrite Hu; by left|by eapply Hnamed].
  - exists job. split; [|unfold jobGeneration in *; by rewrite Hann]. f_equal.
    apply (owned_by_perm (UID (md_Meta d))) in Hp. unfold owned_by in Hp. cbn [mbind list_bind] in Hp.
    change (l ≫= _) with (owned_by (UID (md_Meta d)) l) in Hp. rewrite Hj, app_nil_r in Hp.
    apply Permutation_singleton_r. rewrite Hu in Hp. by rewrite filter_cons_True in Hp.
Qed.

Lemma delete_owned a d job :
  getOwnedJobs a d = inr [job] → owns_name a d →
  getOwnedJobs (Delete_Job job a).2 d = inr [] ∧ owns_name (Delete_Job job a).2 d.
Proof.
  unfold getOwnedJobs, owns_name. destruct (List_Jobs a (Namespace (md_Meta d))) as [e|l] eqn:Hl; [done|]. intros [= Hj] Hnamed.
  assert (job ∈ owned_by (UID (md_Meta d)) l) as [Hin _]%elem_of_owned by (rewrite Hj; by left).
  pose proof (jobs_namespace _ _ _ _ Hl Hin) as Hns. rewrite <-Hns in Hl |- *. destruct (delete_listed job a l Hl) as (l' & -> & Hp).
  split; [f_equal|].
  - apply Permutation_nil_r. rewrite (owned_by_perm _ _ _ Hp).
    destruct (owned_by _ (filter _ l)) as [|k ks] eqn:E; [done|]. exfalso.
    assert (k ∈ owned_by (UID (md_Meta d)) (filter (λ k, job_Name k ≠ job_Name job) l)) as Hk by (rewrite E; by left).
    apply elem_of_owned in Hk as [[Hne Hkl]%list_elem_of_filter Hown]. apply Hne.
    assert (k ∈ owned_by (UID (md_Meta d)) l) as Hk by (by apply elem_of_owned).
    rewrite Hj in Hk. by apply list_elem_of_singleton in Hk as ->.
  - intros l0 k [= <-] Hk Hkn. rewrite Hp in Hk. apply list_elem_of_filter in Hk as [_ Hk]. by eapply Hnamed.
Qed.

(** ** One pass *)

(** After the job step the device, the jobs and every file but the merged one are
    left alone. *)
Definition late : relation W := λ w w',
  md_Meta (w_obj w') = md_Meta (w_obj w) ∧ md_Spec (w_obj w') = md_Spec (w_obj w) ∧
  same_reads (w_api w) (w_api w') ∧ (∀ ns, List_Jobs (w_api w') ns = List_Jobs (w_api w) ns) ∧
  same_contents_but (content := content) (is_file SnmpMergedFile) w w'.

#[local] Instance late_preorder : PreOrder late.
Proof.
  split; [by intros w; split_and!|]. intros w1 w2 w3 (Hm1 & Hs1 & Hr1 & Hj1 & Hf1) (Hm2 & Hs2 & Hr2 & Hj2 & Hf2).
  split_and!; [congruence|congruence|by etrans|intros ns; by rewrite Hj2|by etrans].
Qed.

Lemma late_api_kept w w' :
  same_core w w' → w_api w' = w_api w → same_contents_but (content := content) (is_file SnmpMergedFile) w w' → late w w'.
Proof. intros (Hm & Hs & _) Ha Hf. unfold late. by rewrite Ha. Qed.

Lemma late_steps : Forall (frame late) (drop 4 (reconcile_steps env)).
Proof.
  cbn [drop reconcile_steps]. rewrite !Forall_cons, Forall_nil. split_and!; [intros w..|done].
  - destruct (reconcileSNMPFileContent_spec w) as (Hc & Ha & Hs & _). apply late_api_kept; [done..|].
    intros q _. apply Hs. tauto.
  - destruct (reconcileMergedSNMPFile_merges w) as (Hc & Ha & Hs & _). by apply late_api_kept.
  - destruct (reconcileExporterReload_reloads env w) as ((Hm & Hs & _) & Hf & _ & Hr). pose proof (reload_goes_on w) as Hgo.
    split_and!; [done|done| | |intros q _; apply Hf; tauto];
      destruct Hr as [[e He]|[_ [[_ ->]|(merged & _ & dep & _ & [[_ ->]|[_ Hp]])]]]; try (by rewrite He in Hgo); try done;
      change (w_api (reconcileExporterReload env w).2) with (None (A := error), w_api (reconcileExporterReload env w).2).2;
      rewrite <-Hp; [apply exporter_reads|apply exporter_jobs].
  - by split_and!.
Qed.

Lemma deletion_live w :
  DeletionTimestamp (md_Meta (w_obj w)) = None → reconcileDeletion env w = (Done Continue, w).
Proof. intros Hd. unfold reconcileDeletion. by rewrite run_bind, run_the_obj, decide_True. Qed.

(** What the job step makes of the jobs. *)
Definition job_turned w w' : Prop :=
  owns_name (w_api w') (w_obj w') ∧
  match jobs_of w with
  | inr [] => ∃ job, jobs_of w' = inr [job] ∧ jobGeneration job = generation_of w
  | inr [job] => jobs_of w' = if decide (jobGeneration job = generation_of w) then inr [job] else inr []
  | _ => True
  end.

Lemma job_turn desired w :
  fit desired w → ∃ res w', reconcileSNMPGeneratorJob env w = (Done res, w') ∧ (res = Stop ∨ res = Continue) ∧
    same_core w w' ∧ w_fs w' = w_fs w ∧ same_reads (w_api w) (w_api w') ∧ job_turned w w'.
Proof.
  intros [_ Hg (jobs & Hj & Hlen) Hnamed _]. destruct (job_step_refines env w) as (Hc & Hf & res & Hres & Hp).
  destruct (reconcileSNMPGeneratorJob env w) as [q w']. cbn [fst snd] in *. subst q. exists res, w'. split; [done|].
  assert (jobs_of w' = getOwnedJobs (w_api w') (w_obj w)) as Hw'.
  { destruct Hc as (Hm & _). unfold jobs_of, getOwnedJobs. by rewrite Hm. }
  assert (∀ a, owns_name a (w_obj w) → owns_name a (w_obj w')) as Hnamed'.
  { intros a. destruct Hc as (Hm & Hs & _). by apply same_device_named; [apply same_meta|]. }
  assert ((res = Stop ∨ res = Continue) ∧ same_reads (w_api w) (w_api w') ∧ job_turned w w') as (? & ? & ?); [|by split_and!].
  unfold job_turned. rewrite Hw'. unfold jobs_of in *. rewrite Hj.
  inversion Hp as [e Hj'|e Hj' Hb|built job api' Hj' Hb Hs Hcr|built job e api' Hj' Hb Hs Hcr|job err api' Hj' Hne Hd Hi
    |job err e api' Hj' Hne Hd Hi|job Hj' He Hco|job Hj' He|job Hj' He|js e Hj' Hlen']; rewrite Hj in Hj'; simplify_eq;
    try (replace (w_api w') with (w_api w) by congruence; rewrite decide_True by done; split_and!; [auto|done|by apply Hnamed'|done]).
  - destruct Hb as [Hb|(built & _ & Hs)]; [discriminate Hb|]. destruct (owner_set (w_obj w) built) as (? & ? & _). congruence.
  - pose proof (create_reads job (w_api w)) as Hr.
    destruct (create_owned (w_api w) (w_obj w) built Hj Hnamed Hb Hg) as (job0 & Hs' & _ & Hn & Hl).
    assert (job0 = job) as -> by congruence. rewrite Hcr in Hr, Hn, Hl. split_and!; [by left|exact Hr|by apply Hnamed'|exact Hl].
  - destruct (create_owned (w_api w) (w_obj w) built Hj Hnamed Hb Hg) as (job0 & Hs' & Ht & _).
    assert (job0 = job) as -> by congruence. by rewrite Hcr in Ht.
  - pose proof (delete_reads job (w_api w)) as Hr. destruct (delete_owned (w_api w) (w_obj w) job Hj Hnamed) as [Hl Hn].
    rewrite Hd in Hr, Hl, Hn. rewrite decide_False by done. split_and!; [by left|exact Hr|by apply Hnamed'|exact Hl].
  - pose proof (delete_taken job (w_api w)) as Ht. rewrite Hd in Ht. simpl in Ht. congruence.
  - simpl in *. lia.
Qed.

(** A pass over an adopted device comes to the job step with its generator file
    written. *)
Lemma adopted_pass desired w :
  fit desired w → has_finalizer (w_obj w) = true →
  ∃ w1, run_steps (reconcile_steps env) w = Run (drop 3 (reconcile_steps env)) w1 ∧
    same_core (begun w) w1 ∧ w_api w1 = w_api w ∧ fit desired w1 ∧
    same_contents_but (content := content) (is_file (GeneratorFile (UID (md_Meta (w_obj w))))) w w1 ∧
    content (w_fs w1) (GeneratorFile (UID (md_Meta (w_obj w)))) = Some desired.
Proof.
  intros Hfit Hfin. destruct Hfit as [Hd Hg Hj Hnamed Hdes]. rewrite (proj1 (run_steps_begun (A := A) env w)). unfold reconcile_steps.
  rewrite Run_on by (by rewrite deletion_live). rewrite deletion_live by done. cbn [snd].
  assert (ensureFinalizerIsSet (begun w) = (Done Continue, begun w)) as He.
  { rewrite ensureFinalizerIsSet_spec. change (has_finalizer (w_obj (begun w))) with (has_finalizer (w_obj w)). by rewrite Hfin. }
  rewrite Run_on by (by rewrite He). rewrite He. cbn [snd].
  assert (desiredGeneratorConfig (w_api (begun w)) (w_obj (begun w)) = Done (inr desired)) as Hdes' by exact Hdes.
  pose proof (generator_goes_on (begun w) desired Hdes') as Hgo. rewrite Run_on by exact Hgo.
  destruct (reconcileGeneratorFile_spec (begun w)) as (Hc & Ha & Hf & Hr). rewrite Hgo in Hr.
  eexists. split; [reflexivity|]. split; [exact Hc|]. split; [exact Ha|]. destruct Hc as (Hm & Hs & _). split; [split|].
  - by rewrite Hm.
  - by rewrite Hm.
  - unfold jobs_of, getOwnedJobs. rewrite Ha, Hm. exact Hj.
  - unfold owns_name. rewrite Ha, Hm. exact Hnamed.
  - unfold desiredGeneratorConfig. rewrite Ha, Hm, Hs. exact Hdes.
  - split; [exact Hf|]. destruct Hr as [(desired' & _ & Hdes'' & Hgen)|[[e [=]] _]].
    assert (desired' = desired) as -> by congruence. exact Hgen.
Qed.

(** A pass over a device that is not adopted adopts it and stops. *)
Lemma adopting_pass w :
  DeletionTimestamp (md_Meta (w_obj w)) = None → has_finalizer (w_obj w) = false →
  run_steps (reconcile_steps env) w =
    (Done (no_requeue, None),
     mkWorld (update_finalizers (λ fs, AddFinalizer fs SNMPUpdateFinalizer) (w_obj (begun w))) (w_fs w) (w_api w)).
Proof.
  intros Hd Hfin. rewrite (proj1 (run_steps_begun (A := A) env w)). unfold reconcile_steps.
  rewrite Run_on by (by rewrite deletion_live). rewrite deletion_live by done. cbn [snd].
  assert (ensureFinalizerIsSet (begun w) = (Done Stop, mkWorld (update_finalizers
    (λ fs, AddFinalizer fs SNMPUpdateFinalizer) (w_obj (begun w))) (w_fs w) (w_api w))) as He.
  { rewrite ensureFinalizerIsSet_spec. change (has_finalizer (w_obj (begun w))) with (has_finalizer (w_obj w)). by rewrite Hfin. }
  rewrite Run_end by (by rewrite He). by rewrite He.
Qed.

Definition passed desired w w' : Prop :=
  same_device (w_obj w) (w_obj w') ∧ has_finalizer (w_obj w') = true ∧ same_reads (w_api w) (w_api w') ∧
  if has_finalizer (w_obj w) then generator_of w' = Some desired ∧ job_turned w w' else w_api w' = w_api w.

Lemma late_passed desired w w1 w2 w' :
  filepath.slash ∉ chars (UID (md_Meta (w_obj w))) → has_finalizer (w_obj w) = true → same_core (begun w) w1 → w_api w1 = w_api w →
  content (w_fs w1) (GeneratorFile (UID (md_Meta (w_obj w)))) = Some desired →
  same_core w1 w2 → w_fs w2 = w_fs w1 → same_reads (w_api w1) (w_api w2) → job_turned w1 w2 → late w2 w' →
  passed desired w w'.
Proof.
  intros Hu Hfin (Hm1 & Hs1 & _) Ha1 Hgen (Hm2 & Hs2 & _) Hf2 Hr2 Hj2 (Hm3 & Hs3 & Hr3 & Hj3 & Hf3).
  change (md_Meta (w_obj (begun w))) with (md_Meta (w_obj w)) in Hm1. change (md_Spec (w_obj (begun w))) with (md_Spec (w_obj w)) in Hs1.
  assert (md_Meta (w_obj w') = md_Meta (w_obj w)) as Hm by congruence.
  split; [split; [congruence|by rewrite Hm]|]. unfold has_finalizer in *. rewrite Hm. split; [done|].
  split; [rewrite <-Ha1; by etrans|]. rewrite Hfin. split.
  - rewrite Hf3 by (by apply own_files). by rewrite Hf2.
  - assert (jobs_of w1 = jobs_of w) as Hw1 by (unfold jobs_of, getOwnedJobs; by rewrite Ha1, Hm1).
    assert (jobs_of w' = jobs_of w2) as Hw' by (unfold jobs_of, getOwnedJobs; by rewrite Hj3, Hm3).
    unfold job_turned in *. rewrite Hw1, Hm1 in Hj2. rewrite Hw'. split; [|apply Hj2].
    by eapply same_device_named; [apply same_meta|..|apply Hj2].
Qed.

Lemma pass_turn desired w out w' :
  filepath.slash ∉ chars (UID (md_Meta (w_obj w))) → fit desired w → run_steps (reconcile_steps env) w = (out, w') →
  passed desired w w'.
Proof.
  intros Hu Hfit Hrun. destruct (has_finalizer (w_obj w)) eqn:Hfin; last first.
  { rewrite adopting_pass in Hrun by (done || apply Hfit). simplify_eq. split; [done|]. split; [|by rewrite Hfin].
    cbn [w_obj]. unfold has_finalizer, update_finalizers. cbn. apply contains_finalizer, elem_of_add_finalizer. by right. }
  destruct (adopted_pass desired w Hfit Hfin) as (w1 & E & Hc1 & Ha1 & Hfit1 & _ & Hgen). rewrite E in Hrun.
  destruct (job_turn desired w1 Hfit1) as (res & w2 & Hstep & Hres & Hc2 & Hf2 & Hr2 & Hj2).
  eapply (late_passed desired w w1 w2 w'); try done.
  cbn [drop reconcile_steps] in Hrun. rewrite (Run_cons _ _ _ _ _ Hstep) in Hrun. destruct Hres as [-> | ->]; cbn in Hrun; [by simplify_eq|].
  pose proof (Run_frame late _ late_steps w2) as Hl. cbn [drop reconcile_steps] in Hl.
  change (late w2 (out, w').2). by rewrite <-Hrun.
Qed.

(** ** Turns *)

(** While the device is not looked at: its spec and what it refers to stay, and its
    generator file; its jobs run. *)
Definition elapses w w' : Prop :=
  md_Meta (w_obj w') = md_Meta (w_obj w) ∧ md_Spec (w_obj w') = md_Spec (w_obj w) ∧
  same_reads (w_api w) (w_api w') ∧ generator_of w' = generator_of w ∧
  (owns_name (w_api w) (w_obj w) → owns_name (w_api w') (w_obj w')) ∧
  ∀ jobs, jobs_of w = inr jobs → ∃ jobs', jobs_of w' = inr jobs' ∧
    Forall2 (λ job job', job_Annotations job' = job_Annotations job) jobs jobs'.

Lemma elapses_refl w : elapses w w.
Proof.
  split_and!; [done..| |]; [done|]. intros jobs Hj. exists jobs. split; [done|]. by apply Reflexive_instance_0.
Qed.

(** A turn: a pass, and the time until the next one. *)
Definition turn w w'' : Prop := ∃ out w', run_steps (reconcile_steps env) w = (out, w') ∧ elapses w' w''.

Lemma passed_fit desired w w' : passed desired w w' → fit desired w → fit desired w' ∧ turns_left w' ≤ pred (turns_left w).
Proof.
  intros (Hd & Hfin & Hr & Hrest) [Hdel Hg (jobs & Hj & Hlen) Hnamed Hdes].
  destruct (same_device_fields _ _ Hd) as (_ & _ & _ & Hgen & Hdel').
  pose proof (same_device_desired _ _ _ _ Hd Hr) as Hdes'. rewrite Hdes in Hdes'.
  assert (∀ jobs', jobs_of w' = inr jobs' → length jobs' ≤ 1 → fit desired w') as Hfit.
  { intros jobs' Hj' Hlen'. split; [congruence|by rewrite Hgen|by eexists| |done].
    destruct (has_finalizer (w_obj w)); [apply Hrest|]. rewrite Hrest. by apply (same_device_named (w_api w) _ (w_obj w)). }
  unfold turns_left. rewrite Hfin. destruct (has_finalizer (w_obj w)).
  - destruct Hrest as [_ [_ Hrest]]. rewrite Hj in *. rewrite Hgen.
    destruct jobs as [|job [|]]; [..|simpl in Hlen; lia].
    + destruct Hrest as (job & Hj' & Hjg). rewrite Hj', decide_True by done. split; [by eapply Hfit|lia].
    + case_decide; rewrite Hrest; (split; [eapply Hfit; [exact Hrest|simpl; lia]|]); [rewrite decide_True by done|]; lia.
  - assert (jobs_of w' = inr jobs) as Hj'. { unfold jobs_of in *. rewrite Hrest. by rewrite (same_device_jobs _ _ _ Hd). }
    split; [by eapply Hfit|]. rewrite Hj'. destruct jobs as [|job [|]]; [|case_decide|]; simpl; lia.
Qed.

Lemma elapses_fit desired w w' : elapses w w' → fit desired w → fit desired w' ∧ turns_left w' = turns_left w.
Proof.
  intros (Hm & Hs & Hr & _ & Hown & Hjobs) [Hdel Hg (jobs & Hj & Hlen) Hnamed Hdes]. destruct (Hjobs jobs Hj) as (jobs' & Hj' & Hall).
  split; [split|].
  - by rewrite Hm.
  - by rewrite Hm.
  - exists jobs'. split; [done|]. by rewrite <-(Forall2_length _ _ _ Hall).
  - by apply Hown.
  - rewrite <-Hdes. apply same_device_desired; [|done]. split; [done|by rewrite Hm].
  - unfold turns_left, has_finalizer. rewrite Hm, Hj, Hj'. case_match; [|done].
    destruct Hall as [|job job' ? ? Ha [|]]; [done| |done]. unfold jobGeneration. by rewrite Ha.
Qed.

(** After [n] turns. *)
Definition stage desired (n : nat) w : Prop :=
  filepath.slash ∉ chars (UID (md_Meta (w_obj w))) ∧ fit desired w ∧ turns_left w ≤ 3 - n ∧
  (2 ≤ n → generator_of w = Some desired).

Lemma turns_left_adopted w : turns_left w ≤ 2 → has_finalizer (w_obj w) = true.
Proof. unfold turns_left. destruct (has_finalizer (w_obj w)); [done|lia]. Qed.

Lemma stage_turn desired n w w' : stage desired n w → turn w w' → stage desired (S n) w'.
Proof.
  intros (Hu & Hfit & Hn & _) (out & w1 & Hrun & Hel). pose proof (pass_turn desired w out w1 Hu Hfit Hrun) as Hp.
  destruct (passed_fit desired w w1 Hp Hfit) as [Hfit1 Hn1]. destruct (elapses_fit desired w1 w' Hel Hfit1) as [Hfit' Hn'].
  destruct Hel as (Hm & _ & _ & Hgen & _). destruct Hp as (Hd & _ & _ & Hrest). destruct (same_device_fields _ _ Hd) as (HU & _).
  split; [by rewrite Hm, HU|]. split; [done|]. split; [lia|]. intros H2n. rewrite Hgen.
  rewrite turns_left_adopted in Hrest by lia. apply Hrest.
Qed.

Lemma stage_turns desired n m w w' : stage desired m w → nsteps turn n w w' → stage desired (n + m) w'.
Proof.
  intros Hw Hn. revert m Hw. induction Hn as [w|n w w1 w' Ht _ IH]; intros m Hw; [done|].
  replace (S n + m) with (n + S m) by lia. by eapply IH, stage_turn.
Qed.

(** ** Ready at last *)
Lemma readable_same s s' :
  (∀ q, content s' q = content s q) → readable (content := content) SnmpSubDir s → readable (content := content) SnmpSubDir s'.
Proof. intros Hs Hr n raw Hn Hraw. eapply Hr; [exact Hn|]. unfold device_config in *. by rewrite <-Hs. Qed.

Lemma ready_end w :
  (Run [reconcileReady] w).1 = Done (no_requeue, None) ∧
  condition_status ConditionReady (w_obj (Run [reconcileReady] w).2) = Some ConditionTrue.
Proof.
  split; [done|]. change (w_obj (Run [reconcileReady] w).2) with
    (UpdateStatusCondition ConditionReady ConditionTrue ReasonReconciled "Fully reconciled and ready" (w_obj w)).
  by rewrite condition_status_update, decide_True.
Qed.

(** The last steps of a pass whose job is done. *)
Lemma ready_steps w config :
  content (w_fs w) (SnmpFile (UID (md_Meta (w_obj w)))) = Some config →
  readable (content := content) SnmpSubDir (w_fs w) →
  (Run (drop 4 (reconcile_steps env)) w).1 = Done (no_requeue, None) ∧
  condition_status ConditionReady (w_obj (Run (drop 4 (reconcile_steps env)) w).2) = Some ConditionTrue.
Proof.
  intros Hc Hr. cbn [drop reconcile_steps]. rewrite Run_on by by eapply content_goes_on.
  destruct (reconcileSNMPFileContent_spec w) as (_ & _ & Hs & _). rewrite Run_on; last first.
  { apply merged_goes_on. eapply readable_same; [|exact Hr]. intros q. apply Hs. tauto. }
  rewrite Run_on by apply reload_goes_on. apply ready_end.
Qed.

Lemma ready_pass desired w job config :
  filepath.slash ∉ chars (UID (md_Meta (w_obj w))) → fit desired w → has_finalizer (w_obj w) = true →
  generator_of w = Some desired → jobs_of w = inr [job] → jobGeneration job = generation_of w →
  mkJobCondition "Complete" "True" ∈ job_Conditions job →
  content (w_fs w) (SnmpFile (UID (md_Meta (w_obj w)))) = Some config → readable (content := content) SnmpSubDir (w_fs w) →
  (run_steps (reconcile_steps env) w).1 = Done (no_requeue, None) ∧
  condition_status ConditionReady (w_obj (run_steps (reconcile_steps env) w).2) = Some ConditionTrue.
Proof.
  intros Hu Hfit Hfin Hgen Hj Hjg Hdone Hc Hr. destruct (adopted_pass desired w Hfit Hfin) as (w1 & -> & (Hm1 & _) & Ha1 & _ & Hs1 & Hgen1).
  change (md_Meta (w_obj (begun w))) with (md_Meta (w_obj w)) in Hm1.
  assert (∀ q, content (w_fs w1) q = content (w_fs w) q) as Hsame by (intros q; eapply rewritten; [exact Hs1|exact Hgen|exact Hgen1|tauto]).
  cbn [drop reconcile_steps]. destruct (job_step_refines env w1) as ((Hm2 & _) & Hf2 & res & Hres & Hp).
  assert (getOwnedJobs (w_api w1) (w_obj w1) = inr [job]) as Hj1 by (unfold jobs_of, getOwnedJobs in *; by rewrite Ha1, Hm1).
  destruct (job_pass_current env _ _ _ _ _ _ _ Hp Hj1) as [_ Hcont]; [by rewrite Hm1|]. apply Hcont in Hdone as ->.
  rewrite (Run_on (reconcileSNMPGeneratorJob env)) by exact Hres. apply (ready_steps _ config).
  - by rewrite Hf2, Hm2, Hm1, Hsame.
  - rewrite Hf2. by apply (readable_same (w_fs w)).
Qed.

(** C7: A device converges: with nothing refused, three turns bring a live device
    from wherever it is (not adopted yet, with a stale job, or with none) to a
    generator file that holds the configuration of its spec and one job of its
    generation; and once that job is complete and has left a configuration, and all
    the configurations that are there can be read, the next pass leaves the device
    Ready.  The device owns one job at most to begin with, other objects' jobs do not
    have its name, and the configuration of its spec can be made ([fit]); between the
    passes its spec and its generator file stay ([elapses]). *)
Theorem MeasurementDevice_converges desired n w0 w :
  filepath.slash ∉ chars (UID (md_Meta (w_obj w0))) → fit desired w0 → 3 ≤ n → nsteps turn n w0 w →
  has_finalizer (w_obj w) = true ∧ generator_of w = Some desired ∧
  ∃ job, jobs_of w = inr [job] ∧ jobGeneration job = generation_of w ∧
    (mkJobCondition "Complete" "True" ∈ job_Conditions job →
     is_Some (content (w_fs w) (SnmpFile (UID (md_Meta (w_obj w))))) → readable (content := content) SnmpSubDir (w_fs w) →
     (run_steps (reconcile_steps env) w).1 = Done (no_requeue, None) ∧
     condition_status ConditionReady (w_obj (run_steps (reconcile_steps env) w).2) = Some ConditionTrue).
Proof.
  intros Hu Hfit Hn Hturns.
  assert (stage desired 0 w0) as Hw0 by (split_and!; [done|done|unfold turns_left; repeat case_match; lia|lia]).
  destruct (stage_turns desired n 0 w0 w Hw0 Hturns) as (Hu' & Hfit' & Hleft & Hgen). specialize (Hgen ltac:(lia)).
  pose proof (turns_left_adopted w ltac:(lia)) as Hfin. split; [done|]. split; [done|].
  destruct (fit_jobs _ _ Hfit') as (jobs & Hj & Hlen). unfold turns_left in Hleft. rewrite Hfin, Hj in Hleft.
  destruct jobs as [|job [|]]; [lia| |simpl in Hlen; lia]. case_decide; [|lia]. exists job. split; [done|]. split; [done|].
  intros Hdone [config Hc] Hr. by apply (ready_pass desired w job config).
Qed.
End DeviceLife.

(** ** A device with a job of an earlier generation *)
Module LifeSample.
Import SimpleHelpers SimpleOs SimpleYaml SnmpSample JobSample.

(** The jobs of the cluster and the annotations of the exporter. *)
Record cluster := mkCluster { c_jobs : list Job; c_annotations : option (gmap string string) }.

Definition same_job (j k : Job) : Prop := job_Name k = job_Name j ∧ job_Namespace k = job_Namespace j.
#[export] Instance same_job_dec : RelDecision same_job.
Proof. intros j k. unfold same_job. apply _. Defined.

#[export] Instance unicode : UnicodeTables := {| IsPrint _ := false |}.
#[export] Instance selectors : SelectorClient cluster :=
  {| Get_ConfigMap _ _ n := inl (StatusError true (n +:+ " not found"));
     Get_Secret _ _ n := inl (StatusError true (n +:+ " not found")) |}.
#[export] Instance jobs : JobClient cluster :=
  {| List_Jobs c ns := inr (filter (λ j, job_Namespace j = ns) (c_jobs c));
     Create_Job j c :=
       if decide (Exists (same_job j) (c_jobs c))
       then (Some (StatusError false (job_Name j +:+ " already exists")), c)
       else (None, mkCluster (j :: c_jobs c) (c_annotations c));
     Delete_Job j c :=
       (if decide (Exists (same_job j) (c_jobs c)) then None
        else Some (StatusError true (job_Name j +:+ " not found")),
        mkCluster (filter (λ k, ¬ same_job j k) (c_jobs c)) (c_annotations c)) |}.
#[export] Instance deployments : DeploymentClient cluster :=
  {| Get_Deployment c ns n :=
       if decide (n = "chantico-snmp" ∧ ns = PodNamespace env)
       then inr (Selector.mkDeployment n ns 1 1 0 (c_annotations c))
       else inl (StatusError true (n +:+ " not found"));
     Patch_Deployment _ new c := (None, mkCluster (c_jobs c) (deploy_TemplateAnnotations new)) |}.
#[export] Instance owner : OwnerUtil :=
  {| SetControllerReference d j :=
       inr (mkJob (job_Name j) (job_Namespace j) (job_Annotations j) (job_OwnerUIDs j ++ [UID (md_Meta d)])
              (job_Spec j) (job_Conditions j)) |}.

#[export] Instance owner_accepts : OwnerAccepts.
Proof. split. intros d j. eexists. split_and!; [reflexivity..|]. by intros ->. Defined.

#[export] Instance yaml_accepts : YamlAccepts.
Proof. split. intros c. by eexists. Defined.

#[export] Instance cluster_accepts : ClusterAccepts cluster env.
Proof.
  split.
  - intros a ns. by eexists.
  - intros a ns l job [= <-]. by intros [? _]%list_elem_of_filter.
  - intros job a l [= <-] Hn. cbn [Create_Job List_Jobs jobs]. rewrite decide_False.
    + split; [done|]. eexists. split; [reflexivity|]. cbn [c_jobs fst snd]. by rewrite filter_cons_True.
    + intros (k & Hk & [Hname Hns])%Exists_exists. apply (Hn k); [|done]. by apply list_elem_of_filter.
  - by intros job a ns n.
  - intros job a. cbn. by case_decide.
  - intros job a l [= <-]. eexists. split; [reflexivity|]. cbn [Delete_Job jobs c_jobs snd]. rewrite !list_filter_filter.
    erewrite list_filter_iff; [reflexivity|]. intros k. unfold same_job. cbn. tauto.
  - by intros job a ns n.
  - intros a. by eexists.
  - done.
  - by intros dep dep' a ns n.
  - done.
Defined.

#[export] Instance store_accepts : StoreAccepts Fs (volume_content "/data").
Proof.
  split; cbn [fs_ReadAll fs_Write fs_CollectSubFiles store VolumeFileStore_store]; unfold volume_content.
  - intros s p data Hs. unfold VolumeFileStore_ReadAll, ReadFile. cbn [refuse_open os]. by rewrite Resolve_clean, Hs.
  - intros s p Hs. unfold VolumeFileStore_ReadAll, ReadFile. cbn [refuse_open os]. rewrite Resolve_clean, Hs by done. eexists. split; reflexivity.
  - intros p data s. unfold VolumeFileStore_Write. by case_decide.
  - intros d s Hd. unfold VolumeFileStore_CollectSubFiles, WalkDir. cbn [refuse_walk os].
    destruct (walk_files _ s) as [|p ps] eqn:Hw; [destruct (dir_exists _ s); cbn; eexists _, _; (split; [reflexivity|]); by intros ? [= <-]|].
    destruct (collect_spec "/data" ltac:(done) (p :: ps) []) as (l & E & _).
    { rewrite <-Hw. apply Forall_forall. intros q (_ & ? & ? & _)%(walk_files_spec (H1 := renameio_laws)); done. }
    rewrite E. by eexists _, _.
Defined.

Definition pass (w : World MeasurementDevice cluster) : World MeasurementDevice cluster :=
  (run_steps (reconcile_steps env) w).2.

(** The device, not adopted yet, and a job of its generation before the last. *)
Definition young : MeasurementDevice :=
  set_md_Meta (mkObjectMeta "tno" "chantico" "a-random-uid" 7 None []) device.
Definition stale_job : Job :=
  mkJob "tno" "chantico" (Some {[GenerationAnnotation := "6"]}) ["a-random-uid"] (job_Spec JobSample.job)
    [mkJobCondition "Complete" "True"].
Definition start : World MeasurementDevice cluster := mkWorld young empty_fs (mkCluster [stale_job] None).

(** The jobs run to their end. *)
Definition finished (j : Job) : Job :=
  mkJob (job_Name j) (job_Namespace j) (job_Annotations j) (job_OwnerUIDs j) (job_Spec j)
    [mkJobCondition "Complete" "True"].
Definition later (fs : Fs) (w : World MeasurementDevice cluster) : World MeasurementDevice cluster :=
  mkWorld (w_obj w) fs (mkCluster (finished <$> c_jobs (w_api w)) (c_annotations (w_api w))).

Lemma filter_finished ns (l : list Job) :
  filter (λ j, job_Namespace j = ns) (finished <$> l) = finished <$> filter (λ j, job_Namespace j = ns) l.
Proof. induction l as [|j l IH]; [done|]. rewrite fmap_cons, !filter_cons. cbn [job_Namespace finished]. case_decide; by rewrite IH. Qed.

Lemma owned_finished uid (l : list Job) : owned_by uid (finished <$> l) = finished <$> owned_by uid l.
Proof.
  unfold owned_by. induction l as [|j l IH]; [done|]. rewrite fmap_cons, !bind_cons, fmap_app, IH. f_equal.
  cbn [job_OwnerUIDs finished]. by rewrite <-list_fmap_compose.
Qed.

Lemma later_elapses fs w :
  volume_content "/data" fs (GeneratorFile (UID (md_Meta (w_obj w)))) =
    volume_content "/data" (w_fs w) (GeneratorFile (UID (md_Meta (w_obj w)))) →
  elapses (content := volume_content "/data") w (later fs w).
Proof.
  intros Hgen. split; [reflexivity|]. split; [reflexivity|].
  split; [intros ns n; split; reflexivity|]. split; [exact Hgen|]. cbn [later w_obj w_api]. split.
  - intros Hn l k [= <-] Hk Hname. cbn [c_jobs] in Hk. rewrite filter_finished in Hk.
    apply list_elem_of_fmap in Hk as (j & -> & Hj). exact (Hn _ j eq_refl Hj Hname).
  - unfold jobs_of, getOwnedJobs. cbn [List_Jobs jobs c_jobs w_obj w_api]. intros js [= <-]. eexists. split; [reflexivity|].
    cbn [later w_obj w_api c_jobs]. rewrite filter_finished, owned_finished. apply Forall2_fmap_r. by apply Reflexive_instance_0.
Qed.

(** The new job leaves its configuration. *)
Definition third : World MeasurementDevice cluster := pass (pass (pass start)).
Definition ran : World MeasurementDevice cluster :=
  later (fs_Write (SnmpFile "a-random-uid") "tno: v2" (w_fs third)).2 third.

Lemma pass_turn_of w w' :
  elapses (content := volume_content "/data") (pass w) w' → turn (content := volume_content "/data") env w w'.
Proof. intros Hel. exists (run_steps (reconcile_steps env) w).1, (pass w). split; [apply surjective_pairing|done]. Qed.

Lemma generator_kept :
  volume_content "/data" (w_fs ran) (GeneratorFile (UID (md_Meta (w_obj third)))) =
  volume_content "/data" (w_fs third) (GeneratorFile (UID (md_Meta (w_obj third)))).
Proof. vm_compute. reflexivity. Qed.

Lemma three_turns : nsteps (turn (content := volume_content "/data") env) 3 start ran.
Proof.
  apply (nsteps_l _ _ _ (pass start)); [apply pass_turn_of, elapses_refl|].
  apply (nsteps_l _ _ _ (pass (pass start))); [apply pass_turn_of, elapses_refl|].
  apply (nsteps_l _ _ _ ran); [|apply nsteps_O].
  exact (pass_turn_of (pass (pass start)) ran (later_elapses _ third generator_kept)).
Qed.

Definition config : string :=
  match desiredGeneratorConfig (w_api start) (w_obj start) with Done (inr c) => c | _ => "" end.

Lemma start_fits : fit config start.
Proof.
  split; [reflexivity|split; reflexivity || discriminate| | |vm_compute; reflexivity].
  - exists [stale_job]. split; [reflexivity|]. cbn. lia.
  - intros l k [= <-] Hk _. apply list_elem_of_filter in Hk as [_ ->%list_elem_of_singleton]. cbn. by left.
Qed.

Lemma ran_readable : readable (content := volume_content "/data") SnmpSubDir (w_fs ran).
Proof.
  assert (map_Forall (λ _ raw, strings.HasPrefix raw "!" = false) (files (w_fs ran))) as Hall
    by (apply (bool_decide_unpack _); vm_compute; exact I).
  intros n raw _ Hc. unfold device_config, volume_content in Hc.
  destruct (files (w_fs ran) !! VolumeFileStore_Resolve "/data" [n]) as [raw'|] eqn:E; [|done].
  apply Hall in E. cbn [mbind option_bind] in Hc. unfold fragment. destruct (trims_to_empty raw') eqn:Et; [done|].
  injection Hc as <-. rewrite Et. cbn [Unmarshal_MergedConfig yaml]. rewrite decide_False by (intros Hp; rewrite E in Hp; done). by eexists.
Qed.

Lemma ran_complete job : jobs_of ran = inr [job] → mkJobCondition "Complete" "True" ∈ job_Conditions job.
Proof.
  assert (∀ l : list Job, inr (finished <$> l) = inr (A := error) [job] →
    mkJobCondition "Complete" "True" ∈ job_Conditions job) as Hall.
  { intros l [= Hl]. destruct l as [|j [|]]; [done| |done]. injection Hl as <-. by left. }
  unfold jobs_of, getOwnedJobs, List_Jobs, jobs, ran, later. cbn [w_api w_obj c_jobs].
  rewrite filter_finished, owned_finished. apply Hall.
Qed.
End LifeSample.
Import SimpleHelpers SimpleOs SimpleYaml SnmpSample JobSample LifeSample.

Lemma MeasurementDevice_converges_witness :
  condition_status ConditionReady (w_obj (run_steps (reconcile_steps JobSample.env) ran).2) = Some ConditionTrue.
Proof.
  destruct (MeasurementDevice_converges (content := volume_content "/data") JobSample.env config 3 start ran)
    as (_ & _ & job & Hj & _ & Hready).
  - apply (bool_decide_unpack _). vm_compute. exact I.
  - apply start_fits.
  - lia.
  - apply three_turns.
  - apply Hready.
    + by apply ran_complete.
    + apply (bool_decide_unpack _). vm_compute. exact I.
    + apply ran_readable.
Defined.
