(* ===== verification/Guard.v ===== *)
(** Files behind finalizers: the protocol the controllers follow so that no file
    outlives the object it was made for, as a machine of its own.  Each object
    has one file; as long as the object is guarded it is not removed, and only
    under guard is the file written. *)
From S2P Require Import Prelude.

Section Guard.
Context {K V : Type} `{Countable K}.
(** The file of an object, whether it is guarded, and the files that are meant. *)
Context (file : V → string) (guarded : V → bool) (mine : string → Prop).

Abbreviation state := (gmap string string * gmap K V)%type.
Implicit Types (s : state) (fs : gmap string string) (m : gmap K V) (v : V).

(** One step.  Removing a file does no harm.  [guard_pass] is a controller over the object [v]: it leaves other
    files alone, and a file that is there afterwards is there under guard, or was
    there without. *)
Inductive guard_step : relation state :=
| guard_others fs fs' m :
    (∀ x, mine x → fs' !! x = fs !! x ∨ fs' !! x = None) → guard_step (fs, m) (fs', m)
| guard_create fs m k v :
    m !! k = None → (∀ k' v', m !! k' = Some v' → file v' ≠ file v) →
    guard_step (fs, m) (fs, <[k := v]> m)
| guard_edit fs m k v v' :
    m !! k = Some v → file v' = file v → (guarded v = true → guarded v' = true) →
    guard_step (fs, m) (fs, <[k := v']> m)
| guard_drop fs m k v :
    m !! k = Some v → guarded v = false → guard_step (fs, m) (fs, delete k m)
| guard_pass fs fs' m k v o :
    m !! k = Some v → (∀ x, mine x → x ≠ file v → fs' !! x = fs !! x) →
    (∀ v', o = Some v' → file v' = file v) →
    (is_Some (fs' !! file v) →
       if guarded v then ∃ v', o = Some v' ∧ guarded v' = true else is_Some (fs !! file v)) →
    guard_step (fs, m) (fs', partial_alter (λ _, o) k m).

(** No two objects have one file; every file has a guarded object. *)
Definition unshared s : Prop := ∀ k1 k2 v1 v2,
  s.2 !! k1 = Some v1 → s.2 !! k2 = Some v2 → file v1 = file v2 → k1 = k2.
Definition owned s : Prop := ∀ x, mine x → is_Some (s.1 !! x) →
  ∃ k v, s.2 !! k = Some v ∧ file v = x ∧ guarded v = true.

(** Altering one key, as all the steps do. *)
Lemma unshared_alter fs fs' m k o :
  unshared (fs, m) →
  (∀ v', o = Some v' → (∃ v, m !! k = Some v ∧ file v' = file v) ∨
     (∀ k' v0, m !! k' = Some v0 → file v0 ≠ file v')) →
  unshared (fs', partial_alter (λ _, o) k m).
Proof.
  intros Hu Ho k1 k2 v1 v2. cbn [snd].
  destruct (decide (k1 = k)) as [->|H1], (decide (k2 = k)) as [->|H2];
    rewrite ?lookup_partial_alter_eq, ?lookup_partial_alter_ne by done; [done| | |by apply Hu].
  - intros Hv1 Hv2 E. destruct (Ho v1 Hv1) as [(v & Hv & Hf)|Hno]; [|by destruct (Hno _ _ Hv2)].
    apply (Hu k k2 v v2 Hv Hv2). congruence.
  - intros Hv1 Hv2 E. destruct (Ho v2 Hv2) as [(v & Hv & Hf)|Hno]; [|by destruct (Hno _ _ Hv1)].
    apply (Hu k1 k v1 v Hv1 Hv). congruence.
Qed.

Lemma owned_alter fs fs' m k o :
  owned (fs, m) →
  (∀ x, mine x → is_Some (fs' !! x) → is_Some (fs !! x) ∨ ∃ v', o = Some v' ∧ file v' = x ∧ guarded v' = true) →
  (∀ v, m !! k = Some v → guarded v = true → is_Some (fs' !! file v) →
     ∃ v', o = Some v' ∧ file v' = file v ∧ guarded v' = true) →
  owned (fs', partial_alter (λ _, o) k m).
Proof.
  intros Ho Hfs Hk x Hx Hin. cbn [fst snd] in *.
  destruct (Hfs x Hx Hin) as [Hold|(v' & -> & Hf & Hg)]; last first.
  { exists k, v'. by rewrite lookup_partial_alter_eq. }
  destruct (Ho x Hx Hold) as (k1 & v1 & Hv1 & Hf1 & Hg1). cbn [snd] in Hv1.
  destruct (decide (k1 = k)) as [->|Hne].
  - rewrite <-Hf1 in Hin. destruct (Hk v1 Hv1 Hg1 Hin) as (v' & -> & Hf & Hg).
    exists k, v'. rewrite lookup_partial_alter_eq. split_and!; [done|congruence|done].
  - exists k1, v1. by rewrite lookup_partial_alter_ne.
Qed.

Lemma guard_step_safe s s' :
  unshared s → owned s → guard_step s s' → unshared s' ∧ owned s'.
Proof.
  intros Hu Ho Hs. destruct Hs as [fs fs' m Hfs|fs m k v Hn Hfile|fs m k v v' Hv Hf Hg|fs m k v Hv Hg
    |fs fs' m k v o Hv Hfs Hf Hin].
  - split; [exact Hu|]. intros x Hx. cbn [fst snd].
    destruct (Hfs x Hx) as [-> | ->]; [by apply Ho|by intros []].
  - split; [apply (unshared_alter fs); [done|intros v' [= <-]; by right]|].
    apply (owned_alter fs); [done|by left|]. by rewrite Hn.
  - split; [apply (unshared_alter fs); [done|intros v0 [= <-]; left; by exists v]|].
    apply (owned_alter fs); [done|by left|]. rewrite Hv. intros v0 [= <-] Hg0 _. eauto.
  - split; [apply (unshared_alter fs); [done|done]|].
    apply (owned_alter fs); [done|by left|]. rewrite Hv. intros v0 [= <-]. by rewrite Hg.
  - split; [apply (unshared_alter fs); [done|intros v0 E; left; exists v; by auto]|].
    apply (owned_alter fs); [done| |].
    + intros x Hx Hin'. destruct (decide (x = file v)) as [->|Hne]; [|left; by rewrite <-Hfs].
      specialize (Hin Hin'). destruct (guarded v); [|by left].
      destruct Hin as (v' & -> & Hg). right. exists v'. by auto.
    + rewrite Hv. intros v0 [= <-] Hg Hin'. specialize (Hin Hin'). rewrite Hg in Hin.
      destruct Hin as (v' & -> & Hg'). exists v'. by auto.
Qed.

Lemma guard_reached s s' :
  unshared s → owned s → rtc guard_step s s' → unshared s' ∧ owned s'.
Proof.
  intros Hu Ho Hr. revert Hu Ho. induction Hr as [|s1 s2 s3 Hs _ IH]; [done|].
  intros Hu Ho. destruct (guard_step_safe _ _ Hu Ho Hs). by apply IH.
Qed.
End Guard.
