(* ===== verification/ObjectSystem.v ===== *)
(** Objects of the cluster with a file each: what an API server does to them, what
    users do, and the system these make with a controller that follows the
    protocol of [Guard].  The systems of the data centre resources and of the
    measurement devices are instances. *)
From S2P Require Import Prelude GoStd Errors FileStore ApiTypes Steps Cluster Guard.

(** ** Objects *)

(** What of an object its file depends on besides its metadata, and no edit
    changes. *)
Class Lineage (Obj : Type) := lineage : Obj → string.
#[export] Instance dcr_lineage : Lineage DataCenterResource := λ _, "".
#[export] Instance md_lineage : Lineage MeasurementDevice := λ _, "".
#[export] Instance pm_lineage : Lineage PhysicalMeasurement := λ p, pm_Type (pm_Spec p).

(** How an object that is stored goes on, see [SuccessionLaws]. *)
Class Succession (Obj : Type) := follows : relation Obj.

Section Identity.
Context {Obj : Type} `{Conditioned Obj, Lineage Obj}.
Implicit Types (o : Obj).

Definition object_key o : string * string := (Namespace (obj_Meta o), Name (obj_Meta o)).
Definition object_Finalizers o : list string := Finalizers (obj_Meta o).
(** One and the same object: a name is given again, a UID is not. *)
Definition same_id : relation Obj := λ o o',
  object_key o' = object_key o ∧ UID (obj_Meta o') = UID (obj_Meta o) ∧ lineage o' = lineage o.

#[export] Instance same_id_preorder : PreOrder same_id.
Proof. split; [done|]. intros o1 o2 o3 (? & ? & ?) (? & ? & ?). split_and!; congruence. Qed.
#[export] Instance same_id_symmetric : Symmetric same_id.
Proof. intros o1 o2 (? & ? & ?). by split_and!. Qed.

(** What is stored of an object later: a deletion is not taken back. *)
Definition later : relation Obj := λ o o',
  same_id o o' ∧ (DeletionTimestamp (obj_Meta o) ≠ None → DeletionTimestamp (obj_Meta o') ≠ None).
#[export] Instance later_preorder : PreOrder later.
Proof. split; [done|]. intros o1 o2 o3 [? ?] [? ?]. split; [by etransitivity|auto]. Qed.
End Identity.

Class SuccessionLaws (Obj : Type) `{Conditioned Obj, Lineage Obj, Succession Obj} : Prop := {
  #[export] follows_preorder :: PreOrder (follows (Obj := Obj));
  follows_later o o' : follows o o' → later (Obj := Obj) o o'
}.
#[export] Instance dcr_succession : Succession DataCenterResource := later.
#[export] Instance md_succession : Succession MeasurementDevice := later.
(** A change of the spec or a deletion starts a new generation. *)
#[export] Instance pm_succession : Succession PhysicalMeasurement := λ p q,
  later p q ∧ (Generation (pm_Meta p) ≤ Generation (pm_Meta q))%Z ∧
  (Generation (pm_Meta q) = Generation (pm_Meta p) →
     pm_Spec q = pm_Spec p ∧ DeletionTimestamp (pm_Meta q) = DeletionTimestamp (pm_Meta p)).

#[export] Instance dcr_succession_laws : SuccessionLaws DataCenterResource.
Proof. split; [apply later_preorder|done]. Qed.
#[export] Instance md_succession_laws : SuccessionLaws MeasurementDevice.
Proof. split; [apply later_preorder|done]. Qed.
#[export] Instance pm_succession_laws : SuccessionLaws PhysicalMeasurement.
Proof.
  split; [|by intros p q []]. split; [by intros p; split_and!|].
  intros p1 p2 p3 (Hl1 & Hg1 & Hs1) (Hl2 & Hg2 & Hs2). split; [by etransitivity|]. split; [lia|]. intros E.
  destruct Hs1; [lia|]. destruct Hs2; [lia|]. split; congruence.
Qed.

Section Objects.
Context {Obj : Type} `{SuccessionLaws Obj}.
Abbreviation objects := (gmap (string * string) Obj).
Implicit Types (o : Obj) (m : objects).

(** The object a pass has in its hands: deleted if it was when it was read. *)
Definition same_life : relation Obj := λ o o',
  same_id o o' ∧ DeletionTimestamp (obj_Meta o') = DeletionTimestamp (obj_Meta o).
#[export] Instance same_life_preorder : PreOrder same_life.
Proof. split; [done|]. intros o1 o2 o3 [? ?] [? ?]. split; [by etransitivity|congruence]. Qed.

(** What a patch from [o] to [o'] makes of the object [o0] that is stored when it
    arrives: the list of finalizers is sent when it has changed, and an object
    being deleted is removed with its last finalizer. *)
Inductive patched (o0 o o' : Obj) : option Obj → Prop :=
| patched_kept q :
    follows o0 q →
    object_Finalizers q = object_Finalizers o0 ∨
      (object_Finalizers o' ≠ object_Finalizers o ∧ object_Finalizers q = object_Finalizers o') →
    patched o0 o o' (Some q)
| patched_removed :
    object_Finalizers o' ≠ object_Finalizers o → object_Finalizers o' = [] →
    DeletionTimestamp (obj_Meta o0) ≠ None →
    patched o0 o o' None.

(** An edit keeps an object's identity and finalizers. *)
Definition edit : relation objects := λ m m',
  ∃ k o o', m !! k = Some o ∧ follows o o' ∧ object_Finalizers o' = object_Finalizers o ∧
    m' = <[k := o']> m.

(** What all edits keep of an object. *)
Lemma edits_lookup m m' k o :
  rtc edit m m' → m !! k = Some o →
  ∃ o', m' !! k = Some o' ∧ follows o o' ∧ object_Finalizers o' = object_Finalizers o.
Proof.
  intros Hr. revert o. induction Hr as [m|m1 m2 m3 He _ IH]; intros o Ho; [by exists o|].
  destruct He as (k0 & o0 & o0' & Ho0 & Hk & Hf & ->).
  destruct (decide (k = k0)) as [->|Hne].
  - destruct (IH o0') as (o' & Ho' & Hk' & Hf'); [by rewrite lookup_insert_eq|].
    rewrite Ho0 in Ho. injection Ho as ->. exists o'. split_and!; [done|by etransitivity|congruence].
  - apply IH. by rewrite lookup_insert_ne.
Qed.

(** The objects there are are those there were. *)
Definition kept : relation objects := λ m m',
  ∀ k q, m' !! k = Some q → ∃ o, m !! k = Some o ∧ same_id o q.
#[export] Instance kept_preorder : PreOrder kept.
Proof.
  split; [by intros m k q; exists q|]. intros m1 m2 m3 Hk1 Hk2 k q (o & (o1 & ? & ?)%Hk1 & ?)%Hk2.
  exists o1. split; [done|by etransitivity].
Qed.
Lemma kept_alter m k x :
  (∀ q, x = Some q → ∃ o, m !! k = Some o ∧ same_id o q) → kept m (partial_alter (λ _, x) k m).
Proof.
  intros Ho k' q. destruct (decide (k' = k)) as [->|Hne].
  - rewrite lookup_partial_alter_eq. apply Ho.
  - rewrite lookup_partial_alter_ne by done. by exists q.
Qed.
Lemma edits_kept m m' : rtc edit m m' → kept m m'.
Proof.
  induction 1 as [m|m1 m2 m3 (k & o & o' & Ho & [Hk _]%follows_later & _ & ->) _ IH]; [done|].
  etransitivity; [|exact IH]. apply (kept_alter m1 k (Some o')). intros q [= <-]. by exists o.
Qed.
End Objects.

(** ** The API server: reads are of stored objects; a patch is refused or changes
    the one it names, which may have changed since it was read. *)
Class ObjectServer {Obj A : Type} `{Conditioned Obj, Lineage Obj, Succession Obj, Getter A Obj, Patcher A Obj}
    (stored : A → gmap (string * string) Obj) : Prop := {
  object_get a ns n o : Get a ns n = inr o → stored a !! (ns, n) = Some o;
  object_patch a0 a o o' h r a' :
    NewHelper a0 o = inr h → same_id o o' → Patch h o' a = (r, a') →
    stored a' = stored a ∨
    ∃ o0 x, stored a !! object_key o = Some o0 ∧ patched o0 o o' x ∧
      stored a' = partial_alter (λ _, x) (object_key o) (stored a)
}.

Section ObjectSystem.
Context {Obj A : Type} `{SuccessionLaws Obj} (stored : A → gmap (string * string) Obj).
(** The file of an object, its finalizer, and what names are like. *)
Context (file : Obj → string) (guarded : Obj → bool) (plain : Obj → Prop).
Implicit Types (o : Obj) (s : Fs * A).

(** The file and the name belong to the identity, the guard is a finalizer. *)
Class FileOwner : Prop := {
  file_id o o' : same_id o o' → file o' = file o;
  plain_id o o' : same_id o o' → plain o → plain o';
  guarded_finalizers o o' : object_Finalizers o' = object_Finalizers o → guarded o' = guarded o;
  guarded_some o : object_Finalizers o = [] → guarded o = false
}.

(** Users create objects under names and with files that are not taken, edit
    them (also: ask for their deletion), and remove those without finalizers. *)
Inductive object_user (m : gmap (string * string) Obj) : gmap (string * string) Obj → Prop :=
| user_creates o :
    m !! object_key o = None → plain o → (∀ k' o', m !! k' = Some o' → file o' ≠ file o) →
    object_user m (<[object_key o := o]> m)
| user_edits m' : edit m m' → object_user m m'
| user_purges k o : m !! k = Some o → object_Finalizers o = [] → object_user m (delete k m).

Definition object_file (x : string) : Prop := ∃ o, plain o ∧ x = file o.
Abbreviation guard_step := (guard_step (K := string * string) file guarded object_file).
Definition object_view s : gmap string string * gmap (string * string) Obj := (files s.1, stored s.2).

(** Objects are stored under their keys, and have names as they should. *)
Definition well_kept (m : gmap (string * string) Obj) : Prop := ∀ k o,
  m !! k = Some o → k = object_key o ∧ plain o.

(** What a controller promises: over well kept objects it follows the protocol,
    and leaves no new object. *)
Class FollowsProtocol {R : Type} (reconcile : string → string → Fs * A → R * (Fs * A)) : Prop :=
  reconcile_protocol : ∀ ns n s out s', well_kept (stored s.2) → reconcile ns n s = (out, s') →
    rtc guard_step (object_view s) (object_view s') ∧ kept (stored s.2) (stored s'.2).

Context {R : Type} (reconcile : string → string → Fs * A → R * (Fs * A)).

(** One step of the system; others leave the objects and their files alone. *)
Inductive object_step : relation (Fs * A) :=
| object_reconcile ns n s out s' : reconcile ns n s = (out, s') → object_step s s'
| object_users fs a a' : object_user (stored a) (stored a') → object_step (fs, a) (fs, a')
| object_volume fs fs' a a' :
    (∀ o, plain o → files fs' !! file o = files fs !! file o) → stored a' = stored a →
    object_step (fs, a) (fs', a').

Context `{!FileOwner, !FollowsProtocol reconcile}.

Lemma edits_guard fs m m' : rtc edit m m' → rtc guard_step (fs, m) (fs, m').
Proof.
  induction 1 as [m|m1 m2 m3 (k & o & o' & Ho & [Hk _]%follows_later & Hf & ->) _ IH]; [apply rtc_refl|].
  eapply rtc_l; [|exact IH]. apply guard_edit with (v := o); [done|by apply file_id|].
  by rewrite (guarded_finalizers o o').
Qed.

Lemma kept_well m m' : well_kept m → kept m m' → well_kept m'.
Proof.
  intros Hw Hk k q (o & Ho & Hid)%Hk. destruct (Hw _ _ Ho) as [-> Hp].
  split; [|by eapply plain_id]. by destruct Hid as [-> _].
Qed.

Lemma user_protocol fs m m' :
  well_kept m → object_user m m' → rtc guard_step (fs, m) (fs, m') ∧ well_kept m'.
Proof.
  intros Hw Hu. destruct Hu as [o Hn Hp Hfree|m' He|k o Ho Hf].
  - split; [by apply rtc_once, guard_create|]. intros k q.
    destruct (decide (k = object_key o)) as [->|Hne]; [rewrite lookup_insert_eq|rewrite lookup_insert_ne by done].
    + by intros [= <-].
    + apply Hw.
  - split; [by apply edits_guard, rtc_once|]. eapply kept_well; [done|]. by apply edits_kept, rtc_once.
  - split; [apply rtc_once, guard_drop with (v := o); [done|by apply guarded_some]|].
    eapply kept_well; [done|]. by apply (kept_alter m k None).
Qed.

Lemma object_step_guard s s' :
  well_kept (stored s.2) → object_step s s' →
  rtc guard_step (object_view s) (object_view s') ∧ well_kept (stored s'.2).
Proof.
  intros Hw Hs. destruct Hs as [ns n s out s' Hr|fs a a' Hu|fs fs' a a' Hv Ha].
  - destruct (reconcile_protocol ns n s out s' Hw Hr) as [Hg Hk]. split; [done|by eapply kept_well].
  - by apply user_protocol.
  - unfold object_view. cbn [fst snd] in *. rewrite Ha. split; [|done].
    apply rtc_once, guard_others. intros x (o & Ho & ->). left. by apply Hv.
Qed.

(** What every step keeps: no two objects have one file, and every file of an object
    has its object, guarded. *)
Record object_inv s : Prop := {
  inv_kept : well_kept (stored s.2);
  inv_unshared : unshared file (object_view s);
  inv_owned : owned file guarded object_file (object_view s)
}.

Lemma object_inv_step s s' : object_inv s → object_step s s' → object_inv s'.
Proof.
  intros [Hw Hu Ho] Hs. destruct (object_step_guard _ _ Hw Hs) as [Hg Hw'].
  by destruct (guard_reached _ _ _ _ _ Hu Ho Hg) as [Hu' Ho'].
Qed.

Lemma object_inv_reached s0 s :
  stored s0.2 = ∅ → (∀ o, plain o → files s0.1 !! file o = None) → rtc object_step s0 s → object_inv s.
Proof.
  intros Hempty Hf Hr.
  assert (object_inv s0) as Hi.
  { split.
    - intros k o. by rewrite Hempty, lookup_empty.
    - intros k1 k2 o1 o2 Ho1. cbn [object_view snd] in Ho1. by rewrite Hempty, lookup_empty in Ho1.
    - intros x (o & Ho & ->) [y Hy]. cbn [object_view fst] in Hy. by rewrite Hf in Hy. }
  clear Hempty Hf. induction Hr as [|s1 s2 s3 Hs _ IH]; [done|]. by eapply IH, object_inv_step.
Qed.

(** Every file of an object in a state that is reached has its object, guarded. *)
Lemma object_inv_owner s o0 :
  object_inv s → plain o0 → is_Some (files s.1 !! file o0) →
  ∃ o, stored s.2 !! object_key o = Some o ∧ plain o ∧ file o = file o0 ∧ guarded o = true.
Proof.
  intros [Hw _ Ho] Ho0 Hin. destruct (Ho (file o0)) as (k & o & Hko & Hfile & Hguard); [by exists o0|done|].
  cbn [object_view snd] in Hko. destruct (Hw _ _ Hko) as [-> Hp]. by exists o.
Qed.

Lemma objects_owned s0 s o0 :
  stored s0.2 = ∅ → (∀ o, plain o → files s0.1 !! file o = None) → rtc object_step s0 s →
  plain o0 → is_Some (files s.1 !! file o0) →
  ∃ o, stored s.2 !! object_key o = Some o ∧ plain o ∧ file o = file o0 ∧ guarded o = true.
Proof. intros Hempty Hf Hr. by eapply object_inv_owner, object_inv_reached. Qed.

(** ** What a pass with its deferred patch amounts to *)

(** The pass edits other objects, changes its own file as the protocol has it by
    the finalizer before and after, and its object is patched. *)
Lemma pass_follows `{Getter A Obj, Patcher A Obj, !ObjectServer stored} a fs o o1 o2 h a1 fs1 r a2 :
  well_kept (stored a) → stored a !! object_key o = Some o →
  NewHelper a o1 = inr h → same_id o o1 → object_Finalizers o1 = object_Finalizers o →
  same_id o1 o2 → rtc edit (stored a) (stored a1) → Patch h o2 a1 = (r, a2) →
  (∀ x, object_file x → x ≠ file o → files fs1 !! x = files fs !! x) →
  (is_Some (files fs1 !! file o) → if guarded o then guarded o2 = true else is_Some (files fs !! file o)) →
  rtc guard_step (object_view (fs, a)) (object_view (fs1, a2)) ∧ kept (stored a) (stored a2).
Proof.
  intros Hw Ho Hh Hid1 Hf1 Hid2 Hedits Hpatch Helse Hown.
  destruct (edits_lookup _ _ _ _ Hedits Ho) as (o0 & Ho0 & [Hid0 _]%follows_later & Hf0).
  assert (object_key o1 = object_key o) as Hk by apply Hid1.
  pose proof (file_id _ _ Hid0) as Hfile. pose proof (guarded_finalizers _ _ Hf0) as Hguard.
  cut (guard_step (files fs, stored a1) (files fs1, stored a2) ∧ kept (stored a1) (stored a2)).
  { intros [Hg Hkept]. split; [|etransitivity; [by apply edits_kept|done]].
    unfold object_view. cbn [fst snd]. etransitivity; [by apply edits_guard|]. by apply rtc_once. }
  assert (∀ x, (∀ q, x = Some q → same_id o0 q) →
    (guarded o = true → guarded o2 = true → ∃ q, x = Some q ∧ guarded q = true) →
    guard_step (files fs, stored a1) (files fs1, partial_alter (λ _, x) (object_key o) (stored a1)) ∧
    kept (stored a1) (partial_alter (λ _, x) (object_key o) (stored a1))) as Hstep.
  { intros x Hq Hfin. split; [|apply kept_alter; intros q E; exists o0; by auto].
    apply guard_pass with (v := o0); [done| | |]; rewrite ?Hfile.
    - intros y Hy. by apply Helse.
    - intros q E. rewrite <-Hfile. by apply file_id, Hq.
    - intros Hin. rewrite Hguard. specialize (Hown Hin). destruct (guarded o); [by apply Hfin|done]. }
  destruct (object_patch _ _ o1 o2 _ _ _ Hh Hid2 Hpatch) as [->|(d2 & x & Hd2 & Hx & ->)].
  - replace (stored a1) with (partial_alter (λ _, Some o0) (object_key o) (stored a1)) at 2 4
      by (by apply partial_alter_id).
    apply Hstep; [by intros q [= <-]|]. intros Hd _. exists o0. by rewrite Hguard.
  - rewrite Hk in Hd2 |- *. rewrite Ho0 in Hd2. injection Hd2 as <-. apply Hstep.
    + intros q ->. inversion Hx as [q' [Hq _]%follows_later _|]; by subst.
    + intros Hd Hd'. destruct Hx as [q Hq [Hf|[_ Hf]]|_ Hf _].
      * exists q. split; [done|]. by rewrite (guarded_finalizers _ _ Hf), Hguard.
      * exists q. split; [done|]. by rewrite (guarded_finalizers _ _ Hf).
      * by rewrite (guarded_some _ Hf) in Hd'.
Qed.
End ObjectSystem.

(** ** A server that merges: the patch it is sent into the object it stores *)
Class LineageLaws (Obj : Type) `{Conditioned Obj, Lineage Obj, Succession Obj} : Prop := {
  lineage_set_conditions cs o : lineage (set_Conditions cs o) = lineage (Obj := Obj) o;
  lineage_set_meta m o : lineage (set_obj_Meta m o) = lineage (Obj := Obj) o;
  follows_status cs fins o :
    follows (Obj := Obj) o (set_Conditions cs (set_obj_Meta (set_Finalizers fins (obj_Meta o)) o))
}.
#[export] Instance dcr_lineage_laws : LineageLaws DataCenterResource.
Proof. by split. Qed.
#[export] Instance md_lineage_laws : LineageLaws MeasurementDevice.
Proof. by split. Qed.
#[export] Instance pm_lineage_laws : LineageLaws PhysicalMeasurement.
Proof. by split. Qed.

Section MergingServer.
Context {Obj : Type} `{ConditionedLaws Obj, Lineage Obj, Succession Obj, !LineageLaws Obj}.
Implicit Types (o : Obj) (m : gmap (string * string) Obj).

Definition merged o0 o o' : option Obj :=
  let fins := if decide (object_Finalizers o' = object_Finalizers o) then object_Finalizers o0
              else object_Finalizers o' in
  let cs := if decide (GetConditions o' = GetConditions o) then GetConditions o0 else GetConditions o' in
  if decide (object_Finalizers o' ≠ object_Finalizers o ∧ object_Finalizers o' = [] ∧
             DeletionTimestamp (obj_Meta o0) ≠ None)
  then None
  else Some (set_Conditions cs (set_obj_Meta (set_Finalizers fins (obj_Meta o0)) o0)).
Definition merge_patch o o' m : option error * gmap (string * string) Obj :=
  match m !! object_key o with
  | None => (Some (StatusError true "not found"), m)
  | Some o0 => (None, partial_alter (λ _, merged o0 o o') (object_key o) m)
  end.
Definition merge_get m (ns n : string) : error + Obj :=
  match m !! (ns, n) with Some o => inr o | None => inl (StatusError true "not found") end.

Lemma merge_get_stored m ns n o : merge_get m ns n = inr o → m !! (ns, n) = Some o.
Proof. unfold merge_get. by destruct (m !! (ns, n)); intros [= ->]. Qed.

Lemma merged_patched o0 o o' : patched o0 o o' (merged o0 o o').
Proof.
  unfold merged. destruct (decide (_ ∧ _)) as [(? & ? & ?)|_]; [by apply patched_removed|].
  apply patched_kept; [apply follows_status|].
  unfold object_Finalizers. rewrite meta_set_conditions, meta_set_meta.
  cbn [Finalizers set_Finalizers]. case_decide; auto.
Qed.

Lemma merge_patch_stored o o' m :
  (merge_patch o o' m).2 = m ∨
  ∃ o0 x, m !! object_key o = Some o0 ∧ patched o0 o o' x ∧
    (merge_patch o o' m).2 = partial_alter (λ _, x) (object_key o) m.
Proof.
  unfold merge_patch. destruct (m !! object_key o) as [o0|]; [|by left].
  right. exists o0, (merged o0 o o'). split; [done|]. split; [apply merged_patched|done].
Qed.
End MergingServer.
