(* ===== verification/Caches.v ===== *)
(** Reads lag behind writes.  A controller reads the objects of a kind from a cache
    that follows the API server at a distance: it shows a version of the objects that
    may have been overtaken, and never goes back to an older one.  So there are, for
    each kind, the versions from the one that is read to the one that is stored; and
    about these, what the finalizer of a controller does to an object under one key. *)
From S2P Require Import Prelude GoStd Errors ApiTypes Steps Cluster Guard ObjectSystem.

(** ** Histories *)
Section Histories.
Context {M : Type}.
Implicit Types (m : M) (l : list M) (R : relation M).

(** A version is written, or the cache takes in the next one. *)
Inductive evolves_one R : relation (list M) :=
| writes l m m' : last l = Some m → R m m' → evolves_one R l (l ++ [m'])
| catches_up m l : l ≠ [] → evolves_one R (m :: l) l.
Definition evolves R : relation (list M) := rtc (evolves_one R).

Lemma last_some l : l ≠ [] → ∃ m, last l = Some m.
Proof. intros Hl. by destruct (last l) as [m|] eqn:E; [exists m|apply last_None in E]. Qed.
Lemma last_in l m : last l = Some m → m ∈ l.
Proof. intros (l' & ->)%last_Some. apply elem_of_app. right. by left. Qed.

(** What each write keeps, and what taking in a version keeps. *)
Lemma evolves_keep R (P : list M → M → Prop) l l' m :
  (∀ l m m', last l = Some m → P l m → R m m' → P (l ++ [m']) m') →
  (∀ l m0 m, last l = Some m → P (m0 :: l) m → P l m) →
  evolves R l l' → last l = Some m → P l m → ∃ m', last l' = Some m' ∧ P l' m'.
Proof.
  intros Hw Hc He. revert m. induction He as [l|l1 l2 l3 Hs _ IH]; intros m Hl HP; [by exists m|].
  destruct Hs as [l m1 m' Hl1 HR|m0 l Hne].
  - rewrite Hl in Hl1. injection Hl1 as <-. apply (IH m'); [apply last_snoc|by eapply Hw].
  - assert (last l = Some m) as Hl' by (by destruct l). apply (IH m); [done|by eapply Hc].
Qed.

Lemma evolves_stored R l l' m : evolves R l l' → last l = Some m → ∃ m', last l' = Some m' ∧ rtc R m m'.
Proof.
  intros He Hl. eapply (evolves_keep R (λ _ m', rtc R m m')); [|done|done|done|apply rtc_refl].
  intros l1 m1 m2 _ Hr HR. by eapply rtc_r.
Qed.
Lemma evolves_mono R R' l l' : (∀ m m', R m m' → R' m m') → evolves R l l' → evolves R' l l'.
Proof.
  intros HR He. induction He as [l|l1 l2 l3 Hs _ IH]; [apply rtc_refl|]. eapply rtc_l; [|exact IH].
  destruct Hs; [eapply writes; by eauto|by apply catches_up].
Qed.
(** A cache that keeps up. *)
Lemma evolves_at_once R m m' : rtc R m m' → evolves R [m] [m'].
Proof.
  induction 1 as [m|m1 m2 m3 HR _ IH]; [apply rtc_refl|].
  eapply rtc_l; [by apply (writes R [m1] m1 m2)|]. eapply rtc_l; [by apply catches_up|exact IH].
Qed.

Lemma sorted_snoc R `{!Transitive R} l m m' :
  StronglySorted R l → last l = Some m → R m m' → StronglySorted R (l ++ [m']).
Proof.
  induction 1 as [|m0 l Hs IH Hall]; [done|]. intros Hl HR. cbn [app]. destruct l as [|m1 l].
  - injection Hl as ->. by repeat constructor.
  - change (last (m1 :: l) = Some m) in Hl. constructor; [by apply IH|]. apply Forall_app. split; [done|].
    apply Forall_singleton. etransitivity; [|exact HR]. rewrite Forall_forall in Hall. by apply Hall, last_in.
Qed.
Lemma sorted_last R l m0 m : StronglySorted R l → m0 ∈ l → last l = Some m → m0 = m ∨ R m0 m.
Proof.
  induction 1 as [|m1 l _ IH Hall]; [by intros ?%elem_of_nil|]. intros [->|Hin]%elem_of_cons Hm.
  - destruct l as [|m2 l]; [left; by injection Hm|right]. rewrite Forall_forall in Hall. by apply Hall, last_in.
  - apply IH; [done|]. by destruct l; [apply elem_of_nil in Hin|].
Qed.
Lemma sorted_tail R m l : StronglySorted R (m :: l) → StronglySorted R l.
Proof. by intros []%StronglySorted_inv. Qed.
Lemma forall_snoc (P : M → Prop) l m : Forall P l → P m → Forall P (l ++ [m]).
Proof. intros Hl Hm. apply Forall_app. by rewrite Forall_singleton. Qed.
End Histories.

(** ** The API server, seen through a cache *)
Section Patches.
Context {Obj : Type} `{Conditioned Obj, Lineage Obj, Succession Obj}.
Implicit Types (m : gmap (string * string) Obj).

(** One request of a patch; a patch may take several. *)
Definition patches (o o' : Obj) : relation (gmap (string * string) Obj) := λ m m',
  ∃ o0 x, m !! object_key o = Some o0 ∧ patched o0 o o' x ∧ m' = partial_alter (λ _, x) (object_key o) m.
End Patches.

Class CachedServer {Obj A : Type} `{Conditioned Obj, Lineage Obj, Succession Obj, Getter A Obj, Patcher A Obj}
    (stored : A → gmap (string * string) Obj) (history : A → list (gmap (string * string) Obj)) : Prop := {
  history_stored a : last (history a) = Some (stored a);
  history_get a ns n o : Get a ns n = inr o → ∃ m l, history a = m :: l ∧ m !! (ns, n) = Some o;
  history_patch a0 a o o' h r a' :
    NewHelper a0 o = inr h → same_id o o' → Patch h o' a = (r, a') →
    evolves (patches o o') (history a) (history a')
}.

(** A server whose cache keeps up. *)
Lemma up_to_date {Obj A : Type} `{ObjectServer Obj A stored} : CachedServer stored (λ a, [stored a]).
Proof.
  split; [done|intros a ns n o Ho%object_get; by exists (stored a), []|].
  intros a0 a o o' h r a' Hh Hid Hp. apply evolves_at_once.
  destruct (object_patch _ _ _ _ _ _ _ Hh Hid Hp) as [->|(o0 & x & Ho0 & Hx & ->)]; [apply rtc_refl|].
  apply rtc_once. by exists o0, x.
Qed.

(** ** What happens under a key *)
Section Keys.
Context {Obj : Type} `{SuccessionLaws Obj}.
Context (file : Obj → string) (guarded : Obj → bool) (plain : Obj → Prop) `{!FileOwner file guarded plain}.
Abbreviation objects := (gmap (string * string) Obj).
Implicit Types (o q : Obj) (m : objects) (l : list objects) (k : string * string).

Definition dead o : Prop := DeletionTimestamp (obj_Meta o) ≠ None.

(** A guarded object stays; a guarded object has been there. *)
Definition remains k : relation objects := λ m m', ∀ o,
  m !! k = Some o → guarded o = true → ∃ o', m' !! k = Some o' ∧ follows o o' ∧ guarded o' = true.
Definition ages k : relation objects := λ m m', ∀ o',
  m' !! k = Some o' → guarded o' = true → ∃ o, m !! k = Some o ∧ follows o o' ∧ guarded o = true.
Definition dying k m : Prop := ∀ o, m !! k = Some o → guarded o = true → dead o.

#[export] Instance remains_transitive k : Transitive (remains k).
Proof.
  intros m1 m2 m3 H12 H23 o Ho Hg. destruct (H12 o Ho Hg) as (o2 & Ho2 & Hl2 & Hg2).
  destruct (H23 o2 Ho2 Hg2) as (o3 & Ho3 & Hl3 & Hg3). exists o3. split_and!; [done|by etransitivity|done].
Qed.
#[export] Instance ages_transitive k : Transitive (ages k).
Proof.
  intros m1 m2 m3 H12 H23 o Ho Hg. destruct (H23 o Ho Hg) as (o2 & Ho2 & Hl2 & Hg2).
  destruct (H12 o2 Ho2 Hg2) as (o3 & Ho3 & Hl3 & Hg3). exists o3. split_and!; [done|by etransitivity|done].
Qed.
Lemma remains_same k m m' : m' !! k = m !! k → remains k m m'.
Proof. intros E o Ho Hg. exists o. by rewrite E. Qed.
Lemma ages_same k m m' : m' !! k = m !! k → ages k m m'.
Proof. intros E o Ho Hg. exists o. by rewrite <-E. Qed.

(** The versions show the guard being taken, or being given up; in between both. *)
Definition taking k l : Prop := StronglySorted (remains k) l.
Definition leaving k l : Prop := StronglySorted (ages k) l ∧ Forall (dying k) l.
Definition one_way k l : Prop := taking k l ∨ leaving k l.

Lemma taking_write k l m m' : taking k l → last l = Some m → remains k m m' → taking k (l ++ [m']).
Proof. apply sorted_snoc, _. Qed.
Lemma leaving_write k l m m' : leaving k l → last l = Some m → ages k m m' → leaving k (l ++ [m']).
Proof.
  intros [Hs Hd] Hl Ha. split; [eapply sorted_snoc; [apply _|done..]|]. apply forall_snoc; [done|].
  intros o' Ho' Hg. destruct (Ha o' Ho' Hg) as (o & Ho & [_ Hlater]%follows_later & Hg'). apply Hlater.
  rewrite Forall_forall in Hd. by apply (Hd m (last_in _ _ Hl)).
Qed.
Lemma one_way_write k l m m' :
  one_way k l → last l = Some m → remains k m m' → ages k m m' → one_way k (l ++ [m']).
Proof. intros [Ht|Hl] Hm Hr Ha; [left; by eapply taking_write|right; by eapply leaving_write]. Qed.
Lemma leaving_catch k m l : leaving k (m :: l) → leaving k l.
Proof. intros [Hs Hd]. split; [by eapply sorted_tail|by apply Forall_cons in Hd as [_ Hd]]. Qed.
Lemma one_way_catch k m l : one_way k (m :: l) → one_way k l.
Proof. intros [Ht|Hl]; [left; by eapply sorted_tail|right; by eapply leaving_catch]. Qed.

(** ** What an object that was read says about the versions since *)
Inductive held o l : Prop :=
| held_free : guarded o = false → taking (object_key o) l → held o l
| held_live :
    guarded o = true → DeletionTimestamp (obj_Meta o) = None →
    Forall (λ m, ∃ q, m !! object_key o = Some q ∧ follows o q ∧ guarded q = true) l → held o l
| held_dead :
    guarded o = true → dead o → leaving (object_key o) l →
    Forall (λ m, ∀ q, m !! object_key o = Some q → guarded q = true → same_id o q) l → held o l.

(** A cache that shows an object without guard shows all that was given up. *)
Lemma leaving_taking k m l :
  leaving k (m :: l) → (∀ o, m !! k = Some o → guarded o = false) → taking k (m :: l).
Proof.
  intros [[Hs Hall]%StronglySorted_inv _] Ho.
  assert (Forall (λ m', ∀ q, m' !! k = Some q → guarded q = false) (m :: l)) as Hfree.
  { apply Forall_cons. split; [exact Ho|]. eapply Forall_impl; [exact Hall|]. cbn. intros m' Ha q Hq.
    apply not_true_is_false. intros Hgq. destruct (Ha q Hq Hgq) as (o1 & Ho1 & _ & Hg1). rewrite (Ho o1 Ho1) in Hg1. done. }
  clear Hs Hall. unfold taking. induction Hfree as [|m1 l1 Hm1 _ IH]; constructor; [exact IH|].
  apply Forall_true. intros m2 q Hq Hgq. by rewrite (Hm1 q Hq) in Hgq.
Qed.

(** Where a deleted object is guarded and stays so, the guard can be given up. *)
Lemma taking_leaving k o m l :
  taking k (m :: l) → m !! k = Some o → guarded o = true → dead o → leaving k (m :: l).
Proof.
  intros [Hs Ht]%StronglySorted_inv Ho Hg Hd.
  assert (Forall (λ m', ∃ q, m' !! k = Some q ∧ follows o q ∧ guarded q = true) (m :: l)) as Hall.
  { apply Forall_cons. split; [by exists o|]. eapply Forall_impl; [exact Ht|]. cbn. intros m' Hr. by apply Hr. }
  split.
  - assert (StronglySorted (remains k) (m :: l)) as Hs' by (by constructor). clear Ho Hs Ht. revert Hall.
    induction Hs' as [|m1 l1 _ IH Hr1]; constructor; apply Forall_cons in Hall as [(q & Hq & _ & Hgq) Hall]; [by apply IH|].
    eapply Forall_impl; [exact Hr1|]. cbn. intros m2 Hr o' Ho' _.
    destruct (Hr q Hq Hgq) as (o1 & Ho1 & Hlater & _). rewrite Ho' in Ho1. injection Ho1 as <-. by exists q.
  - eapply Forall_impl; [exact Hall|]. cbn. intros m' (q & Hq & [_ Hlater]%follows_later & _) q' Hq' _.
    rewrite Hq in Hq'. injection Hq' as <-. by apply Hlater.
Qed.

Lemma held_read o m l : one_way (object_key o) (m :: l) → m !! object_key o = Some o → held o (m :: l).
Proof.
  intros Hw Ho. destruct (guarded o) eqn:Hg; last first.
  { apply held_free; [done|]. destruct Hw as [Ht|Hl]; [done|]. apply leaving_taking; [done|]. intros q. congruence. }
  destruct (decide (DeletionTimestamp (obj_Meta o) = None)) as [Hd|Hd].
  - apply held_live; [done..|]. destruct Hw as [[_ Ht]%StronglySorted_inv|[_ [Hdy _]%Forall_cons]].
    + apply Forall_cons. split; [by exists o|]. eapply Forall_impl; [exact Ht|]. cbn. intros m' Hr. by apply Hr.
    + by destruct (Hdy o Ho Hg).
  - assert (leaving (object_key o) (m :: l)) as Hl by (destruct Hw; [by eapply taking_leaving|done]).
    apply held_dead; [done..|]. destruct Hl as [[_ Ha]%StronglySorted_inv _]. apply Forall_cons. split.
    + intros q Hq _. rewrite Ho in Hq. by injection Hq as <-.
    + eapply Forall_impl; [exact Ha|]. cbn. intros m' Ha' q Hq Hgq.
      destruct (Ha' q Hq Hgq) as (o1 & Ho1 & [Hid _]%follows_later & _). rewrite Ho in Ho1. by injection Ho1 as <-.
Qed.

Lemma held_catch o m l : l ≠ [] → held o (m :: l) → held o l.
Proof.
  intros Hne [Hg Ht|Hg Hd Ht|Hg Hd Ht Hall].
  - apply held_free; [done|by eapply sorted_tail].
  - apply held_live; [done..|]. by apply Forall_cons in Ht as [_ Ht].
  - apply held_dead; [done..|by eapply leaving_catch|by apply Forall_cons in Hall as [_ Hall]].
Qed.

(** Writes that take no guard and give up none. *)
Definition steady : relation objects := λ m m', ∀ k, remains k m m' ∧ ages k m m'.

Lemma held_write o l m m' :
  held o l → last l = Some m → remains (object_key o) m m' → ages (object_key o) m m' → held o (l ++ [m']).
Proof.
  intros [Hg Ht|Hg Hd Ht|Hg Hd Ht Hall] Hm Hr Ha.
  - apply held_free; [done|by eapply taking_write].
  - apply held_live; [done..|]. apply forall_snoc; [done|]. rewrite Forall_forall in Ht.
    destruct (Ht m (last_in _ _ Hm)) as (q & Hq & Hl & Hgq). destruct (Hr q Hq Hgq) as (q' & Hq' & Hl' & Hgq').
    exists q'. split_and!; [done|by etransitivity|done].
  - apply held_dead; [done..|by eapply leaving_write|]. apply forall_snoc; [done|]. intros q Hq Hgq.
    destruct (Ha q Hq Hgq) as (q0 & Hq0 & [Hl _]%follows_later & Hgq0). rewrite Forall_forall in Hall.
    etransitivity; [by apply (Hall m (last_in _ _ Hm))|done].
Qed.

(** What it says of the stored version. *)
Lemma held_stored o l m :
  held o l → guarded o = true → DeletionTimestamp (obj_Meta o) = None → last l = Some m →
  ∃ q, m !! object_key o = Some q ∧ follows o q ∧ guarded q = true.
Proof.
  intros [Hg _|_ _ Hall|_ Hd _ _] Ho Hl Hm; [congruence| |by destruct Hd].
  rewrite Forall_forall in Hall. by apply (Hall m (last_in _ _ Hm)).
Qed.
Lemma held_dying o l m q :
  held o l → guarded o = true → dead o → last l = Some m → m !! object_key o = Some q → guarded q = true → dead q.
Proof.
  intros [Hg _|_ Hd _|_ _ [_ Hall] _] Ho Hl Hm Hq Hgq; [congruence|by destruct Hl|].
  rewrite Forall_forall in Hall. by apply (Hall m (last_in _ _ Hm)).
Qed.

(** What the object that a pass prepares has in common with the one it read. *)
Lemma held_life o o' l :
  same_life o o' → object_Finalizers o' = object_Finalizers o → (∀ q, follows o q → follows o' q) →
  held o l → held o' l.
Proof.
  intros [(Hk & Hu & Hli) Hd] Hf Hfol.
  assert (guarded o' = guarded o) as Eg by (by apply (guarded_finalizers file guarded plain)).
  assert (∀ q, same_id o q → same_id o' q) as Hid by (intros q (? & ? & ?); split_and!; congruence).
  intros [Hg Ht|Hg Hd' Ht|Hg Hd' Ht Hall].
  - apply held_free; [congruence|by rewrite Hk].
  - apply held_live; [congruence..|]. rewrite Hk. eapply Forall_impl; [exact Ht|]. cbn.
    intros m (q & ? & ? & ?). exists q. by auto.
  - apply held_dead; [congruence|unfold dead; by rewrite Hd|by rewrite Hk|]. rewrite Hk.
    eapply Forall_impl; [exact Hall|]. cbn. intros m Hq q ? ?. by auto.
Qed.

(** ** Steady writes *)
Lemma steady_at k o o' m :
  m !! k = Some o → follows o o' → guarded o' = guarded o → steady m (<[k := o']> m).
Proof.
  intros Ho Hl Hg k0. destruct (decide (k0 = k)) as [->|Hne].
  - split; intros q Hq Hgq.
    + rewrite Ho in Hq. injection Hq as <-. exists o'. rewrite lookup_insert_eq. by rewrite Hg.
    + rewrite lookup_insert_eq in Hq. injection Hq as <-. exists o. by rewrite <-Hg.
  - split; [apply remains_same|apply ages_same]; by rewrite lookup_insert_ne.
Qed.
Lemma edit_steady m m' : edit m m' → steady m m'.
Proof.
  intros (k & o & o' & Ho & Hl & Hf & ->). apply (steady_at k o); [done..|].
  by apply (guarded_finalizers file guarded plain).
Qed.

(** Users create objects without the guard of the controller. *)
Definition newcomers m m' : Prop := ∀ k o, m !! k = None → m' !! k = Some o → guarded o = false.
Lemma user_steady m m' : object_user file plain m m' → newcomers m m' → steady m m'.
Proof.
  intros Hu Hn. destruct Hu as [o Ho _ _|m' He|k o Ho Hf]; [|by apply edit_steady|].
  - intros k0. destruct (decide (k0 = object_key o)) as [->|Hne].
    + split; intros q Hq Hg; [by rewrite Ho in Hq|]. by rewrite (Hn _ _ Ho Hq) in Hg.
    + split; [apply remains_same|apply ages_same]; by rewrite lookup_insert_ne.
  - apply (guarded_some file guarded plain) in Hf. intros k0. destruct (decide (k0 = k)) as [->|Hne].
    + split; intros q Hq Hg; [|by rewrite lookup_delete_eq in Hq]. rewrite Ho in Hq. injection Hq as <-. congruence.
    + split; [apply remains_same|apply ages_same]; by rewrite lookup_delete_ne.
Qed.

(** ** Histories as they should be *)
Record kept_up l : Prop := {
  up_well : Forall (well_kept plain) l;
  up_one_way k : one_way k l
}.

Lemma kept_up_write l m m' : kept_up l → last l = Some m → well_kept plain m' → steady m m' → kept_up (l ++ [m']).
Proof.
  intros [Hw Ho] Hm Hw' Hs. split; [by apply forall_snoc|]. intros k. destruct (Hs k). by eapply one_way_write.
Qed.
Lemma kept_up_catch m l : kept_up (m :: l) → kept_up l.
Proof. intros [[_ Hw]%Forall_cons Ho]. split; [done|]. intros k. by eapply one_way_catch. Qed.
Lemma kept_up_stored l m : kept_up l → last l = Some m → well_kept plain m.
Proof. intros [Hw _] Hm. rewrite Forall_forall in Hw. by apply Hw, last_in. Qed.
Lemma kept_up_start : kept_up [∅].
Proof.
  split; [by apply Forall_singleton|]. intros k. left. by repeat constructor.
Qed.

Abbreviation guard_step := (guard_step (K := string * string) file guarded (object_file file plain)).

(** What steady writes make of a history, and of all that is held of it. *)
Definition steady_write fs m m' : Prop := steady m m' ∧ rtc guard_step (fs, m) (fs, m') ∧ well_kept plain m'.

Lemma steady_kept fs l m m' :
  steady_write fs m m' → last l = Some m → kept_up l →
  rtc guard_step (fs, m) (fs, m') ∧ kept_up (l ++ [m']) ∧ ∀ o, held o l → held o (l ++ [m']).
Proof.
  intros (Hs & Hg & Hw) Hm Hup. split; [done|]. split; [by eapply kept_up_write|].
  intros o Ho. destruct (Hs (object_key o)). by eapply held_write.
Qed.

Lemma edit_write fs m m' : well_kept plain m → edit m m' → steady_write fs m m'.
Proof.
  intros Hw He. split; [by apply edit_steady|]. split; [by apply (edits_guard file guarded plain), rtc_once|].
  by eapply (kept_well file guarded plain), edits_kept, rtc_once.
Qed.

Definition cached_user : relation objects := λ m m', object_user file plain m m' ∧ newcomers m m'.
Lemma user_write fs m m' : well_kept plain m → cached_user m m' → steady_write fs m m'.
Proof. intros Hw [Hu Hn]. split; [by apply user_steady|]. by apply (user_protocol file guarded plain). Qed.

Lemma steady_evolves (R : relation objects) (fs : gmap string string) l l' m :
  (∀ m m', well_kept plain m → R m m' → steady_write fs m m') →
  evolves R l l' → last l = Some m → kept_up l →
  ∃ m', last l' = Some m' ∧ rtc guard_step (fs, m) (fs, m') ∧ kept_up l' ∧ ∀ o, held o l → held o l'.
Proof.
  intros HR He Hm Hup.
  apply (evolves_keep R (λ l0 m0, rtc guard_step (fs, m) (fs, m0) ∧ kept_up l0 ∧ ∀ o, held o l → held o l0) l l' m);
    [| |done|done|by split; [apply rtc_refl|]].
  - intros l0 m0 m1 Hl0 (Hg & Hup0 & Hh) H01.
    destruct (steady_kept fs l0 m0 m1) as (Hg' & Hup' & Hh'); [by apply HR; [by eapply kept_up_stored|]|done..|].
    split; [by etransitivity|]. split; [done|]. auto.
  - intros l0 m0 m1 Hl0 (Hg & Hup0 & Hh). split; [done|]. split; [by eapply kept_up_catch|].
    intros o Ho. eapply held_catch, Hh; [|done]. intros ->. done.
Qed.

Lemma edits_evolve fs l l' m :
  evolves edit l l' → last l = Some m → kept_up l →
  ∃ m', last l' = Some m' ∧ rtc guard_step (fs, m) (fs, m') ∧ kept_up l' ∧ ∀ o, held o l → held o l'.
Proof. apply steady_evolves. apply edit_write. Qed.
Lemma users_evolve fs l l' m :
  evolves cached_user l l' → last l = Some m → kept_up l →
  ∃ m', last l' = Some m' ∧ rtc guard_step (fs, m) (fs, m') ∧ kept_up l' ∧ ∀ o, held o l → held o l'.
Proof. apply steady_evolves. apply user_write. Qed.

(** ** Patches *)

(** A patch that leaves the finalizers alone is an edit. *)
Lemma patches_edit o o' m m' : object_Finalizers o' = object_Finalizers o → patches o o' m m' → edit m m'.
Proof.
  intros Hf (o0 & x & Ho0 & Hx & ->). destruct Hx as [q Hl [Hq|[Hno _]]|Hno _ _]; [|by destruct Hno..].
  by exists (object_key o), o0, q.
Qed.

(** What each request of a patch does, seen as a controller's. *)
Lemma patches_guard fs o o' m m' :
  patches o o' m m' →
  (∀ o0 x, m !! object_key o = Some o0 → patched o0 o o' x → guarded o0 = true → is_Some (fs !! file o0) →
     ∃ q, x = Some q ∧ guarded q = true) →
  well_kept plain m → guard_step (fs, m) (fs, m') ∧ well_kept plain m'.
Proof.
  intros (o0 & x & Ho0 & Hx & ->) Hg Hw.
  assert (∀ q, x = Some q → same_id o0 q) as Hq by (intros q ->; inversion Hx as [q' [? _]%follows_later _|]; by subst).
  split.
  - apply guard_pass with (v := o0); [done|done|intros q Eq; by apply (file_id file guarded plain), Hq|].
    intros Hin. destruct (guarded o0) eqn:Hg0; [by eapply Hg|done].
  - eapply (kept_well file guarded plain); [done|]. apply kept_alter. intros q Eq. exists o0. by auto.
Qed.

Lemma patches_elsewhere o o' m m' k : patches o o' m m' → k ≠ object_key o → remains k m m' ∧ ages k m m'.
Proof.
  intros (o0 & x & _ & _ & ->) Hne. split; [apply remains_same|apply ages_same]; by rewrite lookup_partial_alter_ne.
Qed.

(** The patch that takes the guard. *)
Lemma taking_write_patch fs l o o' m m' :
  guarded o = false → guarded o' = true → last l = Some m → kept_up l → held o l → patches o o' m m' →
  guard_step (fs, m) (fs, m') ∧ kept_up (l ++ [m']) ∧ held o (l ++ [m']).
Proof.
  intros Ho Ho' Hm Hup Hh Hp.
  assert (∀ o0 x, patched o0 o o' x → guarded o0 = true → ∃ q, x = Some q ∧ follows o0 q ∧ guarded q = true) as Hx.
  { intros o0 x [q Hq Hfin|_ Hnil _] Hg0; [|by rewrite (guarded_some file guarded plain _ Hnil) in Ho'].
    exists q. split_and!; [done..|].
    destruct Hfin as [Hfin|[_ Hfin]]; by rewrite (guarded_finalizers file guarded plain _ _ Hfin). }
  destruct (patches_guard fs o o' m m' Hp) as [Hg Hw]; [|by eapply kept_up_stored|].
  { intros o0 x _ Hp' Hg0 _. destruct (Hx o0 x Hp' Hg0) as (q & ? & _ & ?). by exists q. }
  assert (remains (object_key o) m m') as Hr.
  { intros o0 Ho0 Hg0. destruct Hp as (o1 & x & Ho1 & Hp & ->). rewrite Ho0 in Ho1. injection Ho1 as <-.
    destruct (Hx o0 x Hp Hg0) as (q & -> & ? & ?). exists q. by rewrite lookup_partial_alter_eq. }
  destruct Hh as [_ Ht|Hg0 _ _|Hg0 _ _ _]; [|congruence..].
  assert (taking (object_key o) (l ++ [m'])) as Ht' by (by eapply taking_write).
  split; [done|]. split; [|by apply held_free]. split; [by apply forall_snoc; [apply Hup|]|].
  intros k. destruct (decide (k = object_key o)) as [->|Hne]; [by left|].
  destruct (patches_elsewhere _ _ _ _ k Hp Hne). eapply one_way_write; [apply Hup|done..].
Qed.

(** The patch that gives it up. *)
Lemma leaving_write_patch fs l o o' m m' :
  guarded o = true → dead o → guarded o' = false → fs !! file o = None →
  last l = Some m → kept_up l → held o l → patches o o' m m' →
  guard_step (fs, m) (fs, m') ∧ kept_up (l ++ [m']) ∧ held o (l ++ [m']).
Proof.
  intros Ho Hd Ho' Hf Hm Hup Hh Hp.
  destruct Hh as [Hg0 _|_ Hl _|_ _ Hl Hall]; [congruence|by destruct Hd|].
  destruct (patches_guard fs o o' m m' Hp) as [Hg Hw]; [|by eapply kept_up_stored|].
  { intros o0 x Ho0 _ Hg0 Hin. rewrite Forall_forall in Hall.
    rewrite (file_id file guarded plain o o0), Hf in Hin; [by destruct Hin|].
    by apply (Hall m (last_in _ _ Hm)). }
  assert (ages (object_key o) m m') as Ha.
  { intros q Hq Hgq. destruct Hp as (o0 & x & Ho0 & Hp & ->). rewrite lookup_partial_alter_eq in Hq. subst x.
    inversion Hp as [q' Hlater [Hfin|[_ Hfin]] E|]; subst; [|by rewrite (guarded_finalizers file guarded plain _ _ Hfin) in Hgq; congruence].
    exists o0. split_and!; [done..|]. by rewrite <-(guarded_finalizers file guarded plain _ _ Hfin). }
  assert (leaving (object_key o) (l ++ [m'])) as Hl' by (by eapply leaving_write).
  split; [done|]. split.
  - split; [by apply forall_snoc; [apply Hup|]|].
    intros k. destruct (decide (k = object_key o)) as [->|Hne]; [by right|].
    destruct (patches_elsewhere _ _ _ _ k Hp Hne). eapply one_way_write; [apply Hup|done..].
  - apply held_dead; [done..|]. apply forall_snoc; [done|]. intros q Hq Hgq.
    destruct (Ha q Hq Hgq) as (q0 & Hq0 & [Hid _]%follows_later & Hgq0). rewrite Forall_forall in Hall.
    etransitivity; [by apply (Hall m (last_in _ _ Hm))|done].
Qed.

(** A patch leaves the finalizers alone, takes the guard, or gives it up with the
    file gone. *)
Definition fair_patch (fs : gmap string string) o o' : Prop :=
  object_Finalizers o' = object_Finalizers o ∨ (guarded o = false ∧ guarded o' = true) ∨
  (guarded o = true ∧ dead o ∧ guarded o' = false ∧ fs !! file o = None).

(** It gives up no guard of an object that is alive. *)
Lemma patch_guarded fs l o o' m o0 q :
  fair_patch fs o o' → last l = Some m → held o l → m !! object_key o = Some o0 → patched o0 o o' (Some q) →
  guarded o0 = true → DeletionTimestamp (obj_Meta o0) = None → guarded q = true.
Proof.
  intros Hfair Hm Hh Ho0 Hp Hg Hl. inversion Hp as [q' _ Hfin E|]; subst.
  destruct Hfin as [Hfin|[Hne Hfin]]; rewrite (guarded_finalizers file guarded plain _ _ Hfin); [done|].
  destruct Hfair as [E|[[_ ?]|(Ho & Hd & _)]]; [done..|].
  by destruct (held_dying _ _ _ _ Hh Ho Hd Hm Ho0 Hg).
Qed.

Lemma patch_write fs l o o' m m' :
  fair_patch fs o o' → last l = Some m → kept_up l → held o l → patches o o' m m' →
  rtc guard_step (fs, m) (fs, m') ∧ kept_up (l ++ [m']) ∧ held o (l ++ [m']).
Proof.
  intros [Hf|[[Ho Ho']|(Ho & Hd & Ho' & Hf)]] Hm Hup Hh Hp.
  - apply patches_edit in Hp; [|done].
    destruct (steady_kept fs l m m') as (? & ? & Hh'); [apply edit_write; [by eapply kept_up_stored|done]|done..|]. by auto.
  - destruct (taking_write_patch fs l o o' m m') as (Hg & Hup' & Hh'); [done..|]. split; [by apply rtc_once|done].
  - destruct (leaving_write_patch fs l o o' m m') as (Hg & Hup' & Hh'); [done..|]. split; [by apply rtc_once|done].
Qed.

Lemma patch_evolves fs l l' o o' m :
  fair_patch fs o o' → evolves (patches o o') l l' → last l = Some m → kept_up l → held o l →
  ∃ m', last l' = Some m' ∧ rtc guard_step (fs, m) (fs, m') ∧ kept_up l'.
Proof.
  intros Hcase He Hm Hup Hh.
  destruct (evolves_keep (patches o o') (λ l0 m0, rtc guard_step (fs, m) (fs, m0) ∧ kept_up l0 ∧ held o l0) l l' m)
    as (m' & Hm' & Hg & Hup' & _); [| |done|done|by split; [apply rtc_refl|]|by exists m'].
  - intros l0 m0 m1 Hl0 (Hg & Hup0 & Hh0) Hp.
    destruct (patch_write fs l0 o o' m0 m1) as (Hg' & ? & ?); [done..|]. split; [by etransitivity|done].
  - intros l0 m0 m1 Hl0 (Hg & Hup0 & Hh0). split; [done|]. split; [by eapply kept_up_catch|].
    eapply held_catch, Hh0. by intros ->.
Qed.

(** ** Under guard the file of the object that was read may change as long as it is
    alive, and may go once it is deleted *)
Lemma guarded_files o fs fs' l m :
  held o l → guarded o = true → last l = Some m →
  (∀ x, object_file file plain x → x ≠ file o → fs' !! x = fs !! x) →
  (dead o → fs' !! file o = fs !! file o ∨ fs' !! file o = None) →
  guard_step (fs, m) (fs', m).
Proof.
  intros Hh Hg Hm Helse Hdead. destruct Hh as [Hf _|_ Hd Hall|_ Hd _ _]; [congruence| |].
  - rewrite Forall_forall in Hall. destruct (Hall m (last_in _ _ Hm)) as (q & Hq & [Hid _]%follows_later & Hgq).
    replace m with (partial_alter (λ _, Some q) (object_key o) m) at 2 by (by apply partial_alter_id).
    pose proof (file_id file guarded plain _ _ Hid) as E.
    apply guard_pass with (v := q); [done|rewrite E; exact Helse|by intros v' [= <-]|].
    intros _. rewrite Hgq. by exists q.
  - apply guard_others. intros x Hx. destruct (decide (x = file o)) as [->|Hne]; [by apply Hdead|left; by apply Helse].
Qed.
End Keys.
