(* ===== verification/Threads.v ===== *)
(** A pass as it runs: the object is read, the steps run one after the other on a
    copy of it, and at the end the copy is patched.  Users, the other controllers
    and everyone else act between any two steps, and the operator may crash.  The
    object comes from a cache, see [Caches].  What the protocol of [Guard] asks of
    each step, so that files stay behind finalizers although the object that is
    stored is not the one the pass works on, and was not when it was read. *)
From S2P Require Import Prelude GoStd Errors FileStore ApiTypes Steps Cluster Guard ObjectSystem Caches.

(** ** One pass at a time *)
Section Thread.
Context {Obj A : Type} `{MetaConditions, Conditioned Obj, Getter A Obj, Patcher A Obj}.
Abbreviation W := (World Obj A).
(** What a method does to the object before the snapshot, and its steps. *)
Context (prepare : Obj → Obj) (steps : list (Func W)).

(** A pass under way: the object of the snapshot, the snapshot, the copy, and the
    steps that are left. *)
Record work := mkWork {
  wk_read : Obj;
  wk_helper : helper;
  wk_obj : Obj;
  wk_rest : list (Func W)
}.
(** A controller has one worker. *)
Definition thread : Type := option work.

Definition begin_work (o : Obj) (h : helper) : work :=
  mkWork o h (UpdateStatusCondition ConditionReady ConditionUnknown ReasonReconciling
                "Reconciliation is in progress" o) steps.

Definition stops (r : outcome StepResult) : bool :=
  match r with Done res => bool_decide (sr_Action res ≠ ActionContinue) | Panicked => true end.

(** One step of the copy. *)
Definition run_one (k : work) (f : Func W) (rest : list (Func W)) (s : Fs * A) : work * (Fs * A) :=
  let '(r, w) := f (mkWorld (wk_obj k) s.1 s.2) in
  (mkWork (wk_read k) (wk_helper k) (w_obj w) (if stops r then [] else rest), (w_fs w, w_api w)).

(** The worker does the next thing there is to do for the named object. *)
Definition advance (namespace name : string) (t : thread) (s : Fs * A) : thread * (Fs * A) :=
  match t with
  | None =>
      match Get s.2 namespace name with
      | inl _ => (None, s)
      | inr stored =>
          match NewHelper s.2 (prepare stored) with
          | inl _ => (None, s)
          | inr h => (Some (begin_work (prepare stored) h), s)
          end
      end
  | Some k =>
      match wk_rest k with
      | [] => (None, (s.1, (Patch (wk_helper k) (wk_obj k) s.2).2))
      | f :: rest => let '(k', s') := run_one k f rest s in (Some k', s')
      end
  end.

(** The steps of a worker; a crash loses the pass with its patch. *)
Inductive thread_step : relation (thread * (Fs * A)) :=
| thread_advance ns n t s : thread_step (t, s) (advance ns n t s)
| thread_crash t s : thread_step (t, s) (None, s).

(** ** A pass that nothing interrupts is a run of the worker *)
Lemma run_steps_thread o h rest w :
  rtc thread_step (Some (mkWork o h (w_obj w) rest), (w_fs w, w_api w))
    (Some (mkWork o h (w_obj (Run rest w).2) []), (w_fs (Run rest w).2, w_api (Run rest w).2)).
Proof.
  revert w. induction rest as [|f rest IH]; intros w; [apply rtc_refl|].
  assert (thread_step (Some (mkWork o h (w_obj w) (f :: rest)), (w_fs w, w_api w))
    (Some (mkWork o h (w_obj (f w).2) (if stops (f w).1 then [] else rest)), (w_fs (f w).2, w_api (f w).2)))
    as Hone.
  { pose proof (thread_advance "" "" (Some (mkWork o h (w_obj w) (f :: rest))) (w_fs w, w_api w)) as Hone.
    unfold advance, run_one in Hone. cbn [wk_rest wk_obj wk_read wk_helper fst snd] in Hone.
    destruct w as [d fs a]. cbn [w_obj w_fs w_api] in *. by destruct (f (mkWorld d fs a)) as [r w']. }
  eapply rtc_l; [exact Hone|]. destruct (f w) as [[res|] w1] eqn:Hf; cbn [fst snd stops].
  - rewrite (Run_cons _ _ _ _ _ Hf). unfold halts. destruct (sr_Action res) eqn:Hr; simpl; [apply IH|apply rtc_refl..].
  - rewrite (Run_panic _ _ _ _ Hf). apply rtc_refl.
Qed.

Lemma reconcile_thread ns n s out s' :
  reconcile_with prepare steps ns n s = (out, s') → rtc thread_step (None, s) (None, s').
Proof.
  intros [->|(o & h & r & w' & Hget & Hh & Hrun & ->)]%reconcile_with_inv; [apply rtc_refl|].
  eapply rtc_l; [apply (thread_advance ns n)|]. unfold advance. rewrite Hget, Hh.
  pose proof (run_steps_thread (prepare o) h steps (mkWorld (UpdateStatusCondition ConditionReady
    ConditionUnknown ReasonReconciling "Reconciliation is in progress" (prepare o)) s.1 s.2)) as Hsteps.
  change (Run steps _) with (run_steps steps (mkWorld (prepare o) s.1 s.2)) in Hsteps.
  rewrite Hrun in Hsteps. cbn [w_obj w_fs w_api snd] in Hsteps. rewrite <-surjective_pairing in Hsteps.
  etransitivity; [exact Hsteps|]. apply rtc_once. apply (thread_advance ns n).
Qed.
End Thread.
Arguments work : clear implicits.
Arguments work Obj A {_}.
Arguments thread : clear implicits.
Arguments thread Obj A {_}.

Section ThreadSystem.
Context {Obj A : Type} `{MetaConditionsLaws, ConditionedLaws Obj, Lineage Obj, Succession Obj, !SuccessionLaws Obj, !LineageLaws Obj}.
Context `{Getter A Obj, Patcher A Obj}.
Abbreviation W := (World Obj A).
(** The objects that are stored, and the versions from the one the cache shows. *)
Context (stored : A → gmap (string * string) Obj) (history : A → list (gmap (string * string) Obj)).
Context `{!CachedServer stored history}.
(** The file of an object, its finalizer, what names are like, and the pass. *)
Context (file : Obj → string) (guarded : Obj → bool) (plain : Obj → Prop) `{!FileOwner file guarded plain}.
Context (prepare : Obj → Obj) (steps : list (Func W)).
Implicit Types (o d : Obj) (w : W) (s : Fs * A) (k : work Obj A) (l : list (gmap (string * string) Obj)).

Abbreviation guard_step := (guard_step (K := string * string) file guarded (object_file file plain)).
Abbreviation view := (object_view stored).
Abbreviation held := (held guarded).
Abbreviation kept_up := (kept_up guarded plain).

(** ** What the protocol asks of a step *)

(** It keeps the identity of the object, and files and objects of others but for
    edits. *)
Definition contained w w' : Prop :=
  same_life (w_obj w) (w_obj w') ∧ evolves edit (history (w_api w)) (history (w_api w')) ∧
  ∀ x, object_file file plain x → x ≠ file (w_obj w) → files (w_fs w') !! x = files (w_fs w) !! x.

Lemma contained_obj w d : same_life (w_obj w) d → contained w (mkWorld d (w_fs w) (w_api w)).
Proof. intros Hd. by split; [|split; [apply rtc_refl|]]. Qed.
Lemma contained_refl w : contained w w.
Proof. by split; [|split; [apply rtc_refl|]]. Qed.

(** Under guard it gives up the guard only of an object that is deleted, once its
    file is gone, and ends the pass. *)
Definition safe_step (f : Func W) : Prop := ∀ w, plain (w_obj w) → guarded (w_obj w) = true →
  contained w (f w).2 ∧
  (object_Finalizers (w_obj (f w).2) = object_Finalizers (w_obj w) ∨
   dead (w_obj w) ∧ guarded (w_obj (f w).2) = false ∧
   stops (f w).1 = true ∧ files (w_fs (f w).2) !! file (w_obj w) = None).

(** Over a guarded object that is deleted the pass ends here, and writes no file of
    the object. *)
Definition last_step (f : Func W) : Prop := ∀ w, plain (w_obj w) → guarded (w_obj w) = true → dead (w_obj w) →
  stops (f w).1 = true ∧
  (files (w_fs (f w).2) !! file (w_obj w) = files (w_fs w) !! file (w_obj w) ∨
   files (w_fs (f w).2) !! file (w_obj w) = None).

(** Without guard it leaves the files alone, and at most takes the guard and ends
    the pass. *)
Definition early_step (f : Func W) : Prop := ∀ w, plain (w_obj w) → guarded (w_obj w) = false →
  contained w (f w).2 ∧ files (w_fs (f w).2) = files (w_fs w) ∧
  (object_Finalizers (w_obj (f w).2) = object_Finalizers (w_obj w) ∨
   guarded (w_obj (f w).2) = true ∧ stops (f w).1 = true).

(** Without guard the pass ends here at the latest. *)
Definition gate_step (f : Func W) : Prop := early_step f ∧
  ∀ w, plain (w_obj w) → guarded (w_obj w) = false → stops (f w).1 = true.

Inductive gated : list (Func W) → Prop :=
| gated_gate f rest : gate_step f → gated (f :: rest)
| gated_early f rest : early_step f → gated rest → gated (f :: rest).

Class SafeSteps : Prop := {
  steps_safe : Forall safe_step steps;
  steps_gated : gated steps;
  steps_last f rest : steps = f :: rest → last_step f;
  prepare_life o : same_life o (prepare o);
  prepare_finalizers o : object_Finalizers (prepare o) = object_Finalizers o;
  prepare_follows o q : follows o q → follows (prepare o) q
}.
Context `{!SafeSteps}.

(** ** A pass under way

    The object may have been overtaken when it was read, and may be overtaken while
    the pass is under way; [held] is what it says about the versions since. *)
Record work_ok k (fs : gmap string string) l : Prop := {
  ok_plain : plain (wk_read k);
  ok_life : same_life (wk_read k) (wk_obj k);
  ok_helper : ∃ a, NewHelper a (wk_read k) = inr (wk_helper k);
  ok_rest : wk_rest k ⊆ steps;
  ok_held : held (wk_read k) l;
  ok_phase :
    match guarded (wk_read k), guarded (wk_obj k) with
    | true, true => object_Finalizers (wk_obj k) = object_Finalizers (wk_read k) ∧
                    (dead (wk_read k) → wk_rest k = [] ∨ wk_rest k = steps)
    | true, false => dead (wk_read k) ∧ wk_rest k = [] ∧ fs !! file (wk_read k) = None
    | false, true => wk_rest k = []
    | false, false => object_Finalizers (wk_obj k) = object_Finalizers (wk_read k) ∧
                      (wk_rest k = [] ∨ gated (wk_rest k))
    end
}.
Definition thread_ok (ts : thread Obj A * (Fs * A)) : Prop :=
  kept_up (history ts.2.2) ∧
  match ts.1 with Some k => work_ok k (files ts.2.1) (history ts.2.2) | None => True end.

(** The steps of the system: those of the worker, of the users, and what others do to
    the rest of the volume and of the API.  With each the cache may take in versions. *)
Inductive threaded_step : relation (thread Obj A * (Fs * A)) :=
| threaded_worker t s t' s' : thread_step prepare steps (t, s) (t', s') → threaded_step (t, s) (t', s')
| threaded_user t fs a a' :
    evolves (cached_user file guarded plain) (history a) (history a') → threaded_step (t, (fs, a)) (t, (fs, a'))
| threaded_others t fs fs' a a' :
    (∀ o, plain o → files fs' !! file o = files fs !! file o) → history a' = history a →
    threaded_step (t, (fs, a)) (t, (fs', a')).

Lemma work_file k fs l : work_ok k fs l → file (wk_obj k) = file (wk_read k) ∧ plain (wk_obj k).
Proof.
  intros Hk. destruct (ok_life _ _ _ Hk) as [Hid _]. split; [by apply (file_id file guarded plain)|].
  by eapply (plain_id file guarded plain), Hk.
Qed.

(** The object of a pass says the same of versions that are steadily written. *)
Lemma work_held k fs l l' : (∀ o, held o l → held o l') → work_ok k fs l → work_ok k fs l'.
Proof. intros Hh [Hp Hid Hhp Hsub Hst Hph]. split; [done..|by apply Hh|done]. Qed.

Lemma begin_ok ns n o h s :
  kept_up (history s.2) → Get s.2 ns n = inr o → NewHelper s.2 (prepare o) = inr h →
  work_ok (begin_work steps (prepare o) h) (files s.1) (history s.2).
Proof.
  intros Hup Ho Hh. apply history_get in Ho as (m & l & El & Ho). rewrite El in Hup |- *.
  pose proof (up_well _ _ _ Hup) as [Hw _]%Forall_cons. destruct (Hw _ _ Ho) as [Hk Hp]. rewrite Hk in Ho.
  assert (held o (m :: l)) as Hheld by (apply held_read; [apply Hup|done]).
  assert (held (prepare o) (m :: l)) as Hheld'
    by (eapply held_life; [done|apply prepare_life|apply prepare_finalizers|apply prepare_follows|done]).
  set (d := UpdateStatusCondition ConditionReady ConditionUnknown ReasonReconciling
    "Reconciliation is in progress" (prepare o)).
  assert (same_life (prepare o) d ∧ object_Finalizers d = object_Finalizers (prepare o)) as [Hlife Hfin].
  { unfold same_life, same_id, object_key, object_Finalizers, d, UpdateStatusCondition.
    by rewrite meta_set_conditions, lineage_set_conditions. }
  split; cbn [begin_work wk_read wk_obj wk_rest]; fold d; [| |by exists s.2|done|done|].
  - by apply (plain_id file guarded plain o); [apply prepare_life|].
  - exact Hlife.
  - rewrite (guarded_finalizers file guarded plain _ _ Hfin). destruct (guarded (prepare o)).
    + split; [done|by right].
    + split; [done|]. right. apply steps_gated.
Qed.

(** ** One step of the copy *)

(** What a step does to the API. *)
Lemma contained_evolves k fs a w' fsv :
  work_ok k fsv (history a) → kept_up (history a) → contained (mkWorld (wk_obj k) fs a) w' →
  rtc guard_step (files fs, stored a) (files fs, stored (w_api w')) ∧ kept_up (history (w_api w')) ∧
  same_life (wk_read k) (w_obj w') ∧ held (wk_read k) (history (w_api w')).
Proof.
  intros Hk Hup (Hlife & He & _). cbn [w_obj w_api] in *.
  destruct (edits_evolve file guarded plain (files fs) _ _ _ He (history_stored a) Hup) as (m & Hm & Hg & Hup' & Hh).
  rewrite history_stored in Hm. injection Hm as <-. split; [done|]. split; [done|].
  split; [etransitivity; [by eapply ok_life|done]|]. by eapply Hh, ok_held.
Qed.

Lemma run_one_ok k f rest s :
  kept_up (history s.2) → work_ok k (files s.1) (history s.2) → wk_rest k = f :: rest →
  rtc guard_step (view s) (view (run_one k f rest s).2) ∧ kept_up (history (run_one k f rest s).2.2) ∧
  work_ok (run_one k f rest s).1 (files (run_one k f rest s).2.1) (history (run_one k f rest s).2.2).
Proof.
  intros Hup Hk Hrest. pose proof (λ w', contained_evolves k s.1 s.2 w' _ Hk Hup) as Hcont.
  destruct (work_file _ _ _ Hk) as [Hfile Hpw]. destruct Hk as [Hp Hid Hh Hsub Hst Hph].
  destruct s as [fs a]. unfold run_one. cbn [fst snd] in *. set (w := mkWorld (wk_obj k) fs a) in *.
  rewrite Hrest in Hsub, Hph. pose proof steps_safe as Hsafe. rewrite Forall_forall in Hsafe.
  assert (safe_step f) as Hf by (apply Hsafe, Hsub; by left).
  assert (rest ⊆ steps) as Hsub' by (intros g Hg; apply Hsub; by right).
  assert (dead (wk_obj k) ↔ dead (wk_read k)) as Hdead by (unfold dead; by destruct Hid as [_ ->]).
  destruct (guarded (wk_read k)) eqn:Hr, (guarded (wk_obj k)) eqn:Ho;
    [|by destruct Hph as (_ & ? & _)|done|destruct Hph as [Hfin [[=]|Hgated]]].
  - destruct Hph as [Hfin Hlast]. destruct (Hf w Hpw Ho) as [Hc Hend].
    destruct (Hcont _ Hc) as (Hg & Hup' & Hid' & Hst').
    assert (dead (wk_read k) → last_step f) as Hl by (intros Hd; destruct (Hlast Hd) as [|E]; [done|by apply (steps_last f rest)]).
    assert (dead (wk_read k) → stops (f w).1 = true ∧
      (files (w_fs (f w).2) !! file (wk_read k) = files fs !! file (wk_read k) ∨
       files (w_fs (f w).2) !! file (wk_read k) = None)) as Hd
      by (intros Hd; rewrite <-Hfile; by apply (Hl Hd w Hpw Ho), Hdead).
    destruct Hc as (_ & _ & Helse). change (file (w_obj w)) with (file (wk_obj k)) in Hend, Helse.
    change (w_obj w) with (wk_obj k) in Hend. change (w_fs w) with fs in Helse. rewrite Hfile in Hend, Helse.
    destruct (f w) as [r w']. cbn [fst snd] in *.
    split; [|split; [exact Hup'|split; cbn [wk_read wk_obj wk_rest]; rewrite ?Hr; try done]].
    + etransitivity; [exact Hg|]. apply rtc_once.
      eapply (guarded_files file guarded plain); [done|done|apply history_stored|done|apply Hd].
    + destruct (stops r); [apply list_subseteq_nil|done].
    + destruct Hend as [E|(Hd' & -> & -> & ?)]; [|by split; [apply Hdead|]]. rewrite (guarded_finalizers file guarded plain _ _ E), Ho.
      split; [congruence|]. intros [-> _]%Hd. by left.
  - assert (early_step f ∧ (stops (f w).1 = true ∨ gated rest)) as [Hearly Hnext]
      by (inversion Hgated as [? ? [He Hg]|]; subst; [split; [done|left; by apply Hg]|by auto]).
    destruct (Hearly w Hpw Ho) as (Hc & Hsame & Hend). destruct (Hcont _ Hc) as (Hg & Hup' & Hid' & Hst').
    destruct (f w) as [r w']. cbn [fst snd w_obj w_fs w_api] in *.
    split; [|split; [exact Hup'|split; cbn [wk_read wk_obj wk_rest]; rewrite ?Hr; try done]].
    + unfold object_view. cbn [fst snd]. by rewrite Hsame.
    + destruct (stops r); [apply list_subseteq_nil|done].
    + assert (guarded (w_obj w') = guarded (wk_obj k) ∨ guarded (w_obj w') = true ∧ stops r = true) as [E|[-> ->]];
        [|rewrite E, Ho|done].
      { destruct Hend as [E|E]; [left; by apply (guarded_finalizers file guarded plain)|by right]. }
      split; [destruct Hend as [E'|[E' _]]; [exact (eq_trans E' Hfin)|congruence]|].
      destruct (stops r); [by left|right]. by destruct Hnext.
Qed.

(** As long as there are steps left, the copy is guarded as the object was when it
    was read; and without guard the step leaves the files alone. *)
Lemma run_one_quiet k f rest s l :
  work_ok k (files s.1) l → wk_rest k = f :: rest →
  guarded (wk_obj k) = guarded (wk_read k) ∧
  (guarded (wk_read k) = false → files (run_one k f rest s).2.1 = files s.1).
Proof.
  intros Hk Hrest. destruct (work_file _ _ _ Hk) as [_ Hpw]. pose proof (ok_phase _ _ _ Hk) as Hph. rewrite Hrest in Hph.
  destruct (guarded (wk_read k)) eqn:Hr, (guarded (wk_obj k)) eqn:Ho; [done|by destruct Hph as (_ & ? & _)|done|].
  split; [done|]. intros _. destruct Hph as [_ [[=]|Hgated]]. destruct s as [fs a]. unfold run_one. cbn [fst snd].
  assert (early_step f) as Hearly by (inversion Hgated as [? ? [He _]|]; by subst).
  destruct (Hearly (mkWorld (wk_obj k) fs a) Hpw Ho) as (_ & Hf & _). by destruct (f (mkWorld (wk_obj k) fs a)).
Qed.

(** The patch at the end. *)
Lemma work_fair k fs l :
  work_ok k (files fs) l → fair_patch file guarded (files fs) (wk_read k) (wk_obj k).
Proof.
  intros [_ _ _ _ _ Hph]. unfold fair_patch. destruct (guarded (wk_read k)), (guarded (wk_obj k)); tauto.
Qed.
Lemma patch_ok k s r a' :
  kept_up (history s.2) → work_ok k (files s.1) (history s.2) →
  Patch (wk_helper k) (wk_obj k) s.2 = (r, a') →
  rtc guard_step (view s) (view (s.1, a')) ∧ kept_up (history a').
Proof.
  intros Hup Hk Hpatch. destruct s as [fs a]. cbn [fst snd] in *.
  pose proof (work_fair k fs _ Hk) as Hcase. destruct Hk as [_ [Hid _] [a0 Hh] _ Hst _].
  pose proof (history_patch _ _ _ _ _ _ _ Hh Hid Hpatch) as He.
  destruct (patch_evolves file guarded plain (files fs) _ _ _ _ _ Hcase He (history_stored a) Hup Hst)
    as (m & Hm & Hg & Hup').
  rewrite history_stored in Hm. injection Hm as <-. by split.
Qed.

Lemma worker_ok t s t' s' :
  thread_ok (t, s) → thread_step prepare steps (t, s) (t', s') →
  rtc guard_step (view s) (view s') ∧ thread_ok (t', s').
Proof.
  intros [Hw Ht] Hs. unfold thread_ok. cbn [fst snd] in *.
  inversion Hs as [ns n t1 s1 E1 E2|t1 s1 E1 E2]; subst; [|by split; [apply rtc_refl|]].
  unfold advance in *. destruct t as [k|].
  - destruct (wk_rest k) as [|f rest] eqn:Hrest.
    + injection E2 as <- <-. destruct (patch_ok k s _ _ Hw Ht (surjective_pairing _)) as [Hg Hk].
      by destruct s.
    + pose proof (run_one_ok k f rest s Hw Ht Hrest) as Hone.
      destruct (run_one k f rest s) as [k' s1]. by injection E2 as <- <-.
  - destruct (Get s.2 ns n) as [e|o] eqn:Hget; [by injection E2 as <- <-; split; [apply rtc_refl|]|].
    destruct (NewHelper s.2 (prepare o)) as [e|h] eqn:Hh; injection E2 as <- <-;
      (split; [apply rtc_refl|split; [done|]]); [done|by eapply begin_ok].
Qed.

Lemma threaded_ok ts ts' :
  thread_ok ts → threaded_step ts ts' → rtc guard_step (view ts.2) (view ts'.2) ∧ thread_ok ts'.
Proof.
  intros Hok Hs. destruct Hs as [t s t' s' Hs|t fs a a' Hu|t fs fs' a a' Hv Ha]; [by apply (worker_ok t s t' s')|..].
  - destruct Hok as [Hw Ht]. unfold thread_ok. cbn [fst snd] in *.
    destruct (users_evolve file guarded plain (files fs) _ _ _ Hu (history_stored a) Hw) as (m & Hm & Hg & Hw' & Hh).
    rewrite history_stored in Hm. injection Hm as <-. split; [done|split; [done|]].
    destruct t as [k|]; [|done]. by eapply work_held.
  - destruct Hok as [Hw Ht]. unfold object_view, thread_ok. cbn [fst snd] in *.
    assert (stored a' = stored a) as Ha' by (apply (inj Some); by rewrite <-!history_stored, Ha).
    rewrite Ha, Ha'. split.
    + apply rtc_once, guard_others. intros x (o & Ho & ->). left. by apply Hv.
    + split; [done|]. destruct t as [k|]; [|done]. destruct Ht as [Hp Hid Hh Hsub Hst Hph].
      split; [done..|]. by rewrite Hv.
Qed.

(** What every step and the patch keep, the worker keeps. *)
Lemma worker_frame (R : relation (Fs * A)) `{!Reflexive R} t s t' s' :
  (∀ f w, f ∈ steps → plain (w_obj w) → R (w_fs w, w_api w) (w_fs (f w).2, w_api (f w).2)) →
  (∀ h o fs a, R (fs, a) (fs, (Patch h o a).2)) →
  thread_ok (t, s) → thread_step prepare steps (t, s) (t', s') → R s s'.
Proof.
  intros Hf Hpatch [_ Ht] Hs. cbn [fst snd] in *.
  inversion Hs as [ns n t1 s1 E1 E2|t1 s1 E1 E2]; subst; [|done]. unfold advance in E2. destruct t as [k|].
  - destruct (wk_rest k) as [|f rest] eqn:Hrest; [injection E2 as <- <-; destruct s; apply Hpatch|].
    assert (f ∈ steps) as Hin by (apply (ok_rest _ _ _ Ht); rewrite Hrest; by left).
    destruct (work_file _ _ _ Ht) as [_ Hp].
    specialize (Hf f (mkWorld (wk_obj k) s.1 s.2) Hin Hp). unfold run_one in E2.
    destruct (f (mkWorld (wk_obj k) s.1 s.2)) as [r w']. injection E2 as <- <-.
    cbn [w_fs w_api fst snd] in Hf. by destruct s.
  - repeat case_match; by injection E2 as <- <-.
Qed.

(** In a state that is reached, every file of an object has its object, guarded. *)
Lemma threaded_owned s0 ts :
  history s0.2 = [∅] → (∀ o, plain o → files s0.1 !! file o = None) → rtc threaded_step (None, s0) ts →
  thread_ok ts ∧
  ∀ o0, plain o0 → is_Some (files ts.2.1 !! file o0) →
    ∃ o, stored ts.2.2 !! object_key o = Some o ∧ plain o ∧ file o = file o0 ∧ guarded o = true.
Proof.
  intros Hempty Hf Hr.
  assert (stored s0.2 = ∅) as Hnone by (pose proof (history_stored s0.2) as E; rewrite Hempty in E; by injection E).
  assert (thread_ok (None, s0)) as Hok by (split; [cbn [snd]; rewrite Hempty; apply kept_up_start|done]).
  assert (∀ ts0, thread_ok ts0 → rtc threaded_step ts0 ts → rtc guard_step (view ts0.2) (view ts.2) ∧ thread_ok ts)
    as Hall.
  { clear Hempty Hnone Hf Hr Hok. intros ts0 Hok Hr.
    induction Hr as [|ts1 ts2 ts3 Hs _ IH]; [by split; [apply rtc_refl|]|].
    destruct (threaded_ok _ _ Hok Hs) as [Hg Hok2]. destruct (IH Hok2) as [Hg' Hok3].
    split; [by etransitivity|done]. }
  destruct (Hall _ Hok Hr) as [Hg Hok']. split; [done|]. intros o0 Ho0 Hin.
  destruct (guard_reached file guarded (object_file file plain) (view s0) (view ts.2)) as [_ Ho]; [| |done|].
  - intros k1 k2 o1 o2 Ho1. cbn [object_view snd] in Ho1. by rewrite Hnone, lookup_empty in Ho1.
  - intros x (o & Ho & ->) [y Hy]. cbn [object_view fst] in Hy. by rewrite Hf in Hy.
  - destruct (Ho (file o0)) as (k & o & Hk & Hfile & Hguard); [by exists o0|done|].
    destruct Hok' as [Hup _]. cbn [object_view snd] in Hk.
    destruct (kept_up_stored _ _ _ _ Hup (history_stored _) _ _ Hk) as [-> Hp]. by exists o.
Qed.
End ThreadSystem.
