(* ===== verification/System.v ===== *)
(** The life of the physical measurements of a cluster: users create, edit and
    delete them, the controller reconciles them one at a time, the other
    controllers write to the same volume.  Two step relations over the volume and
    the API, and what holds in every state they reach: [open_step], whose users do
    as they like with the types of measurements in any number of namespaces, as long
    as no two measurements have one target file at one time, and [step], whose users
    keep to one namespace and to the types. *)
From S2P Require Import Prelude GoStd Errors Paths FileStore Configuration ApiTypes Steps Cluster.
From S2P Require Import PhysicalMeasurement PhysicalMeasurementController Guard.

(** ** The API server *)
Abbreviation store := (gmap (string * string) PhysicalMeasurement).

(** Names are those of files. *)
Definition plain_measurement (p : PhysicalMeasurement) : Prop := filepath.slash ∉ chars (pm_Name p).

Definition key (p : PhysicalMeasurement) : string * string :=
  (Namespace (pm_Meta p), pm_Name p).

(** What a patch from [p] to [p'] makes of the stored object.  Metadata and
    conditions are patched by requests of their own, so that when one of them
    fails the other may have happened.  An object being deleted is removed with
    its last finalizer. *)
Inductive patch_result (p p' : PhysicalMeasurement) : option PhysicalMeasurement → Prop :=
| patch_kept q :
    pm_Spec q = pm_Spec p →
    set_Finalizers [] (pm_Meta q) = set_Finalizers [] (pm_Meta p) →
    Finalizers (pm_Meta q) = Finalizers (pm_Meta p) ∨ Finalizers (pm_Meta q) = Finalizers (pm_Meta p') →
    GetConditions q = GetConditions p ∨ GetConditions q = GetConditions p' →
    patch_result p p' (Some q)
| patch_removed :
    DeletionTimestamp (pm_Meta p) ≠ None → Finalizers (pm_Meta p') = [] →
    patch_result p p' None.

(** Reads are of the stored object, and a patch changes nothing else. *)
Class PmServer (A : Type) `{Getter A PhysicalMeasurement, Patcher A PhysicalMeasurement}
    (stored : A → store) : Prop := {
  get_stored a ns n p : Get a ns n = inr p → stored a !! (ns, n) = Some p;
  patch_stored a p p' h r a' :
    NewHelper a p = inr h → stored a !! key p = Some p → same_object p p' →
    Patch h p' a = (r, a') →
    ∃ o, patch_result p p' o ∧ stored a' = partial_alter (λ _, o) (key p) (stored a)
}.

(** ** Users

    The server counts generations: an edit of the spec starts a new one.  An edit
    keeps the type: the file of the former type would not be removed. *)
Inductive user (watched : string → Prop) (m : store) : store → Prop :=
| user_create p :
    m !! key p = None → watched (Namespace (pm_Meta p)) → filepath.slash ∉ chars (pm_Name p) →
    Finalizers (pm_Meta p) = [] → GetConditions p = [] → DeletionTimestamp (pm_Meta p) = None →
    user watched m (<[key p := p]> m)
| user_edit k p q :
    m !! k = Some p → key q = key p → UID (pm_Meta q) = UID (pm_Meta p) →
    pm_Type (pm_Spec q) = pm_Type (pm_Spec p) →
    (Generation (pm_Meta p) < Generation (pm_Meta q))%Z →
    Finalizers (pm_Meta q) = Finalizers (pm_Meta p) → GetConditions q = GetConditions p →
    DeletionTimestamp (pm_Meta q) = DeletionTimestamp (pm_Meta p) →
    user watched m (<[k := q]> m)
| user_delete k p q :
    m !! k = Some p → key q = key p → UID (pm_Meta q) = UID (pm_Meta p) → pm_Spec q = pm_Spec p →
    (Generation (pm_Meta p) < Generation (pm_Meta q))%Z →
    Finalizers (pm_Meta q) = Finalizers (pm_Meta p) → GetConditions q = GetConditions p →
    DeletionTimestamp (pm_Meta q) ≠ None →
    user watched m (<[k := q]> m)
| user_purge k p :
    m !! k = Some p → Finalizers (pm_Meta p) = [] →
    user watched m (delete k m).

(** Users of any number of namespaces, who may also edit the type. *)
Inductive open_user (m : store) : store → Prop :=
| open_create p :
    m !! key p = None → filepath.slash ∉ chars (pm_Name p) →
    GetConditions p = [] → DeletionTimestamp (pm_Meta p) = None →
    open_user m (<[key p := p]> m)
| open_edit k p q :
    m !! k = Some p → key q = key p →
    (Generation (pm_Meta p) < Generation (pm_Meta q))%Z → GetConditions q = GetConditions p →
    open_user m (<[k := q]> m)
| open_purge k p :
    m !! k = Some p → Finalizers (pm_Meta p) = [] →
    open_user m (delete k m).

Lemma user_open watched m m' : user watched m m' → open_user m m'.
Proof.
  destruct 1 as [p Hn Hw Hs Hf Hc Hd|k p q Hp Hk Hu Ht Hg Hf Hc Hd|k p q Hp Hk Hu Ht Hg Hf Hc Hd|k p Hp Hf].
  - by apply open_create.
  - by eapply open_edit.
  - by eapply open_edit.
  - by eapply open_purge.
Qed.

(** No two measurements that are stored at one time have one target file. *)
Definition targets_apart (env : validatedEnv) (m : store) : Prop :=
  ∀ k1 k2 p1 p2, m !! k1 = Some p1 → m !! k2 = Some p2 → target_path env p1 = target_path env p2 → k1 = k2.

Lemma apart_NoDup (env : validatedEnv) (m : store) :
  NoDup ((λ kp : (string * string) * PhysicalMeasurement, target_path env kp.2) <$> map_to_list m) → targets_apart env m.
Proof.
  intros Hnd k1 k2 p1 p2 Hp1%elem_of_map_to_list Hp2%elem_of_map_to_list E.
  apply list_elem_of_lookup in Hp1 as [i Hi]. apply list_elem_of_lookup in Hp2 as [j Hj].
  enough (i = j) as -> by congruence.
  apply (NoDup_lookup _ i j (target_path env p1) Hnd).
  - rewrite list_lookup_fmap, Hi. reflexivity.
  - rewrite list_lookup_fmap, Hj, E. reflexivity.
Qed.

Section System.
Context {A : Type} `{UnicodeTables, MetaConditionsLaws, FinalizerUtilLaws, Os, RenameioLaws,
  Getter A MeasurementDevice}.
Context `{PmServer A stored}.
Context (env : validatedEnv) (watched : string → Prop).
Implicit Types (p q : PhysicalMeasurement) (s : Fs * A).

(** One step of the open system: users keep the targets apart, and that is all. *)
Inductive open_step : Fs * A → Fs * A → Prop :=
| open_reconcile ns n s out s' :
    Reconcile env ns n s = (out, s') → open_step s s'
| open_users fs a a' :
    open_user (stored a) (stored a') → targets_apart env (stored a') → open_step (fs, a) (fs, a')
| open_volume fs fs' a a' :
    (∀ p, filepath.slash ∉ chars (pm_Name p) →
       files fs' !! target_path env p = files fs !! target_path env p) →
    stored a' = stored a →
    open_step (fs, a) (fs', a').

(** One step of the system.  [step_volume] is what others do to the volume, and to
    objects of other kinds: they leave the target files and the measurements alone. *)
Inductive step : Fs * A → Fs * A → Prop :=
| step_reconcile ns n s out s' :
    Reconcile env ns n s = (out, s') → step s s'
| step_user fs a a' :
    user watched (stored a) (stored a') → step (fs, a) (fs, a')
| step_volume fs fs' a a' :
    (∀ p, filepath.slash ∉ chars (pm_Name p) →
       files fs' !! target_path env p = files fs !! target_path env p) →
    stored a' = stored a →
    step (fs, a) (fs', a').

(** ** What a pass makes of the conditions *)

Lemma dated_finalizers f : frame dated (with_obj (A := A) (update_finalizers f)).
Proof. by apply dated_with_obj. Qed.
Hint Resolve dated_finalizers : go.

Lemma dated_steps : Forall (frame dated) (reconcile_steps env).
Proof.
  unfold reconcile_steps. rewrite !Forall_cons, Forall_nil. split_and!; [..|done].
  - unfold reconcileDeletion. frame_auto.
  - unfold ensureFinalizerIsSet. frame_auto.
  - unfold reconcileValidation. frame_auto.
  - unfold reconcileTargetFile, writeTargetFile. frame_auto.
  - unfold reconcileReady. frame_auto.
Qed.

(** ** What a reconcile does to the system *)

(** The effect of a pass on the files, by the finalizer before and after. *)
Definition effect p (fin fin' : bool) (ready : option ConditionStatus)
    (fs fs' : gmap string string) : Prop :=
  (fs' = fs ∨ (fin = true ∧ fin' = true ∧ fs' = <[target_path env p := target_data p]> fs) ∨
   (DeletionTimestamp (pm_Meta p) ≠ None ∧ fs' = delete (target_path env p) fs)) ∧
  (fin = true → fin' = false → fs' = delete (target_path env p) fs) ∧
  (ready = Some ConditionTrue → fs' !! target_path env p = Some (target_data p)).

Lemma pass_effect p dep fin fs r res fin' fs' r' :
  pass env p dep (mkView fin fs r) res (mkView fin' fs' r') → effect p fin fin' r' fs fs'.
Proof.
  intros Hp. inversion Hp; subst; unfold effect;
    (split; [auto|split; [done|]]); try (by intros [=]).
  intros _. apply lookup_insert_eq.
Qed.

Definition keyed (m : store) : Prop := ∀ k p, m !! k = Some p → k = key p.

Lemma Reconcile_effect ns n s out s' :
  keyed (stored s.2) → Reconcile env ns n s = (out, s') →
  s' = s ∨
  ∃ p p' o, stored s.2 !! key p = Some p ∧ same_object p p' ∧ patch_result p p' o ∧
    stored s'.2 = partial_alter (λ _, o) (key p) (stored s.2) ∧
    effect p (has_finalizer p) (has_finalizer p') (condition_status ConditionReady p')
      (files s.1) (files s'.1) ∧
    (∀ c, ready_condition p' = Some c → cond_ObservedGeneration c = Generation (pm_Meta p)).
Proof.
  intros Hk [->|(p & h & o & w' & Hget & Hh & Hrun & ->)]%reconcile_with_inv; [by left|].
  destruct s as [fs a]. cbn [fst snd] in *.
  apply get_stored in Hget. pose proof (Hk _ _ Hget) as Hkp. rewrite Hkp in Hget.
  set (w := mkWorld p fs a) in *.
  destruct (run_steps_refines env w) as ([res [Hres Hpass]] & Hsame & Hapi).
  pose proof (λ c, dated_run_steps _ w c dated_steps) as Hdate.
  rewrite Hrun in *. cbn [fst snd] in *. rewrite Hapi.
  destruct (patch_stored a p (w_obj w') h _ _ Hh Hget Hsame (surjective_pairing _)) as (q & Hq & Hst).
  right. exists p, (w_obj w'), q. split; [done|]. split; [done|]. split; [done|]. split; [done|].
  split; [by eapply pass_effect|]. exact Hdate.
Qed.

(** ** The invariant *)
Record open_inv s : Prop := mkOpenInv {
  open_key k p : stored s.2 !! k = Some p → k = key p ∧ filepath.slash ∉ chars (pm_Name p);
  open_apart : targets_apart env (stored s.2);
  open_dated k p c : stored s.2 !! k = Some p → ready_condition p = Some c →
    cond_Status c = ConditionTrue → (cond_ObservedGeneration c ≤ Generation (pm_Meta p))%Z;
  open_published k p : stored s.2 !! k = Some p → DeletionTimestamp (pm_Meta p) = None →
    ready_now p → files s.1 !! target_path env p = Some (target_data p)
}.

Lemma open_keyed s : open_inv s → keyed (stored s.2).
Proof. intros Hi k p Hp. by destruct (open_key s Hi k p Hp). Qed.

(** A stored object after a patch is the object it was, but for its finalizers
    and conditions. *)
Lemma patch_same p p' q :
  patch_result p p' (Some q) → same_object p q ∧ key q = key p ∧
  Generation (pm_Meta q) = Generation (pm_Meta p).
Proof.
  intros Hp. inversion Hp as [q' Hs Hm Hf Hc|]; subst. split; [done|].
  unfold key, pm_Name. unfold set_Finalizers in Hm. injection Hm as Hn Hns Hu Hg Hd.
  by rewrite Hn, Hns, Hg.
Qed.

Lemma effect_elsewhere p fin fin' r fs fs' x :
  effect p fin fin' r fs fs' → x ≠ target_path env p → fs' !! x = fs !! x.
Proof.
  intros ([->|[(_ & _ & ->)|(_ & ->)]] & _) Hx; [done| |];
    by rewrite ?lookup_insert_ne, ?lookup_delete_ne by done.
Qed.

Lemma patch_lookup p p' (o : option PhysicalMeasurement) (m m' : store) (k : string * string) q :
  m' = partial_alter (λ _, o) (key p) m → patch_result p p' o → m' !! k = Some q →
  (k = key p ∧ patch_result p p' (Some q)) ∨ (k ≠ key p ∧ m !! k = Some q).
Proof.
  intros -> Ho. destruct (decide (k = key p)) as [->|Hne].
  - rewrite lookup_partial_alter_eq. intros ->. by left.
  - rewrite lookup_partial_alter_ne by done. by right.
Qed.

Lemma open_inv_reconcile ns n s out s' :
  open_inv s → Reconcile env ns n s = (out, s') → open_inv s'.
Proof.
  intros Hi Hr. destruct (Reconcile_effect _ _ _ _ _ (open_keyed s Hi) Hr)
    as [->|(p & p' & o & Hp & Hsame & Hpr & Hst & He & Hdate)]; [done|].
  pose proof (λ k q, patch_lookup p p' o _ _ k q Hst Hpr) as Hcase.
  destruct (open_key s Hi _ _ Hp) as (_ & Hsp).
  assert (∀ k q, stored s'.2 !! k = Some q →
    ∃ q0, stored s.2 !! k = Some q0 ∧ target_path env q0 = target_path env q) as Hold.
  { intros k q [[-> Hq]|[_ Hq]]%Hcase; [|by exists q]. exists p. split; [done|].
    destruct (patch_same _ _ _ Hq) as (Hobj & _). by destruct (same_object_target env _ _ Hobj). }
  split.
  - intros k q [[-> Hq]|[_ Hq]]%Hcase; [|by apply (open_key s Hi)].
    destruct (patch_same _ _ _ Hq) as (_ & Hk & _). rewrite Hk. split; [done|].
    unfold key in Hk. by injection Hk as _ ->.
  - intros k1 k2 p1 p2 (q1 & Hq1 & E1)%Hold (q2 & Hq2 & E2)%Hold E.
    apply (open_apart s Hi k1 k2 q1 q2); congruence.
  - intros k q c [[-> Hq]|[_ Hq]]%Hcase Hc Ht; [|by eapply (open_dated s Hi)].
    destruct (patch_same _ _ _ Hq) as (_ & _ & ->). inversion Hq as [q' _ _ _ [E|E]|]; subst;
      unfold ready_condition in Hc; rewrite E in Hc.
    + by eapply (open_dated s Hi).
    + by rewrite (Hdate c Hc).
  - intros k q [[-> Hq]|[Hne Hq]]%Hcase Hlive Hready.
    + destruct (patch_same _ _ _ Hq) as (Hobj & _ & Hgen).
      destruct (same_object_target env _ _ Hobj) as (-> & -> & _ & Hd & _).
      rewrite Hd in Hlive. destruct Hready as (c & Hc & Htrue & Hg). simpl in Hg. rewrite Hgen in Hg.
      inversion Hq as [q' _ _ _ [E|E]|]; subst; unfold ready_condition in Hc; rewrite E in Hc.
      * assert (files s.1 !! target_path env p = Some (target_data p)) as Hf
          by (apply (open_published s Hi (key p)); [done..|by exists c]).
        destruct He as ([->|[(_ & _ & ->)|[? _]]] & _); [done|apply lookup_insert_eq|done].
      * apply He. unfold condition_status. unfold ready_condition in Hc. rewrite Hc. simpl. congruence.
    + rewrite (effect_elsewhere _ _ _ _ _ _ _ He); [by eapply (open_published s Hi)|].
      intros E. apply Hne. by eapply (open_apart s Hi).
Qed.

Lemma open_inv_user fs a a' :
  open_inv (fs, a) → open_user (stored a) (stored a') → targets_apart env (stored a') → open_inv (fs, a').
Proof.
  intros Hi Hu Hapart.
  assert (∀ k q, stored a' !! k = Some q →
    stored a !! k = Some q ∨
    (k = key q ∧ filepath.slash ∉ chars (pm_Name q) ∧
     (∀ c, ready_condition q = Some c → cond_Status c = ConditionTrue →
        (cond_ObservedGeneration c < Generation (pm_Meta q))%Z))) as Hnew.
  { intros k q. destruct Hu as [p Hn Hs Hc Hd|k0 p q0 Hp Hk Hg Hc|k0 p Hp Hf].
    all: match goal with
         | |- <[?k1 := _]> _ !! _ = _ → _ => destruct (decide (k = k1)) as [->|Hne]
         | |- delete ?k1 _ !! _ = _ → _ => destruct (decide (k = k1)) as [->|Hne]
         end.
    all: rewrite ?lookup_insert_eq, ?lookup_delete_eq, ?lookup_insert_ne, ?lookup_delete_ne by done; auto;
      try done; intros [= <-]; right.
    - split_and!; [done..|]. intros c. unfold ready_condition. by rewrite Hc, find_nil.
    - destruct (open_key _ Hi _ _ Hp) as (-> & Hs). rewrite Hk. split_and!; [done| |].
      + unfold key in Hk. injection Hk as E1 E2. congruence.
      + intros c Hrc Htrue. unfold ready_condition in Hrc. rewrite Hc in Hrc.
        pose proof (open_dated _ Hi _ _ c Hp Hrc Htrue). lia. }
  split; cbn [fst snd].
  - intros k q [Hq|Hq]%Hnew; [by apply (open_key _ Hi)|tauto].
  - done.
  - intros k q c [Hq|(_ & _ & Hq)]%Hnew Hc; [by eapply (open_dated _ Hi)|].
    intros Ht. by apply Z.lt_le_incl, Hq.
  - intros k q [Hq|(_ & _ & Hq)]%Hnew Hl Hr; [by apply (open_published _ Hi k)|].
    destruct Hr as (c & Hc & Ht & Hg). specialize (Hq c Hc Ht). simpl in Hg. lia.
Qed.

Lemma open_inv_step s s' : open_inv s → open_step s s' → open_inv s'.
Proof.
  intros Hi Hs. destruct Hs as [ns n s out s' Hr|fs a a' Hu Ha|fs fs' a a' Hv Ha].
  - by eapply open_inv_reconcile.
  - by eapply open_inv_user.
  - split; unfold targets_apart; cbn [fst snd]; rewrite ?Ha.
    + apply (open_key _ Hi).
    + apply (open_apart _ Hi).
    + apply (open_dated _ Hi).
    + intros k p Hp Hl Hr. rewrite Hv by (by destruct (open_key _ Hi _ _ Hp) as (_ & ?)).
      by apply (open_published _ Hi k).
Qed.

Lemma open_inv_empty s : stored s.2 = ∅ → open_inv s.
Proof. intros Hs. split; [intros k p|intros k1 k2 p1 p2|intros k p c|intros k p]; rewrite Hs, lookup_empty; done. Qed.

Lemma open_inv_reached s0 s : stored s0.2 = ∅ → rtc open_step s0 s → open_inv s.
Proof.
  intros H0'%open_inv_empty Hr. induction Hr as [|s1 s2 s3 Hs _ IH]; [done|]. by eapply IH, open_inv_step.
Qed.

(** ** One namespace

    What users may do there keeps the targets apart. *)
Definition all_watched (m : store) : Prop := ∀ k p, m !! k = Some p → watched (Namespace (pm_Meta p)).
Definition inv s : Prop := open_inv s ∧ all_watched (stored s.2).

Lemma inv_key s : inv s → ∀ k p, stored s.2 !! k = Some p →
  k = key p ∧ watched (Namespace (pm_Meta p)) ∧ filepath.slash ∉ chars (pm_Name p).
Proof. intros [Hi Hw] k p Hp. destruct (open_key s Hi k p Hp). split_and!; [done|by eapply Hw|done]. Qed.
Lemma inv_dated s : inv s → ∀ k p c, stored s.2 !! k = Some p → ready_condition p = Some c →
  cond_Status c = ConditionTrue → (cond_ObservedGeneration c ≤ Generation (pm_Meta p))%Z.
Proof. intros [Hi _]. apply (open_dated s Hi). Qed.
Lemma inv_published s : inv s → ∀ k p, stored s.2 !! k = Some p → DeletionTimestamp (pm_Meta p) = None →
  ready_now p → files s.1 !! target_path env p = Some (target_data p).
Proof. intros [Hi _]. apply (open_published s Hi). Qed.
Lemma inv_keyed s : inv s → keyed (stored s.2).
Proof. intros [Hi _]. by apply open_keyed. Qed.

Lemma inv_empty s : stored s.2 = ∅ → inv s.
Proof. intros Hs. split; [by apply open_inv_empty|]. intros k p. by rewrite Hs, lookup_empty. Qed.

(** Two stored measurements with one target file are one. *)
Lemma target_unique s k1 k2 p1 p2 :
  inv s → stored s.2 !! k1 = Some p1 → stored s.2 !! k2 = Some p2 →
  target_path env p1 = target_path env p2 → k1 = k2.
Proof. intros [Hi _]. apply (open_apart s Hi). Qed.

Context (Hone : ∀ ns ns', watched ns → watched ns' → ns = ns').

Lemma one_namespace_apart (m : store) :
  all_watched m → (∀ k p, m !! k = Some p → k = key p ∧ filepath.slash ∉ chars (pm_Name p)) → targets_apart env m.
Proof.
  intros Hw Hk k1 k2 p1 p2 Hp1 Hp2 E. destruct (Hk _ _ Hp1) as (-> & Hs1), (Hk _ _ Hp2) as (-> & Hs2).
  apply target_path_inj in E as [E _]; [|done..]. unfold key. by rewrite E, (Hone _ _ (Hw _ _ Hp1) (Hw _ _ Hp2)).
Qed.

Lemma inv_intro s :
  (∀ k p, stored s.2 !! k = Some p →
    k = key p ∧ watched (Namespace (pm_Meta p)) ∧ filepath.slash ∉ chars (pm_Name p)) →
  (∀ k p c, stored s.2 !! k = Some p → ready_condition p = Some c →
    cond_Status c = ConditionTrue → (cond_ObservedGeneration c ≤ Generation (pm_Meta p))%Z) →
  (∀ k p, stored s.2 !! k = Some p → DeletionTimestamp (pm_Meta p) = None →
    ready_now p → files s.1 !! target_path env p = Some (target_data p)) → inv s.
Proof.
  intros Hk Hd Hp. assert (all_watched (stored s.2)) as Hw by (intros k p Hs; by destruct (Hk k p Hs) as (_ & ? & _)).
  assert (∀ k p, stored s.2 !! k = Some p → k = key p ∧ filepath.slash ∉ chars (pm_Name p)) as Hk'
    by (intros k p Hs; by destruct (Hk k p Hs) as (? & _ & ?)).
  split; [|done]. split; [done|by apply one_namespace_apart|done|done].
Qed.

(** Users keep to the namespace and to the names of files. *)
Lemma user_plain (m m' : store) :
  (∀ k p, m !! k = Some p → k = key p ∧ filepath.slash ∉ chars (pm_Name p)) → all_watched m →
  user watched m m' →
  all_watched m' ∧ ∀ k p, m' !! k = Some p → k = key p ∧ filepath.slash ∉ chars (pm_Name p).
Proof.
  intros Hk Hw Hu.
  enough (∀ k q, m' !! k = Some q →
    m !! k = Some q ∨ (k = key q ∧ watched (Namespace (pm_Meta q)) ∧ filepath.slash ∉ chars (pm_Name q))) as Hnew.
  { split; [intros k q [Hq|?]%Hnew|intros k q [Hq|?]%Hnew]; [by eapply Hw|tauto|by apply Hk|tauto]. }
  assert (∀ k0 p q, m !! k0 = Some p → key q = key p →
    k0 = key q ∧ watched (Namespace (pm_Meta q)) ∧ filepath.slash ∉ chars (pm_Name q)) as Hedit.
  { intros k0 p q Hp E. destruct (Hk _ _ Hp) as [-> Hs]. pose proof (Hw _ _ Hp) as Hwp. split; [done|].
    unfold key in E. by injection E as -> ->. }
  intros k q. destruct Hu as [p Hn Hwp Hs _ _ _|k0 p q0 Hp Hkq _ _ _ _ _ _|k0 p q0 Hp Hkq _ _ _ _ _ _|k0 p Hp Hf].
  1-3: rewrite lookup_insert; case_decide; [intros [= <-]; right; subst|intros ?; by left].
  - by split_and!.
  - by eapply Hedit.
  - by eapply Hedit.
  - rewrite lookup_delete. case_decide; [done|intros ?; by left].
Qed.

Lemma inv_user fs a a' : inv (fs, a) → user watched (stored a) (stored a') → inv (fs, a').
Proof.
  intros [Hi Hw] Hu. destruct (user_plain _ _ (open_key _ Hi) Hw Hu) as [Hw' Hk']. split; [|done].
  eapply open_inv_user; [exact Hi|by eapply user_open|by apply one_namespace_apart].
Qed.

(** The steps are steps of the open system. *)
Lemma step_open s s' : inv s → step s s' → open_step s s' ∧ all_watched (stored s'.2).
Proof.
  intros [Hi Hw] Hs. destruct Hs as [ns n s out s' Hr|fs a a' Hu|fs fs' a a' Hv Ha]; cbn [snd] in *.
  - split; [by eapply open_reconcile|]. destruct (Reconcile_effect _ _ _ _ _ (open_keyed s Hi) Hr)
      as [->|(p & p' & o & Hp & _ & Hpr & Hst & _)]; [done|].
    intros k q [[-> Hq]|[_ Hq]]%(patch_lookup p p' o _ _ k q Hst Hpr); [|by eapply Hw].
    destruct (patch_same _ _ _ Hq) as (_ & Hk & _). pose proof (Hw _ _ Hp) as Hwp. unfold key in Hk. by injection Hk as -> _.
  - destruct (user_plain _ _ (open_key _ Hi) Hw Hu) as [Hw' Hk']. split; [|done].
    apply open_users; [by eapply user_open|by apply one_namespace_apart].
  - rewrite Ha. split; [by apply open_volume|done].
Qed.

Lemma inv_step s s' : inv s → step s s' → inv s'.
Proof.
  intros Hi Hs. destruct (step_open s s' Hi Hs) as [Ho Hw]. split; [|done]. by eapply open_inv_step; [apply Hi|].
Qed.

(** ** No target file without its measurement

    The system follows the protocol of [Guard]: the finalizer guards the target
    file. *)
Definition target_file (x : string) : Prop := ∃ p, filepath.slash ∉ chars (pm_Name p) ∧ x = target_path env p.
Abbreviation guard_step := (guard_step (K := string * string) (target_path env) has_finalizer target_file).
Definition guard_view s : gmap string string * store := (files s.1, stored s.2).

Lemma target_path_same p q :
  pm_Name q = pm_Name p → pm_Type (pm_Spec q) = pm_Type (pm_Spec p) →
  target_path env q = target_path env p.
Proof. intros Hn Ht. unfold target_path, getTargetFileSubdir. by rewrite Hn, Ht. Qed.

Lemma inv_unshared s : inv s → unshared (target_path env) (guard_view s).
Proof. intros Hi k1 k2 p1 p2 Hp1 Hp2 E. by eapply (target_unique s). Qed.

Lemma reconcile_guard ns n s out s' :
  inv s → Reconcile env ns n s = (out, s') → guard_step (guard_view s) (guard_view s').
Proof.
  intros Hi Hr. destruct (Reconcile_effect _ _ _ _ _ (inv_keyed s Hi) Hr)
    as [->|(p & p' & o & Hp & Hsame & Hpr & Hst & He & _)]; [by apply guard_others; left|].
  unfold guard_view. rewrite Hst. apply guard_pass with (v := p); [done| | |].
  - intros x _ Hx. by apply (effect_elsewhere _ _ _ _ _ _ _ He).
  - intros q ->. destruct (patch_same _ _ _ Hpr) as (Hq & _). by destruct (same_object_target env p q Hq).
  - destruct He as (Hfs & Hgone & _). intros Hin. destruct (has_finalizer p) eqn:Hf.
    + destruct (has_finalizer p') eqn:Hf'.
      * destruct Hpr as [q _ _ Hq _|_ Hno].
        -- exists q. split; [done|]. unfold has_finalizer in *. by destruct Hq as [-> | ->].
        -- unfold has_finalizer in Hf'. rewrite Hno in Hf'.
           by apply contains_finalizer, not_elem_of_nil in Hf'.
      * rewrite Hgone, lookup_delete_eq in Hin by done. by destruct Hin.
    + destruct Hfs as [E|[(? & _)|(_ & E)]]; [by rewrite E in Hin|done|].
      rewrite E, lookup_delete_eq in Hin. by destruct Hin.
Qed.

Lemma user_guard fs a a' :
  inv (fs, a) → user watched (stored a) (stored a') → guard_step (guard_view (fs, a)) (guard_view (fs, a')).
Proof.
  intros Hi Hu. unfold guard_view. cbn [fst snd].
  assert (∀ k p q, stored a !! k = Some p → key q = key p → pm_Type (pm_Spec q) = pm_Type (pm_Spec p) →
    Finalizers (pm_Meta q) = Finalizers (pm_Meta p) →
    guard_step (files fs, stored a) (files fs, <[k := q]> (stored a))) as Hedit.
  { intros k p q Hp Hk Ht Hf. apply guard_edit with (v := p); [done| |].
    - apply target_path_same; [|done]. unfold key in Hk. by injection Hk.
    - unfold has_finalizer. by rewrite Hf. }
  destruct Hu as [p Hn Hw Hs _ _ _|k p q Hp Hkq _ Ht _ Hf _ _|k p q Hp Hkq _ Ht _ Hf _ _|k p Hp Hf].
  - apply guard_create; [done|]. intros k q Hq E.
    destruct (inv_key _ Hi _ _ Hq) as (-> & Hwq & Hsq). apply target_path_inj in E as [E _]; [|done..].
    assert (key q = key p) as Hk by (unfold key; by rewrite E, (Hone _ _ Hwq Hw)).
    cbn [snd] in Hq. congruence.
  - by apply (Hedit k p).
  - apply (Hedit k p); [done|done|by rewrite Ht|done].
  - apply guard_drop with (v := p); [done|]. unfold has_finalizer. rewrite Hf. apply not_true_is_false.
    intros Hc. by apply contains_finalizer, not_elem_of_nil in Hc.
Qed.

Lemma step_guard s s' : inv s → step s s' → guard_step (guard_view s) (guard_view s').
Proof.
  intros Hi Hs. destruct Hs as [ns n s out s' Hr|fs a a' Hu|fs fs' a a' Hv Ha].
  - by eapply reconcile_guard.
  - by apply user_guard.
  - unfold guard_view. cbn [fst snd]. rewrite Ha. apply guard_others. intros x (p & Hp & ->). left. by apply Hv.
Qed.

(** ** Every state that is reached *)
Lemma inv_reached s0 s : stored s0.2 = ∅ → rtc step s0 s → inv s.
Proof.
  intros H0'%inv_empty Hr. induction Hr as [|s1 s2 s3 Hs _ IH]; [done|]. apply IH. by eapply inv_step.
Qed.

Lemma owned_reached s0 s :
  stored s0.2 = ∅ →
  (∀ p, filepath.slash ∉ chars (pm_Name p) → files s0.1 !! target_path env p = None) →
  rtc step s0 s → owned (target_path env) has_finalizer target_file (guard_view s).
Proof.
  intros H0' Hf Hr. assert (inv s0) as Hi by (by eapply inv_reached; [|apply rtc_refl]).
  apply (guard_reached _ _ _ (guard_view s0)); [by apply inv_unshared| |].
  - intros x (p & Hp & ->) [y Hy]. cbn [guard_view fst] in Hy. by rewrite Hf in Hy.
  - clear H0' Hf. induction Hr as [|s1 s2 s3 Hs _ IH]; [done|].
    eapply rtc_l; [by apply step_guard|]. apply IH. by eapply inv_step.
Qed.
End System.

Section OpenProperties.
Context {A : Type} `{UnicodeTables, MetaConditionsLaws, FinalizerUtilLaws, Os, RenameioLaws,
  Getter A MeasurementDevice}.
Context `{PmServer A stored}.

(** C8: Ready measurements are published also when several namespaces are watched
    and the types of measurements are edited: in every state reached by passes,
    users and others, as long as users never let two stored measurements have one
    target file at one time, and whatever the volume and the API refuse, a live
    measurement that is Ready for the spec it has now has the target of that spec
    in its target file.  That the condition is needed is [namespaces_collide]. *)
Theorem system_published (env : validatedEnv) (s0 s : Fs * A) k p :
  stored s0.2 = ∅ → rtc (open_step (stored := stored) env) s0 s →
  stored s.2 !! k = Some p → DeletionTimestamp (pm_Meta p) = None → ready_now p →
  files s.1 !! target_path env p = Some (target_data p).
Proof. intros H0' Hr. apply (open_published _ _ (open_inv_reached env s0 s H0' Hr)). Qed.
End OpenProperties.

Section SystemProperties.
Context {A : Type} `{UnicodeTables, MetaConditionsLaws, FinalizerUtilLaws, Os, RenameioLaws,
  Getter A MeasurementDevice}.
Context `{PmServer A stored}.
Context (env : validatedEnv) (watched : string → Prop).
Context (Hone : ∀ ns ns', watched ns → watched ns' → ns = ns').

(** No target file outlives its measurement: in every state reached from a
    volume without target files, each target file belongs to a stored measurement
    that still has its finalizer, so that a pass will remove the file. *)
Theorem system_no_orphans (s0 s : Fs * A) p0 :
  stored s0.2 = ∅ →
  (∀ p, filepath.slash ∉ chars (pm_Name p) → files s0.1 !! target_path env p = None) →
  rtc (step (stored := stored) env watched) s0 s →
  filepath.slash ∉ chars (pm_Name p0) → is_Some (files s.1 !! target_path env p0) →
  ∃ k p, stored s.2 !! k = Some p ∧ target_path env p = target_path env p0 ∧ has_finalizer p = true.
Proof.
  intros H0' Hf Hr Hp Hin.
  apply (owned_reached env watched Hone s0 s H0' Hf Hr); [by exists p0|done].
Qed.
End SystemProperties.

(** ** A run *)
Module SystemSample.
Import SimpleHelpers SimpleOs SimpleApi.

#[export] Instance server : PmServer api api_pms.
Proof.
  split.
  - intros a ns n p. simpl. unfold lookup_api. by destruct (api_pms a !! (ns, n)) eqn:E; intros [= ->].
  - intros a p p' h r a' _ Hp [Hs Hm] [= _ <-]. exists (Some p'). split.
    + apply patch_kept; auto.
    + simpl. apply map_eq. intros k.
      assert (key p = key_of p') as Hk.
      { unfold key, key_of, pm_Name. unfold set_Finalizers in Hm. injection Hm as Hn Hns _ _ _.
        simpl. by rewrite Hn, Hns. }
      rewrite <-Hk. destruct (decide (k = key p)) as [->|Hne].
      * by rewrite lookup_insert_eq, lookup_partial_alter_eq.
      * by rewrite lookup_insert_ne, lookup_partial_alter_ne by done.
Qed.

Definition exporter_pm (ns ip : string) : PhysicalMeasurement :=
  {| pm_Meta := mkObjectMeta "rack1" ns "u1" 1 None [];
     pm_Spec := mkPhysicalMeasurementSpec "prometheus-exporter" ip "" None;
     pm_Status := mkPhysicalMeasurementStatus 0 [] |}.
Definition no_objects : api := mkApi ∅ ∅ ∅.
Definition create (p : PhysicalMeasurement) (s : Fs * api) : Fs * api :=
  (s.1, mkApi (api_dcrs s.2) (<[key p := p]> (api_pms s.2)) (api_mds s.2)).
Definition reconcile (ns : string) (s : Fs * api) : Fs * api := (Reconcile sample_env ns "rack1" s).2.
Definition start : Fs * api := (empty_fs, no_objects).

(** One measurement, adopted and applied. *)
Definition published : Fs * api :=
  reconcile "dc" (reconcile "dc" (create (exporter_pm "dc" "10.0.0.7") start)).

(** Two of one name, in two namespaces. *)
Definition collided : Fs * api :=
  let s := create (exporter_pm "dc2" "10.0.0.8") (create (exporter_pm "dc1" "10.0.0.7") start) in
  reconcile "dc2" (reconcile "dc1" (reconcile "dc2" (reconcile "dc1" s))).

(** Two of one name, of two types, the first after an edit. *)
Definition put (p : PhysicalMeasurement) (s : Fs * api) : Fs * api :=
  (s.1, mkApi (api_dcrs s.2) (<[key p := p]> (api_pms s.2)) (api_mds s.2)).
Definition retyped (p : PhysicalMeasurement) : PhysicalMeasurement :=
  {| pm_Meta := mkObjectMeta "rack1" "dc" "u1" 2 None (Finalizers (pm_Meta p));
     pm_Spec := mkPhysicalMeasurementSpec "snmp" "10.0.0.7" "" None;
     pm_Status := pm_Status p |}.
Definition edited : Fs * api :=
  match api_pms published.2 !! ("dc", "rack1") with Some p => put (retyped p) published | None => published end.
Definition joined : Fs * api := create (exporter_pm "dc2" "10.0.0.8") edited.
Definition together : Fs * api := reconcile "dc" (reconcile "dc2" (reconcile "dc2" joined)).

Lemma open_turn ns s : open_step (stored := api_pms) sample_env s (reconcile ns s).
Proof. eapply open_reconcile, surjective_pairing. Qed.

Lemma open_users_apart s s' :
  open_user (api_pms s.2) (api_pms s'.2) → s'.1 = s.1 →
  NoDup ((λ kp : (string * string) * PhysicalMeasurement, target_path sample_env kp.2) <$> map_to_list (api_pms s'.2)) →
  open_step (stored := api_pms) sample_env s s'.
Proof. destruct s as [fs a], s' as [fs' a']. cbn. intros Hu -> Hnd. by apply open_users, apart_NoDup. Qed.

Ltac apart := apply (bool_decide_unpack _); vm_compute; exact I.

Lemma retype_step : open_step (stored := api_pms) sample_env published edited.
Proof.
  assert (is_Some (api_pms published.2 !! ("dc", "rack1"))) as [p Hp] by apart.
  apply open_users_apart; [|reflexivity|apart].
  unfold edited. rewrite Hp. pose proof Hp as Hv. vm_compute in Hv. injection Hv as <-.
  eapply open_edit; [exact Hp|reflexivity..].
Qed.

Lemma together_reached : rtc (open_step (stored := api_pms) sample_env) start together.
Proof.
  eapply rtc_l; [apply (open_users_apart start (create (exporter_pm "dc" "10.0.0.7") start)); [|reflexivity|apart]|].
  { apply open_create; [reflexivity|apart|reflexivity|reflexivity]. }
  eapply rtc_l; [apply (open_turn "dc")|]. eapply rtc_l; [apply (open_turn "dc")|].
  eapply rtc_l; [apply retype_step|].
  eapply rtc_l; [apply (open_users_apart edited joined); [|reflexivity|apart]|].
  { apply open_create; [vm_compute; reflexivity|apart|reflexivity|reflexivity]. }
  eapply rtc_l; [apply (open_turn "dc2")|]. eapply rtc_l; [apply (open_turn "dc2")|].
  eapply rtc_l; [apply (open_turn "dc")|]. apply rtc_refl.
Qed.

Lemma create_step watched p s :
  api_pms s.2 !! key p = None → watched (Namespace (pm_Meta p)) →
  filepath.slash ∉ chars (pm_Name p) → Finalizers (pm_Meta p) = [] → GetConditions p = [] →
  DeletionTimestamp (pm_Meta p) = None →
  step (stored := api_pms) sample_env watched s (create p s).
Proof. intros. destruct s as [fs a]. apply step_user. by apply user_create. Qed.

Lemma reconcile_step watched ns s : step (stored := api_pms) sample_env watched s (reconcile ns s).
Proof. eapply step_reconcile, surjective_pairing. Qed.

Lemma published_reached : rtc (step (stored := api_pms) sample_env (λ ns, ns = "dc")) start published.
Proof.
  eapply rtc_l; [apply (create_step _ (exporter_pm "dc" "10.0.0.7")); try reflexivity|].
  { apply (bool_decide_unpack _). vm_compute. exact I. }
  eapply rtc_l; [apply (reconcile_step _ "dc")|]. eapply rtc_l; [apply (reconcile_step _ "dc")|].
  apply rtc_refl.
Qed.

Lemma collided_reached : rtc (step (stored := api_pms) sample_env (λ _, True)) start collided.
Proof.
  eapply rtc_l; [apply (create_step _ (exporter_pm "dc1" "10.0.0.7")); try reflexivity; try done|].
  { apply (bool_decide_unpack _). vm_compute. exact I. }
  eapply rtc_l; [apply (create_step _ (exporter_pm "dc2" "10.0.0.8")); try reflexivity; try done|].
  { apply (bool_decide_unpack _). vm_compute. exact I. }
  eapply rtc_l; [apply (reconcile_step _ "dc1")|]. eapply rtc_l; [apply (reconcile_step _ "dc2")|].
  eapply rtc_l; [apply (reconcile_step _ "dc1")|]. eapply rtc_l; [apply (reconcile_step _ "dc2")|].
  apply rtc_refl.
Qed.
End SystemSample.
Import SystemSample.
Import SimpleHelpers SimpleOs SimpleApi.

(** C10: one namespace is needed: when the operator watches two, a run leads to
    two live measurements of one name that are both Ready for their specs, while
    the one target file they share holds the target of only one of them. *)
Theorem namespaces_collide :
  ∃ (s : Fs * api) p1 p2,
    rtc (step (stored := api_pms) sample_env (λ _, True)) start s ∧
    api_pms s.2 !! ("dc1", "rack1") = Some p1 ∧ api_pms s.2 !! ("dc2", "rack1") = Some p2 ∧
    DeletionTimestamp (pm_Meta p1) = None ∧ ready_now p1 ∧ ready_now p2 ∧
    target_path sample_env p1 = target_path sample_env p2 ∧
    files s.1 !! target_path sample_env p2 = Some (target_data p2) ∧
    target_data p1 ≠ target_data p2.
Proof.
  destruct (api_pms collided.2 !! ("dc1", "rack1")) as [p1|] eqn:E1; [|vm_compute in E1; discriminate E1].
  destruct (api_pms collided.2 !! ("dc2", "rack1")) as [p2|] eqn:E2; [|vm_compute in E2; discriminate E2].
  exists collided, p1, p2. split; [apply collided_reached|]. split; [done|]. split; [done|].
  vm_compute in E1, E2. injection E1 as <-. injection E2 as <-.
  split; [done|]. split; [by eexists|]. split; [by eexists|]. split; [reflexivity|].
  split; [vm_compute; reflexivity|]. apply (bool_decide_unpack _). vm_compute. exact I.
Qed.

(** Each has its own file, of its type. *)
Lemma system_published_witness :
  files together.1 !! "/data/prometheus/targets/snmp/rack1.json" =
    Some (target_data (retyped (exporter_pm "dc" "10.0.0.7"))) ∧
  ∃ p, api_pms together.2 !! ("dc", "rack1") = Some p ∧
    target_path sample_env p = "/data/prometheus/targets/snmp/rack1.json" ∧
    files together.1 !! target_path sample_env p = Some (target_data p).
Proof.
  split; [vm_compute; reflexivity|].
  destruct (api_pms together.2 !! ("dc", "rack1")) as [p|] eqn:E; [|vm_compute in E; discriminate E].
  exists p. split; [reflexivity|]. split; [vm_compute in E; injection E as <-; vm_compute; reflexivity|].
  apply (system_published (stored := api_pms) sample_env start together ("dc", "rack1") p).
  - reflexivity.
  - apply together_reached.
  - exact E.
  - vm_compute in E. injection E as <-. reflexivity.
  - vm_compute in E. injection E as <-. by eexists.
Defined.

Lemma system_no_orphans_witness :
  ∃ k p, api_pms published.2 !! k = Some p ∧
    target_path sample_env p = target_path sample_env (exporter_pm "dc" "10.0.0.7") ∧
    has_finalizer p = true.
Proof.
  apply (system_no_orphans (stored := api_pms) sample_env (λ ns, ns = "dc")
           ltac:(congruence) start published (exporter_pm "dc" "10.0.0.7")).
  - reflexivity.
  - intros p _. apply lookup_empty.
  - apply published_reached.
  - apply (bool_decide_unpack _). vm_compute. exact I.
  - vm_compute. by eexists.
Defined.
