(* ===== verification/MeasurementThread.v ===== *)
(** The physical measurement controller one step at a time: its steps are as the
    protocol of [Threads] asks, and a stored live measurement that is Ready for its
    present spec is published, whatever happens between the steps and however far
    the cache lags behind: by generation, what is Ready for its present spec was
    read as it is. *)
From S2P Require Import Prelude GoStd Errors Paths FileStore Configuration ApiTypes Steps Cluster.
From S2P Require Import PhysicalMeasurement PhysicalMeasurementController Guard ObjectSystem Caches Threads System.

(** What a patch sends of a measurement are its finalizers and its conditions. *)
Definition pm_patches `{MetaConditions} (p p' : PhysicalMeasurement) : relation System.store := λ m m',
  patches p p' m m' ∧
  ∀ q0 q, m !! object_key p = Some q0 → m' !! object_key p = Some q →
    same_object q0 q ∧ (ready_condition q = ready_condition q0 ∨ ready_condition q = ready_condition p').
Class PatchKeeps (A : Type) `{MetaConditions, Patcher A PhysicalMeasurement}
    (history : A → list System.store) : Prop :=
  patch_keeps a0 a p p' h r a' :
    NewHelper a0 p = inr h → same_object p p' → Patch h p' a = (r, a') →
    evolves (pm_patches p p') (history a) (history a').

Section MeasurementThread.
Context {A : Type} `{UnicodeTables, MetaConditionsLaws, FinalizerUtilLaws, Os, RenameioLaws,
  Getter A MeasurementDevice, Getter A PhysicalMeasurement, Patcher A PhysicalMeasurement}.
Context (stored : A → System.store) (history : A → list System.store).
Context `{!CachedServer stored history, !PatchKeeps A history}.
Context (env : validatedEnv).
Implicit Types (p q : PhysicalMeasurement) (w : World PhysicalMeasurement A) (s : Fs * A).

#[export] Instance measurement_owner : FileOwner (target_path env) has_finalizer plain_measurement.
Proof.
  split.
  - intros p q (Hk & _ & Ht). unfold object_key in Hk. injection Hk as _ Hn. by apply target_path_same.
  - intros p q (Hk & _). unfold object_key in Hk. injection Hk as _ Hn. unfold plain_measurement, pm_Name.
    simpl in Hn. by rewrite Hn.
  - unfold object_Finalizers, has_finalizer. by intros p q [= ->].
  - unfold object_Finalizers, has_finalizer. simpl. intros p ->. apply not_true_is_false.
    intros Hc. by apply contains_finalizer, not_elem_of_nil in Hc.
Qed.

Abbreviation contained := (contained history (target_path env) plain_measurement).
Abbreviation safe_step := (safe_step history (target_path env) has_finalizer plain_measurement).

Lemma same_object_same_id p q : same_object p q → same_id p q.
Proof.
  intros [Hs Hm]. unfold set_Finalizers in Hm. injection Hm as Hn Hns Hu _ _.
  unfold same_id, object_key, lineage, pm_lineage. simpl. by rewrite Hn, Hns, Hu, Hs.
Qed.
Lemma same_measurement_life p q : same_object p q → same_life p q.
Proof. intros Hs. split; [by apply same_object_same_id|]. destruct Hs as [_ Hm]. unfold set_Finalizers in Hm. by injection Hm. Qed.
Lemma follows_same_object p q :
  follows p q → Generation (pm_Meta q) = Generation (pm_Meta p) → same_object p q.
Proof.
  intros (((Hk & Hu & _) & _) & _ & Hs) Hg. destruct (Hs Hg) as [E Ed]. split; [done|].
  unfold object_key in Hk. injection Hk as Hns Hn. unfold set_Finalizers. simpl in *. congruence.
Qed.
Lemma follows_generation p q : follows p q → (Generation (pm_Meta p) ≤ Generation (pm_Meta q))%Z.
Proof. by intros (_ & ? & _). Qed.
Lemma same_object_generation p q : same_object p q → Generation (pm_Meta q) = Generation (pm_Meta p).
Proof. intros [_ Hm]. unfold set_Finalizers in Hm. by injection Hm. Qed.
Lemma same_but_object w w' : same_but_conditions w w' → same_object (w_obj w) (w_obj w').
Proof. intros (Hm & Hs & _). unfold same_object. by rewrite Hm, Hs. Qed.

(** ** What one step does *)

(** It writes the target, or removes it from under a measurement that is deleted. *)
Definition touched w w' : Prop :=
  files (w_fs w') = files (w_fs w) ∨
  files (w_fs w') = <[target_path env (w_obj w) := target_data (w_obj w)]> (files (w_fs w)) ∨
  DeletionTimestamp (pm_Meta (w_obj w)) ≠ None ∧
    files (w_fs w') = delete (target_path env (w_obj w)) (files (w_fs w)).
Definition unready p : Prop := condition_status ConditionReady p ≠ Some ConditionTrue.

Definition step_effect w (q : outcome StepResult * World PhysicalMeasurement A) : Prop :=
  same_object (w_obj w) (w_obj q.2) ∧ w_api q.2 = w_api w ∧ touched w q.2.

Lemma deletion_effect w :
  step_effect w (reconcileDeletion env w) ∧ (unready (w_obj w) → unready (w_obj (reconcileDeletion env w).2)) ∧
  (has_finalizer (w_obj w) = true →
     object_Finalizers (w_obj (reconcileDeletion env w).2) = object_Finalizers (w_obj w) ∨
     dead (w_obj w) ∧ has_finalizer (w_obj (reconcileDeletion env w).2) = false ∧
     stops (reconcileDeletion env w).1 = true ∧
     files (w_fs (reconcileDeletion env w).2) !! target_path env (w_obj w) = None) ∧
  (has_finalizer (w_obj w) = false → (reconcileDeletion env w).2 = w) ∧
  (dead (w_obj w) → stops (reconcileDeletion env w).1 = true ∧
     (files (w_fs (reconcileDeletion env w).2) !! target_path env (w_obj w) = files (w_fs w) !! target_path env (w_obj w) ∨
      files (w_fs (reconcileDeletion env w).2) !! target_path env (w_obj w) = None)).
Proof.
  unfold reconcileDeletion. rewrite run_bind, run_the_obj.
  case_decide as Hd; [by split; [split; [|split; [|left]]|split_and!; [|left| |]]|].
  destruct (has_finalizer (w_obj w)) eqn:Hf; cbn [negb]; last first.
  { split; [by split; [|split; [|left]]|]. by split_and!; [| | |split; [|left]]. }
  fold (target_path env (w_obj w)). rewrite run_bind, run_fs_call.
  destruct (Remove (target_path env (w_obj w)) (w_fs w)) as [r fs1] eqn:Hr.
  apply Remove_clean_inv in Hr; [|apply target_path_clean]. cbn [fst snd].
  destruct r as [e|]; [destruct Hr as (Hfs & Hmiss & _); unfold os_IsNotExist; destruct (is_not_exist e) eqn:He; cbn [negb]|].
  - assert (files fs1 !! target_path env (w_obj w) = None) as Hnone by (rewrite Hfs; by apply Hmiss).
    split; [split; [done|split; [done|by left]]|]. split_and!; [done| |done|by auto].
    intros _. right. split_and!; [done|apply has_finalizer_remove|done|done].
  - split; [split; [done|split; [done|by left]]|]. split_and!; [|by left|done|].
    + unfold unready, fail_step. intros Hu. rewrite run_bind, run_with_obj, run_ret. cbn [snd w_obj].
      by rewrite condition_status_update, decide_False.
    + intros _. split; [done|]. left. exact (f_equal (λ m, m !! _) Hfs).
  - assert (files fs1 !! target_path env (w_obj w) = None) as Hnone by (by rewrite Hr, lookup_delete_eq).
    split; [split; [done|split; [done|right; right; by split]]|]. split_and!; [done| |done|by auto].
    intros _. right. split_and!; [done|apply has_finalizer_remove|done|done].
Qed.

Lemma validation_effect w :
  same_but_conditions w (reconcileValidation w).2 ∧
  files (w_fs (reconcileValidation w).2) = files (w_fs w).
Proof. by destruct (reconcileValidation_spec w) as (res & w' & -> & ? & ? & _). Qed.

Lemma target_effect w :
  same_but_conditions w (reconcileTargetFile env w).2 ∧ touched w (reconcileTargetFile env w).2 ∧
  (stops (reconcileTargetFile env w).1 = false →
     files (w_fs (reconcileTargetFile env w).2) !! target_path env (w_obj w) = Some (target_data (w_obj w))).
Proof.
  destruct (reconcileTargetFile_publishes env w) as [Hs [[-> Hf]|(e & -> & Hf)]]; (split; [done|]).
  - split; [by right; left|]. intros _. by rewrite Hf, lookup_insert_eq.
  - split; [by left|done].
Qed.

Lemma conditions_effect w (q : outcome StepResult * World PhysicalMeasurement A) :
  same_but_conditions w q.2 → touched w q.2 → step_effect w q.
Proof. intros Hs Ht. split; [by apply same_but_object|]. split; [apply Hs|done]. Qed.

Lemma ensure_effect w :
  step_effect w (ensureFinalizerIsSet w) ∧ (unready (w_obj w) → unready (w_obj (ensureFinalizerIsSet w).2)) ∧
  files (w_fs (ensureFinalizerIsSet w).2) = files (w_fs w) ∧ has_finalizer (w_obj (ensureFinalizerIsSet w).2) = true ∧
  stops (ensureFinalizerIsSet w).1 = negb (has_finalizer (w_obj w)) ∧
  (has_finalizer (w_obj w) = true → (ensureFinalizerIsSet w).2 = w).
Proof.
  unfold ensureFinalizerIsSet. rewrite run_bind, run_the_obj.
  destruct (has_finalizer (w_obj w)) eqn:Hf; [by split; [split; [|split; [|left]]|]|].
  split; [by split; [|split; [|left]]|]. split; [done|]. split; [done|]. split_and!; [|done|done].
  apply has_finalizer_add.
Qed.

Lemma steps_effect f w : f ∈ reconcile_steps env → step_effect w (f w).
Proof.
  unfold reconcile_steps. rewrite !elem_of_cons, elem_of_nil. intros [->|[->|[->|[->|[->|[]]]]]].
  - apply deletion_effect.
  - apply ensure_effect.
  - destruct (validation_effect w). by apply conditions_effect; [|left].
  - destruct (target_effect w) as (? & ? & _). by apply conditions_effect.
  - by split; [|split; [|left]].
Qed.

Lemma measurement_step_contained f w : f ∈ reconcile_steps env → contained w (f w).2.
Proof.
  intros Hf. destruct (steps_effect f w Hf) as (Hs & Ha & Ht).
  split; [by apply same_measurement_life|]. split; [rewrite Ha; apply rtc_refl|]. intros x _ Hx.
  destruct Ht as [->|[-> | [_ ->]]]; by rewrite ?lookup_insert_ne, ?lookup_delete_ne.
Qed.

Lemma conditions_safe f :
  f ∈ reconcile_steps env → (∀ w, pm_Meta (w_obj (f w).2) = pm_Meta (w_obj w)) → safe_step f.
Proof.
  intros Hin Hm w Hp Hf. split; [by apply measurement_step_contained|]. left. unfold object_Finalizers. simpl. by rewrite Hm.
Qed.

#[export] Instance measurement_steps_safe :
  SafeSteps history (target_path env) has_finalizer plain_measurement (λ p, p) (reconcile_steps env).
Proof.
  split; [| | |done|done|done].
  - unfold reconcile_steps. rewrite !Forall_cons, Forall_nil. split_and!; [| | | | |done].
    + intros w _ Hf. split; [apply measurement_step_contained; by left|]. by apply deletion_effect.
    + intros w _ Hf. split; [apply measurement_step_contained; right; by left|]. left.
      destruct (ensure_effect w) as (_ & _ & _ & _ & _ & E). by rewrite (E Hf).
    + apply conditions_safe; [do 2 right; by left|]. intros w. apply validation_effect.
    + apply conditions_safe; [do 3 right; by left|]. intros w. apply target_effect.
    + apply conditions_safe; [do 4 right; by left|done].
  - apply gated_early; [|apply gated_gate; split]; intros w _ Hf.
    + destruct (deletion_effect w) as (_ & _ & _ & E & _). rewrite (E Hf). split; [apply contained_refl|].
      split; [done|by left].
    + split; [apply measurement_step_contained; right; by left|].
      destruct (ensure_effect w) as (_ & _ & Hfs & Hfin & Hs & _). split; [exact Hfs|]. right. by rewrite Hs, Hf.
    + destruct (ensure_effect w) as (_ & _ & _ & _ & -> & _). by rewrite Hf.
  - intros f rest [= <- _] w _ _ Hd. by apply deletion_effect.
Qed.

(** ** What is published while a pass is under way *)
Context (watched : string → Prop) (Hone : ∀ ns ns', watched ns → watched ns' → ns = ns').
Abbreviation pm_inv fs m := (inv (A := System.store) (stored := λ x, x) env watched (fs, m)).
Abbreviation thread_ok := (thread_ok history (target_path env) has_finalizer plain_measurement (reconcile_steps env)).
Abbreviation work_ok := (work_ok history (target_path env) has_finalizer plain_measurement (reconcile_steps env)).
Abbreviation pm_work := (work PhysicalMeasurement A).
Implicit Types (k : pm_work) (m : System.store) (l : list System.store) (fs : Fs).

Definition live p : Prop := DeletionTimestamp (pm_Meta p) = None.
Definition generation p : Z := Generation (pm_Meta p).

(** The versions there are, with what is stored at their end.  A measurement that is
    Ready for its present spec was adopted, and every version that shows it adopted
    shows that spec. *)
Record versions_ok fs l m : Prop := {
  vs_inv : pm_inv fs m;
  vs_watched : Forall (λ m0, ∀ x p, m0 !! x = Some p → watched (Namespace (pm_Meta p))) l;
  vs_ready x q : m !! x = Some q → live q → ready_now q →
    has_finalizer q = true ∧
    Forall (λ m0, ∀ p, m0 !! x = Some p → has_finalizer p = true → generation p = generation q) l
}.

(** Where the pass is: before the last step the copy is not Ready, from then on the
    target file is that of the object that was read. *)
Definition target_written k fs : Prop :=
  live (wk_read k) ∧ has_finalizer (wk_read k) = true ∧
  files fs !! target_path env (wk_read k) = Some (target_data (wk_read k)).
Definition phase (n : nat) k fs : Prop :=
  match n with
  | 0 => unready (wk_obj k)
  | 1 => unready (wk_obj k) ∧ live (wk_read k)
  | 2 | 3 => unready (wk_obj k) ∧ live (wk_read k) ∧ has_finalizer (wk_read k) = true
  | 4 => unready (wk_obj k) ∧ target_written k fs
  | _ => unready (wk_obj k) ∨ target_written k fs
  end.
(** A live adopted measurement is still stored, and when it is Ready for its present
    spec, then for the spec that was read. *)
Definition still_ready p m : Prop := ∀ q, has_finalizer p = true → live p →
  m !! object_key p = Some q → live q → ready_now q → generation q = generation p.
Record measuring k fs m : Prop := {
  m_watched : watched (Namespace (pm_Meta (wk_read k)));
  m_object : same_object (wk_read k) (wk_obj k);
  m_dated c : ready_condition (wk_obj k) = Some c → cond_ObservedGeneration c = generation (wk_read k);
  m_phase : ∃ n, wk_rest k = drop n (reconcile_steps env) ∧ phase n k fs;
  m_ready : still_ready (wk_read k) m
}.
Definition measured (ts : thread PhysicalMeasurement A * (Fs * A)) : Prop :=
  thread_ok ts ∧ versions_ok ts.2.1 (history ts.2.2) (stored ts.2.2) ∧
  match ts.1 with Some k => measuring k ts.2.1 (stored ts.2.2) | None => True end.

Lemma ready_status p c : ready_condition p = Some c → condition_status ConditionReady p = Some (cond_Status c).
Proof. unfold ready_condition, condition_status. by intros ->. Qed.

(** Files that change under the eyes of the invariant. *)
Lemma versions_files fs fs' l m :
  versions_ok fs l m →
  (∀ x q, m !! x = Some q → live q → ready_now q →
     files fs' !! target_path env q = files fs !! target_path env q ∨
     files fs' !! target_path env q = Some (target_data q)) →
  versions_ok fs' l m.
Proof.
  intros [Hi Hw Hr] Hfs. split; [|done..]. apply (inv_intro env watched Hone); cbn [fst snd]; [apply (inv_key _ _ _ Hi)|apply (inv_dated _ _ _ Hi)|].
  intros x q Hq Hl Hrd. destruct (Hfs x q Hq Hl Hrd) as [->|E]; [by apply (inv_published _ _ _ Hi x)|exact E].
Qed.
Lemma versions_catch fs m0 l m : versions_ok fs (m0 :: l) m → versions_ok fs l m.
Proof.
  intros [Hi [_ Hw]%Forall_cons Hr]. split; [done..|]. intros x q Hq Hl Hrd.
  by destruct (Hr x q Hq Hl Hrd) as [? [_ ?]%Forall_cons].
Qed.

(** ** One step of the copy *)

(** The phases, step by step. *)
Lemma phase_step n f rest k s :
  drop n (reconcile_steps env) = f :: rest → has_finalizer (wk_obj k) = has_finalizer (wk_read k) →
  same_object (wk_read k) (wk_obj k) → phase n k s.1 →
  ∃ n', wk_rest (run_one k f rest s).1 = drop n' (reconcile_steps env) ∧
    phase n' (run_one k f rest s).1 (run_one k f rest s).2.1.
Proof.
  intros Hn Hfin Hobj. destruct s as [fs a]. unfold run_one. cbn [fst snd].
  set (w := mkWorld (wk_obj k) fs a).
  destruct (same_object_target env _ _ Hobj) as (Hpath & Hdata & _ & Hdel & _).
  assert (∀ t w', unready (w_obj w') → ∃ n', [] = drop n' (reconcile_steps env) ∧
    phase n' (mkWork (wk_read k) (wk_helper k) (w_obj w') []) t) as Hend
    by (intros t w' Hu; exists 5; split; [done|by left]).
  destruct n as [|[|[|[|[|n]]]]]; [..|by destruct n]; injection Hn as <- <-; cbn [phase].
  - intros Hu. destruct (deletion_effect w) as (_ & Hu' & _ & _ & Hlast). specialize (Hu' Hu).
    destruct (reconcileDeletion env w) as [r w']. cbn [fst snd wk_rest] in *.
    destruct (stops r); [by apply Hend|]. exists 1. split; [done|]. split; [done|]. unfold live. cbn [wk_read].
    rewrite <-Hdel. destruct (decide (DeletionTimestamp (pm_Meta (wk_obj k)) = None)) as [E|E]; [done|]. by destruct (Hlast E).
  - intros [Hu Hl]. destruct (ensure_effect w) as (_ & Hu' & _ & _ & Hst & _). specialize (Hu' Hu).
    destruct (ensureFinalizerIsSet w) as [r w']. cbn [fst snd wk_rest] in *. destruct (stops r); [by apply Hend|].
    exists 2. split; [done|]. split; [done|]. split; [done|]. cbn [wk_read].
    change (w_obj w) with (wk_obj k) in Hst. rewrite Hfin in Hst. by destruct (has_finalizer (wk_read k)).
  - intros (Hu & Hl & Hf). destruct (validation_effect w) as ((_ & _ & _ & Hst) & _).
    destruct (reconcileValidation w) as [r w']. cbn [fst snd wk_rest] in *.
    assert (unready (w_obj w')) as Hu' by (unfold unready; by rewrite Hst).
    destruct (stops r); [by apply Hend|by exists 3].
  - intros (Hu & Hl & Hf). destruct (target_effect w) as ((_ & _ & _ & Hst) & _ & Hw).
    destruct (reconcileTargetFile env w) as [r w']. cbn [fst snd wk_rest] in *.
    assert (unready (w_obj w')) as Hu' by (unfold unready; by rewrite Hst).
    destruct (stops r); [by apply Hend|]. exists 4. split; [done|]. split; [done|]. split_and!; [done|done|].
    cbn [wk_read]. rewrite <-Hpath, <-Hdata. by apply Hw.
  - intros (_ & Hw). exists 5. split; [done|]. by right.
Qed.

Lemma same_measurement_trans p1 p2 p3 : same_object p1 p2 → same_object p2 p3 → same_object p1 p3.
Proof. intros [? ?] [? ?]. split; congruence. Qed.

(** Two measurements with one target file have one key. *)
Lemma target_key p q :
  watched (Namespace (pm_Meta p)) → watched (Namespace (pm_Meta q)) → plain_measurement p → plain_measurement q →
  target_path env p = target_path env q → object_key p = object_key q.
Proof.
  intros Hwp Hwq Hp Hq [E _]%target_path_inj; [|done..]. unfold object_key.
  change (Name (pm_Meta p) = Name (pm_Meta q)) in E. simpl. by rewrite E, (Hone _ _ Hwp Hwq).
Qed.

(** What a step does to the target files, under the eyes of the invariant. *)
Lemma run_one_versions k f rest s l m :
  work_ok k (files s.1) l → versions_ok s.1 l m → measuring k s.1 m → last l = Some m →
  wk_rest k = f :: rest → f ∈ reconcile_steps env → versions_ok (run_one k f rest s).2.1 l m.
Proof.
  intros Hok Hv Hm Hlast Hrest Hf.
  destruct (run_one_quiet history (target_path env) has_finalizer plain_measurement _ k f rest s l Hok Hrest) as [_ Hquiet].
  pose proof (ok_held _ _ _ _ _ _ _ _ Hok) as Hheld. pose proof (ok_plain _ _ _ _ _ _ _ _ Hok) as Hplain.
  destruct s as [fs a]. unfold run_one in *. cbn [fst snd] in *. set (w := mkWorld (wk_obj k) fs a) in *.
  destruct (steps_effect f w Hf) as (_ & _ & Ht). destruct (f w) as [r w']. cbn [fst snd] in *.
  eapply versions_files; [exact Hv|]. intros x q Hq Hl Hr.
  destruct (has_finalizer (wk_read k)) eqn:Hfin; [|left; by rewrite Hquiet].
  destruct (same_object_target env _ _ (m_object _ _ _ Hm)) as (Hpath & Hdata & _ & Hdel & _).
  destruct (inv_key _ _ _ (vs_inv _ _ _ Hv) _ _ Hq) as (Hx & Hwq & Hpq).
  destruct (decide (target_path env q = target_path env (wk_obj k))) as [E|Hne]; last first.
  { left. destruct Ht as [->|[-> | [_ ->]]]; by rewrite ?lookup_insert_ne, ?lookup_delete_ne. }
  assert (object_key q = object_key (wk_read k)) as Ekey
    by (apply target_key; [done|apply Hm|done|done|congruence]).
  change (x = object_key q) in Hx. rewrite Hx, Ekey in Hq.
  destruct (decide (DeletionTimestamp (pm_Meta (wk_read k)) = None)) as [Hlive|Hdead].
  - destruct (held_stored _ _ _ _ Hheld Hfin Hlive Hlast) as (q0 & Hq0 & Hfol & _).
    rewrite Hq in Hq0. injection Hq0 as <-.
    assert (same_object (wk_read k) q) as Hsame
      by (apply follows_same_object; [done|]; by apply (m_ready _ _ _ Hm)).
    destruct (same_object_target env _ _ Hsame) as (_ & Hdata' & _). rewrite E, Hdata', <-Hdata.
    destruct Ht as [->|[-> | [Hd _]]]; [by left|right; apply lookup_insert_eq|]. cbn in Hd. congruence.
  - assert (has_finalizer q = true) as Hfq by (rewrite <-Ekey in Hq; by eapply (vs_ready _ _ _ Hv)).
    by destruct (held_dying _ _ _ _ _ Hheld Hfin Hdead Hlast Hq Hfq).
Qed.

Lemma run_one_measuring k f rest s l m :
  work_ok k (files s.1) l → measuring k s.1 m → wk_rest k = f :: rest → f ∈ reconcile_steps env →
  measuring (run_one k f rest s).1 (run_one k f rest s).2.1 m.
Proof.
  intros Hok [Hwat Hobj Hdate (n & Hn & Hph) Hready] Hrest Hf.
  destruct (run_one_quiet history (target_path env) has_finalizer plain_measurement _ k f rest s l Hok Hrest) as [Hfin _].
  rewrite Hrest in Hn. pose proof (phase_step n f rest k s (eq_sym Hn) Hfin Hobj Hph) as Hphase.
  destruct s as [fs a]. unfold run_one in *. cbn [fst snd] in *. set (w := mkWorld (wk_obj k) fs a) in *.
  destruct (steps_effect f w Hf) as (Hobj' & _ & _).
  pose proof (dated_steps (A := A) env) as Hdated. rewrite Forall_forall in Hdated. destruct (Hdated f Hf w) as [_ Hd].
  destruct (f w) as [r w']. cbn [fst snd] in *. split; cbn [wk_read wk_obj fst snd]; [done| | |done|done].
  - by eapply same_measurement_trans.
  - unfold generation. rewrite <-(same_object_generation _ _ Hobj). apply Hd. intros c Hc.
    rewrite (Hdate c Hc). symmetry. apply (same_object_generation _ _ Hobj).
Qed.

(** ** The patch publishes what the pass has written *)

(** A write of the patch, seen from the version it makes. *)
Lemma patch_cases p p' m m' x q :
  pm_patches p p' m m' → m' !! x = Some q →
  (x = object_key p ∧ ∃ q0, m !! x = Some q0 ∧ patched q0 p p' (Some q) ∧ same_object q0 q ∧
     (ready_condition q = ready_condition q0 ∨ ready_condition q = ready_condition p')) ∨
  (x ≠ object_key p ∧ m !! x = Some q).
Proof.
  intros [(q0 & o & Hq0 & Ho & E) Hk] Hq. destruct (decide (x = object_key p)) as [->|Hne].
  - left. split; [done|]. exists q0. destruct (Hk q0 q Hq0 Hq) as [? ?]. split_and!; [done| |done..].
    rewrite E, lookup_partial_alter_eq in Hq. by subst o.
  - right. by rewrite E, lookup_partial_alter_ne in Hq.
Qed.

(** A condition that is kept says of the measurement what it said. *)
Lemma same_object_ready p q : same_object p q → ready_condition q = ready_condition p → ready_now q → ready_now p.
Proof.
  intros Hs Hc (c & Hq & Ht & Hg). exists c. rewrite <-Hc. split_and!; [done..|].
  rewrite Hg. exact (same_object_generation _ _ Hs).
Qed.
Lemma same_object_live p q : same_object p q → live q → live p.
Proof. intros [_ Hm]. unfold set_Finalizers in Hm. injection Hm as _ _ _ _ Hd. unfold live. by rewrite Hd. Qed.

(** The patch makes a measurement Ready only at the end of a pass that has written
    the target of the spec that is stored. *)
Lemma patch_ready k fs l m q0 q c :
  held has_finalizer (wk_read k) l → last l = Some m →
  (∀ c, ready_condition (wk_obj k) = Some c → cond_ObservedGeneration c = generation (wk_read k)) →
  (unready (wk_obj k) ∨ target_written k fs) →
  m !! object_key (wk_read k) = Some q0 → same_object q0 q →
  ready_condition (wk_obj k) = Some c → cond_Status c = ConditionTrue →
  target_written k fs ∧ follows (wk_read k) q0 ∧ has_finalizer q0 = true ∧
  cond_ObservedGeneration c = generation (wk_read k).
Proof.
  intros Hh Hm Hd Hend Hq0 Hs Hc Ht. destruct Hend as [Hu|Hw].
  { destruct Hu. rewrite (ready_status _ _ Hc). by rewrite Ht. }
  destruct Hw as (Hl & Hf & Hw). destruct (held_stored _ _ _ _ Hh Hf Hl Hm) as (q1 & Hq1 & Hfol & Hg).
  rewrite Hq0 in Hq1. injection Hq1 as <-. split_and!; [done..|by apply Hd].
Qed.

Abbreviation fair_patch := (fair_patch (target_path env) has_finalizer).
Abbreviation kept_up := (kept_up has_finalizer plain_measurement).

(** What is known when the patch of a pass arrives. *)
Record patching k fs : Prop := {
  pt_fair : fair_patch (files fs) (wk_read k) (wk_obj k);
  pt_dated c : ready_condition (wk_obj k) = Some c → cond_ObservedGeneration c = generation (wk_read k);
  pt_end : unready (wk_obj k) ∨ target_written k fs
}.
Record publishing k fs l m : Prop := {
  pb_stored : last l = Some m;
  pb_up : kept_up l;
  pb_held : held has_finalizer (wk_read k) l;
  pb_versions : versions_ok fs l m;
  pb_still : still_ready (wk_read k) m
}.

Lemma patch_write_inv k fs l m m' :
  patching k fs → publishing k fs l m → pm_patches (wk_read k) (wk_obj k) m m' → pm_inv fs m'.
Proof.
  intros [_ Hd Hend] [Hm _ Hh [Hi _ _] Hstill] Hp.
  pose proof (λ q0 q c, patch_ready k fs l m q0 q c Hh Hm Hd Hend) as Hready.
  apply (inv_intro env watched Hone); cbn [fst snd].
  - intros x q [(-> & q0 & Hq0 & _ & Hs & _)|[_ Hq]]%(patch_cases _ _ _ _ _ _ Hp); [|by apply (inv_key _ _ _ Hi)].
    destruct (inv_key _ _ _ Hi _ _ Hq0) as (Hk0 & Hw0 & Hp0). destruct (same_object_same_id _ _ Hs) as (Hkq & _).
    unfold object_key in Hkq. injection Hkq as Hns Hn. simpl in Hns, Hn. unfold pm_Name in *. rewrite Hns, Hn.
    split; [|done]. rewrite Hk0. unfold System.key, pm_Name. by rewrite Hns, Hn.
  - intros x q c [(-> & q0 & Hq0 & _ & Hs & [Hc|Hc])|[_ Hq]]%(patch_cases _ _ _ _ _ _ Hp) Hrc Ht;
      [| |by eapply (inv_dated _ _ _ Hi)]; rewrite (same_object_generation _ _ Hs); rewrite Hc in Hrc.
    + by eapply (inv_dated _ _ _ Hi).
    + destruct (Hready q0 q c Hq0 Hs Hrc Ht) as (_ & Hfol & _ & ->). by apply follows_generation.
  - intros x q [(-> & q0 & Hq0 & _ & Hs & Hc)|[_ Hq]]%(patch_cases _ _ _ _ _ _ Hp) Hl Hr;
      [|by apply (inv_published _ _ _ Hi x)].
    destruct (same_object_target env _ _ Hs) as (-> & -> & _). destruct Hc as [Hc|Hc].
    + apply (inv_published _ _ _ Hi (object_key (wk_read k))); [done|by eapply same_object_live|].
      by eapply same_object_ready.
    + destruct Hr as (c & Hrc & Ht & Hg). rewrite Hc in Hrc. simpl in Hg.
      destruct (Hready q0 q c Hq0 Hs Hrc Ht) as ((_ & _ & Hw) & Hfol & _ & Hgc).
      assert (same_object (wk_read k) q0) as Hs0.
      { apply follows_same_object; [done|]. rewrite <-(same_object_generation _ _ Hs), <-Hg. exact Hgc. }
      by destruct (same_object_target env _ _ Hs0) as (-> & -> & _).
Qed.

(** Where the measurement that was read is alive and adopted, so is every version of
    it since, of no later spec than the last. *)
Lemma live_versions p l m q0 :
  kept_up l → held has_finalizer p l → live p → has_finalizer p = true → last l = Some m →
  m !! object_key p = Some q0 → has_finalizer q0 = true → live q0 →
  Forall (λ m0, ∀ q, m0 !! object_key p = Some q → has_finalizer q = true →
    (generation p ≤ generation q ≤ generation q0)%Z) l.
Proof.
  intros Hup Hh Hl Hf Hm Hq0 Hf0 Hl0. destruct Hh as [Hf' _|_ _ Hall|_ Hd _ _]; [congruence| |by destruct Hd].
  rewrite Forall_forall in *. intros m0 Hin q Hq Hfq. destruct (Hall m0 Hin) as (q' & Hq' & Hfol & _).
  rewrite Hq in Hq'. injection Hq' as <-. split; [by apply follows_generation|].
  destruct (up_one_way _ _ _ Hup (object_key p)) as [Ht|[_ Hdy]].
  - destruct (sorted_last _ _ _ _ Ht Hin Hm) as [->|Hr]; [rewrite Hq in Hq0; injection Hq0 as <-; lia|].
    destruct (Hr q Hq Hfq) as (q1 & Hq1 & Hfol1 & _). rewrite Hq0 in Hq1. injection Hq1 as <-.
    by apply follows_generation.
  - rewrite Forall_forall in Hdy. by destruct (Hdy m (last_in _ _ Hm) q0 Hq0 Hf0).
Qed.

Lemma patch_write_ready k fs l m m' x q :
  patching k fs → publishing k fs l m → pm_patches (wk_read k) (wk_obj k) m m' →
  m' !! x = Some q → live q → ready_now q →
  has_finalizer q = true ∧
  Forall (λ m0, ∀ p, m0 !! x = Some p → has_finalizer p = true → generation p = generation q) (l ++ [m']).
Proof.
  intros [Hfair Hd Hend] [Hm Hup Hh [Hi _ Hv] Hstill] Hp Hq Hl Hr.
  assert (∀ P : Prop, P → (∀ p, m' !! x = Some p → has_finalizer p = true → generation p = generation q)) as Hlast
    by (intros P _ p Hp' _; congruence).
  destruct (patch_cases _ _ _ _ _ _ Hp Hq) as [(-> & q0 & Hq0 & Hpt & Hs & Hc)|[_ Hq']]; last first.
  { destruct (Hv x q Hq' Hl Hr) as [? Hall]. split; [done|]. apply forall_snoc; [done|by apply (Hlast True)]. }
  pose proof (same_object_live _ _ Hs Hl) as Hl0.
  pose proof (λ Hf0, patch_guarded _ _ _ _ _ _ _ _ _ _ Hfair Hm Hh Hq0 Hpt Hf0 Hl0) as Hguard.
  assert (generation q = generation q0) as Eg by apply (same_object_generation _ _ Hs).
  destruct Hc as [Hc|Hc].
  - destruct (Hv _ q0 Hq0 Hl0 (same_object_ready _ _ Hs Hc Hr)) as [Hf0 Hall]. split; [by apply Hguard|].
    apply forall_snoc; [|by apply (Hlast True)]. by rewrite Eg.
  - destruct Hr as (c & Hrc & Ht & Hg). rewrite Hc in Hrc. simpl in Hg.
    destruct (patch_ready k fs l m q0 q c Hh Hm Hd Hend Hq0 Hs Hrc Ht) as ((Hlive & Hf & _) & _ & Hf0 & Hgc).
    split; [by apply Hguard|]. apply forall_snoc; [|by apply (Hlast True)].
    eapply Forall_impl; [by eapply (live_versions (wk_read k))|]. cbn. intros m0 Hm0 p Hp0 Hfp.
    specialize (Hm0 p Hp0 Hfp). unfold generation in *. lia.
Qed.

Lemma patch_write_publishing k fs l m m' :
  patching k fs → publishing k fs l m → pm_patches (wk_read k) (wk_obj k) m m' → publishing k fs (l ++ [m']) m'.
Proof.
  intros Hpt Hpb Hp. pose proof (patch_write_inv k fs l m m' Hpt Hpb Hp) as Hi.
  destruct (patch_write (target_path env) has_finalizer plain_measurement (files fs) l _ _ m m' (pt_fair _ _ Hpt)
    (pb_stored _ _ _ _ Hpb) (pb_up _ _ _ _ Hpb) (pb_held _ _ _ _ Hpb) (proj1 Hp)) as (_ & Hup' & Hh').
  split; [apply last_snoc|done|done| |].
  - split; [done| |].
    + apply forall_snoc; [apply Hpb|]. intros x p Hx. by apply (inv_key _ _ _ Hi _ _ Hx).
    + intros x q. by eapply patch_write_ready.
  - destruct Hpt as [_ Hd Hend]. destruct Hpb as [Hm _ Hh _ Hstill].
    intros q Hf Hl Hq Hlq Hr. destruct (patch_cases _ _ _ _ _ _ Hp Hq) as [(_ & q0 & Hq0 & _ & Hs & Hc)|[? _]]; [|done].
    assert (generation q = generation q0) as Eg by apply (same_object_generation _ _ Hs).
    destruct Hc as [Hc|Hc].
    + rewrite Eg. apply (Hstill q0); [done..|by eapply same_object_live|by eapply same_object_ready].
    + destruct Hr as (c & Hrc & Ht & Hg). rewrite Hc in Hrc. by rewrite <-(Hd c Hrc).
Qed.

Lemma publishing_catch k fs m0 l m : last l = Some m → publishing k fs (m0 :: l) m → publishing k fs l m.
Proof.
  intros Hm [_ Hup Hh Hv Hstill]. split; [done|by eapply kept_up_catch| |by eapply versions_catch|done].
  eapply held_catch, Hh. by intros ->.
Qed.

Lemma patch_versions k s r a' :
  thread_ok (Some k, s) → versions_ok s.1 (history s.2) (stored s.2) → measuring k s.1 (stored s.2) →
  wk_rest k = [] → Patch (wk_helper k) (wk_obj k) s.2 = (r, a') → versions_ok s.1 (history a') (stored a').
Proof.
  intros [Hup Hok] Hv [_ Hobj Hd (n & Hn & Hph) Hstill] Hrest Hpatch. destruct s as [fs a]. cbn [fst snd] in *.
  assert (patching k fs) as Hpt.
  { split; [by eapply work_fair|done|]. rewrite Hrest in Hn. do 5 (destruct n as [|n]; [done|]). exact Hph. }
  destruct (ok_helper _ _ _ _ _ _ _ _ Hok) as [a0 Hh].
  destruct (evolves_keep _ (λ l m, publishing k fs l m) _ _ (stored a) (λ l m m' _, patch_write_publishing k fs l m m' Hpt)
    (λ l m0 m Hm, publishing_catch k fs m0 l m Hm) (patch_keeps a0 a _ _ _ _ _ Hh Hobj Hpatch) (history_stored a))
    as (m & Hm & Hpb).
  - split; [apply history_stored|done|apply Hok|done|done].
  - rewrite history_stored in Hm. injection Hm as <-. apply Hpb.
Qed.

(** ** The worker *)
Lemma begin_measuring ns n p h s :
  kept_up (history s.2) → versions_ok s.1 (history s.2) (stored s.2) → Get s.2 ns n = inr p →
  measuring (begin_work (reconcile_steps env) p h) s.1 (stored s.2).
Proof.
  intros Hup [_ Hw Hr] Hp. apply history_get in Hp as (m & l & El & Hp). rewrite El in Hup, Hw, Hr.
  pose proof (up_well _ _ _ Hup) as [Hwell _]%Forall_cons. destruct (Hwell _ _ Hp) as [Hk _]. rewrite Hk in Hp.
  split; cbn [begin_work wk_obj wk_read].
  - apply Forall_cons in Hw as [Hw _]. by eapply Hw.
  - done.
  - intros c. unfold ready_condition, UpdateStatusCondition.
    rewrite get_set_conditions, find_set, decide_True by done. by intros [= <-].
  - exists 0. split; [done|]. unfold phase, unready. cbn [begin_work wk_obj].
    by rewrite condition_status_update, decide_True.
  - intros q Hf _ Hq Hlq Hrq. destruct (Hr _ _ Hq Hlq Hrq) as [_ [Hg _]%Forall_cons]. symmetry. by apply Hg.
Qed.

Lemma rest_in_steps n k f rest : wk_rest k = drop n (reconcile_steps env) → wk_rest k = f :: rest →
  f ∈ reconcile_steps (A := A) env.
Proof.
  intros -> Hd. apply (subseteq_drop n (reconcile_steps env)). rewrite Hd. by left.
Qed.

Lemma worker_measured t s t' s' :
  measured (t, s) → thread_step (λ p, p) (reconcile_steps env) (t, s) (t', s') → measured (t', s').
Proof.
  intros Hm Hs.
  assert (thread_ok (t', s')) as Hok' by (eapply (worker_ok stored); [apply _..|apply Hm|exact Hs]).
  destruct Hm as (Hok & Hv & Ht). cbn [fst snd] in *.
  cut (versions_ok s'.1 (history s'.2) (stored s'.2) ∧
    match t' with Some k => measuring k s'.1 (stored s'.2) | None => True end); [by intros []|].
  inversion Hs as [ns n t1 s1 E1 E2|t1 s1 E1 E2]; subst; [|done]. unfold advance in E2. destruct t as [k|].
  - destruct (wk_rest k) as [|f rest] eqn:Hrest.
    + injection E2 as <- <-. split; [|done].
      exact (patch_versions k s _ _ Hok Hv Ht Hrest (surjective_pairing _)).
    + destruct (m_phase _ _ _ Ht) as (i & Hd & _). pose proof (rest_in_steps i k f rest Hd Hrest) as Hf.
      pose proof (run_one_versions k f rest s _ _ (proj2 Hok) Hv Ht (history_stored _) Hrest Hf) as Hv'.
      pose proof (run_one_measuring k f rest s _ _ (proj2 Hok) Ht Hrest Hf) as Ht'.
      assert (w_api (f (mkWorld (wk_obj k) s.1 s.2)).2 = s.2) as Ha
        by (by destruct (steps_effect f (mkWorld (wk_obj k) s.1 s.2) Hf) as (_ & -> & _)).
      unfold run_one in *. destruct (f (mkWorld (wk_obj k) s.1 s.2)) as [r w'] eqn:Hfw.
      cbn [fst snd] in *. injection E2 as <- <-. cbn [fst snd]. by rewrite Ha.
  - destruct (Get s.2 ns n) as [e|p] eqn:Hget; [by injection E2 as <- <-|].
    destruct (NewHelper s.2 p) as [e|h]; injection E2 as <- <-; [done|]. split; [done|].
    apply (begin_measuring ns n); [apply Hok|done|done].
Qed.

(** ** The users of measurements are users of objects with a file *)
Lemma user_object fs m m' :
  pm_inv fs m → user watched m m' → cached_user (target_path env) has_finalizer plain_measurement m m'.
Proof.
  intros Hi Hu. split.
  - destruct Hu as [p Hn Hw Hp _ _ _|k p q Hp Hk Hu Ht Hg Hf _ Hd|k p q Hp Hk Hu Ht Hg Hf _ Hd|k p Hp Hf].
    + change (System.key p) with (object_key p). apply user_creates; [done|done|]. intros k q Hq E.
      destruct (inv_key _ _ _ Hi _ _ Hq) as (Ek & Hwq & Hpq).
      apply target_key in E; [|done..]. change (k = object_key q) in Ek. rewrite Ek, E in Hq.
      change (m !! object_key p = None) in Hn. cbn [snd] in Hq. congruence.
    + apply user_edits. exists k, p, q. split; [done|]. split; [|by split].
      split; [split; [|simpl; by rewrite Hd]|split; [lia|intros E; lia]]. split_and!; [done..|].
      unfold lineage, pm_lineage. by rewrite Ht.
    + apply user_edits. exists k, p, q. split; [done|]. split; [|by split].
      split; [split; [|done]|split; [lia|intros E; lia]]. split_and!; [done..|].
      unfold lineage, pm_lineage. by rewrite Ht.
    + by eapply user_purges.
  - intros k q Hk Hq. destruct Hu as [p Hn _ _ Hf _ _|k0 p q0 Hp _ _ _ _ _ _ _|k0 p q0 Hp _ _ _ _ _ _ _|k0 p Hp Hf].
    + destruct (decide (k = System.key p)) as [->|Hne]; [|rewrite lookup_insert_ne in Hq by done; congruence].
      rewrite lookup_insert_eq in Hq. injection Hq as <-.
      by apply (guarded_some (target_path env) has_finalizer plain_measurement).
    + destruct (decide (k = k0)) as [->|Hne]; [congruence|rewrite lookup_insert_ne in Hq by done; congruence].
    + destruct (decide (k = k0)) as [->|Hne]; [congruence|rewrite lookup_insert_ne in Hq by done; congruence].
    + destruct (decide (k = k0)) as [->|Hne]; [by rewrite lookup_delete_eq in Hq|].
      rewrite lookup_delete_ne in Hq by done. congruence.
Qed.

(** What users write is not Ready for its present spec. *)
Lemma user_ready fs m m' x q :
  pm_inv fs m → user watched m m' → m' !! x = Some q → ready_now q → m !! x = Some q.
Proof.
  intros Hi Hu.
  assert (∀ y p q', m !! y = Some p → (generation p < generation q')%Z → GetConditions q' = GetConditions p →
    ¬ ready_now q') as Hedit.
  { intros y p q' Hp Hg Hc (c & Hrc & Ht & Hgc). unfold ready_condition in Hrc. rewrite Hc in Hrc.
    pose proof (inv_dated _ _ _ Hi _ _ c Hp Hrc Ht). unfold generation in Hg. simpl in Hgc. lia. }
  destruct Hu as [p Hn _ _ _ Hc _|k p q' Hp _ _ _ Hg _ Hc _|k p q' Hp _ _ _ Hg _ Hc _|k p Hp Hnil].
  - destruct (decide (x = key p)) as [->|Hne]; [|by rewrite lookup_insert_ne].
    rewrite lookup_insert_eq. intros [= <-] (c & Hrc & _). unfold ready_condition in Hrc.
    by rewrite Hc, find_nil in Hrc.
  - destruct (decide (x = k)) as [->|Hne]; [|by rewrite lookup_insert_ne].
    rewrite lookup_insert_eq. intros [= <-] Hr. by destruct (Hedit k p q' Hp Hg Hc).
  - destruct (decide (x = k)) as [->|Hne]; [|by rewrite lookup_insert_ne].
    rewrite lookup_insert_eq. intros [= <-] Hr. by destruct (Hedit k p q' Hp Hg Hc).
  - destruct (decide (x = k)) as [->|Hne]; [by rewrite lookup_delete_eq|by rewrite lookup_delete_ne].
Qed.

Lemma user_versions fs l m m' :
  versions_ok fs l m → user watched m m' → versions_ok fs (l ++ [m']) m'.
Proof.
  intros [Hi Hw Hr] Hu. assert (pm_inv fs m') as Hi' by (by eapply (inv_user (A := System.store) (stored := λ x, x))).
  split; [done| |].
  - apply forall_snoc; [done|]. intros x p Hx. by apply (inv_key _ _ _ Hi' _ _ Hx).
  - intros x q Hq Hl Hrd. destruct (Hr x q (user_ready fs m m' x q Hi Hu Hq Hrd) Hl Hrd) as [? Hall].
    split; [done|]. apply forall_snoc; [done|]. congruence.
Qed.

(** What users make of the versions. *)
Record used (o : option PhysicalMeasurement) fs l0 l m : Prop := {
  us_up : kept_up l;
  us_versions : versions_ok fs l m;
  us_still p : o = Some p → still_ready p m;
  us_users : evolves (cached_user (target_path env) has_finalizer plain_measurement) l0 l
}.
Lemma users_used o fs l l' m :
  evolves (user watched) l l' → last l = Some m → kept_up l → versions_ok fs l m →
  (∀ p, o = Some p → still_ready p m) → ∃ m', last l' = Some m' ∧ used o fs l l' m'.
Proof.
  intros He Hm Hup Hv Hstill. eapply (evolves_keep _ (λ l0 m0, used o fs l l0 m0)); [| |exact He|exact Hm|].
  - intros l0 m0 m1 Hm0 [Hup0 Hv0 Hs0 Hu0] Hu. pose proof (user_object fs m0 m1 (vs_inv _ _ _ Hv0) Hu) as Hc.
    split; [| |intros p Ep q Hf Hl Hq Hlq Hr|].
    + apply (steady_kept (target_path env) has_finalizer plain_measurement (files fs) l0 m0 m1); [|done..].
      apply user_write; [apply _|by eapply kept_up_stored|done].
    + by eapply user_versions.
    + apply (Hs0 p Ep); [done|done| |done|done]. by apply (user_ready fs m0 m1); [apply Hv0|..].
    + eapply rtc_r; [exact Hu0|]. by eapply writes.
  - intros l0 m0 m1 Hm1 [Hup0 Hv0 Hs0 Hu0]. split; [by eapply kept_up_catch|by eapply versions_catch|done|].
    eapply rtc_r; [exact Hu0|]. apply catches_up. by intros ->.
  - split; [done..|]. apply rtc_refl.
Qed.

(** ** The system of the measurements with its worker *)
Inductive measurement_step : relation (thread PhysicalMeasurement A * (Fs * A)) :=
| measurement_worker t s t' s' :
    thread_step (λ p, p) (reconcile_steps env) (t, s) (t', s') → measurement_step (t, s) (t', s')
| measurement_user t fs a a' :
    evolves (user watched) (history a) (history a') → measurement_step (t, (fs, a)) (t, (fs, a'))
| measurement_others t fs fs' a a' :
    (∀ p, plain_measurement p → files fs' !! target_path env p = files fs !! target_path env p) →
    history a' = history a → measurement_step (t, (fs, a)) (t, (fs', a')).

Lemma measuring_files k fs fs' m :
  plain_measurement (wk_read k) →
  (∀ p, plain_measurement p → files fs' !! target_path env p = files fs !! target_path env p) →
  measuring k fs m → measuring k fs' m.
Proof.
  intros Hp Hf [Hw Hobj Hdate (n & Hn & Hph) Hstill]. split; [done..| |done]. exists n. split; [done|].
  assert (target_written k fs → target_written k fs') as Hw' by (unfold target_written; by rewrite Hf by done).
  do 5 (destruct n as [|n]; [cbn in *; tauto|]). cbn in *. tauto.
Qed.

Lemma stored_same a a' : history a' = history a → stored a' = stored a.
Proof. intros E. apply (inj Some). by rewrite <-!history_stored, E. Qed.

Lemma measurement_threaded ts ts' :
  measured ts → measurement_step ts ts' →
  threaded_step history (target_path env) has_finalizer plain_measurement (λ p, p) (reconcile_steps env) ts ts'.
Proof.
  intros (Hok & Hv & _) Hs. destruct Hs as [|t fs a a' Hu|]; [by apply threaded_worker| |by apply threaded_others].
  apply threaded_user. cbn [fst snd] in *.
  destruct (users_used None fs _ _ _ Hu (history_stored a) (proj1 Hok) Hv) as (m & _ & Hused); [done|apply Hused].
Qed.

Lemma measured_step ts ts' : measured ts → measurement_step ts ts' → measured ts'.
Proof.
  intros Hm Hs. assert (thread_ok ts') as Hok'
    by (eapply (threaded_ok stored); [apply _..|apply Hm|by apply measurement_threaded]).
  destruct Hs as [t s t' s' Hs|t fs a a' Hu|t fs fs' a a' Hf Ha].
  - by eapply worker_measured.
  - destruct Hm as (Hok & Hv & Ht). split; [done|]. cbn [fst snd] in *.
    destruct (users_used (wk_read <$> t) fs _ _ _ Hu (history_stored a) (proj1 Hok) Hv) as (m & Hm & Hused).
    { destruct t as [k|]; [|done]. intros p [= <-]. apply Ht. }
    rewrite history_stored in Hm. injection Hm as <-. destruct Hused as [_ Hv' Hs _]. split; [done|].
    destruct t as [k|]; [|done]. destruct Ht as [Hw Hobj Hdate Hph _]. split; [done..|]. by apply Hs.
  - split; [done|]. destruct Hm as (Hok & Hv & Ht). cbn [fst snd] in *. rewrite (stored_same _ _ Ha), Ha. split.
    + eapply versions_files; [exact Hv|]. intros x q Hq _ _. left. apply Hf.
      by destruct (inv_key _ _ _ (vs_inv _ _ _ Hv) _ _ Hq) as (_ & _ & ?).
    + destruct t as [k|]; [|done]. eapply measuring_files; [apply Hok|done|done].
Qed.

Lemma measurement_reached s0 ts :
  history s0.2 = [∅] → rtc measurement_step (None, s0) ts →
  measured ts ∧
  rtc (threaded_step history (target_path env) has_finalizer plain_measurement (λ p, p) (reconcile_steps env)) (None, s0) ts.
Proof.
  intros Hempty Hr. assert (measured (None, s0)) as Hm.
  { assert (stored s0.2 = ∅) as Hnone by (pose proof (history_stored s0.2) as E; rewrite Hempty in E; by injection E).
    split; [split; [cbn [snd]; rewrite Hempty; apply kept_up_start|done]|split; [|done]]. cbn [fst snd].
    rewrite Hempty, Hnone. split; [by apply inv_empty| |].
    - apply Forall_singleton. intros x p. by rewrite lookup_empty.
    - intros x q. by rewrite lookup_empty. }
  clear Hempty. revert Hm. induction Hr as [|ts1 ts2 ts3 Hs _ IH]; [by split; [|apply rtc_refl]|].
  intros Hm. destruct (IH (measured_step _ _ Hm Hs)) as [Hm3 Hr3]. split; [done|].
  eapply rtc_l; [|exact Hr3]. by apply measurement_threaded.
Qed.
End MeasurementThread.
