(* ===== verification/Turns.v ===== *)
(** Fair turns: a machine whose steps are turns of keys, and what a key can count
    on after some turns of its own. *)
From S2P Require Import Prelude.

(** A machine whose steps are turns of keys, or of nobody.  [within k n] says that
    at most [n] turns of [k] are missing; a turn of [k] takes one away, and no other
    step adds any. *)
Section Turns.
Context {S K : Type} `{EqDecision K}.
Context (step : option K → relation S) (inv : S → Prop) (within : K → nat → S → Prop).

Inductive run : list (option K) → relation S :=
| run_nil s : run [] s s
| run_cons l ls s1 s2 s3 : step l s1 s2 → run ls s2 s3 → run (l :: ls) s1 s3.

Definition turns (k : K) (ls : list (option K)) : nat := length (filter (λ l, l = Some k) ls).

Context (step_inv : ∀ l s s', inv s → step l s s' → inv s').
Context (step_turn : ∀ k n s s', inv s → step (Some k) s s' → within k n s → within k (pred n) s').
Context (step_keeps : ∀ k l n s s', inv s → l ≠ Some k → step l s s' → within k n s → within k n s').

Lemma run_inv ls s s' : inv s → run ls s s' → inv s'.
Proof. intros Hi Hr. induction Hr as [|l ls s1 s2 s3 Hs _ IH]; [done|]. by eapply IH, step_inv. Qed.

Lemma run_within k n ls s s' : inv s → run ls s s' → within k n s → within k (n - turns k ls) s'.
Proof.
  intros Hi Hr. revert n. induction Hr as [s|l ls s1 s2 s3 Hs _ IH]; intros n Hw.
  - unfold turns. cbn. by rewrite Nat.sub_0_r.
  - pose proof (step_inv _ _ _ Hi Hs) as Hi2. unfold turns. rewrite filter_cons. case_decide as Hl.
    + subst l. specialize (IH Hi2 (pred n) (step_turn _ _ _ _ Hi Hs Hw)). cbn [length].
      by replace (n - Datatypes.S (length (filter (λ l, l = Some k) ls)))
        with (pred n - length (filter (λ l, l = Some k) ls)) by lia.
    + apply IH; [done|by apply (step_keeps k l n s1)].
Qed.
End Turns.
