(* ===== verification/Settling.v ===== *)
(** Fair turns: when users leave the measurements alone, nothing is refused, and each
    of them gets its turn twice, whatever else happens in between and in whatever
    order the turns come, all of them are as they should be. *)
From S2P Require Import Prelude GoStd Errors Paths FileStore Configuration ApiTypes Steps Cluster.
From S2P Require Import PhysicalMeasurement PhysicalMeasurementController Guard ObjectSystem Threads System MeasurementThread Turns.

(** ** Nothing is refused *)
Class NothingRefused `{Os, Renameio} : Prop := {
  open_accepted fs f : refuse_open fs f = None;
  mkdir_accepted fs f : refuse_mkdir fs f = None;
  remove_accepted fs f : refuse_remove fs f = None;
  write_accepted f data fs : (renameio_WriteFile f data fs).1 = None
}.

(** The server takes all of a patch: the finalizers and the conditions of the object
    it is sent; it is about measurements, and not about devices. *)
Class Accepting (A : Type) `{MetaConditions, Getter A PhysicalMeasurement, Getter A MeasurementDevice,
    Patcher A PhysicalMeasurement} (stored : A → System.store) : Prop := {
  get_accepted a ns n p : stored a !! (ns, n) = Some p → Get a ns n = inr p;
  helper_accepted a p : ∃ h, NewHelper a p = inr h;
  patch_accepted a p p' h : NewHelper a p = inr h → stored a !! key p = Some p → same_object p p' →
    ∃ o, stored (Patch h p' a).2 = partial_alter (λ _, o) (key p) (stored a) ∧
      ∀ q, o = Some q → same_object p q ∧ Finalizers (pm_Meta q) = Finalizers (pm_Meta p') ∧
        ready_condition q = ready_condition p';
  patch_devices a p h ns n : Get (Obj := MeasurementDevice) (Patch h p a).2 ns n = Get a ns n
}.

Section Settling.
Context {A : Type} `{UnicodeTables, MetaConditionsLaws, FinalizerUtilLaws, Os, RenameioLaws,
  Getter A MeasurementDevice, Getter A PhysicalMeasurement, Patcher A PhysicalMeasurement}.
Context (stored : A → System.store) `{!PmServer A stored, !Accepting A stored, !NothingRefused}.
Context (env : validatedEnv) (watched : string → Prop) (Hone : ∀ ns ns', watched ns → watched ns' → ns = ns').
Implicit Types (p q : PhysicalMeasurement) (s : Fs * A).
Abbreviation pm_inv := (inv (stored := stored) env watched).

(** The steps that are left when users rest: a turn of a measurement, and what others
    do that leaves the measurements, their files and the devices they are of alone. *)
Inductive quiet_step : option (string * string) → relation (Fs * A) :=
| quiet_turn ns n s out s' : Reconcile env ns n s = (out, s') → quiet_step (Some (ns, n)) s s'
| quiet_others fs fs' a a' :
    (∀ p, plain_measurement p → files fs' !! target_path env p = files fs !! target_path env p) →
    stored a' = stored a → (∀ p, dependency_of a' p = dependency_of a p) →
    quiet_step None (fs, a) (fs', a').

Lemma quiet_system l s s' : quiet_step l s s' → step (stored := stored) env watched s s'.
Proof. intros Hs. destruct Hs; [by eapply step_reconcile|by apply step_volume]. Qed.

(** A live measurement at rest has its finalizer, and if the device it is of is there
    it is Ready for its spec, and published. *)
Definition settled p s : Prop :=
  has_finalizer p = true ∧
  (dependency_of s.2 p = Dep_present →
     ready_now p ∧ files s.1 !! target_path env p = Some (target_data p)).
(** Two turns are enough for a live one, one for one that is deleted. *)
Definition within (k : string * string) (n : nat) s : Prop :=
  ∀ p, stored s.2 !! k = Some p →
    if decide (DeletionTimestamp (pm_Meta p) = None)
    then n = 0 ∧ settled p s ∨ n = 1 ∧ has_finalizer p = true ∨ 2 ≤ n
    else n = 0 → has_finalizer p = false.

(** *** The turn of a measurement *)
Lemma deletion_accepted w :
  DeletionTimestamp (pm_Meta (w_obj w)) ≠ None →
  has_finalizer (w_obj (run_steps (reconcile_steps env) w).2) = false.
Proof.
  intros Hd. destruct (run_steps_refines env w) as ((res & _ & Hp) & _ & _).
  unfold the_view in Hp. destruct (has_finalizer (w_obj w)) eqn:Hf; [|by inversion Hp].
  set (w1 := mkWorld (UpdateStatusCondition ConditionReady ConditionUnknown ReasonReconciling
    "Reconciliation is in progress" (w_obj w)) (w_fs w) (w_api w)).
  change (run_steps (reconcile_steps env) w) with (Run (reconcile_steps env) w1).
  assert (∃ w2, reconcileDeletion env w1 = (Done Stop, w2) ∧ has_finalizer (w_obj w2) = false) as (w2 & Hs & Hf2).
  { unfold reconcileDeletion. rewrite run_bind, run_the_obj, decide_False by done.
    change (has_finalizer (w_obj w1)) with (has_finalizer (w_obj w)). rewrite Hf. cbn [negb].
    rewrite run_bind, run_fs_call. unfold Remove. rewrite remove_accepted.
    destruct (files (w_fs w1) !! _); cbn [fst snd]; (eexists; split; [reflexivity|apply has_finalizer_remove]). }
  unfold reconcile_steps. rewrite (Run_cons _ _ _ _ _ Hs). exact Hf2.
Qed.

(** Adopted first, published next. *)
Lemma live_turn w :
  DeletionTimestamp (pm_Meta (w_obj w)) = None →
  let w' := (run_steps (reconcile_steps env) w).2 in
  has_finalizer (w_obj w') = true ∧
  (has_finalizer (w_obj w) = true → dependency_of (w_api w) (w_obj w) = Dep_present →
     condition_status ConditionReady (w_obj w') = Some ConditionTrue ∧
     files (w_fs w') !! target_path env (w_obj w) = Some (target_data (w_obj w))).
Proof.
  intros Hd w'. destruct (run_steps_refines env w) as ((res & _ & Hp) & _ & _). fold w' in Hp.
  unfold the_view in Hp. split; [by inversion Hp|]. intros Hf Hdep.
  destruct (PhysicalMeasurement_converges env w) as (w2 & Hrun & Hready & Hfs);
    [apply open_accepted|apply mkdir_accepted|apply write_accepted|done..|].
  unfold w'. rewrite Hrun. cbn [snd]. split; [done|]. by rewrite Hfs, lookup_insert_eq.
Qed.

Lemma turn_outcome ns n p s out s' :
  pm_inv s → stored s.2 !! (ns, n) = Some p → Reconcile env ns n s = (out, s') →
  ∃ p' o, (ns, n) = key p ∧ same_object p p' ∧ stored s'.2 = partial_alter (λ _, o) (key p) (stored s.2) ∧
    (∀ q, o = Some q → same_object p q ∧ Finalizers (pm_Meta q) = Finalizers (pm_Meta p') ∧
       ready_condition q = ready_condition p') ∧
    (∀ c, ready_condition p' = Some c → cond_ObservedGeneration c = Generation (pm_Meta p)) ∧
    (∀ q, dependency_of s'.2 q = dependency_of s.2 q) ∧
    (∀ x, x ≠ target_path env p → files s'.1 !! x = files s.1 !! x) ∧
    (DeletionTimestamp (pm_Meta p) ≠ None → has_finalizer p' = false) ∧
    (DeletionTimestamp (pm_Meta p) = None → has_finalizer p' = true ∧
       (has_finalizer p = true → dependency_of s.2 p = Dep_present →
          condition_status ConditionReady p' = Some ConditionTrue ∧
          files s'.1 !! target_path env p = Some (target_data p))).
Proof.
  intros Hi Hp. destruct (inv_key _ _ _ Hi _ _ Hp) as (Hk & _ & _). pose proof Hp as Hp'. rewrite Hk in Hp'.
  destruct s as [fs a]. cbn [fst snd] in *. unfold Reconcile, reconcile_with.
  rewrite (get_accepted _ _ _ _ Hp). destruct (helper_accepted a p) as [h Hh]. rewrite Hh.
  set (w := mkWorld p fs a). destruct (run_steps_refines env w) as ((res & _ & Hpass) & Hsame & Hapi).
  apply pass_effect in Hpass. pose proof (deletion_accepted w) as Hdel. pose proof (live_turn w) as Hlive. cbv zeta in Hlive.
  pose proof (λ c, dated_run_steps _ w c (dated_steps env)) as Hdate.
  destruct (run_steps (reconcile_steps env) w) as [r w']. unfold deferred_patch. cbn [fst snd] in *.
  rewrite Hapi. destruct (patch_accepted a p (w_obj w') h Hh Hp' Hsame) as (o & Hst & Ho).
  pose proof (λ q, patch_devices a (w_obj w') h (Namespace (pm_Meta q)) (pm_MeasurementDevice (pm_Spec q))) as Hdev.
  change (w_api w) with a. destruct (Patch h (w_obj w') a) as [perr a']. intros [= _ <-]. cbn [fst snd] in *.
  exists (w_obj w'), o. split_and!; try done.
  - intros q. unfold dependency_of. by rewrite Hdev.
  - intros x Hx. exact (effect_elsewhere env _ _ _ _ _ _ x Hpass Hx).
Qed.

Lemma same_object_finalizer p q : Finalizers (pm_Meta q) = Finalizers (pm_Meta p) → has_finalizer q = has_finalizer p.
Proof. unfold has_finalizer. by intros ->. Qed.

(** Without a measurement there is nothing to do. *)
Lemma idle_turn ns n out s s' : stored s.2 !! (ns, n) = None → Reconcile env ns n s = (out, s') → s' = s.
Proof.
  intros Hn [->|(p & h & o & w' & Hget & _)]%reconcile_with_inv; [done|]. apply get_stored in Hget. congruence.
Qed.

Lemma turn_within ns n out s s' m :
  pm_inv s → Reconcile env ns n s = (out, s') → within (ns, n) m s → within (ns, n) (pred m) s'.
Proof.
  intros Hi Hr Hw q Hq. destruct (stored s.2 !! (ns, n)) as [p|] eqn:Hp;
    [|rewrite (idle_turn _ _ _ _ _ Hp Hr) in Hq; congruence].
  destruct (turn_outcome _ _ _ _ _ _ Hi Hp Hr) as (p' & o & Hk & _ & Hst & Ho & Hdate & Hdep & _ & Hdel & Hlive).
  rewrite Hst, Hk, lookup_partial_alter_eq in Hq. destruct (Ho q Hq) as (Hsame & Hfin & Hready).
  apply same_object_finalizer in Hfin. specialize (Hw p Hp).
  destruct (same_object_target env p q Hsame) as (Hpath & Hdata & _ & Hd & Hdp). rewrite Hd.
  case_decide as Hd'; [|by intros _; rewrite Hfin; apply Hdel].
  destruct (Hlive Hd') as [Hf' Hpub].
  assert (has_finalizer p = true → settled q s') as Hsettled.
  { intros Hf. split; [congruence|]. rewrite Hdep, Hdp. intros Hpresent. destruct (Hpub Hf Hpresent) as [Hc Hfile].
    rewrite Hpath, Hdata. split; [|done]. unfold condition_status in Hc.
    destruct (ready_condition p') as [c|] eqn:E; unfold ready_condition in E; rewrite E in Hc; [|done].
    exists c. split; [exact Hready|]. split; [by injection Hc|].
    change (obj_Meta q) with (pm_Meta q). rewrite (same_object_generation _ _ Hsame). by apply Hdate. }
  destruct Hw as [[-> [Hf _]]|[[-> Hf]|Hm]].
  - left. split; [done|by apply Hsettled].
  - left. split; [done|by apply Hsettled].
  - right. destruct (decide (m = 2)) as [->|Hne]; [left; split; [done|congruence]|right; lia].
Qed.

Lemma turn_keeps k ns n out s s' m :
  pm_inv s → k ≠ (ns, n) → Reconcile env ns n s = (out, s') → within k m s → within k m s'.
Proof.
  intros Hi Hne Hr Hw q Hq. destruct (stored s.2 !! (ns, n)) as [p|] eqn:Hp;
    [|rewrite (idle_turn _ _ _ _ _ Hp Hr) in *; by apply Hw].
  destruct (turn_outcome _ _ _ _ _ _ Hi Hp Hr) as (p' & o & Hk & _ & Hst & _ & _ & Hdep & Hfiles & _).
  rewrite Hst, lookup_partial_alter_ne in Hq by congruence. specialize (Hw q Hq).
  case_decide; [|done]. destruct Hw as [[-> [Hf Hs]]|Hw]; [left|by right]. split; [done|]. split; [done|].
  rewrite Hdep, Hfiles; [done|]. intros E. apply Hne. by eapply (target_unique env watched s).
Qed.

Lemma quiet_turn_step k m s s' :
  pm_inv s → quiet_step (Some k) s s' → within k m s → within k (pred m) s'.
Proof. intros Hi Hs. inversion Hs; subst. by eapply turn_within. Qed.

Lemma quiet_keeps k l m s s' :
  pm_inv s → l ≠ Some k → quiet_step l s s' → within k m s → within k m s'.
Proof.
  intros Hi Hl Hs. destruct Hs as [ns n s out s' Hr|fs fs' a a' Hf Ha Hdep].
  - eapply turn_keeps; [done| |done]. congruence.
  - intros Hw q Hq. cbn [fst snd] in Hq. rewrite Ha in Hq. specialize (Hw q Hq).
    unfold settled in *. cbn [fst snd] in *. rewrite Hdep, Hf; [done|].
    by destruct (inv_key _ _ _ Hi _ _ Hq) as (_ & _ & ?).
Qed.

Lemma quiet_inv l s s' : pm_inv s → quiet_step l s s' → pm_inv s'.
Proof. intros Hi Hs. by eapply inv_step, quiet_system. Qed.

Lemma quiet_run_system ls s s' : run quiet_step ls s s' → rtc (step (stored := stored) env watched) s s'.
Proof.
  intros Hr. induction Hr as [|l ls s1 s2 s3 Hs _ IH]; [apply rtc_refl|]. eapply rtc_l; [by eapply quiet_system|done].
Qed.

Lemma run_settles k ls s s' : pm_inv s → run quiet_step ls s s' → 2 ≤ turns k ls → within k 0 s'.
Proof.
  intros Hi Hr Ht. replace 0 with (2 - turns k ls) by lia.
  apply (run_within quiet_step pm_inv within quiet_inv quiet_turn_step quiet_keeps k 2 ls s s'); [done..|].
  intros p _. case_decide; [right; right; lia|lia].
Qed.
End Settling.

Section SettlingProperties.
Context {A : Type} `{UnicodeTables, MetaConditionsLaws, FinalizerUtilLaws, Os, RenameioLaws,
  Getter A MeasurementDevice, Getter A PhysicalMeasurement, Patcher A PhysicalMeasurement}.
Context (stored : A → System.store) `{!PmServer A stored, !Accepting A stored, !NothingRefused}.
Context (env : validatedEnv) (watched : string → Prop) (Hone : ∀ ns ns', watched ns → watched ns' → ns = ns').

(** C5: everything comes to rest.  Let one namespace be watched, and users not edit
    the type of a measurement.  From any state such a cluster has reached, when users
    then leave the measurements alone and nothing is refused, two turns for each
    measurement are enough, in whatever order the turns come, and whatever the other
    controllers and everyone else do to the rest of the volume and of the API between
    them: every measurement that is live has its finalizer, and if the device it is
    of is there (or it is of none) it is Ready for its spec and published; one that
    is deleted has been let go; and the only target files are those of measurements
    that are live. *)
Theorem measurements_settle (s0 s s' : Fs * A) ls :
  stored s0.2 = ∅ → (∀ p, plain_measurement p → files s0.1 !! target_path env p = None) →
  rtc (step (stored := stored) env watched) s0 s →
  run (quiet_step stored env) ls s s' →
  (∀ k, is_Some (stored s'.2 !! k) → 2 ≤ turns k ls) →
  (∀ k p, stored s'.2 !! k = Some p →
     if decide (DeletionTimestamp (pm_Meta p) = None)
     then has_finalizer p = true ∧
          (dependency_of s'.2 p = Dep_present →
             ready_now p ∧ files s'.1 !! target_path env p = Some (target_data p))
     else has_finalizer p = false) ∧
  (∀ p0, plain_measurement p0 → is_Some (files s'.1 !! target_path env p0) →
     ∃ k p, stored s'.2 !! k = Some p ∧ target_path env p = target_path env p0 ∧
       DeletionTimestamp (pm_Meta p) = None).
Proof.
  intros Hempty Hf Hr Hq Hfair. pose proof (inv_reached env watched Hone s0 s Hempty Hr) as Hi.
  assert (∀ k p, stored s'.2 !! k = Some p → within stored env k 0 s') as Hrest.
  { intros k p Hp. eapply (run_settles stored env watched Hone); [done..|]. apply Hfair. by exists p. }
  assert (rtc (step (stored := stored) env watched) s0 s') as Hr'
    by (etransitivity; [exact Hr|by eapply quiet_run_system]).
  split.
  - intros k p Hp. pose proof (Hrest k p Hp p Hp) as Hw. case_decide; [|by apply Hw].
    destruct Hw as [[_ Hs]|[[? _]|?]]; [exact Hs|lia..].
  - intros p0 Hp0 Hin. destruct (owned_reached env watched Hone s0 s' Hempty Hf Hr') with (x := target_path env p0)
      as (k & p & Hp & E & Hfin); [by exists p0|done|].
    exists k, p. split; [done|]. split; [done|]. destruct (decide (DeletionTimestamp (pm_Meta p) = None)) as [|Hd]; [done|].
    pose proof (Hrest k p Hp p Hp) as Hw. rewrite decide_False in Hw by done. rewrite Hw in Hfin; done.
Qed.
End SettlingProperties.

(** ** A run: one measurement is published and deleted, another one created, and then
    they are left to the controller *)
Module SettlingSample.
Import SimpleHelpers SimpleOs SimpleApi SystemSample.

#[export] Instance nothing_refused : NothingRefused.
Proof. by split. Qed.
#[export] Instance accepting : Accepting api api_pms.
Proof.
  split.
  - intros a ns n p Hp. simpl. unfold lookup_api. by rewrite Hp.
  - intros a p. by exists tt.
  - intros a p p' h _ Hp Hsame. exists (Some p'). split; [|by intros q [= <-]].
    destruct (same_object_same_id _ _ Hsame) as (Hk & _). simpl. apply map_eq. intros k.
    change (key_of p') with (object_key p'). rewrite Hk. change (object_key p) with (key p).
    destruct (decide (k = key p)) as [->|Hne].
    + by rewrite lookup_insert_eq, lookup_partial_alter_eq.
    + by rewrite lookup_insert_ne, lookup_partial_alter_ne by done.
  - done.
Qed.

Definition first : PhysicalMeasurement := exporter_pm "dc" "10.0.0.7".
Definition second : PhysicalMeasurement :=
  {| pm_Meta := mkObjectMeta "rack2" "dc" "u2" 1 None [];
     pm_Spec := mkPhysicalMeasurementSpec "prometheus-exporter" "10.0.0.8" "" None;
     pm_Status := mkPhysicalMeasurementStatus 0 [] |}.
Definition turn (n : string) (s : Fs * api) : Fs * api := (Reconcile sample_env "dc" n s).2.
Definition dying (p : PhysicalMeasurement) : PhysicalMeasurement :=
  set_pm_Meta (mkObjectMeta (Name (pm_Meta p)) (Namespace (pm_Meta p)) (UID (pm_Meta p))
    (Generation (pm_Meta p) + 1) (Some 9%Z) (Finalizers (pm_Meta p))) p.
Definition published2 : Fs * api := turn "rack2" (turn "rack2" (create second start)).
Definition deleted2 : Fs * api :=
  match api_pms published2.2 !! ("dc", "rack2") with
  | Some p => create (dying p) published2 | None => published2 end.
Definition left_alone : Fs * api := create first deleted2.
Definition order : list (option (string * string)) :=
  [Some ("dc", "rack1"); Some ("dc", "rack2"); Some ("dc", "rack2"); Some ("dc", "rack1")].
Definition at_rest : Fs * api := turn "rack1" (turn "rack2" (turn "rack2" (turn "rack1" left_alone))).

Example at_rest_files :
  files at_rest.1 = {[target_path sample_env first := target_data first]} ∧ size (files left_alone.1) = 1.
Proof. split; vm_compute; reflexivity. Qed.

Abbreviation one := (λ ns : string, ns = "dc").
Lemma turn_step n s : step (stored := api_pms) sample_env one s (turn n s).
Proof. eapply step_reconcile, surjective_pairing. Qed.
Lemma delete_step : step (stored := api_pms) sample_env one published2 deleted2.
Proof.
  assert (∃ p, api_pms published2.2 !! ("dc", "rack2") = Some p ∧ key p = ("dc", "rack2")) as (p & Hp & Hk)
    by (eexists; split; vm_compute; reflexivity).
  unfold deleted2. rewrite Hp. destruct published2 as [fs a]. apply step_user.
  change (api_pms (create (dying p) (fs, a)).2) with (<[key (dying p) := dying p]> (api_pms a)).
  apply (user_delete _ _ (key (dying p)) p (dying p)); try done; [by rewrite <-Hp, <-Hk|cbn; lia].
Qed.
Lemma left_alone_reached : rtc (step (stored := api_pms) sample_env one) start left_alone.
Proof.
  apply rtc_l with (create second start).
  { apply (create_step _ second); try reflexivity. apply (bool_decide_unpack _). vm_compute. exact I. }
  apply rtc_l with (turn "rack2" (create second start)); [apply turn_step|].
  apply rtc_l with published2; [apply turn_step|]. apply rtc_l with deleted2; [apply delete_step|].
  apply rtc_once, (create_step _ first); try reflexivity. apply (bool_decide_unpack _). vm_compute. exact I.
Qed.
Lemma at_rest_run : run (quiet_step api_pms sample_env) order left_alone at_rest.
Proof. repeat (eapply run_cons; [eapply quiet_turn, surjective_pairing|]). apply run_nil. Qed.
End SettlingSample.
Import SettlingSample.
Import SimpleHelpers SimpleOs SimpleApi SystemSample.

Lemma measurements_settle_witness :
  (∀ k p, api_pms at_rest.2 !! k = Some p →
     if decide (DeletionTimestamp (pm_Meta p) = None)
     then has_finalizer p = true ∧
          (dependency_of at_rest.2 p = Dep_present →
             ready_now p ∧ files at_rest.1 !! target_path sample_env p = Some (target_data p))
     else has_finalizer p = false) ∧
  (∀ p0, plain_measurement p0 → is_Some (files at_rest.1 !! target_path sample_env p0) →
     ∃ k p, api_pms at_rest.2 !! k = Some p ∧ target_path sample_env p = target_path sample_env p0 ∧
       DeletionTimestamp (pm_Meta p) = None).
Proof.
  apply (measurements_settle api_pms sample_env (λ ns, ns = "dc") ltac:(congruence) start left_alone at_rest order).
  - reflexivity.
  - intros p _. apply lookup_empty.
  - apply left_alone_reached.
  - apply at_rest_run.
  - intros k [p Hp]. assert (map_Forall (λ k _, 2 ≤ turns k order) (api_pms at_rest.2)) as Hall
      by (refine (bool_decide_unpack _ _); vm_compute; exact I).
    exact (Hall k p Hp).
Defined.
