(* ===== verification/ResourceSystem.v ===== *)
(** The system of the data centre resources: the controller patches on its way
    the status of the resources a valid one unblocks, and follows the protocol of
    finalizers on the rule file of its own.  No rule file outlives its resource. *)
From S2P Require Import Prelude GoStd Errors Paths FileStore Configuration Selector ApiTypes.
From S2P Require Import Steps Cluster Validate Rules DataCenterResourceController Guard ObjectSystem.

(** A reload of Prometheus changes no object. *)
Class ReloadLaws (A : Type) `{HttpPost A} {X} (stored : A → X) : Prop := {
  post_stored url fs a r a' : http_Post url fs a = (r, a') → stored a' = stored a
}.

(** Names are those of files. *)
Definition plain_resource (d : DataCenterResource) : Prop := filepath.slash ∉ chars (dcr_Name d).

Section ResourceSystem.
Context {A : Type} `{UnicodeTables, MetaConditionsLaws, FinalizerUtilLaws, Os, MapOrder, LabelValidation, SortSlice}.
Context `{SelectorClient A, TextTemplate, DcrLister A, RuleYaml, HttpPost A}.
Context `{Getter A DataCenterResource, Patcher A DataCenterResource}.
Context (stored : A → gmap (string * string) DataCenterResource) `{!ObjectServer stored, !ReloadLaws A stored}.
Context (env : validatedEnv).
Implicit Types (d : DataCenterResource) (w : World DataCenterResource A).

#[export] Instance resource_owner : FileOwner (rule_path env) has_finalizer plain_resource.
Proof.
  split.
  - intros d d' [Hk _]. unfold object_key in Hk. injection Hk as _ Hn. unfold rule_path, dcr_Name. simpl in Hn.
    by rewrite Hn.
  - intros d d' [Hk _]. unfold object_key in Hk. injection Hk as _ Hn. unfold plain_resource, dcr_Name.
    simpl in Hn. by rewrite Hn.
  - unfold object_Finalizers, has_finalizer. by intros d d' [= ->].
  - unfold object_Finalizers, has_finalizer. simpl. intros d ->. apply not_true_is_false.
    intros Hc. by apply contains_finalizer, not_elem_of_nil in Hc.
Qed.

(** ** What a pass does to the API

    It reloads Prometheus and clears the status of other resources, which for most
    of the API is nothing and for the stored resources a few edits. *)
Section PassApi.
Context (R : relation A) `{!PreOrder R}.
Context (R_post : ∀ url fs a, R a (http_Post url fs a).2).
Context (R_clear : ∀ a d h, NewHelper a d = inr h → R a (Patch h (set_dcr_InvolvedResource "" d) a).2).

Definition api_moves : relation (World DataCenterResource A) := λ w w', R (w_api w) (w_api w').
#[local] Instance api_moves_preorder : PreOrder api_moves.
Proof. unfold api_moves. split; [by intros w|]. intros w1 w2 w3. apply transitivity. Qed.

Lemma moves_same w w' : w_api w' = w_api w → api_moves w w'.
Proof. unfold api_moves. by intros ->. Qed.
Lemma moves_obj (f : DataCenterResource → DataCenterResource) : frame api_moves (with_obj f).
Proof. apply frame_with_obj. intros w. by apply moves_same. Qed.
Lemma moves_fs {X} (op : Fs → X * Fs) : frame api_moves (fs_call op).
Proof. apply frame_fs_call. intros w. by apply moves_same. Qed.
Lemma moves_the_obj : frame api_moves the_obj.
Proof. apply frame_gets, _. Qed.
Lemma moves_the_api : frame api_moves the_api.
Proof. apply frame_gets, _. Qed.
Lemma moves_post url fs : frame api_moves (api_call (http_Post url fs)).
Proof. apply frame_api_call. intros w. apply R_post. Qed.
Hint Resolve moves_obj moves_fs moves_the_obj moves_the_api moves_post : go.

Lemma moves_reload : frame api_moves (reloadPrometheus env).
Proof. unfold reloadPrometheus. frame_auto. Qed.
Lemma moves_fail t r msg e : frame api_moves (fail_step t r msg e).
Proof. unfold fail_step. frame_auto. Qed.
Lemma moves_pass t st r msg res : frame api_moves (pass_step t st r msg res).
Proof. unfold pass_step. frame_auto. Qed.
Hint Resolve moves_reload moves_fail moves_pass : go.

Lemma moves_clear referenced : frame api_moves (clearReferencedValidation referenced).
Proof.
  unfold clearReferencedValidation. intros w. rewrite run_bind, run_the_obj.
  destruct (_ || _); [|by apply moves_same]. rewrite run_bind. unfold the_api. rewrite run_gets.
  destruct (NewHelper (w_api w) referenced) as [e|h] eqn:Hh; [by apply moves_same|].
  rewrite run_bind, run_api_call, run_ret. by apply R_clear.
Qed.
Hint Resolve moves_clear : go.

Lemma moves_clear_all items : frame api_moves (clear_all items).
Proof. induction items as [|item items IH]; cbn [clear_all]; frame_auto. Qed.
Hint Resolve moves_clear_all : go.

Lemma moves_steps : Forall (frame api_moves) (reconcile_steps env).
Proof.
  unfold reconcile_steps. rewrite !Forall_cons, Forall_nil. split_and!; [..|done].
  - unfold reconcileDeletion. frame_auto.
  - unfold ensureFinalizerIsSet. frame_auto.
  - unfold reconcileValidation. frame_auto.
  - unfold reconcileWriteRuleFile, write_rule_file, reload_applied. frame_auto.
  - unfold reconcileReady. frame_auto.
Qed.

Lemma run_steps_moves w : R (w_api w) (w_api (run_steps (reconcile_steps env) w).2).
Proof. apply (Run_frame api_moves _ moves_steps (mkWorld _ (w_fs w) (w_api w))). Qed.
End PassApi.

(** The patch of a status is an edit. *)
Definition edited : relation A := λ a a', rtc edit (stored a) (stored a').
#[export] Instance edited_preorder : PreOrder edited.
Proof. split; [by intros a; apply rtc_refl|]. intros a1 a2 a3. unfold edited. apply transitivity. Qed.
Lemma edited_post url fs a : edited a (http_Post url fs a).2.
Proof. unfold edited. rewrite (post_stored _ _ _ _ _ (surjective_pairing _)). apply rtc_refl. Qed.
Lemma edited_clear a d h : NewHelper a d = inr h → edited a (Patch h (set_dcr_InvolvedResource "" d) a).2.
Proof.
  intros Hh. assert (same_id d (set_dcr_InvolvedResource "" d)) as Hid by done. unfold edited.
  destruct (object_patch a a _ _ h _ _ Hh Hid (surjective_pairing _))
    as [->|(d0 & o & Hd0 & Ho & ->)]; [apply rtc_refl|]. apply rtc_once.
  destruct Ho as [q Hk [Hf|[Hno _]]|Hno _ _]; [|by destruct Hno..]. by exists (object_key d), d0, q.
Qed.

(** ** The protocol *)
Lemma pass_protocol d i fin fs v a r out fin' fs' v' a' r' :
  pass env d i (mkView fin fs v a r) out (mkView fin' fs' v' a' r') →
  (∀ x, x ≠ rule_path env d → fs' !! x = fs !! x) ∧
  (is_Some (fs' !! rule_path env d) → if fin then fin' = true else is_Some (fs !! rule_path env d)).
Proof.
  intros Hp. inversion Hp; subst; (split; [|try done]); try done.
  all: try (rewrite lookup_delete_eq; by intros []).
  all: intros x Hx; repeat match goal with
    | Hor : _ ∨ _ |- _ => destruct Hor
    | Hex : ∃ _, _ |- _ => destruct Hex
    | Hand : _ ∧ _ |- _ => destruct Hand
    end; subst; by rewrite ?lookup_delete_ne, ?lookup_insert_ne by done.
Qed.

#[export] Instance resource_controller :
  FollowsProtocol stored (rule_path env) has_finalizer plain_resource (Reconcile env).
Proof.
  intros ns n s out s' Hw [->|(d & h & o & w' & Hget & Hh & Hrun & ->)]%reconcile_with_inv;
    [split; [apply rtc_refl|done]|].
  destruct s as [fs a]. cbn [fst snd] in *. apply object_get in Hget. destruct (Hw _ _ Hget) as [Hk _]. rewrite Hk in Hget. clear Hk.
  set (d1 := normalizeDataCenterResource d) in *.
  destruct (dcr_run_steps_refines env (mkWorld d1 fs a)) as (i & _ & _ & Hsame & _ & Hpass).
  pose proof (run_steps_moves edited edited_post edited_clear (mkWorld d1 fs a)) as Hedits.
  rewrite Hrun in *. unfold edited in Hedits. cbn [fst snd w_obj w_api] in *.
  unfold the_view in Hpass. cbn [w_obj w_fs] in Hpass. apply pass_protocol in Hpass as [Helse Hown].
  eapply (pass_follows stored (rule_path env) has_finalizer plain_resource a fs d d1 (w_obj w'));
    [done..| |done|apply surjective_pairing|by intros x _; apply Helse|done].
  destruct Hsame as [_ Hm]. unfold set_Finalizers in Hm. injection Hm as Hn Hns Hu _ _.
  unfold same_id, object_key. simpl. by rewrite Hn, Hns, Hu.
Qed.
End ResourceSystem.

Section ResourceProperties.
Context {A : Type} `{UnicodeTables, MetaConditionsLaws, FinalizerUtilLaws, Os, MapOrder, LabelValidation, SortSlice}.
Context `{SelectorClient A, TextTemplate, DcrLister A, RuleYaml, HttpPost A}.
Context `{Getter A DataCenterResource, Patcher A DataCenterResource}.
Context (stored : A → gmap (string * string) DataCenterResource) `{!ObjectServer stored, !ReloadLaws A stored}.

(** The system of the resources. *)
Definition resource_step (env : validatedEnv) : relation (Fs * A) :=
  object_step stored (rule_path env) plain_resource (Reconcile env).

(** No rule file outlives its resource: in every state a cluster reaches from a
    volume without rule files, whatever users do short of giving two resources one
    name or removing finalizers by hand, whatever the volume, the API, Prometheus
    and the templates refuse, and although each pass also patches other resources:
    a rule file belongs to a stored resource of its name that still has the
    finalizer, so that a pass will remove the file before the resource is gone. *)
Theorem resources_no_orphans (env : validatedEnv) (s0 s : Fs * A) d0 :
  stored s0.2 = ∅ → (∀ d, plain_resource d → files s0.1 !! rule_path env d = None) →
  rtc (resource_step env) s0 s →
  plain_resource d0 → is_Some (files s.1 !! rule_path env d0) →
  ∃ ns d, stored s.2 !! (ns, dcr_Name d0) = Some d ∧ has_finalizer d = true.
Proof.
  intros Hempty Hf Hr Hd0 Hin.
  destruct (objects_owned stored (rule_path env) has_finalizer plain_resource (Reconcile env) s0 s d0)
    as (d & Hd & Hp & E & Hfin); [done..|].
  apply rule_path_inj in E; [|done..]. exists (Namespace (dcr_Meta d)), d. by rewrite <-E.
Qed.
End ResourceProperties.

(** ** A run: a PDU is created, adopted, published, deleted and cleaned up *)
Module ResourceSample.
Import SimpleHelpers SimpleOs SimpleApi SimpleSort SampleDcr.

(** A server of resources, and the reloads it has seen. *)
Record server := mkServer { sv_resources : gmap (string * string) DataCenterResource; sv_reloads : nat }.
#[export] Instance sv_getter : Getter server DataCenterResource := {| Get a := merge_get (sv_resources a) |}.
#[export] Instance sv_patcher : Patcher server DataCenterResource :=
  {| helper := DataCenterResource; NewHelper _ d := inr d;
     Patch d d' a := let '(err, m) := merge_patch d d' (sv_resources a) in (err, mkServer m (sv_reloads a)) |}.
#[export] Instance sv_post : HttpPost server :=
  {| http_Post _ _ a := (inr StatusOK, mkServer (sv_resources a) (S (sv_reloads a))) |}.
#[export] Instance sv_selector : SelectorClient server :=
  {| Get_ConfigMap _ _ n := inl (StatusError true n); Get_Secret _ _ n := inl (StatusError true n) |}.
#[export] Instance sv_lister : DcrLister server :=
  {| List_DCR a ns _ := (snd <$> filter (λ kv, kv.1.1 = ns) (map_to_list (sv_resources a)), None) |}.

#[export] Instance sv_laws : ObjectServer sv_resources.
Proof.
  split; [intros a; apply merge_get_stored|]. intros a0 a d d' h r a' [= <-] _. simpl.
  pose proof (merge_patch_stored d d' (sv_resources a)) as Hm.
  by destruct (merge_patch d d' (sv_resources a)) as [err m]; intros [= _ <-].
Qed.
#[export] Instance sv_reload_laws : ReloadLaws server sv_resources.
Proof. split. by intros url fs a r a' [= _ <-]. Qed.

Definition begin : Fs * server := (empty_fs, mkServer ∅ 0).
Definition put (d : DataCenterResource) (s : Fs * server) : Fs * server :=
  (s.1, mkServer (<[object_key d := d]> (sv_resources s.2)) (sv_reloads s.2)).
Definition turn (s : Fs * server) : Fs * server :=
  (Reconcile sample_env (Namespace (dcr_Meta sample_pdu)) "pdu1" s).2.
Definition applied : Fs * server := turn (turn (put sample_pdu begin)).
Definition dying_pdu : DataCenterResource :=
  set_dcr_Meta (mkObjectMeta "pdu1" (Namespace (dcr_Meta sample_pdu)) "u" 2 (Some 7%Z)
    [DataCenterResourceGraphFinalizer]) sample_pdu.
Definition gone : Fs * server := turn (put dying_pdu applied).

Example cleaned_up :
  size (files applied.1) = 1 ∧ sv_reloads applied.2 = 1 ∧
  files gone.1 = ∅ ∧ sv_resources gone.2 = ∅ ∧ sv_reloads gone.2 = 2.
Proof. by vm_compute. Qed.

Lemma applied_reached : rtc (resource_step sv_resources sample_env) begin applied.
Proof.
  eapply rtc_l; [apply (object_users _ _ _ _ _ _ (put sample_pdu begin).2), user_creates; try done|].
  { apply (bool_decide_unpack _). vm_compute. exact I. }
  eapply rtc_l; [eapply object_reconcile, surjective_pairing|].
  eapply rtc_l; [eapply object_reconcile, surjective_pairing|].
  apply rtc_refl.
Qed.
End ResourceSample.
Import ResourceSample.
Import SimpleHelpers SimpleOs SimpleApi SimpleSort SampleDcr.

Lemma resources_no_orphans_witness :
  ∃ ns d, sv_resources applied.2 !! (ns, dcr_Name sample_pdu) = Some d ∧ has_finalizer d = true.
Proof.
  apply (resources_no_orphans sv_resources sample_env begin applied sample_pdu).
  - reflexivity.
  - intros d _. apply lookup_empty.
  - apply applied_reached.
  - apply (bool_decide_unpack _). vm_compute. exact I.
  - vm_compute. by eexists.
Defined.
