(* ===== verification/ResourceSettling.v ===== *)
(** Fair turns of the data centre resources: when users leave them alone, nothing is
    refused and each gets its turn twice, in whatever order, all of them are as they
    should be.  The turns meet: each validates against the stored resources, clears
    the status of others, and reloads the one Prometheus. *)
From S2P Require Import Prelude GoStd Errors Paths FileStore Configuration Selector ApiTypes.
From S2P Require Import Steps Cluster Validate Rules DataCenterResourceController Guard ObjectSystem ResourceSystem Turns.

(** ** What a turn goes by

    The verdict depends on a resource's spec and name, and on the parents of the
    live resources of its namespace. *)
Section Verdict.
Definition parents_in (m : resources_map) (n : string) : option (list string) :=
  (λ r, ParentNames (dcr_Spec r)) <$> m !! n.

Lemma ancestor_parents m m' start n :
  (∀ x, parents_in m' x = parents_in m x) → ancestor m start n → ancestor m' start n.
Proof.
  intros Hm. induction 1 as [n Hn|n r p _ IH Hr Hp]; [by apply ancestor_parent|].
  specialize (Hm n). unfold parents_in in Hm. rewrite Hr in Hm. destruct (m' !! n) as [r'|] eqn:Hr'; [|done].
  injection Hm as E. eapply ancestor_step; [exact IH|exact Hr'|]. by rewrite E.
Qed.

Lemma clear_of_parents m m' name n :
  (∀ x, parents_in m' x = parents_in m x) → clear_of m name n → clear_of m' name n.
Proof.
  intros Hm (r & Hr & Hn). specialize (Hm n). unfold parents_in in Hm. rewrite Hr in Hm.
  destruct (m' !! n) as [r'|] eqn:Hr'; [|done]. injection Hm as E. exists r'. by rewrite E.
Qed.

Context {A : Type} `{LabelValidation, MapOrderLaws, DcrLister A}.

Lemma verdict_parents (a a' : A) d d' :
  dcr_Spec d' = dcr_Spec d → dcr_Name d' = dcr_Name d →
  (∀ n, parents_in (live_map (List_DCR a' (Namespace (dcr_Meta d')) None).1) n =
        parents_in (live_map (List_DCR a (Namespace (dcr_Meta d)) None).1) n) →
  verdict_of a d = None → verdict_of a' d' = None.
Proof.
  intros Hs Hn Hm. unfold verdict_of.
  destruct (Validate_accepts_iff d (List_DCR a (Namespace (dcr_Meta d)) None).1) as (V & s & e & -> & Hiff).
  destruct (Validate_accepts_iff d' (List_DCR a' (Namespace (dcr_Meta d')) None).1) as (V' & s' & e' & -> & Hiff').
  intros (Hc & Ht & Hl)%Hiff. apply Hiff'. rewrite Hs, Hn. split_and!; [|done..].
  intros n Ha. apply (clear_of_parents _ _ _ _ Hm), Hc. eapply ancestor_parents; [|exact Ha]. by intros x.
Qed.
End Verdict.

(** ** Nothing is refused

    The volume takes what it is given, and Prometheus reloads. *)
Class RulesAccepted (A : Type) `{Os, HttpPost A} : Prop := {
  rules_mkdir fs p : refuse_mkdir fs p = None;
  rules_write fs p c : refuse_write fs p c = None;
  rules_remove fs p : refuse_remove fs p = None;
  reload_accepted url fs (a : A) : (http_Post url fs a).1 = inr StatusOK
}.

(** Lists of a namespace are of the resources that are stored, each once. *)
Class ResourceLister (A : Type) `{DcrLister A} (stored : A → gmap (string * string) DataCenterResource) : Prop := {
  list_stored a ns d : d ∈ (List_DCR a ns None).1 ↔ ∃ n, stored a !! (ns, n) = Some d;
  list_once a ns : (∀ k d, stored a !! k = Some d → k = object_key d) → NoDup (List_DCR a ns None).1
}.

(** What a patch from [d] to [d'] makes of the resource [d0] that is stored: what has
    changed is taken over, and what has not is as it was. *)
Inductive taken `{MetaConditions} (d0 d d' : DataCenterResource) : option DataCenterResource → Prop :=
| taken_merged q :
    same_object d0 q →
    (object_Finalizers d' = object_Finalizers d → object_Finalizers q = object_Finalizers d0) →
    (object_Finalizers d0 = object_Finalizers d → object_Finalizers q = object_Finalizers d') →
    (GetConditions d' = GetConditions d → ready_condition q = ready_condition d0) →
    (ready_condition d0 = ready_condition d → ready_condition q = ready_condition d') →
    taken d0 d d' (Some q)
| taken_removed :
    DeletionTimestamp (dcr_Meta d0) ≠ None → object_Finalizers d' ≠ object_Finalizers d →
    taken d0 d d' None.

(** The server accepts every patch; patches and reloads are not about ConfigMaps and
    Secrets. *)
Class AcceptingResources (A : Type) `{MetaConditions, SelectorClient A, HttpPost A}
    `{Getter A DataCenterResource, Patcher A DataCenterResource}
    (stored : A → gmap (string * string) DataCenterResource) : Prop := {
  resource_found a ns n d : stored a !! (ns, n) = Some d → Get a ns n = inr d;
  resource_helper a d : ∃ h, NewHelper a d = inr h;
  resource_patch a0 a d d' h :
    NewHelper a0 d = inr h → same_object d d' →
    match stored a !! object_key d with
    | None => stored (Patch h d' a).2 = stored a
    | Some d0 => ∃ o, taken d0 d d' o ∧
        stored (Patch h d' a).2 = partial_alter (λ _, o) (object_key d) (stored a)
    end;
  patch_reads a h d : same_reads a (Patch h d a).2;
  post_reads url fs a : same_reads a (http_Post url fs a).2
}.

Section Settling.
Context {A : Type} `{UnicodeTables, MetaConditionsLaws, FinalizerUtilLaws, Os, MapOrderLaws, LabelValidation, SortSlice}.
Context `{SelectorClient A, TextTemplate, DcrLister A, RuleYaml, HttpPost A}.
Context `{Getter A DataCenterResource, Patcher A DataCenterResource}.
Context (stored : A → gmap (string * string) DataCenterResource) `{!ObjectServer stored, !ReloadLaws A stored}.
Context `{!RulesAccepted A, !ResourceLister A stored, !AcceptingResources A stored}.
Context (env : validatedEnv).
Implicit Types (d q : DataCenterResource) (w : World DataCenterResource A) (s : Fs * A).
Abbreviation resources := (gmap (string * string) DataCenterResource).
Implicit Types (m : resources).

(** What clearing a status leaves of a resource. *)
Definition untouched : relation DataCenterResource := λ d q,
  same_object d q ∧ object_Finalizers q = object_Finalizers d ∧ ready_condition q = ready_condition d.
#[local] Instance untouched_preorder : PreOrder untouched.
Proof.
  split; [done|]. intros d1 d2 d3 (Hs1 & ? & ?) (Hs2 & ? & ?). split; [by eapply same_object_trans|].
  split; congruence.
Qed.
(** Nothing but that happens to the resources. *)
Definition calm : relation resources := λ m m', ∀ k, option_Forall2 untouched (m !! k) (m' !! k).
#[local] Instance calm_preorder : PreOrder calm.
Proof. split; [by intros m k|]. intros m1 m2 m3 Hm1 Hm2 k. transitivity (m2 !! k); auto. Qed.
Definition calm_api : relation A := λ a a', calm (stored a) (stored a') ∧ same_reads a a'.
#[local] Instance calm_api_preorder : PreOrder calm_api.
Proof. split; [done|]. intros a1 a2 a3 [? ?] [? ?]. split; by etransitivity. Qed.

Lemma calm_post url fs a : calm_api a (http_Post url fs a).2.
Proof.
  split; [|apply post_reads]. by rewrite (post_stored _ _ _ _ _ (surjective_pairing _)).
Qed.

Lemma calm_clear a d h : NewHelper a d = inr h → calm_api a (Patch h (set_dcr_InvolvedResource "" d) a).2.
Proof.
  intros Hh. split; [|apply patch_reads].
  pose proof (resource_patch a a d (set_dcr_InvolvedResource "" d) h Hh (same_object_refl d)) as Hp.
  destruct (stored a !! object_key d) as [d0|] eqn:Hd0; [|by rewrite Hp].
  destruct Hp as (o & Ho & ->). intros k. destruct (decide (k = object_key d)) as [->|Hne];
    [|by rewrite lookup_partial_alter_ne].
  rewrite lookup_partial_alter_eq, Hd0. destruct Ho as [q Hs Hf _ Hc _|_ Hf]; [|by destruct Hf].
  constructor. split; [done|]. split; [by apply Hf|by apply Hc].
Qed.

(** ** The steps of a turn *)
Definition published (a : A) d (data : string) : Prop :=
  verdict_of a d = None ∧
  ∃ ex, resolveExpressions a (Namespace (dcr_Meta d)) d = Done (inr ex) ∧ rule_data d ex = inr data.

Lemma resource_deletion_accepted w :
  DeletionTimestamp (dcr_Meta (w_obj w)) ≠ None →
  has_finalizer (w_obj (run_steps (reconcile_steps env) w).2) = false.
Proof.
  intros Hd. change (run_steps (reconcile_steps env) w) with (Run (reconcile_steps env) (in_progress w)).
  set (w1 := in_progress w).
  assert (∃ w2, reconcileDeletion env w1 = (Done Stop, w2) ∧ has_finalizer (w_obj w2) = false) as (w2 & Hs & Hf2).
  { unfold reconcileDeletion. rewrite run_bind, run_the_obj, decide_False by done.
    destruct (has_finalizer (w_obj w1)) eqn:Hf; cbn [negb]; [|by exists w1].
    rewrite run_bind, run_fs_call.
    assert ((deleteRuleFile env (w_obj w1) (w_fs w1)).1 = None) as ->.
    { unfold deleteRuleFile, Remove. rewrite rules_remove. by destruct (files (w_fs w1) !! _). }
    unfold reloadPrometheus. rewrite run_bind, run_bind, run_gets. cbv beta.
    rewrite run_bind, run_api_call, reload_accepted, decide_False by (intros Hne; by apply Hne).
    rewrite run_ret, run_bind, run_with_obj. eexists. split; [reflexivity|]. apply dcr_has_finalizer_remove. }
  unfold reconcile_steps. by rewrite (Run_cons _ _ _ _ _ Hs).
Qed.

(** A live one is adopted first; then it is Ready exactly if there is something to
    publish, which is published. *)
Lemma resource_live_turn w :
  DeletionTimestamp (dcr_Meta (w_obj w)) = None →
  let w' := (run_steps (reconcile_steps env) w).2 in
  has_finalizer (w_obj w') = true ∧
  (has_finalizer (w_obj w) = true →
     (condition_status ConditionReady (w_obj w') = Some ConditionTrue ↔ ∃ data, published (w_api w) (w_obj w) data) ∧
     ∀ data, published (w_api w) (w_obj w) data → files (w_fs w') !! rule_path env (w_obj w) = Some data).
Proof.
  intros Hd w'. destruct (dcr_run_steps_pass env w) as (_ & _ & Hp). fold w' in Hp.
  unfold the_view in Hp. split; [by inversion Hp|]. intros Hf.
  assert (in_rendered (inputs_of (in_progress w)) =
    resolveExpressions (w_api w) (Namespace (dcr_Meta (w_obj w))) (w_obj w)) as Hren.
  { change (in_rendered _) with (resolveExpressions (w_api (reconcileValidation (in_progress w)).2)
      (Namespace (dcr_Meta (w_obj w))) (w_obj w)). apply resolve_reads.
    pose proof (moves_steps env calm_api calm_post calm_clear) as Hm. rewrite Forall_forall in Hm.
    assert (reconcileValidation ∈ reconcile_steps env) as Hin by (unfold reconcile_steps; set_solver).
    by destruct (Hm _ Hin (in_progress w)). }
  assert (∀ data, published (w_api w) (w_obj w) data →
    condition_status ConditionReady (w_obj w') = Some ConditionTrue ∧
    files (w_fs w') !! rule_path env (w_obj w) = Some data) as Hpub.
  { intros data (Hv & ex & Hr & Hdata).
    destruct (dcr_live_accepted env w ex data rules_mkdir rules_write (λ url fs a, reload_accepted url fs a) Hd Hf Hv)
      as (w2 & Hrun & Hready & Hfs); [by rewrite Hren|done|].
    unfold w'. rewrite Hrun. cbn [snd]. split; [done|]. by rewrite Hfs, lookup_insert_eq. }
  split; [split|]; [|by intros [data Hdata]; apply (Hpub data)|by intros data Hdata; apply Hpub].
  intros Hready. rewrite Hf, Hready in Hp.
  inversion Hp as [| | | | | | | |fs v a r ex data Hdel Hval Hrd Hdata]; subst.
  exists data. split; [exact Hval|]. exists ex. by rewrite <-Hren.
Qed.

Lemma resource_dated_finalizers f : frame dated (with_obj (A := A) (update_finalizers f)).
Proof. by apply dated_with_obj. Qed.
Lemma resource_dated_involved name : frame dated (with_obj (A := A) (set_dcr_InvolvedResource name)).
Proof. by apply dated_with_obj. Qed.
Hint Resolve resource_dated_finalizers resource_dated_involved : go.
Lemma resource_dated_reload : frame dated (reloadPrometheus (A := A) env).
Proof. unfold reloadPrometheus. frame_auto. Qed.
Lemma resource_dated_clear d : frame dated (clearReferencedValidation (A := A) d).
Proof. unfold clearReferencedValidation. frame_auto. Qed.
Hint Resolve resource_dated_reload resource_dated_clear : go.
Lemma resource_dated_clear_all items : frame dated (clear_all (A := A) items).
Proof. induction items as [|item items IH]; cbn [clear_all]; frame_auto. Qed.
Hint Resolve resource_dated_clear_all : go.

Lemma resource_dated_steps : Forall (frame dated) (reconcile_steps env).
Proof.
  unfold reconcile_steps. rewrite !Forall_cons, Forall_nil. split_and!; [..|done].
  - unfold reconcileDeletion. frame_auto.
  - unfold ensureFinalizerIsSet. frame_auto.
  - unfold reconcileValidation. frame_auto.
  - unfold reconcileWriteRuleFile, write_rule_file, reload_applied. frame_auto.
  - unfold reconcileReady. frame_auto.
Qed.

(** ** A turn *)
Lemma resource_turn_outcome ns n d s out s' :
  well_kept plain_resource (stored s.2) → stored s.2 !! (ns, n) = Some d → Reconcile env ns n s = (out, s') →
  (ns, n) = object_key d ∧
  (∀ k, k ≠ object_key d → option_Forall2 untouched (stored s.2 !! k) (stored s'.2 !! k)) ∧
  same_reads s.2 s'.2 ∧ (∀ x, x ≠ rule_path env d → files s'.1 !! x = files s.1 !! x) ∧
  (stored s'.2 !! object_key d = None → DeletionTimestamp (dcr_Meta d) ≠ None) ∧
  ∃ d', (∀ q, stored s'.2 !! object_key d = Some q → same_object d q ∧
           object_Finalizers q = object_Finalizers d' ∧ ready_condition q = ready_condition d') ∧
    (∀ c, ready_condition d' = Some c → cond_ObservedGeneration c = Generation (dcr_Meta d)) ∧
    (DeletionTimestamp (dcr_Meta d) ≠ None → has_finalizer d' = false) ∧
    (DeletionTimestamp (dcr_Meta d) = None → has_finalizer d' = true ∧
       (has_finalizer d = true → let d1 := normalizeDataCenterResource d in
          (condition_status ConditionReady d' = Some ConditionTrue ↔ ∃ data, published s.2 d1 data) ∧
          ∀ data, published s.2 d1 data → files s'.1 !! rule_path env d = Some data)).
Proof.
  intros Hi Hd. destruct (Hi _ _ Hd) as [Hk _]. pose proof Hd as Hd'. rewrite Hk in Hd'.
  destruct s as [fs a]. cbn [fst snd] in *. unfold Reconcile, reconcile_with. rewrite (resource_found _ _ _ _ Hd).
  set (d1 := normalizeDataCenterResource d). destruct (resource_helper a d1) as [h Hh]. rewrite Hh.
  set (w := mkWorld d1 fs a).
  destruct (dcr_run_steps_pass env w) as (Hsame & _). pose proof (resource_deletion_accepted w) as Hdel.
  pose proof (resource_live_turn w) as Hlive. cbv zeta in Hlive.
  pose proof (λ c, dated_run_steps _ w c resource_dated_steps) as Hdate.
  destruct (run_steps_moves env calm_api calm_post calm_clear w) as [Hcalm Hreads].
  pose proof (λ x out w', dcr_run_confined env w w' out x) as Helse.
  destruct (run_steps (reconcile_steps env) w) as [r w'] eqn:Hrun. unfold deferred_patch. cbn [fst snd] in *.
  pose proof (resource_patch a (w_api w') d1 (w_obj w') h Hh Hsame) as Hpatch.
  pose proof (patch_reads (w_api w') h (w_obj w')) as Hreads'.
  destruct (Patch h (w_obj w') (w_api w')) as [perr a']. cbn [snd] in *. intros [= _ <-]. cbn [fst snd].
  change (object_key d1) with (object_key d) in Hpatch. change (w_api w) with a in *.
  pose proof (Hcalm (object_key d)) as Hown. rewrite Hd' in Hown. inversion Hown as [? d0 Hd0 E1 E2|]; subst.
  rewrite <-E2 in Hpatch. destruct Hpatch as (o & Ho & Hst), Hd0 as (Hs0 & Hf0 & Hr0). rewrite Hst, lookup_partial_alter_eq.
  split; [done|]. split; [intros k Hne; by rewrite lookup_partial_alter_ne|].
  split; [by transitivity (w_api w')|]. split; [intros x Hx; by eapply Helse|].
  split; [destruct Ho as [|Hdel0 _]; [done|]; intros _; by destruct (same_object_name _ _ Hs0) as (_ & _ & <-)|].
  exists (w_obj w'). split; [|done]. intros q ->. inversion Ho as [q' Hsq _ Hf _ Hr|]; subst.
  split; [by eapply same_object_trans|]. split; [by apply Hf|by apply Hr].
Qed.

Lemma resource_idle_turn ns n out s s' : stored s.2 !! (ns, n) = None → Reconcile env ns n s = (out, s') → s' = s.
Proof.
  intros Hn [->|(d & h & o & w' & Hget & _)]%reconcile_with_inv; [done|]. apply object_get in Hget. congruence.
Qed.

(** ** The verdicts are those of the shape of the graph, which turns keep *)
Definition shape m (ns n : string) : option (list string) :=
  m !! (ns, n) ≫= λ d,
    if decide (DeletionTimestamp (dcr_Meta d) = None) then Some (ParentNames (dcr_Spec d)) else None.

Lemma shape_some m ns n d : m !! (ns, n) = Some d → DeletionTimestamp (dcr_Meta d) = None →
  shape m ns n = Some (ParentNames (dcr_Spec d)).
Proof. intros Hd Hl. unfold shape. rewrite Hd. cbn. by rewrite decide_True. Qed.
Lemma shape_none m ns n : (∀ d, m !! (ns, n) = Some d → DeletionTimestamp (dcr_Meta d) ≠ None) → shape m ns n = None.
Proof.
  intros Hm. unfold shape. destruct (m !! (ns, n)) as [d|]; [|done]. cbn. by rewrite decide_False by auto.
Qed.
Lemma shape_same m m' ns n :
  (∀ d, m !! (ns, n) = Some d → DeletionTimestamp (dcr_Meta d) = None → is_Some (m' !! (ns, n))) →
  (∀ q, m' !! (ns, n) = Some q → ∃ d, m !! (ns, n) = Some d ∧ same_object d q) →
  shape m' ns n = shape m ns n.
Proof.
  intros Hlive Hm. unfold shape at 1. destruct (m' !! (ns, n)) as [q|] eqn:Hq; cbn.
  - destruct (Hm q eq_refl) as (d & Hd & Hs). destruct (same_object_name _ _ Hs) as (_ & _ & ->).
    unfold shape. rewrite Hd. cbn. by destruct Hs as [-> _].
  - symmetry. apply shape_none. intros d Hd Hl. by destruct (Hlive d Hd Hl).
Qed.

Lemma listed_shape a ns n :
  well_kept plain_resource (stored a) →
  parents_in (live_map (List_DCR a ns None).1) n = shape (stored a) ns n.
Proof.
  intros Hw. set (l := (List_DCR a ns None).1).
  assert (∀ d, d ∈ l → stored a !! (ns, dcr_Name d) = Some d) as Hl.
  { intros d (x & Hx)%list_stored. destruct (Hw _ _ Hx) as [Hk _]. by injection Hk as -> ->. }
  assert (NoDup (dcr_Name <$> l)) as Hnd.
  { apply NoDup_fmap_2_strong; [|apply list_once; intros k d Hd; by destruct (Hw _ _ Hd)]. intros d1 d2 Hd1%Hl Hd2%Hl E. rewrite E in Hd1. congruence. }
  unfold parents_in. destruct (live_map l !! n) as [d|] eqn:Hm; cbn.
  - apply live_map_lookup in Hm as (Hin & <- & Hlive). symmetry. apply shape_some; [by apply Hl|done].
  - symmetry. apply shape_none. intros d Hd Hlive. destruct (Hw _ _ Hd) as [Hk _].
    assert (d ∈ l) as Hin by (apply list_stored; by exists n).
    pose proof (live_map_complete _ _ Hnd Hin Hlive) as Hc. injection Hk as _ ->. unfold dcr_Name in Hc. congruence.
Qed.

Lemma same_object_sym d q : same_object d q → same_object q d.
Proof. by intros [? ?]. Qed.
Lemma same_object_normalize d q :
  same_object d q → same_object (normalizeDataCenterResource d) (normalizeDataCenterResource q).
Proof. unfold same_object, normalizeDataCenterResource. cbn. by intros [-> ->]. Qed.

Lemma published_same a a' d q data :
  well_kept plain_resource (stored a) → well_kept plain_resource (stored a') →
  (∀ ns n, shape (stored a') ns n = shape (stored a) ns n) → same_object d q →
  resolveExpressions a' (Namespace (dcr_Meta d)) d = resolveExpressions a (Namespace (dcr_Meta d)) d →
  published a d data → published a' q data.
Proof.
  intros Hw Hw' Hshape Hs Hres (Hv & ex & Hr & Hdata). destruct (same_object_name _ _ Hs) as (Hn & Hns & _).
  split.
  - apply (verdict_parents a a' d q); [by destruct Hs|done| |done]. intros n.
    rewrite Hns, !listed_shape by done. apply Hshape.
  - exists ex. rewrite Hns, (same_object_resolve _ _ _ _ Hs), Hres. split; [done|].
    by rewrite (proj1 (same_object_rules env _ _ ex Hs)).
Qed.

(** ** Everything comes to rest *)

(** The steps that are left when users rest: a turn of a resource, and what others do
    that leaves the resources, their files and what their templates read alone. *)
Inductive quiet_resources : option (string * string) → relation (Fs * A) :=
| resource_turn ns n s out s' : Reconcile env ns n s = (out, s') → quiet_resources (Some (ns, n)) s s'
| resource_others fs fs' a a' :
    (∀ d, plain_resource d → files fs' !! rule_path env d = files fs !! rule_path env d) →
    stored a' = stored a →
    (∀ k d, stored a !! k = Some d → let d1 := normalizeDataCenterResource d in
       resolveExpressions a' (Namespace (dcr_Meta d)) d1 = resolveExpressions a (Namespace (dcr_Meta d)) d1) →
    quiet_resources None (fs, a) (fs', a').

(** A live resource at rest has its finalizer; it is Ready for its spec exactly if
    there is a rule file to publish for it, and that file is there. *)
Definition resource_settled d s : Prop :=
  has_finalizer d = true ∧ let d1 := normalizeDataCenterResource d in
  (ready_now d ↔ ∃ data, published s.2 d1 data) ∧
  ∀ data, published s.2 d1 data → files s.1 !! rule_path env d = Some data.
Definition resource_within (k : string * string) (n : nat) s : Prop :=
  ∀ d, stored s.2 !! k = Some d →
    if decide (DeletionTimestamp (dcr_Meta d) = None)
    then n = 0 ∧ resource_settled d s ∨ n = 1 ∧ has_finalizer d = true ∨ 2 ≤ n
    else n = 0 → has_finalizer d = false.

Abbreviation resource_inv := (object_inv stored (rule_path env) has_finalizer plain_resource).

Lemma quiet_object l s s' : quiet_resources l s s' →
  object_step stored (rule_path env) plain_resource (Reconcile env) s s'.
Proof. intros Hs. destruct Hs; [by eapply object_reconcile|by apply object_volume]. Qed.

Lemma quiet_resource_inv l s s' : resource_inv s → quiet_resources l s s' → resource_inv s'.
Proof.
  intros Hi Hs. eapply (object_inv_step stored (rule_path env) has_finalizer plain_resource (Reconcile env));
    [exact Hi|by eapply quiet_object].
Qed.

(** Turns keep the shape, and what there is to publish. *)
Lemma resource_turn_shape ns0 n0 out s s' :
  resource_inv s → Reconcile env ns0 n0 s = (out, s') →
  (∀ ns n, shape (stored s'.2) ns n = shape (stored s.2) ns n) ∧ same_reads s.2 s'.2.
Proof.
  intros Hi Hr. destruct (stored s.2 !! (ns0, n0)) as [d|] eqn:Hd; [|by rewrite (resource_idle_turn _ _ _ _ _ Hd Hr)].
  destruct (resource_turn_outcome _ _ _ _ _ _ (inv_kept _ _ _ _ _ Hi) Hd Hr)
    as (Hk & Helse & Hreads & _ & Hgone & d' & Hown & _). split; [|done]. rewrite Hk in Hd.
  intros ns n. destruct (decide ((ns, n) = object_key d)) as [E|Hne].
  - apply shape_same; rewrite E, Hd.
    + intros ? [= <-] Hl. destruct (stored s'.2 !! object_key d); [by eexists|by destruct (Hgone eq_refl)].
    + intros q Hq. exists d. split; [done|]. by apply Hown.
  - specialize (Helse _ Hne). apply shape_same.
    + intros d1 Hd1 _. rewrite Hd1 in Helse. inversion Helse. by eexists.
    + intros q Hq. rewrite Hq in Helse. inversion Helse as [d1 ? [Hs _]|]; subst. by exists d1.
Qed.

Lemma resource_turn_published ns0 n0 out s s' d q data :
  resource_inv s → Reconcile env ns0 n0 s = (out, s') → same_object d q →
  published s.2 (normalizeDataCenterResource d) data ↔ published s'.2 (normalizeDataCenterResource q) data.
Proof.
  intros Hi Hr Hs. destruct (resource_turn_shape _ _ _ _ _ Hi Hr) as [Hshape Hreads].
  assert (resource_inv s') as Hi' by (eapply quiet_resource_inv; [exact Hi|by eapply resource_turn]).
  pose proof (same_object_normalize _ _ Hs) as Hn.
  split; apply published_same; try apply (inv_kept _ _ _ _ _ Hi); try apply (inv_kept _ _ _ _ _ Hi'); try done.
  - by apply resolve_reads.
  - by apply same_object_sym.
  - symmetry. by apply resolve_reads.
Qed.

Lemma resource_finalizer d q : object_Finalizers q = object_Finalizers d → has_finalizer q = has_finalizer d.
Proof. unfold object_Finalizers, has_finalizer. cbn. by intros ->. Qed.

Lemma resource_turn_within ns n out s s' (m : nat) :
  resource_inv s → Reconcile env ns n s = (out, s') →
  resource_within (ns, n) m s → resource_within (ns, n) (pred m) s'.
Proof.
  intros Hi Hr Hw q Hq. destruct (stored s.2 !! (ns, n)) as [d|] eqn:Hd;
    [|rewrite (resource_idle_turn _ _ _ _ _ Hd Hr) in Hq; congruence].
  destruct (resource_turn_outcome _ _ _ _ _ _ (inv_kept _ _ _ _ _ Hi) Hd Hr)
    as (Hk & _ & _ & _ & _ & d' & Hown & Hdate & Hdel & Hlive).
  rewrite Hk in Hq. destruct (Hown q Hq) as (Hs & Hf%resource_finalizer & Hready). specialize (Hw d Hd).
  destruct (same_object_name _ _ Hs) as (_ & _ & ->). case_decide as Hd'; [|intros _; rewrite Hf; by apply Hdel].
  destruct (Hlive Hd') as [Hf' Hpub].
  assert (has_finalizer d = true → resource_settled q s') as Hsettled.
  { intros Hfd. destruct (Hpub Hfd) as [Hiff Hfile]. split; [congruence|]. cbv zeta.
    pose proof (λ data, resource_turn_published _ _ _ _ _ d q data Hi Hr Hs) as Hp.
    destruct (same_object_rules env d q (mkResolvedExpressions "" []) Hs) as [_ ->].
    split; [|by intros data Hdata%Hp; apply Hfile]. transitivity (condition_status ConditionReady d' = Some ConditionTrue).
    - unfold condition_status. change (FindStatusCondition (GetConditions d') _) with (ready_condition d').
      rewrite <-Hready. split; [intros (c & -> & Ht & _); cbn; by rewrite Ht|].
      destruct (ready_condition q) as [c|] eqn:Hc; [|done]. intros [= Ht]. exists c. split_and!; [done..|].
      rewrite (Hdate c) by congruence. destruct Hs as [_ Hm]. symmetry. exact (f_equal Generation Hm).
    - rewrite Hiff. by split; intros [data Hdata]; exists data; apply Hp. }
  destruct Hw as [[-> [Hfd _]]|[[-> Hfd]|Hm]].
  - left. split; [done|by apply Hsettled].
  - left. split; [done|by apply Hsettled].
  - right. destruct (decide (m = 2)) as [->|Hne]; [left; split; [done|congruence]|right; lia].
Qed.

Lemma resource_turn_keeps k ns n out s s' (m : nat) :
  resource_inv s → k ≠ (ns, n) → Reconcile env ns n s = (out, s') → resource_within k m s → resource_within k m s'.
Proof.
  intros Hi Hne Hr Hw q Hq. destruct (stored s.2 !! (ns, n)) as [d|] eqn:Hd;
    [|rewrite (resource_idle_turn _ _ _ _ _ Hd Hr) in *; by apply Hw].
  destruct (resource_turn_outcome _ _ _ _ _ _ (inv_kept _ _ _ _ _ Hi) Hd Hr) as (Hk & Helse & _ & Hfiles & _).
  assert (k ≠ object_key d) as Hkd by congruence. specialize (Helse k Hkd). rewrite Hq in Helse.
  inversion Helse as [q0 ? (Hs & Hf%resource_finalizer & Hready) Hq0|]; subst. symmetry in Hq0. specialize (Hw q0 Hq0).
  destruct (same_object_name _ _ Hs) as (_ & _ & ->). rewrite Hf. case_decide; [|done].
  destruct Hw as [[-> (Hf0 & Hiff & Hfile)]|Hw]; [left|by right]. split; [done|]. split; [congruence|]. cbv zeta.
  pose proof (λ data, resource_turn_published _ _ _ _ _ q0 q data Hi Hr Hs) as Hp.
  destruct (same_object_rules env q0 q (mkResolvedExpressions "" []) Hs) as [_ ->]. split.
  - transitivity (ready_now q0).
    { unfold ready_now. rewrite Hready. destruct Hs as [_ Hm]. apply (f_equal Generation) in Hm.
      change (obj_Meta ?o) with (dcr_Meta o). cbn in Hm. by rewrite Hm. }
    rewrite Hiff. by split; intros [data Hdata]; exists data; apply Hp.
  - intros data Hdata%Hp. rewrite Hfiles; [by apply Hfile|]. intros E. apply Hkd. rewrite Hk in Hd.
    by eapply (inv_unshared _ _ _ _ _ Hi).
Qed.

Lemma quiet_resource_turn k (m : nat) s s' :
  resource_inv s → quiet_resources (Some k) s s' → resource_within k m s → resource_within k (pred m) s'.
Proof. intros Hi Hs. inversion Hs; subst. by eapply resource_turn_within. Qed.

Lemma quiet_resource_keeps k l (m : nat) s s' :
  resource_inv s → l ≠ Some k → quiet_resources l s s' → resource_within k m s → resource_within k m s'.
Proof.
  intros Hi Hl Hs. destruct Hs as [ns n s out s' Hr|fs fs' a a' Hf Ha Hres].
  { eapply resource_turn_keeps; [done| |done]. congruence. }
  intros Hw d Hd. cbn [fst snd] in *. rewrite Ha in Hd. specialize (Hw d Hd).
  destruct (inv_kept _ _ _ _ _ Hi _ _ Hd) as [_ Hplain]. cbn [fst snd] in *.
  assert (well_kept plain_resource (stored a)) as Hk by apply (inv_kept _ _ _ _ _ Hi).
  assert (∀ data, published a (normalizeDataCenterResource d) data ↔ published a' (normalizeDataCenterResource d) data)
    as Hp by (intros data; specialize (Hres k d Hd); split; apply published_same; rewrite ?Ha; done).
  unfold resource_settled in *. cbn [fst snd] in *. rewrite Hf by done.
  case_decide; [|done]. destruct Hw as [(-> & Hfd & Hiff & Hfile)|Hw]; [left|by right].
  split_and!; [done..| |by intros data Hdata%Hp; apply Hfile].
  rewrite Hiff. by split; intros [data Hdata]; exists data; apply Hp.
Qed.

Lemma quiet_resources_object ls s s' : run quiet_resources ls s s' →
  rtc (object_step stored (rule_path env) plain_resource (Reconcile env)) s s'.
Proof.
  intros Hr. induction Hr as [|l ls s1 s2 s3 Hs _ IH]; [apply rtc_refl|]. eapply rtc_l; [by eapply quiet_object|done].
Qed.

Lemma resources_at_rest k ls s s' :
  resource_inv s → run quiet_resources ls s s' → 2 ≤ turns k ls → resource_within k 0 s'.
Proof.
  intros Hi Hr Ht. replace 0 with (2 - turns k ls) by lia.
  apply (run_within quiet_resources resource_inv resource_within quiet_resource_inv quiet_resource_turn
    quiet_resource_keeps k 2 ls s s'); [done..|].
  intros d _. case_decide; [right; right; lia|lia].
Qed.
End Settling.

Section SettlingProperties.
Context {A : Type} `{UnicodeTables, MetaConditionsLaws, FinalizerUtilLaws, Os, MapOrderLaws, LabelValidation, SortSlice}.
Context `{SelectorClient A, TextTemplate, DcrLister A, RuleYaml, HttpPost A}.
Context `{Getter A DataCenterResource, Patcher A DataCenterResource}.
Context (stored : A → gmap (string * string) DataCenterResource) `{!ObjectServer stored, !ReloadLaws A stored}.
Context `{!RulesAccepted A, !ResourceLister A stored, !AcceptingResources A stored}.

(** C6: the resources come to rest as well, although their turns meet.  Let users
    not create a resource whose rule file is that of another that is stored, which
    is to say with its name, in whatever namespace.  From any state such a cluster has
    reached, when users then leave the resources alone and nothing is refused, two
    turns for each are enough, in whatever order, whatever each finds of the others
    half way, and whatever everyone else does to the rest of the volume and of the
    API between them, short of what templates read: a resource that is live has its
    finalizer, and is Ready for its spec exactly if the graph as it is now and its
    own spec are valid and its templates render to a rule file, which then is its
    file; one that is deleted has been let go; and the only rule files are those of
    resources that are live. *)
Theorem resources_settle (env : validatedEnv) (s0 s s' : Fs * A) ls :
  stored s0.2 = ∅ → (∀ d, plain_resource d → files s0.1 !! rule_path env d = None) →
  rtc (resource_step stored env) s0 s → run (quiet_resources stored env) ls s s' →
  (∀ k, is_Some (stored s'.2 !! k) → 2 ≤ turns k ls) →
  (∀ k d, stored s'.2 !! k = Some d →
     if decide (DeletionTimestamp (dcr_Meta d) = None)
     then has_finalizer d = true ∧
          (ready_now d ↔ ∃ data, published s'.2 (normalizeDataCenterResource d) data) ∧
          (∀ data, published s'.2 (normalizeDataCenterResource d) data →
             files s'.1 !! rule_path env d = Some data)
     else has_finalizer d = false) ∧
  (∀ d0, plain_resource d0 → is_Some (files s'.1 !! rule_path env d0) →
     ∃ ns d, stored s'.2 !! (ns, dcr_Name d0) = Some d ∧ DeletionTimestamp (dcr_Meta d) = None).
Proof.
  intros Hempty Hf Hr Hq Hfair.
  assert (∀ s1, rtc (resource_step stored env) s0 s1 →
    object_inv stored (rule_path env) has_finalizer plain_resource s1) as Hinv
    by (intros s1 Hr1; exact (object_inv_reached _ _ _ _ (Reconcile env) s0 s1 Hempty Hf Hr1)).
  pose proof (Hinv s Hr) as Hi.
  assert (object_inv stored (rule_path env) has_finalizer plain_resource s') as Hi'
    by (apply Hinv; etransitivity; [exact Hr|by eapply quiet_resources_object]).
  assert (∀ k d, stored s'.2 !! k = Some d → resource_within stored env k 0 s') as Hrest.
  { intros k d Hd. eapply (resources_at_rest stored env); [exact Hi|exact Hq|]. apply Hfair. by exists d. }
  split.
  - intros k d Hd. pose proof (Hrest k d Hd d Hd) as Hw. case_decide; [|by apply Hw].
    destruct Hw as [[_ Hs]|[[? _]|?]]; [exact Hs|lia..].
  - intros d0 Hd0 Hin. destruct (object_inv_owner _ _ _ _ s' d0 Hi' Hd0 Hin) as (d & Hd & Hp & E & Hfin).
    apply rule_path_inj in E; [|done..]. unfold object_key in Hd. cbn in Hd.
    change (Name (dcr_Meta d)) with (dcr_Name d) in Hd. rewrite E in Hd.
    exists (Namespace (dcr_Meta d)), d. split; [done|]. destruct (decide (DeletionTimestamp (dcr_Meta d) = None)); [done|].
    pose proof (Hrest _ _ Hd d Hd) as Hw. rewrite decide_False in Hw by done. rewrite Hw in Hfin; done.
Qed.
End SettlingProperties.

(** ** A run: a server and a virtual machine are created on a PDU that is published,
    another PDU is deleted, and then they are left to the controller *)
Module ResourceSettlingSample.
Import SimpleHelpers SimpleOs SimpleApi SimpleSort SampleDcr ResourceSample.

#[export] Instance range_laws : MapOrderLaws.
Proof. by split. Qed.
#[export] Instance rules_accepted : RulesAccepted server.
Proof. by split. Qed.

#[export] Instance sv_listed : ResourceLister server sv_resources.
Proof.
  split.
  - intros a ns d. cbn. rewrite list_elem_of_fmap. split.
    + intros ([[ns' n] d'] & -> & [<- Hin]%list_elem_of_filter). exists n. by apply elem_of_map_to_list in Hin.
    + intros [n Hd]. exists ((ns, n), d). split; [done|]. apply list_elem_of_filter.
      split; [done|]. by apply elem_of_map_to_list.
  - intros a ns Hk. cbn. apply NoDup_fmap_2_strong; [|apply NoDup_filter, NoDup_map_to_list].
    intros [k1 d1] [k2 d2] [_ H1%elem_of_map_to_list]%list_elem_of_filter [_ H2%elem_of_map_to_list]%list_elem_of_filter.
    cbn. intros ->. by rewrite (Hk _ _ H1), (Hk _ _ H2).
Qed.

Lemma merged_taken d0 d d' : taken d0 d d' (merged d0 d d').
Proof.
  unfold merged. destruct (decide (_ ∧ _)) as [(Hf & _ & Hd)|_]; [by apply taken_removed|].
  apply taken_merged; [done|..]; unfold object_Finalizers, ready_condition; cbn; case_decide; congruence.
Qed.

#[export] Instance sv_accepting : AcceptingResources server sv_resources.
Proof.
  split.
  - intros a ns n d Hd. cbn. unfold merge_get. by rewrite Hd.
  - intros a d. by exists d.
  - intros a0 a d d' h [= <-] _. cbn. unfold merge_patch.
    destruct (sv_resources a !! object_key d) as [d0|]; [|done]. eexists. split; [apply merged_taken|done].
  - intros a h d ns n. cbn. by destruct (merge_patch (h : DataCenterResource) d (sv_resources a)).
  - done.
Qed.

Definition visit (n : string) (s : Fs * server) : Fs * server := (Reconcile sample_env "chantico" n s).2.
Definition spare : DataCenterResource := sample_resource "pdu2" "pdu" [].
Definition dying_spare : DataCenterResource :=
  set_dcr_Meta (mkObjectMeta "pdu2" "chantico" "pdu2" 2 (Some 7%Z) [DataCenterResourceGraphFinalizer]) spare.
Definition adopted_spare : Fs * server := visit "pdu2" (put spare applied).
Definition left_alone : Fs * server := put sample_vm (put sample_bm (put dying_spare adopted_spare)).
(** The virtual machine's turns are all before its server is adopted. *)
Definition order : list (option (string * string)) :=
  (λ n, Some ("chantico", n)) <$> ["vm1"; "vm1"; "pdu2"; "bm1"; "pdu1"; "bm1"; "pdu1"; "pdu2"].
Definition at_rest : Fs * server :=
  foldl (λ s n, visit n s) left_alone ["vm1"; "vm1"; "pdu2"; "bm1"; "pdu1"; "bm1"; "pdu1"; "pdu2"].

Example at_rest_published :
  size (sv_resources left_alone.2) = 4 ∧ size (files left_alone.1) = 1 ∧
  size (sv_resources at_rest.2) = 3 ∧ size (files at_rest.1) = 3.
Proof. by vm_compute. Qed.

Lemma visit_step n s : resource_step sv_resources sample_env s (visit n s).
Proof. eapply object_reconcile, surjective_pairing. Qed.
Lemma put_step d s :
  sv_resources s.2 !! object_key d = None → plain_resource d →
  map_Forall (λ _ d', rule_path sample_env d' ≠ rule_path sample_env d) (sv_resources s.2) →
  resource_step sv_resources sample_env s (put d s).
Proof. destruct s as [fs a]. intros Hn Hp Hfree. apply object_users. by apply user_creates. Qed.

Lemma resources_left_alone_reached : rtc (resource_step sv_resources sample_env) begin left_alone.
Proof.
  etransitivity; [apply applied_reached|].
  apply rtc_l with (put spare applied); [apply put_step; apply (bool_decide_unpack _); vm_compute; exact I|].
  apply rtc_l with adopted_spare; [apply visit_step|].
  apply rtc_l with (put dying_spare adopted_spare).
  { assert (∃ d, sv_resources adopted_spare.2 !! ("chantico", "pdu2") = Some d ∧ later d dying_spare ∧
      object_Finalizers dying_spare = object_Finalizers d) as (d & Hd & Hl & Hf)
      by (eexists; split; [vm_compute; reflexivity|by split]).
    destruct adopted_spare as [fs a]. apply object_users, user_edits. by exists ("chantico", "pdu2"), d, dying_spare. }
  apply rtc_l with (put sample_bm (put dying_spare adopted_spare));
    [|apply rtc_once]; apply put_step; apply (bool_decide_unpack _); vm_compute; exact I.
Qed.

Lemma resources_at_rest_run : run (quiet_resources sv_resources sample_env) order left_alone at_rest.
Proof. repeat (eapply run_cons; [eapply resource_turn, surjective_pairing|]). apply run_nil. Qed.
End ResourceSettlingSample.
Import ResourceSettlingSample.
Import SimpleHelpers SimpleOs SimpleApi SimpleSort SampleDcr ResourceSample.

Lemma resources_settle_witness :
  (∀ k d, sv_resources at_rest.2 !! k = Some d →
     if decide (DeletionTimestamp (dcr_Meta d) = None)
     then has_finalizer d = true ∧
          (ready_now d ↔ ∃ data, published at_rest.2 (normalizeDataCenterResource d) data) ∧
          (∀ data, published at_rest.2 (normalizeDataCenterResource d) data →
             files at_rest.1 !! rule_path sample_env d = Some data)
     else has_finalizer d = false) ∧
  (∀ d0, plain_resource d0 → is_Some (files at_rest.1 !! rule_path sample_env d0) →
     ∃ ns d, sv_resources at_rest.2 !! (ns, dcr_Name d0) = Some d ∧ DeletionTimestamp (dcr_Meta d) = None).
Proof.
  apply (resources_settle sv_resources sample_env begin left_alone at_rest order).
  - reflexivity.
  - intros d _. apply lookup_empty.
  - apply resources_left_alone_reached.
  - apply resources_at_rest_run.
  - intros k [d Hd]. assert (map_Forall (λ k _, 2 ≤ turns k order) (sv_resources at_rest.2)) as Hall
      by (refine (bool_decide_unpack _ _); vm_compute; exact I).
    exact (Hall k d Hd).
Defined.
