(* ===== verification/ResourceThread.v ===== *)
(** The steps of the data centre resource controller one by one: each is as the
    protocol of [Threads] asks, also over an object that was read from a lagging cache. *)
From S2P Require Import Prelude GoStd Errors Paths FileStore Configuration Selector ApiTypes.
From S2P Require Import Steps Cluster Validate Rules DataCenterResourceController.
From S2P Require Import Guard ObjectSystem Caches ResourceSystem Threads.

Section ResourceThread.
Context {A : Type} `{UnicodeTables, MetaConditionsLaws, FinalizerUtilLaws, Os, MapOrder, LabelValidation, SortSlice}.
Context `{SelectorClient A, TextTemplate, DcrLister A, RuleYaml, HttpPost A}.
Context `{Getter A DataCenterResource, Patcher A DataCenterResource}.
Context (stored : A → gmap (string * string) DataCenterResource)
  (history : A → list (gmap (string * string) DataCenterResource)).
Context `{!CachedServer stored history, !ReloadLaws A history}.
Context (env : validatedEnv).
Implicit Types (d : DataCenterResource) (w : World DataCenterResource A).

Abbreviation contained := (contained history (rule_path env) plain_resource).
Abbreviation safe_step := (safe_step history (rule_path env) has_finalizer plain_resource).
Abbreviation early_step := (early_step history (rule_path env) has_finalizer plain_resource).

Lemma same_resource_life d d' : same_object d d' → same_life d d'.
Proof.
  intros [_ Hm]. unfold set_Finalizers in Hm. injection Hm as Hn Hns Hu _ Hd.
  unfold same_life, same_id, object_key. simpl. by rewrite Hn, Hns, Hu.
Qed.

(** The status of another resource is cleared by a patch of the version that was
    listed, which for the stored resources is an edit. *)
Definition edited_versions : relation A := λ a a', evolves edit (history a) (history a').
#[export] Instance edited_versions_preorder : PreOrder edited_versions.
Proof. split; [by intros a; apply rtc_refl|]. intros a1 a2 a3. unfold edited_versions. apply transitivity. Qed.
Lemma versions_post url fs a : edited_versions a (http_Post url fs a).2.
Proof. unfold edited_versions. rewrite (post_stored _ _ _ _ _ (surjective_pairing _)). apply rtc_refl. Qed.
Lemma versions_clear a d h :
  NewHelper a d = inr h → edited_versions a (Patch h (set_dcr_InvolvedResource "" d) a).2.
Proof.
  intros Hh. unfold edited_versions. eapply evolves_mono; [|by eapply history_patch, surjective_pairing].
  intros m m'. by apply patches_edit.
Qed.

(** What a step of the pass does to the API. *)
Lemma step_edited f w : f ∈ reconcile_steps env → edited_versions (w_api w) (w_api (f w).2).
Proof.
  intros Hf.
  pose proof (moves_steps env edited_versions versions_post versions_clear) as Hm.
  rewrite Forall_forall in Hm. exact (Hm f Hf w).
Qed.

(** What a step makes of its object and of the files: those of others stay. *)
Definition moves w w' : Prop :=
  same_object (w_obj w) (w_obj w') ∧
  ∀ x, x ≠ rule_path env (w_obj w) → files (w_fs w') !! x = files (w_fs w) !! x.
Lemma moves_same_files w d a : same_object (w_obj w) d → moves w (mkWorld d (w_fs w) a).
Proof. by split. Qed.

(** A step described by its view. *)
Lemma does_moves w (q : outcome StepResult * World DataCenterResource A) res v :
  does w q res v → (∀ x, x ≠ rule_path env (w_obj w) → v_files v !! x = files (w_fs w) !! x) → moves w q.2.
Proof. intros (_ & Hs & Hv) Hfs. subst v. by split. Qed.

Lemma resource_deletion_early w : has_finalizer (w_obj w) = false →
  reconcileDeletion env w = (Done (if decide (DeletionTimestamp (dcr_Meta (w_obj w)) = None) then Continue else Stop), w).
Proof.
  intros Hf. unfold reconcileDeletion. rewrite run_bind, run_the_obj. case_decide; [done|]. by rewrite Hf.
Qed.

Lemma resource_deletion_moves w :
  moves w (reconcileDeletion env w).2 ∧
  (has_finalizer (w_obj w) = true →
     object_Finalizers (w_obj (reconcileDeletion env w).2) = object_Finalizers (w_obj w) ∨
     dead (w_obj w) ∧ has_finalizer (w_obj (reconcileDeletion env w).2) = false ∧
     stops (reconcileDeletion env w).1 = true ∧
     files (w_fs (reconcileDeletion env w).2) !! rule_path env (w_obj w) = None) ∧
  (has_finalizer (w_obj w) = true → dead (w_obj w) →
     stops (reconcileDeletion env w).1 = true ∧
     (files (w_fs (reconcileDeletion env w).2) !! rule_path env (w_obj w) = files (w_fs w) !! rule_path env (w_obj w) ∨
      files (w_fs (reconcileDeletion env w).2) !! rule_path env (w_obj w) = None)).
Proof.
  destruct (has_finalizer (w_obj w)) eqn:Hf; [|by rewrite resource_deletion_early].
  unfold reconcileDeletion. rewrite run_bind, run_the_obj. case_decide as Hd; [by split_and!; [|left|]|].
  rewrite Hf. cbn [negb]. rewrite run_bind, run_fs_call.
  destruct (deleteRuleFile env (w_obj w) (w_fs w)) as [r fs1] eqn:Hr. apply deleteRuleFile_inv in Hr. cbn [fst snd].
  destruct r as [e|].
  { assert (∀ x, files fs1 !! x = files (w_fs w) !! x) as Hsame by (intros x; exact (f_equal (λ m, m !! x) Hr)).
    split_and!; [by split|by left|by auto]. }
  assert (∀ x, x ≠ rule_path env (w_obj w) → files fs1 !! x = files (w_fs w) !! x) as Hfs
    by (intros x Hx; by rewrite Hr, lookup_delete_ne).
  assert (files fs1 !! rule_path env (w_obj w) = None) as Hnone by (by rewrite Hr, lookup_delete_eq).
  rewrite run_bind. destruct (reloadPrometheus_spec env (mkWorld (w_obj w) fs1 (w_api w))) as (q & w3 & -> & Hobj & Hfs3 & _).
  destruct w3 as [d3 fs3 api3]. cbn [w_obj w_fs] in *. subst d3 fs3. destruct q as [e|].
  - split_and!; [by split|by left|by auto].
  - split_and!; [by split| |by auto]. intros _. right. split_and!; [done| |done|done]. apply dcr_has_finalizer_remove.
Qed.

Lemma resource_ensure w :
  ensureFinalizerIsSet w = if has_finalizer (w_obj w) then (Done Continue, w)
    else (Done Stop, mkWorld (update_finalizers (λ fs, AddFinalizer fs DataCenterResourceGraphFinalizer) (w_obj w))
                       (w_fs w) (w_api w)).
Proof. unfold ensureFinalizerIsSet. rewrite run_bind, run_the_obj. by destruct (has_finalizer (w_obj w)). Qed.

Lemma resource_validation_moves w : moves w (reconcileValidation w).2.
Proof.
  pose proof (dcr_reconcileValidation_spec w) as Hd. cbv zeta in Hd.
  destruct (verdict_of (w_api w) (w_obj w)) as [e|]; by eapply does_moves.
Qed.

Lemma resource_write_moves w : moves w (reconcileWriteRuleFile env w).2.
Proof.
  pose proof (reconcileWriteRuleFile_spec env w) as Hr. destruct (resolveExpressions _ _ _) as [[e|ex]|].
  - by eapply does_moves.
  - destruct Hr as [(data & _ & _ & Hd)|(e & fs' & Hfs & Hd)]; (eapply does_moves; [exact Hd|]);
      intros x Hx; cbn; [by rewrite lookup_insert_ne|].
    destruct Hfs as [->|[(data & n & _ & ->)|(data & _ & ->)]]; by rewrite ?lookup_insert_ne.
  - by rewrite Hr.
Qed.

Lemma resource_step_moves f w : f ∈ reconcile_steps env → moves w (f w).2.
Proof.
  unfold reconcile_steps. rewrite !elem_of_cons, elem_of_nil. intros [->|[->|[->|[->|[->|[]]]]]].
  - apply resource_deletion_moves.
  - rewrite resource_ensure. by destruct (has_finalizer (w_obj w)).
  - apply resource_validation_moves.
  - apply resource_write_moves.
  - by apply moves_same_files.
Qed.

Lemma resource_step_contained f w : f ∈ reconcile_steps env → contained w (f w).2.
Proof.
  intros Hf. destruct (resource_step_moves f w Hf) as [Hs Hfs].
  split; [by apply same_resource_life|]. split; [by apply step_edited|]. intros x _. apply Hfs.
Qed.

(** ** Past the deletion and the adoption the finalizers stay *)
Definition fins_kept : relation (World DataCenterResource A) := λ w w',
  object_Finalizers (w_obj w') = object_Finalizers (w_obj w).
#[local] Instance fins_kept_preorder : PreOrder fins_kept.
Proof. unfold fins_kept. split; [by intros w|]. intros w1 w2 w3. congruence. Qed.

Lemma fins_condition t st r msg : frame fins_kept (with_obj (UpdateStatusCondition t st r msg)).
Proof. by apply frame_with_obj. Qed.
Lemma fins_involved name : frame fins_kept (with_obj (set_dcr_InvolvedResource name)).
Proof. by apply frame_with_obj. Qed.
Lemma fins_fs {X} (op : Fs → X * Fs) : frame fins_kept (fs_call op).
Proof. by apply frame_fs_call. Qed.
Lemma fins_api {X} (op : A → X * A) : frame fins_kept (api_call op).
Proof. by apply frame_api_call. Qed.
Lemma fins_the_obj : frame fins_kept the_obj.
Proof. apply frame_gets, _. Qed.
Lemma fins_the_api : frame fins_kept the_api.
Proof. apply frame_gets, _. Qed.
Hint Resolve fins_condition fins_involved fins_fs fins_api fins_the_obj fins_the_api : go.

Lemma fins_fail t r msg e : frame fins_kept (fail_step t r msg e).
Proof. unfold fail_step. frame_auto. Qed.
Lemma fins_pass t st r msg res : frame fins_kept (pass_step t st r msg res).
Proof. unfold pass_step. frame_auto. Qed.
Hint Resolve fins_fail fins_pass : go.
Lemma fins_reload : frame fins_kept (reloadPrometheus env).
Proof. unfold reloadPrometheus. frame_auto. Qed.
Lemma fins_clear referenced : frame fins_kept (clearReferencedValidation referenced).
Proof. unfold clearReferencedValidation. frame_auto. Qed.
Hint Resolve fins_reload fins_clear : go.
Lemma fins_clear_all items : frame fins_kept (clear_all items).
Proof. induction items as [|item items IH]; cbn [clear_all]; frame_auto. Qed.
Hint Resolve fins_clear_all : go.

Lemma fins_validation : frame fins_kept reconcileValidation.
Proof. unfold reconcileValidation. frame_auto. Qed.
Lemma fins_write : frame fins_kept (reconcileWriteRuleFile env).
Proof. unfold reconcileWriteRuleFile, write_rule_file, reload_applied. frame_auto. Qed.

Lemma guarded_safe f : f ∈ reconcile_steps env → frame fins_kept f → safe_step f.
Proof. intros Hin Hf w _ Hw. split; [by apply resource_step_contained|]. left. apply Hf. Qed.

#[export] Instance resource_steps_safe :
  SafeSteps history (rule_path env) has_finalizer plain_resource normalizeDataCenterResource (reconcile_steps env).
Proof.
  split; [| | |done|done|done].
  - unfold reconcile_steps. rewrite !Forall_cons, Forall_nil. split_and!; [| | | | |done].
    + intros w _ Hf. split; [apply resource_step_contained; by left|].
      destruct (resource_deletion_moves w) as (_ & Hg & _). by apply Hg.
    + intros w _ Hf. split; [apply resource_step_contained; right; by left|]. rewrite resource_ensure, Hf. by left.
    + apply guarded_safe; [do 2 right; by left|apply fins_validation].
    + apply guarded_safe; [do 3 right; by left|apply fins_write].
    + apply guarded_safe; [do 4 right; by left|apply fins_pass].
  - apply gated_early; [|apply gated_gate; split]; intros w _ Hf; rewrite ?resource_ensure, ?Hf.
    + rewrite (resource_deletion_early w Hf). split; [apply contained_refl|]. split; [done|by left].
    + split; [by apply contained_obj|]. split; [done|]. right. split; [|done]. apply dcr_has_finalizer_add.
    + done.
  - intros f rest [= <- _] w _ Hf Hd. destruct (resource_deletion_moves w) as (_ & _ & Hl). by apply Hl.
Qed.
End ResourceThread.
