(* ===== verification/DeviceSystem.v ===== *)
(** The system of the measurement devices: the controller, which also makes jobs
    and tells the exporter, follows the protocol of finalizers on the generator
    file of each device.  No generator file outlives its device. *)
From S2P Require Import Prelude GoStd Errors Paths FileStore Configuration Selector ApiTypes.
From S2P Require Import Steps Cluster Sha256 Snmp MeasurementDeviceJob MeasurementDeviceController.
From S2P Require Import Guard ObjectSystem.

(** Jobs and deployments are objects of other kinds. *)
Class OtherKinds (A : Type) `{JobClient A, DeploymentClient A} {X} (stored : A → X) : Prop := {
  create_job_stored j a : stored (Create_Job j a).2 = stored a;
  delete_job_stored j a : stored (Delete_Job j a).2 = stored a;
  patch_deployment_stored d d' a : stored (Patch_Deployment d d' a).2 = stored a
}.

Definition plain_device (d : MeasurementDevice) : Prop := filepath.slash ∉ chars (UID (md_Meta d)).

Section DeviceSystem.
Context {A : Type} `{UnicodeTables, MetaConditionsLaws, FinalizerUtilLaws, ProcessIds, OwnerUtil, SnmpYamlLaws}.
Context `{SelectorClient A, JobClient A, DeploymentClient A, Os, RenameioLaws}.
Context `{Getter A MeasurementDevice, Patcher A MeasurementDevice}.
Context (stored : A → gmap (string * string) MeasurementDevice) `{!ObjectServer stored, !OtherKinds A stored}.
Context (env : validatedEnv) (Hvol : VolumeLocation env ≠ "").
Implicit Types (d : MeasurementDevice) (w : World MeasurementDevice A).

(** The store of the controller is the volume. *)
#[local] Instance store : FileStore Fs := VolumeFileStore_store (VolumeLocation env).
#[local] Instance store_laws : FileStoreLaws Fs (volume_content (VolumeLocation env)) :=
  VolumeFileStore_laws (VolumeLocation env) Hvol.

Definition generator_path d : string :=
  VolumeFileStore_Resolve (VolumeLocation env) [GeneratorFile (UID (md_Meta d))].

#[export] Instance device_owner : FileOwner generator_path has_finalizer plain_device.
Proof.
  split.
  - intros d d' (_ & Hu & _). unfold generator_path. simpl in Hu. by rewrite Hu.
  - intros d d' (_ & Hu & _). unfold plain_device. simpl in Hu. by rewrite Hu.
  - unfold object_Finalizers, has_finalizer. by intros d d' [= ->].
  - unfold object_Finalizers, has_finalizer. simpl. intros d ->. apply not_true_is_false.
    intros Hc. by apply contains_finalizer, not_elem_of_nil in Hc.
Qed.

(** ** A pass keeps the identity of its object, and what the API has of other
    kinds than jobs and deployments *)
Section Still.
Context {X : Type} (f : A → X) `{!OtherKinds A f}.
Definition still : relation (World MeasurementDevice A) := λ w w',
  same_life (w_obj w) (w_obj w') ∧ f (w_api w') = f (w_api w).
#[local] Instance still_preorder : PreOrder still.
Proof. split; [by intros w|]. intros w1 w2 w3 [Hi1 Hs1] [Hi2 Hs2]. split; [by etransitivity|congruence]. Qed.

Lemma still_obj (g : MeasurementDevice → MeasurementDevice) :
  (∀ d, same_life d (g d)) → frame still (with_obj g).
Proof. intros Hf. by apply frame_with_obj. Qed.
Lemma still_fs {Y} (op : Fs → Y * Fs) : frame still (fs_call op).
Proof. by apply frame_fs_call. Qed.
Lemma still_the_obj : frame still the_obj.
Proof. apply frame_gets, _. Qed.
Lemma still_the_api : frame still the_api.
Proof. apply frame_gets, _. Qed.
Lemma still_create j : frame still (api_call (Create_Job j)).
Proof. apply frame_api_call. intros w. split; [done|apply create_job_stored]. Qed.
Lemma still_delete j : frame still (api_call (Delete_Job j)).
Proof. apply frame_api_call. intros w. split; [done|apply delete_job_stored]. Qed.
Lemma still_deployment (d d' : Deployment) : frame still (api_call (Patch_Deployment d d')).
Proof. apply frame_api_call. intros w. split; [done|apply patch_deployment_stored]. Qed.
Lemma still_condition t st r msg : frame still (with_obj (UpdateStatusCondition t st r msg)).
Proof. by apply still_obj. Qed.
Lemma still_finalizers g : frame still (with_obj (update_finalizers g)).
Proof. by apply still_obj. Qed.
Lemma still_hash h : frame still (with_obj (set_md_ConfigHash h)).
Proof. by apply still_obj. Qed.
Hint Resolve still_fs still_the_obj still_the_api still_create still_delete still_deployment : go.
Hint Resolve still_condition still_finalizers still_hash : go.

Lemma still_fail t r msg e : frame still (fail_step t r msg e).
Proof. unfold fail_step. frame_auto. Qed.
Lemma still_pass t st r msg res : frame still (pass_step t st r msg res).
Proof. unfold pass_step. frame_auto. Qed.
Hint Resolve still_fail still_pass : go.

Lemma still_jobs jobs : frame still (delete_jobs jobs).
Proof. induction jobs as [|job jobs IH]; cbn [delete_jobs]; frame_auto. Qed.
Lemma still_remove paths : frame still (remove_files paths).
Proof. induction paths as [|p paths IH]; cbn [remove_files]; frame_auto. Qed.
Lemma still_merged : frame still reconcileMergedSNMPFile.
Proof. unfold reconcileMergedSNMPFile, write_merged. frame_auto. Qed.
Lemma still_reload : frame still (reconcileExporterReload env).
Proof. unfold reconcileExporterReload, apply_exporter. frame_auto. Qed.
Hint Resolve still_jobs still_remove still_merged still_reload : go.

Lemma still_steps : Forall (frame still) (reconcile_steps env).
Proof.
  unfold reconcile_steps. rewrite !Forall_cons, Forall_nil. split_and!; [..|done]; auto with go.
  - unfold reconcileDeletion, unless_error. frame_auto.
  - unfold ensureFinalizerIsSet. frame_auto.
  - unfold reconcileGeneratorFile. frame_auto.
  - unfold reconcileSNMPGeneratorJob, createGeneratorJob, evaluateGeneratorJob. frame_auto.
  - unfold reconcileSNMPFileContent. frame_auto.
Qed.

Lemma run_steps_still w :
  same_life (w_obj w) (w_obj (run_steps (reconcile_steps env) w).2) ∧
  f (w_api (run_steps (reconcile_steps env) w).2) = f (w_api w).
Proof.
  destruct w as [d fs a]. pose proof (Run_frame still _ still_steps (mkWorld (UpdateStatusCondition ConditionReady
    ConditionUnknown ReasonReconciling "Reconciliation is in progress" d) fs a)) as [Hid Ha].
  split; [etransitivity; [|exact Hid]; done|exact Ha].
Qed.
End Still.

(** ** The protocol *)

(** Without the finalizer a pass writes nothing. *)
Lemma unguarded_run w out w' :
  has_finalizer (w_obj w) = false → run_steps (reconcile_steps env) w = (out, w') → w_fs w' = w_fs w.
Proof.
  intros Hf Hrun. destruct (run_steps_begun (A := A) env w) as [E _]. rewrite E in Hrun. clear E.
  change (has_finalizer (w_obj (begun w)) = false) in Hf. change (w_fs w) with (w_fs (begun w)).
  set (w1 := begun w) in *. unfold reconcile_steps in Hrun.
  destruct (decide (DeletionTimestamp (md_Meta (w_obj w1)) = None)) as [Hd|Hd].
  - assert (reconcileDeletion env w1 = (Done Continue, w1)) as Hdel
      by (unfold reconcileDeletion; by rewrite run_bind, run_the_obj, decide_True).
    rewrite (Run_cons _ _ _ _ _ Hdel) in Hrun. cbn [halts sr_Action Continue] in Hrun.
    pose proof (ensureFinalizerIsSet_spec w1) as He. rewrite Hf in He.
    rewrite (Run_cons _ _ _ _ _ He) in Hrun. by injection Hrun as _ <-.
  - assert (reconcileDeletion env w1 = (Done Stop, w1)) as Hdel
      by (unfold reconcileDeletion; by rewrite run_bind, run_the_obj, decide_False, Hf).
    rewrite (Run_cons _ _ _ _ _ Hdel) in Hrun. by injection Hrun as _ <-.
Qed.

Lemma device_pass_protocol w out w' :
  plain_device (w_obj w) → run_steps (reconcile_steps env) w = (out, w') →
  (∀ x, object_file generator_path plain_device x → x ≠ generator_path (w_obj w) →
     files (w_fs w') !! x = files (w_fs w) !! x) ∧
  (is_Some (files (w_fs w') !! generator_path (w_obj w)) →
     if has_finalizer (w_obj w) then has_finalizer (w_obj w') = true
     else is_Some (files (w_fs w) !! generator_path (w_obj w))).
Proof.
  intros Hp Hrun. split.
  - intros x (d & Hd & ->) Hne. destruct (GeneratorFile_plain _ Hd) as (Hl & Hc & _).
    change (volume_content (VolumeLocation env) (w_fs w') (GeneratorFile (UID (md_Meta d))) =
      volume_content (VolumeLocation env) (w_fs w) (GeneratorFile (UID (md_Meta d)))).
    apply (md_run_confined env w w' out); [done..| | |].
    + intros E. apply Hne. unfold generator_path. by rewrite E.
    + intros E. discriminate E.
    + intros E. discriminate E.
  - intros Hin. destruct (has_finalizer (w_obj w)) eqn:Hf.
    + destruct (has_finalizer (w_obj w')) eqn:Hf'; [done|]. exfalso.
      destruct (run_steps_begun (A := A) env w) as [E _]. rewrite E in Hrun.
      destruct (finalizer_inv env (begun w) out w' Hp Hrun Hf Hf') as (_ & _ & _ & _ & _ & Hgone & _).
      change (files (w_fs w') !! generator_path (w_obj w) = None) in Hgone.
      rewrite Hgone in Hin. by destruct Hin.
    + by rewrite <-(unguarded_run w out w' Hf Hrun).
Qed.

#[export] Instance device_controller :
  FollowsProtocol stored generator_path has_finalizer plain_device (Reconcile env).
Proof.
  intros ns n s out s' Hw [->|(d & h & o & w' & Hget & Hh & Hrun & ->)]%reconcile_with_inv;
    [split; [apply rtc_refl|done]|].
  destruct s as [fs a]. cbn [fst snd] in *.
  apply object_get in Hget. destruct (Hw _ _ Hget) as [Hk Hp]. rewrite Hk in Hget. clear Hk.
  destruct (run_steps_still stored (mkWorld d fs a)) as [[Hsame Hlife] Hst].
  rewrite Hrun in Hsame, Hst. cbn [fst snd w_obj w_api] in *.
  destruct (device_pass_protocol (mkWorld d fs a) _ _ Hp Hrun) as [Helse Hown].
  eapply (pass_follows stored generator_path has_finalizer plain_device a fs d d (w_obj w') h (w_api w'));
    [done..|rewrite Hst; apply rtc_refl|apply surjective_pairing|exact Helse|exact Hown].
Qed.
End DeviceSystem.

Section DeviceProperties.
Context {A : Type} `{UnicodeTables, MetaConditionsLaws, FinalizerUtilLaws, ProcessIds, OwnerUtil, SnmpYamlLaws}.
Context `{SelectorClient A, JobClient A, DeploymentClient A, Os, RenameioLaws}.
Context `{Getter A MeasurementDevice, Patcher A MeasurementDevice}.
Context (stored : A → gmap (string * string) MeasurementDevice) `{!ObjectServer stored, !OtherKinds A stored}.

(** The system of the devices. *)
Definition device_step (env : validatedEnv) : relation (Fs * A) :=
  object_step stored (generator_path env) plain_device
    (Reconcile (H10 := VolumeFileStore_store (VolumeLocation env)) env).

(** No generator file outlives its device: in every state a cluster reaches
    from a volume without generator files, whatever users do short of removing
    finalizers by hand, in however many namespaces, whatever the jobs, the exporter,
    the volume and the API refuse: a generator file belongs to a stored device of
    its UID that still has the finalizer, so that a pass will remove the file. *)
Theorem devices_no_orphans (env : validatedEnv) (s0 s : Fs * A) d0 :
  VolumeLocation env ≠ "" →
  stored s0.2 = ∅ → (∀ d, plain_device d → files s0.1 !! generator_path env d = None) →
  rtc (device_step env) s0 s →
  plain_device d0 → is_Some (files s.1 !! generator_path env d0) →
  ∃ k d, stored s.2 !! k = Some d ∧ UID (md_Meta d) = UID (md_Meta d0) ∧ has_finalizer d = true.
Proof.
  intros Hvol Hempty Hf Hr Hd0 Hin.
  pose proof (device_controller stored env Hvol) as Hprot.
  destruct (objects_owned stored (generator_path env) has_finalizer plain_device _ s0 s d0)
    as (d & Hd & Hp & E & Hfin); [done..|].
  exists (object_key d), d. split; [done|]. split; [|done]. unfold generator_path in E.
  destruct (GeneratorFile_plain _ Hp) as (Hl & Hc & _), (GeneratorFile_plain _ Hd0) as (Hl0 & Hc0 & _).
  apply (plain_resolve (H0 := VolumeFileStore_laws (VolumeLocation env) Hvol)) in E; [|done..].
  unfold GeneratorFile in E. apply (inj (String.append _)) in E. by apply app_inj_suffix in E.
Qed.
End DeviceProperties.

(** ** A run: a device is created, adopted and given its file and its job, then
    deleted and cleaned up *)
Module DeviceSample.
Import SimpleHelpers SimpleOs SimpleYaml JobSample.
#[export] Existing Instances MdSample.owner MdSample.unicode.

Record server := mkServer {
  sv_devices : gmap (string * string) MeasurementDevice;
  sv_jobs : list Job;
  sv_exporter : Deployment
}.
#[export] Instance sv_getter : Getter server MeasurementDevice := {| Get a := merge_get (sv_devices a) |}.
#[export] Instance sv_patcher : Patcher server MeasurementDevice :=
  {| helper := MeasurementDevice; NewHelper _ d := inr d;
     Patch d d' a := let '(err, m) := merge_patch d d' (sv_devices a) in
                     (err, mkServer m (sv_jobs a) (sv_exporter a)) |}.
#[export] Instance sv_selectors : SelectorClient server :=
  {| Get_ConfigMap _ _ n := inl (StatusError true n); Get_Secret _ _ n := inl (StatusError true n) |}.
#[export] Instance sv_job_client : JobClient server :=
  {| List_Jobs a ns := inr (filter (λ j, job_Namespace j = ns) (sv_jobs a));
     Create_Job j a := (None, mkServer (sv_devices a) (sv_jobs a ++ [j]) (sv_exporter a));
     Delete_Job j a := (None, mkServer (sv_devices a)
       (filter (λ k, job_Name k ≠ job_Name j) (sv_jobs a)) (sv_exporter a)) |}.
#[export] Instance sv_deployments : DeploymentClient server :=
  {| Get_Deployment a _ _ := inr (sv_exporter a);
     Patch_Deployment _ d a := (None, mkServer (sv_devices a) (sv_jobs a) d) |}.
#[export] Instance sv_laws : ObjectServer sv_devices.
Proof.
  split; [intros a; apply merge_get_stored|]. intros a0 a d d' h r a' [= <-] _. simpl.
  pose proof (merge_patch_stored d d' (sv_devices a)) as Hm.
  by destruct (merge_patch d d' (sv_devices a)) as [err m]; intros [= _ <-].
Qed.
#[export] Instance sv_kinds : OtherKinds server sv_devices.
Proof. by split. Qed.

Definition begin : Fs * server :=
  (empty_fs, mkServer ∅ [] (Selector.mkDeployment "chantico-snmp" "chantico" 1 1 0 None)).
Definition put (d : MeasurementDevice) (s : Fs * server) : Fs * server :=
  (s.1, mkServer (<[object_key d := d]> (sv_devices s.2)) (sv_jobs s.2) (sv_exporter s.2)).
Definition turn (s : Fs * server) : Fs * server :=
  (Reconcile (H10 := VolumeFileStore_store (VolumeLocation JobSample.env)) JobSample.env "chantico" "tno" s).2.
Definition fresh_device (gen : Z) (deleted : option Z) (fins : list string) : MeasurementDevice :=
  set_md_Meta (mkObjectMeta "tno" "chantico" "a-random-uid" gen deleted fins) device.
Definition started : Fs * server := turn (turn (put (fresh_device 7 None []) begin)).
Definition ended : Fs * server := turn (put (fresh_device 8 (Some 1%Z) [SNMPUpdateFinalizer]) started).

Example started_and_ended :
  is_Some (files started.1 !! generator_path JobSample.env device) ∧ length (sv_jobs started.2) = 1 ∧
  files ended.1 !! generator_path JobSample.env device = None ∧ sv_jobs ended.2 = [] ∧ sv_devices ended.2 = ∅.
Proof. vm_compute. split; [by eexists|done]. Qed.

Lemma started_reached : rtc (device_step sv_devices JobSample.env) begin started.
Proof.
  eapply rtc_l; [apply (object_users _ _ _ _ _ _ (put (fresh_device 7 None []) begin).2), user_creates; try done|].
  { apply (bool_decide_unpack _). vm_compute. exact I. }
  eapply rtc_l; [eapply object_reconcile, surjective_pairing|].
  eapply rtc_l; [eapply object_reconcile, surjective_pairing|].
  apply rtc_refl.
Qed.
End DeviceSample.
Import DeviceSample.
Import SimpleHelpers SimpleOs SimpleYaml JobSample.

Lemma devices_no_orphans_witness :
  ∃ k d, sv_devices started.2 !! k = Some d ∧ UID (md_Meta d) = "a-random-uid" ∧ has_finalizer d = true.
Proof.
  apply (devices_no_orphans sv_devices JobSample.env begin started device).
  - discriminate.
  - reflexivity.
  - intros d _. apply lookup_empty.
  - apply started_reached.
  - apply (bool_decide_unpack _). vm_compute. exact I.
  - vm_compute. by eexists.
Defined.
