(* ===== verification/DeviceThread.v ===== *)
(** The steps of the measurement device controller one by one: each is as the
    protocol of [Threads] asks, also over an object that was read from a lagging cache. *)
From S2P Require Import Prelude GoStd Errors Paths FileStore Configuration Selector ApiTypes.
From S2P Require Import Steps Cluster Sha256 Snmp MeasurementDeviceJob MeasurementDeviceController.
From S2P Require Import Guard ObjectSystem Caches DeviceSystem Threads.

Section DeviceThread.
Context {A : Type} `{UnicodeTables, MetaConditionsLaws, FinalizerUtilLaws, ProcessIds, OwnerUtil, SnmpYamlLaws}.
Context `{SelectorClient A, JobClient A, DeploymentClient A, Os, RenameioLaws}.
Context `{Getter A MeasurementDevice, Patcher A MeasurementDevice}.
Context (history : A → list (gmap (string * string) MeasurementDevice)) `{!OtherKinds A history}.
Context (env : validatedEnv) (Hvol : VolumeLocation env ≠ "").
Implicit Types (d : MeasurementDevice) (w : World MeasurementDevice A).

#[local] Instance store : FileStore Fs := VolumeFileStore_store (VolumeLocation env).
#[local] Instance store_laws : FileStoreLaws Fs (volume_content (VolumeLocation env)) :=
  VolumeFileStore_laws (VolumeLocation env) Hvol.

Abbreviation contained := (contained history (generator_path env) plain_device).
Abbreviation safe_step := (safe_step history (generator_path env) has_finalizer plain_device).
Abbreviation early_step := (early_step history (generator_path env) has_finalizer plain_device).

(** A step is confined to the files of its device. *)
Lemma device_step_files f w name : plain_device (w_obj w) → f ∈ reconcile_steps env →
  local name → filepath.Clean name = name →
  name ≠ GeneratorFile (UID (md_Meta (w_obj w))) → name ≠ SnmpFile (UID (md_Meta (w_obj w))) → name ≠ SnmpMergedFile →
  volume_content (VolumeLocation env) (w_fs (f w).2) name = volume_content (VolumeLocation env) (w_fs w) name.
Proof.
  intros Hp Hf Hl Hcl Hg Hs Hm.
  pose proof (confined_steps env) as Hconf. rewrite Forall_forall in Hconf. destruct (Hconf f Hf w) as [_ Hc].
  apply Hc. destruct (GeneratorFile_plain _ Hp) as (Hl1 & Hcl1 & _), (SnmpFile_plain _ Hp) as (Hl2 & Hcl2 & _),
    SnmpMergedFile_plain as (Hl3 & Hcl3 & _).
  intros [E|[E|E]]; apply plain_resolve in E; done.
Qed.

Lemma device_step_contained f w : plain_device (w_obj w) → f ∈ reconcile_steps env → contained w (f w).2.
Proof.
  intros Hp Hf. pose proof (still_steps env history) as Hstill. rewrite Forall_forall in Hstill.
  destruct (Hstill f Hf w) as [Hid Ha]. split; [exact Hid|]. split; [rewrite Ha; apply rtc_refl|].
  intros x (d & Hd & ->) Hne. destruct (GeneratorFile_plain _ Hd) as (Hl & Hcl & _).
  apply (device_step_files f w (GeneratorFile (UID (md_Meta d)))); try done.
  intros E. apply Hne. unfold generator_path. by rewrite E.
Qed.

(** ** What a deletion does to the file of the device: it is left, or removed *)
Section Sheds.
Context (name : string) (Hname : ¬ is_file SnmpMergedFile name).
Abbreviation content := (volume_content (VolumeLocation env)).
Definition sheds : relation (World MeasurementDevice A) := λ w w',
  content (w_fs w') name = content (w_fs w) name ∨ content (w_fs w') name = None.
#[local] Instance sheds_preorder : PreOrder sheds.
Proof.
  split; [by left|]. unfold sheds. intros w1 w2 w3 [E1|E1] [E2|E2]; [left; congruence|by right|right; congruence|by right].
Qed.

Lemma sheds_same w w' : w_fs w' = w_fs w → sheds w w'.
Proof. left. by f_equal. Qed.
Lemma sheds_obj (g : MeasurementDevice → MeasurementDevice) : frame sheds (with_obj g).
Proof. apply frame_with_obj. intros w. by apply sheds_same. Qed.
Lemma sheds_api {X} (op : A → X * A) : frame sheds (api_call op).
Proof. apply frame_api_call. intros w. by apply sheds_same. Qed.
Lemma sheds_the_obj : frame sheds the_obj.
Proof. apply frame_gets, _. Qed.
Lemma sheds_the_api : frame sheds the_api.
Proof. apply frame_gets, _. Qed.
Lemma sheds_fs_Remove p : frame sheds (fs_call (fs_Remove p)).
Proof.
  apply frame_fs_call. intros w. unfold sheds. cbn [w_fs].
  destruct (fs_Remove p (w_fs w)) as [[e|] fs1] eqn:Hr; cbn [snd].
  - left. by apply (remove_err _ _ _ _ Hr).
  - rewrite (remove_ok _ _ _ Hr). case_decide; auto.
Qed.
Lemma sheds_merge : frame sheds reconcileMergedSNMPFile.
Proof. intros w. destruct (reconcileMergedSNMPFile_merges w) as (_ & _ & Hs & _). left. by apply Hs. Qed.
Lemma sheds_reload : frame sheds (reconcileExporterReload env).
Proof. intros w. destruct (reconcileExporterReload_reloads env w) as (_ & Hs & _). left. apply Hs. by intros []. Qed.
Hint Resolve sheds_obj sheds_api sheds_the_obj sheds_the_api sheds_fs_Remove sheds_merge sheds_reload : go.

Lemma sheds_fail t r msg e : frame sheds (fail_step t r msg e).
Proof. unfold fail_step. frame_auto. Qed.
Hint Resolve sheds_fail : go.
Lemma sheds_jobs jobs : frame sheds (delete_jobs jobs).
Proof. induction jobs as [|job jobs IH]; cbn [delete_jobs]; frame_auto. Qed.
Lemma sheds_remove paths : frame sheds (remove_files paths).
Proof. induction paths as [|p paths IH]; cbn [remove_files]; frame_auto. Qed.
Hint Resolve sheds_jobs sheds_remove : go.
Lemma sheds_deletion : frame sheds (reconcileDeletion env).
Proof. unfold reconcileDeletion, unless_error. frame_auto. Qed.
End Sheds.

(** Past the deletion the metadata stay. *)
Lemma kept_meta_safe f : f ∈ reconcile_steps env → (∀ w, md_Meta (w_obj (f w).2) = md_Meta (w_obj w)) → safe_step f.
Proof.
  intros Hin Hm w Hp Hf. split; [by apply device_step_contained|]. left. unfold object_Finalizers. simpl. by rewrite Hm.
Qed.

Lemma device_deletion_early w : has_finalizer (w_obj w) = false →
  reconcileDeletion env w = (Done (if decide (DeletionTimestamp (md_Meta (w_obj w)) = None) then Continue else Stop), w).
Proof.
  intros Hf. unfold reconcileDeletion. rewrite run_bind, run_the_obj. case_decide; [done|]. by rewrite Hf.
Qed.

Lemma device_deletion_safe : safe_step (reconcileDeletion env).
Proof.
  intros w Hp Hf. split; [apply device_step_contained; [done|by left]|].
  destruct (decide (DeletionTimestamp (md_Meta (w_obj w)) = None)) as [Hd|Hd].
  - unfold reconcileDeletion. rewrite run_bind, run_the_obj, decide_True by done. by left.
  - destruct (reconcileDeletion_deletes env w Hp Hd Hf) as [(e & _ & Hm & _)|(-> & Hfin & _ & _ & _ & Hg & _)].
    + left. unfold object_Finalizers. simpl. by rewrite Hm.
    + by right.
Qed.

Lemma device_deletion_last : last_step (generator_path env) has_finalizer plain_device (reconcileDeletion env).
Proof.
  intros w Hp Hf Hd. split.
  - by destruct (reconcileDeletion_deletes env w Hp Hd Hf) as [(e & -> & _)|(-> & _)].
  - apply (sheds_deletion (GeneratorFile (UID (md_Meta (w_obj w))))).
    destruct (GeneratorFile_plain _ Hp) as (Hl & Hc & _), SnmpMergedFile_plain as (Hl2 & Hc2 & _).
    intros E. by apply plain_resolve in E.
Qed.

#[export] Instance device_steps_safe :
  SafeSteps history (generator_path env) has_finalizer plain_device (λ d, d) (reconcile_steps env).
Proof.
  split; [| | |done|done|done].
  - unfold reconcile_steps. rewrite !Forall_cons, Forall_nil.
    split_and!; [apply device_deletion_safe| | | | | | | |done].
    + intros w Hp Hf. split; [apply device_step_contained; [done|right; by left]|]. rewrite ensureFinalizerIsSet_spec, Hf. by left.
    + apply kept_meta_safe; [do 2 right; by left|]. intros w. apply reconcileGeneratorFile_spec.
    + apply kept_meta_safe; [do 3 right; by left|]. intros w. apply job_step_refines.
    + apply kept_meta_safe; [do 4 right; by left|]. intros w. apply reconcileSNMPFileContent_spec.
    + apply kept_meta_safe; [do 5 right; by left|]. intros w. apply reconcileMergedSNMPFile_merges.
    + apply kept_meta_safe; [do 6 right; by left|]. intros w. apply reconcileExporterReload_reloads.
    + apply kept_meta_safe; [do 7 right; by left|done].
  - apply gated_early; [|apply gated_gate; split]; intros w Hp Hf.
    + rewrite (device_deletion_early w Hf). split; [apply contained_refl|]. split; [done|by left].
    + split; [apply device_step_contained; [done|right; by left]|]. rewrite ensureFinalizerIsSet_spec, Hf. split; [done|].
      right. split; [|done]. apply contains_finalizer, elem_of_add_finalizer. by right.
    + by rewrite ensureFinalizerIsSet_spec, Hf.
  - intros f rest [= <- _]. apply device_deletion_last.
Qed.
End DeviceThread.
