(* ===== verification/SharedVolume.v ===== *)
(** The three controllers on one volume: what one of them writes, the others do
    not read or write, so that their passes are steps of the volume to each
    other. *)
From S2P Require Import Prelude GoStd Errors Paths FileStore Selector Configuration.
From S2P Require Import ApiTypes Steps Cluster Validate Rules Snmp MeasurementDeviceJob.
From S2P Require Import MeasurementDeviceController DataCenterResourceController.
From S2P Require Import PhysicalMeasurement PhysicalMeasurementController System.

(** ** Paths *)

(** A rule file is never a target file. *)
Lemma rule_not_target env d p :
  filepath.slash ∉ chars (dcr_Name d) → filepath.slash ∉ chars (pm_Name p) →
  rule_path env d ≠ target_path env p.
Proof.
  intros Hd Hp E. apply (f_equal kept) in E. unfold rule_path, target_path in E.
  change ([VolumeLocation env; prometheusRulesDir; dcr_Name d +:+ ".yml"])
    with ([VolumeLocation env; prometheusRulesDir] ++ [dcr_Name d +:+ ".yml"]) in E.
  change ([VolumeLocation env; prometheusTargetsDir; getTargetFileSubdir p; pm_Name p +:+ ".json"])
    with ([VolumeLocation env; prometheusTargetsDir; getTargetFileSubdir p] ++ [pm_Name p +:+ ".json"]) in E.
  rewrite !kept_Join_snoc in E.
  - apply app_inj_2 in E as [_ [= E]]; [|done].
    apply (f_equal (λ s, last (chars s))) in E. by rewrite !chars_app, !last_app in E.
  - exists prometheusTargetsDir. split; [set_solver|done].
  - by apply target_file_simple.
  - exists prometheusRulesDir. split; [set_solver|done].
  - apply filepath_facts.simple_ext; [done|compute_done|simpl; lia].
Qed.

(** The target file as a path of the operator's store. *)
Definition target_name p : string :=
  "prometheus/targets/" +:+ getTargetFileSubdir p +:+ "/" +:+ pm_Name p +:+ ".json".

Lemma target_name_plain p :
  filepath.slash ∉ chars (pm_Name p) →
  local (target_name p) ∧ filepath.Clean (target_name p) = target_name p.
Proof.
  intros Hp. destruct (plain_path ["prometheus"; "targets"; getTargetFileSubdir p; pm_Name p +:+ ".json"])
    as (Hl & Hc & _); [done| |].
  - repeat constructor; try compute_done; try apply subdir_simple; by apply target_file_simple.
  - done.
Qed.

Lemma target_name_path env p :
  VolumeLocation env ≠ "" →
  VolumeFileStore_Resolve (VolumeLocation env) [target_name p] = target_path env p.
Proof.
  intros Hv. unfold VolumeFileStore_Resolve, target_path. cbn [filepath.Join].
  by rewrite !decide_False.
Qed.

(** ** The passes of the other controllers *)

Section SharedVolume.
Context `{UnicodeTables, MetaConditionsLaws, FinalizerUtilLaws, Os, RenameioLaws}.
Context (env : validatedEnv) (Hvol : VolumeLocation env ≠ "").

(** The measurements, as their system sees them. *)
Context {P : Type} `{Getter P MeasurementDevice, PmServer P stored} (watched : string → Prop) (a : P).

Section Resources.
Context {A : Type} `{MapOrder, LabelValidation, SortSlice, SelectorClient A, TextTemplate, DcrLister A}.
Context `{RuleYaml, HttpPost A, Getter A DataCenterResource, Patcher A DataCenterResource}.

Lemma resource_step (w w' : World DataCenterResource A) out :
  filepath.slash ∉ chars (dcr_Name (w_obj w)) →
  run_steps (DataCenterResourceController.reconcile_steps env) w = (out, w') →
  step (stored := stored) env watched (w_fs w, a) (w_fs w', a).
Proof.
  intros Hd Hrun. apply step_volume; [|done]. intros p Hp.
  apply (dcr_run_confined env w w' out); [done|].
  intros E. by apply (rule_not_target env (w_obj w) p).
Qed.
End Resources.

Section Devices.
Context {A : Type} `{ProcessIds, OwnerUtil, SnmpYaml, SelectorClient A, JobClient A, DeploymentClient A}.
Context `{Getter A MeasurementDevice, Patcher A MeasurementDevice}.

Lemma device_step (w w' : World MeasurementDevice A) out :
  filepath.slash ∉ chars (UID (md_Meta (w_obj w))) →
  run_steps (MeasurementDeviceController.reconcile_steps
    (H10 := VolumeFileStore_store (VolumeLocation env)) env) w = (out, w') →
  step (stored := stored) env watched (w_fs w, a) (w_fs w', a).
Proof.
  intros Hu Hrun. apply step_volume; [|done]. intros p Hp.
  destruct (target_name_plain p Hp) as [Hl Hc]. rewrite <-(target_name_path env p Hvol).
  apply (md_run_confined (H14 := VolumeFileStore_laws (VolumeLocation env) Hvol) env w w' out
           (target_name p)); done.
Qed.
End Devices.

Section Both.
Context {A B : Type} `{MapOrder, LabelValidation, SortSlice, SelectorClient A, TextTemplate, DcrLister A}.
Context `{RuleYaml, HttpPost A, Getter A DataCenterResource, Patcher A DataCenterResource}.
Context `{ProcessIds, OwnerUtil, SnmpYaml, SelectorClient B, JobClient B, DeploymentClient B}.

(** The controllers share the volume without interfering: a pass over a data
    centre resource, and one over a measurement device whose store has the volume
    for its root, is a step of the volume in the system of the measurements, so
    that what holds of that system holds whenever the three controllers run. *)
Theorem controllers_share_volume :
  (∀ (w w' : World DataCenterResource A) out,
    filepath.slash ∉ chars (dcr_Name (w_obj w)) →
    run_steps (DataCenterResourceController.reconcile_steps env) w = (out, w') →
    step (stored := stored) env watched (w_fs w, a) (w_fs w', a)) ∧
  (∀ (w w' : World MeasurementDevice B) out,
    filepath.slash ∉ chars (UID (md_Meta (w_obj w))) →
    run_steps (MeasurementDeviceController.reconcile_steps
      (H10 := VolumeFileStore_store (VolumeLocation env)) env) w = (out, w') →
    step (stored := stored) env watched (w_fs w, a) (w_fs w', a)).
Proof. split; [apply resource_step|apply device_step]. Qed.
End Both.
End SharedVolume.

(** ** Witness: passes over the samples of the two controllers *)
Import SimpleHelpers SimpleOs SimpleApi SimpleSort SimpleYaml SystemSample.
Import SampleDcr JobSample MdSample.

Definition device_world : World MeasurementDevice cluster := after_job [done_job].
Definition device_pass : outcome (Result * option error) * World MeasurementDevice cluster :=
  run_steps (MeasurementDeviceController.reconcile_steps
    (H10 := VolumeFileStore_store (VolumeLocation sample_env)) sample_env) device_world.

Lemma controllers_share_volume_witness :
  step (stored := api_pms) sample_env (λ ns, ns = "dc") (w_fs before, no_objects) (w_fs after, no_objects) ∧
  step (stored := api_pms) sample_env (λ ns, ns = "dc") (w_fs device_world, no_objects)
    (w_fs device_pass.2, no_objects).
Proof.
  destruct (controllers_share_volume (stored := api_pms) (A := api) (B := cluster)
    sample_env ltac:(discriminate) (λ ns, ns = "dc") no_objects) as [Hr Hd].
  split.
  - apply (Hr before after (pass_over before).1).
    + apply (bool_decide_unpack _). vm_compute. exact I.
    + apply surjective_pairing.
  - apply (Hd device_world device_pass.2 device_pass.1).
    + apply (bool_decide_unpack _). vm_compute. exact I.
    + apply surjective_pairing.
Defined.
