(* ===== verification/WholeSystem.v ===== *)
(** The operator as a whole: the three controllers, the users of the three kinds
    and everyone else, on one volume and one API.  Each step of it is a step of
    the system of each kind, so that what holds of the three holds together. *)
From S2P Require Import Prelude GoStd Errors Paths FileStore Selector Configuration ApiTypes.
From S2P Require Import Steps Cluster Validate Rules Sha256 Snmp MeasurementDeviceJob.
From S2P Require Import MeasurementDeviceController DataCenterResourceController.
From S2P Require Import PhysicalMeasurement PhysicalMeasurementController.
From S2P Require Import Guard ObjectSystem System ResourceSystem DeviceSystem SharedVolume.

Abbreviation has_pm_finalizer := PhysicalMeasurementController.has_finalizer.
Abbreviation has_dcr_finalizer := DataCenterResourceController.has_finalizer.
Abbreviation has_md_finalizer := MeasurementDeviceController.has_finalizer.

(** ** What the API keeps apart: a request about one kind is none about another *)
Class PatchElsewhere (A Obj : Type) `{Patcher A Obj} {X} (f : A → X) : Prop :=
  patch_elsewhere h (o : Obj) a : f (Patch h o a).2 = f a.
Class PostElsewhere (A : Type) `{HttpPost A} {X} (f : A → X) : Prop :=
  post_elsewhere url fs a : f (http_Post url fs a).2 = f a.

(** ** Files of different kinds are different files *)

(** The rule file as a path of the operator's store. *)
Definition rule_name (d : DataCenterResource) : string := "prometheus/rules/" +:+ dcr_Name d +:+ ".yml".

Lemma rule_name_plain d : plain_resource d → local (rule_name d) ∧ filepath.Clean (rule_name d) = rule_name d.
Proof.
  intros Hd. destruct (plain_path ["prometheus"; "rules"; dcr_Name d +:+ ".yml"]) as (Hl & Hc & _); [done| |done].
  repeat constructor; try compute_done; apply filepath_facts.simple_ext; try done; try compute_done; simpl; lia.
Qed.
Lemma rule_name_path env d : VolumeLocation env ≠ "" →
  VolumeFileStore_Resolve (VolumeLocation env) [rule_name d] = rule_path env d.
Proof.
  intros Hv. unfold VolumeFileStore_Resolve, rule_path. cbn [filepath.Join]. by rewrite !decide_False.
Qed.

Section Files.
Context `{Os, RenameioLaws} (env : validatedEnv) (Hvol : VolumeLocation env ≠ "").

Lemma generator_not_target d p : plain_device d → plain_measurement p → generator_path env d ≠ target_path env p.
Proof.
  intros Hd Hp. rewrite <-target_name_path by done. intros E.
  destruct (GeneratorFile_plain _ Hd) as (Hl & Hc & _), (target_name_plain p Hp).
  unfold generator_path in E.
  by apply (plain_resolve (H0 := VolumeFileStore_laws (VolumeLocation env) Hvol)) in E.
Qed.
Lemma generator_not_rule d r : plain_device d → plain_resource r → generator_path env d ≠ rule_path env r.
Proof.
  intros Hd Hr. rewrite <-rule_name_path by done. intros E.
  destruct (GeneratorFile_plain _ Hd) as (Hl & Hc & _), (rule_name_plain r Hr).
  unfold generator_path in E.
  by apply (plain_resolve (H0 := VolumeFileStore_laws (VolumeLocation env) Hvol)) in E.
Qed.

(** A file of a measurement, of a resource or of a device. *)
Definition operator_file (x : string) : Prop :=
  (∃ p, plain_measurement p ∧ x = target_path env p) ∨
  (∃ d, plain_resource d ∧ x = rule_path env d) ∨ (∃ d, plain_device d ∧ x = generator_path env d).
End Files.

(** What a controller asks of the API leaves the objects of the other kinds alone. *)
Class KindsApart {A X Y Z : Type} `{HttpPost A, JobClient A, DeploymentClient A}
    `{Patcher A PhysicalMeasurement, Patcher A DataCenterResource, Patcher A MeasurementDevice}
    (pms : A → X) (dcrs : A → Y) (mds : A → Z) : Prop := {
  pm_patch_dcrs :: PatchElsewhere A PhysicalMeasurement dcrs;
  pm_patch_mds :: PatchElsewhere A PhysicalMeasurement mds;
  dcr_patch_pms :: PatchElsewhere A DataCenterResource pms;
  dcr_patch_mds :: PatchElsewhere A DataCenterResource mds;
  md_patch_pms :: PatchElsewhere A MeasurementDevice pms;
  md_patch_dcrs :: PatchElsewhere A MeasurementDevice dcrs;
  post_pms :: PostElsewhere A pms;
  post_mds :: PostElsewhere A mds;
  jobs_pms :: OtherKinds A pms;
  jobs_dcrs :: OtherKinds A dcrs
}.

Section Whole.
Context {A : Type} `{UnicodeTables, MetaConditionsLaws, FinalizerUtilLaws, Os, RenameioLaws}.
Context `{MapOrder, LabelValidation, SortSlice, SelectorClient A, TextTemplate, DcrLister A, RuleYaml, HttpPost A}.
Context `{ProcessIds, OwnerUtil, SnmpYamlLaws, JobClient A, DeploymentClient A}.
Context `{Getter A PhysicalMeasurement, Patcher A PhysicalMeasurement}.
Context `{Getter A DataCenterResource, Patcher A DataCenterResource}.
Context `{Getter A MeasurementDevice, Patcher A MeasurementDevice}.
(** The stored objects of each kind. *)
Context (pms : A → System.store) (dcrs : A → gmap (string * string) DataCenterResource)
  (mds : A → gmap (string * string) MeasurementDevice).
Context `{!PmServer A pms, !ObjectServer dcrs, !ObjectServer mds}.
Context `{!ReloadLaws A dcrs, !OtherKinds A mds}.

Context (env : validatedEnv) (watched : string → Prop).
Implicit Types (s : Fs * A) (x : string).

Definition reconcile_pm : string → string → Fs * A → outcome (Result * option error) * (Fs * A) :=
  PhysicalMeasurementController.Reconcile env.
Definition reconcile_dcr : string → string → Fs * A → outcome (Result * option error) * (Fs * A) :=
  DataCenterResourceController.Reconcile env.
Definition reconcile_md : string → string → Fs * A → outcome (Result * option error) * (Fs * A) :=
  MeasurementDeviceController.Reconcile (H10 := VolumeFileStore_store (VolumeLocation env)) env.

(** One step: a pass of one of the controllers, a request of a user about an object
    of one of the kinds, or anything done by others to the rest of the volume and of
    the API. *)
Inductive whole_step : relation (Fs * A) :=
| whole_pm ns n s out s' : reconcile_pm ns n s = (out, s') → whole_step s s'
| whole_dcr ns n s out s' : reconcile_dcr ns n s = (out, s') → whole_step s s'
| whole_md ns n s out s' : reconcile_md ns n s = (out, s') → whole_step s s'
| whole_pm_user fs a a' :
    user watched (pms a) (pms a') → dcrs a' = dcrs a → mds a' = mds a → whole_step (fs, a) (fs, a')
| whole_dcr_user fs a a' :
    object_user (rule_path env) plain_resource (dcrs a) (dcrs a') → pms a' = pms a → mds a' = mds a →
    whole_step (fs, a) (fs, a')
| whole_md_user fs a a' :
    object_user (generator_path env) plain_device (mds a) (mds a') → pms a' = pms a → dcrs a' = dcrs a →
    whole_step (fs, a) (fs, a')
| whole_others fs fs' a a' :
    (∀ x, operator_file env x → files fs' !! x = files fs !! x) →
    pms a' = pms a → dcrs a' = dcrs a → mds a' = mds a → whole_step (fs, a) (fs', a').

(** ** What each controller leaves alone *)
Section Elsewhere.
Context {X : Type} (f : A → X).

Lemma pm_pass_api `{!PatchElsewhere A PhysicalMeasurement f} ns n s out s' :
  reconcile_pm ns n s = (out, s') → f s'.2 = f s.2.
Proof.
  intros [->|(p & h & o & w' & _ & _ & Hrun & ->)]%reconcile_with_inv; [done|]. cbn [snd].
  rewrite patch_elsewhere. pose proof (PhysicalMeasurementController.run_steps_refines env (mkWorld p s.1 s.2))
    as (_ & _ & Hapi). rewrite Hrun in Hapi. cbn [snd w_api] in Hapi. by rewrite Hapi.
Qed.

Lemma dcr_pass_api `{!PatchElsewhere A DataCenterResource f, !PostElsewhere A f} ns n s out s' :
  reconcile_dcr ns n s = (out, s') → f s'.2 = f s.2.
Proof.
  intros [->|(d & h & o & w' & _ & _ & Hrun & ->)]%reconcile_with_inv; [done|]. cbn [snd].
  rewrite patch_elsewhere.
  set (R := λ a a' : A, f a' = f a). assert (PreOrder R) as HR.
  { split; [by intros a|]. unfold R. intros a1 a2 a3 E1 E2. congruence. }
  assert (R s.2 (w_api w')) as Hm; [|done].
  pose proof (run_steps_moves env R (λ url fs a, post_elsewhere url fs a) (λ a d0 h0 _, patch_elsewhere h0 _ a)
    (mkWorld (normalizeDataCenterResource d) s.1 s.2)) as Hm.
  by rewrite Hrun in Hm.
Qed.

Lemma md_pass_api `{!PatchElsewhere A MeasurementDevice f, !OtherKinds A f} ns n s out s' :
  reconcile_md ns n s = (out, s') → f s'.2 = f s.2.
Proof.
  intros [->|(d & h & o & w' & _ & _ & Hrun & ->)]%reconcile_with_inv; [done|]. cbn [snd].
  rewrite patch_elsewhere. destruct (run_steps_still env f (mkWorld d s.1 s.2)) as [_ E].
  exact (eq_trans (eq_sym (f_equal (λ r, f (w_api r.2)) Hrun)) E).
Qed.
End Elsewhere.

Lemma pm_pass_files ns n s out s' x :
  inv (stored := pms) env watched s → reconcile_pm ns n s = (out, s') →
  (∀ p, plain_measurement p → x ≠ target_path env p) → files s'.1 !! x = files s.1 !! x.
Proof.
  intros Hi Hr Hx. destruct (Reconcile_effect env ns n s out s' (inv_keyed _ _ _ Hi) Hr)
    as [->|(p & p' & o & Hp & _ & _ & _ & He & _)]; [done|].
  apply (effect_elsewhere _ _ _ _ _ _ _ _ He), Hx. by destruct (inv_key _ _ _ Hi _ _ Hp) as (_ & _ & ?).
Qed.

Lemma dcr_pass_files ns n s out s' x :
  well_kept plain_resource (dcrs s.2) → reconcile_dcr ns n s = (out, s') →
  (∀ d, plain_resource d → x ≠ rule_path env d) → files s'.1 !! x = files s.1 !! x.
Proof.
  intros Hw [->|(d & h & o & w' & Hget & _ & Hrun & ->)]%reconcile_with_inv Hx; [done|]. cbn [fst].
  apply object_get in Hget. destruct (Hw _ _ Hget) as [_ Hd].
  exact (dcr_run_confined env _ w' o x Hrun (Hx d Hd)).
Qed.

Lemma md_pass_files (Hvol : VolumeLocation env ≠ "") ns n s out s' name :
  well_kept plain_device (mds s.2) → reconcile_md ns n s = (out, s') →
  local name → filepath.Clean name = name → (∀ uid, name ≠ GeneratorFile uid) →
  (∀ uid, name ≠ SnmpFile uid) → name ≠ SnmpMergedFile →
  volume_content (VolumeLocation env) s'.1 name = volume_content (VolumeLocation env) s.1 name.
Proof.
  intros Hw [->|(d & h & o & w' & Hget & _ & Hrun & ->)]%reconcile_with_inv Hl Hc Hg Hs Hm; [done|]. cbn [fst].
  apply object_get in Hget. destruct (Hw _ _ Hget) as [_ Hd].
  by apply (md_run_confined (H14 := VolumeFileStore_laws (VolumeLocation env) Hvol) env (mkWorld d s.1 s.2) w' o).
Qed.

(** ** The projections *)
Context `{!KindsApart pms dcrs mds} (Hvol : VolumeLocation env ≠ "").
Abbreviation pm_step := (System.step (stored := pms) env watched).
Abbreviation dcr_step := (ResourceSystem.resource_step dcrs env).
Abbreviation md_step := (DeviceSystem.device_step mds env).

(** The objects are well kept, in each kind. *)
Record whole_inv s : Prop := {
  whole_pms : inv (stored := pms) env watched s;
  whole_dcrs : well_kept plain_resource (dcrs s.2);
  whole_mds : well_kept plain_device (mds s.2)
}.

(** A pass over one kind of object, to the other two. *)
Lemma pm_pass_projects ns n s out s' :
  whole_inv s → reconcile_pm ns n s = (out, s') → pm_step s s' ∧ dcr_step s s' ∧ md_step s s'.
Proof.
  intros [Hp _ _] Hr. split; [by eapply step_reconcile|].
  pose proof (pm_pass_api dcrs ns n s out s' Hr). pose proof (pm_pass_api mds ns n s out s' Hr).
  pose proof (λ x, pm_pass_files ns n s out s' x Hp Hr) as Hf.
  destruct s as [fs a], s' as [fs' a']. split; (apply object_volume; [|done]).
  - intros d Hd. apply Hf. intros p Hpl. by apply rule_not_target.
  - intros d Hd. apply Hf. intros p Hpl. by apply generator_not_target.
Qed.

Lemma dcr_pass_projects ns n s out s' :
  whole_inv s → reconcile_dcr ns n s = (out, s') → pm_step s s' ∧ dcr_step s s' ∧ md_step s s'.
Proof.
  intros [_ Hd _] Hr.
  pose proof (dcr_pass_api pms ns n s out s' Hr). pose proof (dcr_pass_api mds ns n s out s' Hr).
  pose proof (λ x, dcr_pass_files ns n s out s' x Hd Hr) as Hf.
  split; [|split; [by eapply object_reconcile|]]; destruct s as [fs a], s' as [fs' a'].
  - apply step_volume; [|done]. intros p Hpl. apply Hf. intros d Hpd. intros E.
    by apply (rule_not_target env d p).
  - apply object_volume; [|done]. intros d Hpd. apply Hf. intros r Hpr. by apply generator_not_rule.
Qed.

Lemma md_pass_projects ns n s out s' :
  whole_inv s → reconcile_md ns n s = (out, s') → pm_step s s' ∧ dcr_step s s' ∧ md_step s s'.
Proof.
  intros [_ _ Hm] Hr.
  pose proof (md_pass_api pms ns n s out s' Hr). pose proof (md_pass_api dcrs ns n s out s' Hr).
  pose proof (λ name, md_pass_files Hvol ns n s out s' name Hm Hr) as Hf.
  split; [|split; [|by eapply object_reconcile]]; destruct s as [fs a], s' as [fs' a'].
  - apply step_volume; [|done]. intros p Hpl. destruct (target_name_plain p Hpl) as [Hl Hc].
    rewrite <-(target_name_path env p Hvol). by apply (Hf (target_name p)).
  - apply object_volume; [|done]. intros d Hpd. destruct (rule_name_plain d Hpd) as [Hl Hc].
    rewrite <-(rule_name_path env d Hvol). by apply (Hf (rule_name d)).
Qed.

Lemma whole_step_projects s s' :
  whole_inv s → whole_step s s' → pm_step s s' ∧ dcr_step s s' ∧ md_step s s'.
Proof.
  intros Hi Hs. destruct Hs as [ns n s out s' Hr|ns n s out s' Hr|ns n s out s' Hr|fs a a' Hu Hd Hm
    |fs a a' Hu Hp Hm|fs a a' Hu Hp Hd|fs fs' a a' Hf Hp Hd Hm].
  - by eapply pm_pass_projects.
  - by eapply dcr_pass_projects.
  - by eapply md_pass_projects.
  - split; [by apply step_user|]. split; by apply object_volume.
  - split; [by apply step_volume|]. split; [by apply object_users|by apply object_volume].
  - split; [by apply step_volume|]. split; [by apply object_volume|by apply object_users].
  - split; [apply step_volume|split; apply object_volume]; try done; intros o Ho; apply Hf; unfold operator_file; eauto.
Qed.

Context (Hone : ∀ ns ns', watched ns → watched ns' → ns = ns').
Lemma whole_inv_step s s' : whole_inv s → whole_step s s' → whole_inv s'.
Proof.
  intros Hi Hs. destruct (whole_step_projects s s' Hi Hs) as (Hp & Hd & Hm).
  pose proof (device_controller mds env Hvol) as Hprot. split.
  - by eapply inv_step, Hp; [|apply Hi].
  - by eapply object_step_guard, Hd; [apply _..|apply Hi].
  - by eapply object_step_guard, Hm; [apply _..|apply Hi].
Qed.

Lemma whole_reached s0 s : whole_inv s0 → rtc whole_step s0 s →
  rtc pm_step s0 s ∧ rtc dcr_step s0 s ∧ rtc md_step s0 s.
Proof.
  intros Hi Hr. induction Hr as [s|s1 s2 s3 Hs _ IH]; [by split_and!; apply rtc_refl|].
  destruct (whole_step_projects _ _ Hi Hs) as (Hp & Hd & Hm).
  destruct (IH (whole_inv_step _ _ Hi Hs)) as (Hp' & Hd' & Hm').
  split_and!; by eapply rtc_l.
Qed.
End Whole.

Section WholeProperties.
Context {A : Type} `{UnicodeTables, MetaConditionsLaws, FinalizerUtilLaws, Os, RenameioLaws}.
Context `{MapOrder, LabelValidation, SortSlice, SelectorClient A, TextTemplate, DcrLister A, RuleYaml, HttpPost A}.
Context `{ProcessIds, OwnerUtil, SnmpYamlLaws, JobClient A, DeploymentClient A}.
Context `{Getter A PhysicalMeasurement, Patcher A PhysicalMeasurement}.
Context `{Getter A DataCenterResource, Patcher A DataCenterResource}.
Context `{Getter A MeasurementDevice, Patcher A MeasurementDevice}.
Context (pms : A → System.store) (dcrs : A → gmap (string * string) DataCenterResource)
  (mds : A → gmap (string * string) MeasurementDevice).
Context `{!PmServer A pms, !ObjectServer dcrs, !ObjectServer mds}.
Context `{!ReloadLaws A dcrs, !OtherKinds A mds, !KindsApart pms dcrs mds}.

(** C4: the operator as a whole keeps its files and its objects together.  Users of
    the three kinds create, edit, delete and purge objects, where the measurements
    are all of one namespace, the type of a measurement is not edited, no resource
    and no device is created whose file is that of another that is stored, and names
    are file names.  Then in every state that the three controllers, these users and
    everyone else reach from an empty cluster over one volume and one API, in
    whatever order their steps come and whatever is refused: each target, rule or
    generator file belongs to a stored object of its kind that still has its
    finalizer, and a live measurement that is Ready for its present spec is published
    as that spec says. *)
Theorem operator_files_owned (env : validatedEnv) (watched : string → Prop) (s0 s : Fs * A) :
  VolumeLocation env ≠ "" → (∀ ns ns', watched ns → watched ns' → ns = ns') →
  pms s0.2 = ∅ → dcrs s0.2 = ∅ → mds s0.2 = ∅ →
  (∀ x, operator_file env x → files s0.1 !! x = None) →
  rtc (whole_step pms dcrs mds env watched) s0 s →
  (∀ x, operator_file env x → is_Some (files s.1 !! x) →
     (∃ k p, pms s.2 !! k = Some p ∧ x = target_path env p ∧ has_pm_finalizer p = true) ∨
     (∃ k d, dcrs s.2 !! k = Some d ∧ x = rule_path env d ∧ has_dcr_finalizer d = true) ∨
     (∃ k d, mds s.2 !! k = Some d ∧ x = generator_path env d ∧ has_md_finalizer d = true)) ∧
  (∀ k p, pms s.2 !! k = Some p → DeletionTimestamp (pm_Meta p) = None → ready_now p →
     files s.1 !! target_path env p = Some (target_data p)).
Proof.
  intros Hvol Hone Hp Hd Hm Hf Hr. pose proof (device_controller mds env Hvol) as Hprot.
  assert (whole_inv pms dcrs mds env watched s0) as Hi.
  { split; [eapply inv_reached; [exact Hone|exact Hp|apply rtc_refl]| |];
      intros k o; rewrite ?Hd, ?Hm, lookup_empty; done. }
  destruct (whole_reached pms dcrs mds env watched Hvol Hone s0 s Hi Hr) as (Hrp & Hrd & Hrm). split.
  - intros x [(p & Hpl & ->)|[(d & Hpl & ->)|(d & Hpl & ->)]] Hin.
    + left. destruct (owned_reached env watched Hone s0 s Hp) with (x := target_path env p)
        as (k & q & Hq & E & Hfin); [|done|by exists p|done|by exists k, q].
      intros q Hq. apply Hf. left. by exists q.
    + right. left. destruct (objects_owned dcrs (rule_path env) has_dcr_finalizer plain_resource _ s0 s d)
        as (q & Hq & _ & E & Hfin); [done| |done|done|done|by exists (object_key q), q].
      intros q Hq. apply Hf. right. left. by exists q.
    + right. right. destruct (objects_owned mds (generator_path env) has_md_finalizer plain_device _ s0 s d)
        as (q & Hq & _ & E & Hfin); [done| |done|done|done|by exists (object_key q), q].
      intros q Hq. apply Hf. right. right. by exists q.
  - intros k p. apply (inv_published _ _ _ (inv_reached env watched Hone s0 s Hp Hrp)).
Qed.
End WholeProperties.

(** ** A run of all three: a device, a measurement of it and a PDU are created,
    adopted and published, in turns *)
Module WholeSample.
Import SimpleHelpers SimpleOs SimpleSort SimpleYaml SampleDcr JobSample.
#[export] Existing Instances MdSample.owner MdSample.unicode.

Record server := mkServer {
  sv_pms : gmap (string * string) PhysicalMeasurement;
  sv_dcrs : gmap (string * string) DataCenterResource;
  sv_mds : gmap (string * string) MeasurementDevice;
  sv_jobs : list Job;
  sv_exporter : Deployment
}.
#[export] Instance pm_getter : Getter server PhysicalMeasurement := {| Get a := merge_get (sv_pms a) |}.
#[export] Instance dcr_getter : Getter server DataCenterResource := {| Get a := merge_get (sv_dcrs a) |}.
#[export] Instance md_getter : Getter server MeasurementDevice := {| Get a := merge_get (sv_mds a) |}.
#[export] Instance pm_patcher : Patcher server PhysicalMeasurement :=
  {| helper := PhysicalMeasurement; NewHelper _ p := inr p;
     Patch p p' a := let '(err, m) := merge_patch p p' (sv_pms a) in
                     (err, mkServer m (sv_dcrs a) (sv_mds a) (sv_jobs a) (sv_exporter a)) |}.
#[export] Instance dcr_patcher : Patcher server DataCenterResource :=
  {| helper := DataCenterResource; NewHelper _ d := inr d;
     Patch d d' a := let '(err, m) := merge_patch d d' (sv_dcrs a) in
                     (err, mkServer (sv_pms a) m (sv_mds a) (sv_jobs a) (sv_exporter a)) |}.
#[export] Instance md_patcher : Patcher server MeasurementDevice :=
  {| helper := MeasurementDevice; NewHelper _ d := inr d;
     Patch d d' a := let '(err, m) := merge_patch d d' (sv_mds a) in
                     (err, mkServer (sv_pms a) (sv_dcrs a) m (sv_jobs a) (sv_exporter a)) |}.
#[export] Instance sv_post : HttpPost server := {| http_Post _ _ a := (inr StatusOK, a) |}.
#[export] Instance sv_selector : SelectorClient server :=
  {| Get_ConfigMap _ _ n := inl (StatusError true n); Get_Secret _ _ n := inl (StatusError true n) |}.
#[export] Instance sv_lister : DcrLister server :=
  {| List_DCR a ns _ := (snd <$> filter (λ kv, kv.1.1 = ns) (map_to_list (sv_dcrs a)), None) |}.
#[export] Instance sv_job_client : JobClient server :=
  {| List_Jobs a ns := inr (filter (λ j, job_Namespace j = ns) (sv_jobs a));
     Create_Job j a := (None, mkServer (sv_pms a) (sv_dcrs a) (sv_mds a) (sv_jobs a ++ [j]) (sv_exporter a));
     Delete_Job j a := (None, mkServer (sv_pms a) (sv_dcrs a) (sv_mds a)
       (filter (λ k, job_Name k ≠ job_Name j) (sv_jobs a)) (sv_exporter a)) |}.
#[export] Instance sv_deployments : DeploymentClient server :=
  {| Get_Deployment a _ _ := inr (sv_exporter a);
     Patch_Deployment _ d a := (None, mkServer (sv_pms a) (sv_dcrs a) (sv_mds a) (sv_jobs a) d) |}.

#[export] Instance dcr_server : ObjectServer sv_dcrs.
Proof.
  split; [intros a; apply merge_get_stored|]. intros a0 a d d' h r a' [= <-] _. simpl.
  pose proof (merge_patch_stored d d' (sv_dcrs a)) as Hm.
  by destruct (merge_patch d d' (sv_dcrs a)) as [err m]; intros [= _ <-].
Qed.
#[export] Instance md_server : ObjectServer sv_mds.
Proof.
  split; [intros a; apply merge_get_stored|]. intros a0 a d d' h r a' [= <-] _. simpl.
  pose proof (merge_patch_stored d d' (sv_mds a)) as Hm.
  by destruct (merge_patch d d' (sv_mds a)) as [err m]; intros [= _ <-].
Qed.
#[export] Instance pm_server : PmServer server sv_pms.
Proof.
  split; [intros a; apply merge_get_stored|]. intros a p p' h r a' [= <-] Hp [Hs Hm]. simpl.
  unfold merge_patch. change (object_key p) with (key p). rewrite Hp. intros [= _ <-].
  exists (merged p p p'). split; [|done]. unfold merged.
  destruct (decide (_ ∧ _)) as [(? & ? & ?)|_]; [by apply patch_removed|]. apply patch_kept; [done|cbn; by destruct (pm_Meta p)|..];
    cbn; case_decide; auto.
Qed.
#[export] Instance sv_reload : ReloadLaws server sv_dcrs.
Proof. split. by intros url fs a r a' [= _ <-]. Qed.
#[export] Instance sv_kinds : OtherKinds server sv_mds.
Proof. by split. Qed.
#[export] Instance sv_apart : KindsApart sv_pms sv_dcrs sv_mds.
Proof.
  split; try (by split); try (by intros ? ? ?); intros h o a; simpl; by case_match.
Qed.

Definition begin : Fs * server :=
  (empty_fs, mkServer ∅ ∅ ∅ [] (Selector.mkDeployment "chantico-snmp" "chantico" 1 1 0 None)).
Definition pdu : DataCenterResource := sample_pdu.
Definition device : MeasurementDevice :=
  set_md_Meta (mkObjectMeta "tno" "dc" "a-random-uid" 7 None []) JobSample.device.
Definition measurement : PhysicalMeasurement :=
  {| pm_Meta := mkObjectMeta "rack1" "dc" "u1" 1 None [];
     pm_Spec := mkPhysicalMeasurementSpec "snmp" "10.0.0.7" "tno" None;
     pm_Status := mkPhysicalMeasurementStatus 0 [] |}.
Definition put_pm (p : PhysicalMeasurement) (s : Fs * server) : Fs * server :=
  (s.1, mkServer (<[key p := p]> (sv_pms s.2)) (sv_dcrs s.2) (sv_mds s.2) (sv_jobs s.2) (sv_exporter s.2)).
Definition put_dcr (d : DataCenterResource) (s : Fs * server) : Fs * server :=
  (s.1, mkServer (sv_pms s.2) (<[object_key d := d]> (sv_dcrs s.2)) (sv_mds s.2) (sv_jobs s.2) (sv_exporter s.2)).
Definition put_md (d : MeasurementDevice) (s : Fs * server) : Fs * server :=
  (s.1, mkServer (sv_pms s.2) (sv_dcrs s.2) (<[object_key d := d]> (sv_mds s.2)) (sv_jobs s.2) (sv_exporter s.2)).
Definition turn_pm (s : Fs * server) : Fs * server := (reconcile_pm sample_env "dc" "rack1" s).2.
Definition turn_dcr (s : Fs * server) : Fs * server :=
  (reconcile_dcr sample_env (Namespace (dcr_Meta pdu)) "pdu1" s).2.
Definition turn_md (s : Fs * server) : Fs * server := (reconcile_md sample_env "dc" "tno" s).2.

Definition created : Fs * server := put_dcr pdu (put_pm measurement (put_md device begin)).
Definition settled : Fs * server := turn_dcr (turn_md (turn_pm (turn_dcr (turn_pm (turn_md created))))).

Example three_files :
  size (files settled.1) = 3 ∧ length (sv_jobs settled.2) = 1 ∧
  is_Some (files settled.1 !! target_path sample_env measurement) ∧
  is_Some (files settled.1 !! rule_path sample_env pdu) ∧
  is_Some (files settled.1 !! generator_path sample_env device).
Proof. vm_compute. split_and!; try done; by eexists. Qed.

Abbreviation one := (λ ns : string, ns = "dc").
Abbreviation run := (rtc (whole_step sv_pms sv_dcrs sv_mds sample_env one)).
Lemma created_reached : run begin created.
Proof.
  eapply rtc_l; [apply (whole_md_user _ _ _ _ _ _ _ (put_md device begin).2); [|done..]; apply user_creates; try done|].
  { apply (bool_decide_unpack _). vm_compute. exact I. }
  eapply rtc_l; [apply (whole_pm_user _ _ _ _ _ _ _ (put_pm measurement (put_md device begin)).2); [|done..];
    apply user_create; try done|].
  { apply (bool_decide_unpack _). vm_compute. exact I. }
  apply rtc_once. apply (whole_dcr_user _ _ _ _ _ _ _ created.2); [|done..]. apply user_creates; try done.
  apply (bool_decide_unpack _). vm_compute. exact I.
Qed.
Lemma settled_reached : run begin settled.
Proof.
  etransitivity; [apply created_reached|].
  eapply rtc_l; [eapply whole_md, surjective_pairing|]. eapply rtc_l; [eapply whole_pm, surjective_pairing|].
  eapply rtc_l; [eapply whole_dcr, surjective_pairing|]. eapply rtc_l; [eapply whole_pm, surjective_pairing|].
  eapply rtc_l; [eapply whole_md, surjective_pairing|]. eapply rtc_l; [eapply whole_dcr, surjective_pairing|].
  apply rtc_refl.
Qed.
End WholeSample.
Import WholeSample.
Import SimpleHelpers SimpleOs SimpleSort SimpleYaml SampleDcr JobSample.

Lemma operator_files_owned_witness :
  (∀ x, operator_file sample_env x → is_Some (files settled.1 !! x) →
     (∃ k p, sv_pms settled.2 !! k = Some p ∧ x = target_path sample_env p ∧ has_pm_finalizer p = true) ∨
     (∃ k d, sv_dcrs settled.2 !! k = Some d ∧ x = rule_path sample_env d ∧ has_dcr_finalizer d = true) ∨
     (∃ k d, sv_mds settled.2 !! k = Some d ∧ x = generator_path sample_env d ∧ has_md_finalizer d = true)) ∧
  (∀ k p, sv_pms settled.2 !! k = Some p → DeletionTimestamp (pm_Meta p) = None → ready_now p →
     files settled.1 !! target_path sample_env p = Some (target_data p)).
Proof.
  apply (operator_files_owned sv_pms sv_dcrs sv_mds sample_env (λ ns, ns = "dc") begin settled).
  - discriminate.
  - by intros ns ns' -> ->.
  - reflexivity.
  - reflexivity.
  - reflexivity.
  - intros x _. apply lookup_empty.
  - apply settled_reached.
Defined.
