(* ===== verification/Interleaving.v ===== *)
(** The operator as it runs: three workers, one per kind of object, that take their
    passes one step at a time on one volume and one API, over objects read from
    caches that lag behind, the users and everyone else acting between the steps, and
    crashes.  It does what [WholeSystem] does, where users create objects without the
    operator's finalizers, and what holds there for passes that nothing interrupts
    and that read what is stored holds here as well. *)
From S2P Require Import Prelude GoStd Errors Paths FileStore Selector Configuration ApiTypes.
From S2P Require Import Steps Cluster Validate Rules Sha256 Snmp MeasurementDeviceJob.
From S2P Require Import MeasurementDeviceController DataCenterResourceController.
From S2P Require Import PhysicalMeasurement PhysicalMeasurementController.
From S2P Require Import Guard ObjectSystem Caches Threads System MeasurementThread ResourceSystem ResourceThread.
From S2P Require Import DeviceSystem DeviceThread SharedVolume WholeSystem.

Section Interleaving.
Context {A : Type} `{UnicodeTables, MetaConditionsLaws, FinalizerUtilLaws, Os, RenameioLaws}.
Context `{MapOrder, LabelValidation, SortSlice, SelectorClient A, TextTemplate, DcrLister A, RuleYaml, HttpPost A}.
Context `{ProcessIds, OwnerUtil, SnmpYamlLaws, JobClient A, DeploymentClient A}.
Context `{Getter A PhysicalMeasurement, Patcher A PhysicalMeasurement}.
Context `{Getter A DataCenterResource, Patcher A DataCenterResource}.
Context `{Getter A MeasurementDevice, Patcher A MeasurementDevice}.
Context (pms : A → System.store) (dcrs : A → gmap (string * string) DataCenterResource)
  (mds : A → gmap (string * string) MeasurementDevice).
(** The versions of each kind, from the one its cache shows to the one that is stored. *)
Context (pmh : A → list System.store) (dcrh : A → list (gmap (string * string) DataCenterResource))
  (mdh : A → list (gmap (string * string) MeasurementDevice)).
Context `{!CachedServer pms pmh, !PatchKeeps A pmh, !CachedServer dcrs dcrh, !CachedServer mds mdh}.
Context `{!ReloadLaws A dcrh, !OtherKinds A mdh, !KindsApart pmh dcrh mdh}.
Context (env : validatedEnv) (watched : string → Prop).
Implicit Types (s : Fs * A) (x : string).

Abbreviation pm_steps := (PhysicalMeasurementController.reconcile_steps (A := A) env).
Abbreviation dcr_steps := (DataCenterResourceController.reconcile_steps (A := A) env).
Abbreviation md_steps :=
  (MeasurementDeviceController.reconcile_steps (A := A) (H10 := VolumeFileStore_store (VolumeLocation env)) env).

(** What users may do to resources and to devices. *)
Abbreviation dcr_user := (cached_user (rule_path env) has_dcr_finalizer plain_resource).
Abbreviation md_user := (cached_user (generator_path env) has_md_finalizer plain_device).

(** The three workers, the volume and the API. *)
Record operator := mkOperator {
  op_pm : thread PhysicalMeasurement A;
  op_dcr : thread DataCenterResource A;
  op_md : thread MeasurementDevice A;
  op_state : Fs * A
}.
Implicit Types (o : operator).

Inductive operator_step : relation operator :=
| worker_pm t t' d m s s' :
    thread_step (λ p, p) pm_steps (t, s) (t', s') → operator_step (mkOperator t d m s) (mkOperator t' d m s')
| worker_dcr t d d' m s s' :
    thread_step normalizeDataCenterResource dcr_steps (d, s) (d', s') →
    operator_step (mkOperator t d m s) (mkOperator t d' m s')
| worker_md t d m m' s s' :
    thread_step (λ p, p) md_steps (m, s) (m', s') → operator_step (mkOperator t d m s) (mkOperator t d m' s')
| users_pm t d m fs a a' :
    evolves (user watched) (pmh a) (pmh a') → dcrh a' = dcrh a → mdh a' = mdh a →
    operator_step (mkOperator t d m (fs, a)) (mkOperator t d m (fs, a'))
| users_dcr t d m fs a a' :
    evolves dcr_user (dcrh a) (dcrh a') → pmh a' = pmh a → mdh a' = mdh a →
    operator_step (mkOperator t d m (fs, a)) (mkOperator t d m (fs, a'))
| users_md t d m fs a a' :
    evolves md_user (mdh a) (mdh a') → pmh a' = pmh a → dcrh a' = dcrh a →
    operator_step (mkOperator t d m (fs, a)) (mkOperator t d m (fs, a'))
| all_others t d m fs fs' a a' :
    (∀ x, operator_file env x → files fs' !! x = files fs !! x) →
    pmh a' = pmh a → dcrh a' = dcrh a → mdh a' = mdh a →
    operator_step (mkOperator t d m (fs, a)) (mkOperator t d m (fs', a')).

(** The operator with nothing under way. *)
Definition idle s : operator := mkOperator None None None s.

(** ** What each worker leaves alone *)
Abbreviation pm_ok := (thread_ok pmh (target_path env) has_pm_finalizer plain_measurement pm_steps).
Abbreviation dcr_ok := (thread_ok dcrh (rule_path env) has_dcr_finalizer plain_resource dcr_steps).
Abbreviation md_ok := (thread_ok mdh (generator_path env) has_md_finalizer plain_device md_steps).

#[local] Instance same_reflexive {X} (f : Fs * A → X) : Reflexive (λ s s', f s' = f s).
Proof. by intros s. Qed.

Lemma pm_worker_files t s t' s' x :
  pm_ok (t, s) → thread_step (λ p, p) pm_steps (t, s) (t', s') →
  (∀ p, plain_measurement p → x ≠ target_path env p) → files s'.1 !! x = files s.1 !! x.
Proof.
  intros Hok Hs Hx. apply (worker_frame pmh (target_path env) has_pm_finalizer plain_measurement (λ p, p) pm_steps
    (λ s s', files s'.1 !! x = files s.1 !! x) t s t' s'); [|done..].
  intros f w Hf Hp. cbn [fst snd]. destruct (steps_effect env f w Hf) as (_ & _ & Ht). specialize (Hx _ Hp).
  destruct Ht as [->|[-> |[_ ->]]]; by rewrite ?lookup_insert_ne, ?lookup_delete_ne by done.
Qed.
Lemma pm_worker_api {X} (g : A → X) `{!PatchElsewhere A PhysicalMeasurement g} t s t' s' :
  pm_ok (t, s) → thread_step (λ p, p) pm_steps (t, s) (t', s') → g s'.2 = g s.2.
Proof.
  intros Hok Hs. apply (worker_frame pmh (target_path env) has_pm_finalizer plain_measurement (λ p, p) pm_steps
    (λ s s', g s'.2 = g s.2) t s t' s'); [|intros h p fs a; apply patch_elsewhere|done..].
  intros f w Hf _. cbn [fst snd]. by destruct (steps_effect env f w Hf) as (_ & -> & _).
Qed.

Lemma dcr_worker_files t s t' s' x :
  dcr_ok (t, s) → thread_step normalizeDataCenterResource dcr_steps (t, s) (t', s') →
  (∀ d, plain_resource d → x ≠ rule_path env d) → files s'.1 !! x = files s.1 !! x.
Proof.
  intros Hok Hs Hx. apply (worker_frame dcrh (rule_path env) has_dcr_finalizer plain_resource
    normalizeDataCenterResource dcr_steps (λ s s', files s'.1 !! x = files s.1 !! x) t s t' s'); [|done..].
  intros f w Hf Hp. cbn [fst snd]. destruct (resource_step_moves env f w Hf) as [_ Hm]. by apply Hm, Hx.
Qed.
Lemma dcr_worker_api {X} (g : A → X) `{!PatchElsewhere A DataCenterResource g, !PostElsewhere A g} t s t' s' :
  dcr_ok (t, s) → thread_step normalizeDataCenterResource dcr_steps (t, s) (t', s') → g s'.2 = g s.2.
Proof.
  intros Hok Hs. apply (worker_frame dcrh (rule_path env) has_dcr_finalizer plain_resource
    normalizeDataCenterResource dcr_steps (λ s s', g s'.2 = g s.2) t s t' s');
    [|intros h d fs a; apply patch_elsewhere|done..].
  intros f w Hf _. cbn [fst snd].
  set (R := λ a a' : A, g a' = g a). assert (PreOrder R) as HR.
  { split; [by intros a|]. unfold R. intros a1 a2 a3 E1 E2. congruence. }
  pose proof (moves_steps env R (λ url fs a, post_elsewhere url fs a) (λ a d0 h0 _, patch_elsewhere h0 _ a)) as Hm.
  rewrite Forall_forall in Hm. exact (Hm f Hf w).
Qed.

Lemma md_worker_files (Hvol : VolumeLocation env ≠ "") t s t' s' name :
  md_ok (t, s) → thread_step (λ p, p) md_steps (t, s) (t', s') →
  local name → filepath.Clean name = name → (∀ uid, name ≠ GeneratorFile uid) →
  (∀ uid, name ≠ SnmpFile uid) → name ≠ SnmpMergedFile →
  volume_content (VolumeLocation env) s'.1 name = volume_content (VolumeLocation env) s.1 name.
Proof.
  intros Hok Hs Hl Hc Hg Hsn Hm. apply (worker_frame mdh (generator_path env) has_md_finalizer plain_device (λ p, p)
    md_steps (λ s s', volume_content (VolumeLocation env) s'.1 name = volume_content (VolumeLocation env) s.1 name)
    t s t' s'); [|done..].
  intros f w Hf Hp. cbn [fst snd]. by apply (device_step_files env Hvol).
Qed.
Lemma md_worker_api {X} (g : A → X) `{!PatchElsewhere A MeasurementDevice g, !OtherKinds A g} t s t' s' :
  md_ok (t, s) → thread_step (λ p, p) md_steps (t, s) (t', s') → g s'.2 = g s.2.
Proof.
  intros Hok Hs. apply (worker_frame mdh (generator_path env) has_md_finalizer plain_device (λ p, p)
    md_steps (λ s s', g s'.2 = g s.2) t s t' s'); [|intros h d fs a; apply patch_elsewhere|done..].
  intros f w Hf _. pose proof (still_steps env g) as Hstill. rewrite Forall_forall in Hstill. apply (Hstill f Hf w).
Qed.

(** ** Each step, to the kinds *)
Context (Hvol : VolumeLocation env ≠ "") (Hone : ∀ ns ns', watched ns → watched ns' → ns = ns').
Abbreviation pm_step := (measurement_step pmh env watched).
Abbreviation dcr_step :=
  (threaded_step dcrh (rule_path env) has_dcr_finalizer plain_resource normalizeDataCenterResource dcr_steps).
Abbreviation md_step := (threaded_step mdh (generator_path env) has_md_finalizer plain_device (λ p, p) md_steps).

Record operator_inv o : Prop := {
  inv_pm : measured pms pmh env watched (op_pm o, op_state o);
  inv_dcr : dcr_ok (op_dcr o, op_state o);
  inv_md : md_ok (op_md o, op_state o)
}.
(** What a step of the operator is to the workers of the three kinds. *)
Definition projects o o' : Prop :=
  pm_step (op_pm o, op_state o) (op_pm o', op_state o') ∧
  dcr_step (op_dcr o, op_state o) (op_dcr o', op_state o') ∧
  md_step (op_md o, op_state o) (op_md o', op_state o').

Lemma worker_pm_projects t t' d m s s' :
  pm_ok (t, s) → thread_step (λ p, p) pm_steps (t, s) (t', s') →
  projects (mkOperator t d m s) (mkOperator t' d m s').
Proof.
  intros Hok Hs. split; [by apply measurement_worker|].
  pose proof (λ x, pm_worker_files t s t' s' x Hok Hs) as Hf.
  pose proof (pm_worker_api dcrh t s t' s' Hok Hs). pose proof (pm_worker_api mdh t s t' s' Hok Hs).
  destruct s as [fs a], s' as [fs' a']. split; (apply threaded_others; [|done]).
  - intros r Hr. apply Hf. intros p Hp. by apply rule_not_target.
  - intros r Hr. apply Hf. intros p Hp. by apply generator_not_target.
Qed.

Lemma worker_dcr_projects t d d' m s s' :
  dcr_ok (d, s) → thread_step normalizeDataCenterResource dcr_steps (d, s) (d', s') →
  projects (mkOperator t d m s) (mkOperator t d' m s').
Proof.
  intros Hok Hs. pose proof (λ x, dcr_worker_files d s d' s' x Hok Hs) as Hf.
  pose proof (dcr_worker_api pmh d s d' s' Hok Hs). pose proof (dcr_worker_api mdh d s d' s' Hok Hs).
  split; [|split; [by apply threaded_worker|]]; destruct s as [fs a], s' as [fs' a'].
  - apply measurement_others; [|done]. intros p Hp. apply Hf. intros r Hr E. by apply (rule_not_target env r p).
  - apply threaded_others; [|done]. intros r Hr. apply Hf. intros r' Hr'. by apply generator_not_rule.
Qed.

Lemma worker_md_projects t d m m' s s' :
  md_ok (m, s) → thread_step (λ p, p) md_steps (m, s) (m', s') →
  projects (mkOperator t d m s) (mkOperator t d m' s').
Proof.
  intros Hok Hs. pose proof (λ name, md_worker_files Hvol m s m' s' name Hok Hs) as Hf.
  pose proof (md_worker_api pmh m s m' s' Hok Hs). pose proof (md_worker_api dcrh m s m' s' Hok Hs).
  split; [|split; [|by apply threaded_worker]]; destruct s as [fs a], s' as [fs' a'].
  - apply measurement_others; [|done]. intros p Hp. destruct (target_name_plain p Hp) as [Hl Hc].
    rewrite <-(target_name_path env p Hvol). by apply (Hf (target_name p)).
  - apply threaded_others; [|done]. intros r Hr. destruct (rule_name_plain r Hr) as [Hl Hc].
    rewrite <-(rule_name_path env r Hvol). by apply (Hf (rule_name r)).
Qed.

Lemma operator_projects o o' : operator_inv o → operator_step o o' → projects o o'.
Proof.
  intros [Hp Hd Hm] Hs. destruct Hs as [t t' d m s s' Hs|t d d' m s s' Hs|t d m m' s s' Hs|t d m fs a a' Hu Ed Em
    |t d m fs a a' Hu Ep Em|t d m fs a a' Hu Ep Ed|t d m fs fs' a a' Hf Ep Ed Em]; cbn [op_pm op_dcr op_md op_state] in *.
  - apply worker_pm_projects; [apply Hp|done].
  - by apply worker_dcr_projects.
  - by apply worker_md_projects.
  - split; [by apply measurement_user|]. split; by apply threaded_others.
  - split; [by apply measurement_others|]. split; [by apply threaded_user|by apply threaded_others].
  - split; [by apply measurement_others|]. split; [by apply threaded_others|by apply threaded_user].
  - split; [apply measurement_others|split; apply threaded_others]; try done; intros r Hr; apply Hf;
      unfold operator_file; eauto.
Qed.

Lemma operator_inv_step o o' : operator_inv o → operator_step o o' → operator_inv o'.
Proof.
  intros Hi Hs. destruct (operator_projects o o' Hi Hs) as (Hp & Hd & Hm).
  pose proof (device_steps_safe mdh env Hvol). split.
  - by eapply (measured_step pms pmh env watched Hone), Hp; apply Hi.
  - by eapply (threaded_ok dcrs), Hd; [apply _..|apply Hi].
  - by eapply (threaded_ok mds), Hm; [apply _..|apply Hi].
Qed.

Lemma operator_reached o0 o : operator_inv o0 → rtc operator_step o0 o →
  rtc pm_step (op_pm o0, op_state o0) (op_pm o, op_state o) ∧
  rtc dcr_step (op_dcr o0, op_state o0) (op_dcr o, op_state o) ∧
  rtc md_step (op_md o0, op_state o0) (op_md o, op_state o).
Proof.
  intros Hi Hr. induction Hr as [o|o1 o2 o3 Hs _ IH]; [by split_and!; apply rtc_refl|].
  destruct (operator_projects _ _ Hi Hs) as (Hp & Hd & Hm).
  destruct (IH (operator_inv_step _ _ Hi Hs)) as (Hp' & Hd' & Hm').
  split_and!; by eapply rtc_l.
Qed.

Lemma idle_inv s : pmh s.2 = [∅] → dcrh s.2 = [∅] → mdh s.2 = [∅] → operator_inv (idle s).
Proof.
  intros Ep Ed Em. split.
  - by apply (measurement_reached pms pmh env watched Hone s (None, s)); [|apply rtc_refl].
  - split; [|done]. cbn. rewrite Ed. apply kept_up_start.
  - split; [|done]. cbn. rewrite Em. apply kept_up_start.
Qed.
End Interleaving.

(** ** Passes that nothing interrupts

    Where the caches keep up, a run of [WholeSystem] is a run of the operator. *)
Section UpToDate.
Context {A : Type} `{UnicodeTables, MetaConditionsLaws, FinalizerUtilLaws, Os, RenameioLaws}.
Context `{MapOrder, LabelValidation, SortSlice, SelectorClient A, TextTemplate, DcrLister A, RuleYaml, HttpPost A}.
Context `{ProcessIds, OwnerUtil, SnmpYamlLaws, JobClient A, DeploymentClient A}.
Context `{Getter A PhysicalMeasurement, Patcher A PhysicalMeasurement}.
Context `{Getter A DataCenterResource, Patcher A DataCenterResource}.
Context `{Getter A MeasurementDevice, Patcher A MeasurementDevice}.
Context (pms : A → System.store) (dcrs : A → gmap (string * string) DataCenterResource)
  (mds : A → gmap (string * string) MeasurementDevice).
Context (env : validatedEnv) (watched : string → Prop).

Abbreviation pm_steps := (PhysicalMeasurementController.reconcile_steps (A := A) env).
Abbreviation dcr_steps := (DataCenterResourceController.reconcile_steps (A := A) env).
Abbreviation md_steps :=
  (MeasurementDeviceController.reconcile_steps (A := A) (H10 := VolumeFileStore_store (VolumeLocation env)) env).
Abbreviation present_step :=
  (operator_step (λ a, [pms a]) (λ a, [dcrs a]) (λ a, [mds a]) env watched).

Lemma whole_step_interleaved s s' :
  whole_step pms dcrs mds env watched s s' →
  newcomers has_dcr_finalizer (dcrs s.2) (dcrs s'.2) → newcomers has_md_finalizer (mds s.2) (mds s'.2) →
  rtc present_step (idle s) (idle s').
Proof.
  intros Hs Hnd Hnm.
  destruct Hs as [ns n s out s' Hr|ns n s out s' Hr|ns n s out s' Hr|fs a a' Hu Ed Em|fs a a' Hu Ep Em|fs a a' Hu Ep Ed
    |fs fs' a a' Hf Ep Ed Em]; cbn [fst snd] in *.
  - apply (rtc_congruence (R := thread_step (λ p, p) pm_steps) (λ ts, mkOperator ts.1 None None ts.2) present_step (None, s) (None, s')); [|by eapply reconcile_thread].
    intros [t1 s1] [t2 s2] Hs. by apply worker_pm.
  - apply (rtc_congruence (R := thread_step normalizeDataCenterResource dcr_steps)
             (λ ts, mkOperator None ts.1 None ts.2) present_step (None, s) (None, s'));
      [|by eapply reconcile_thread].
    intros [t1 s1] [t2 s2] Hs. by apply worker_dcr.
  - apply (rtc_congruence (R := thread_step (λ p, p) md_steps) (λ ts, mkOperator None None ts.1 ts.2) present_step (None, s) (None, s')); [|by eapply reconcile_thread].
    intros [t1 s1] [t2 s2] Hs. by apply worker_md.
  - apply rtc_once, users_pm; [by apply evolves_at_once, rtc_once|congruence..].
  - apply rtc_once, users_dcr; [by apply evolves_at_once, rtc_once|congruence..].
  - apply rtc_once, users_md; [by apply evolves_at_once, rtc_once|congruence..].
  - apply rtc_once, all_others; [done|congruence..].
Qed.
End UpToDate.

Section InterleavingProperties.
Context {A : Type} `{UnicodeTables, MetaConditionsLaws, FinalizerUtilLaws, Os, RenameioLaws}.
Context `{MapOrder, LabelValidation, SortSlice, SelectorClient A, TextTemplate, DcrLister A, RuleYaml, HttpPost A}.
Context `{ProcessIds, OwnerUtil, SnmpYamlLaws, JobClient A, DeploymentClient A}.
Context `{Getter A PhysicalMeasurement, Patcher A PhysicalMeasurement}.
Context `{Getter A DataCenterResource, Patcher A DataCenterResource}.
Context `{Getter A MeasurementDevice, Patcher A MeasurementDevice}.
Context (pms : A → System.store) (dcrs : A → gmap (string * string) DataCenterResource)
  (mds : A → gmap (string * string) MeasurementDevice).
Context (pmh : A → list System.store) (dcrh : A → list (gmap (string * string) DataCenterResource))
  (mdh : A → list (gmap (string * string) MeasurementDevice)).
Context `{!CachedServer pms pmh, !PatchKeeps A pmh, !CachedServer dcrs dcrh, !CachedServer mds mdh}.
Context `{!ReloadLaws A dcrh, !OtherKinds A mdh, !KindsApart pmh dcrh mdh}.

(** C3: the operator keeps its files and its objects together while its passes are
    under way, and although what it reads has been overtaken.  The three controllers
    take their passes one step at a time, on copies of objects read from caches that
    lag behind the API by any number of versions; users change, delete, purge and
    create objects meanwhile; between any two steps the other controllers, the users
    and everyone else act, reads and patches may be refused or arrive by parts, and
    the operator may crash and come up again, losing the passes under way.  Users
    keep to four things: the measurements are all of one namespace, the type of a
    measurement is not edited, no resource and no device is created whose file is
    that of another that is stored, and nothing is created with a finalizer of the
    operator or under a name that is no file name.  Then in every state reached from
    an empty cluster, in the middle of a pass too: each target, rule or generator
    file belongs to an object of its kind that is stored with its finalizer, and a
    stored live measurement that is Ready for its present spec is published as that
    spec says. *)
Theorem operator_interleaved_owned (env : validatedEnv) (watched : string → Prop) (s0 : Fs * A) (o : operator) :
  VolumeLocation env ≠ "" → (∀ ns ns', watched ns → watched ns' → ns = ns') →
  pmh s0.2 = [∅] → dcrh s0.2 = [∅] → mdh s0.2 = [∅] →
  (∀ x, operator_file env x → files s0.1 !! x = None) →
  rtc (operator_step pmh dcrh mdh env watched) (idle s0) o →
  (∀ x, operator_file env x → is_Some (files (op_state o).1 !! x) →
     (∃ k p, pms (op_state o).2 !! k = Some p ∧ x = target_path env p ∧ has_pm_finalizer p = true) ∨
     (∃ k d, dcrs (op_state o).2 !! k = Some d ∧ x = rule_path env d ∧ has_dcr_finalizer d = true) ∨
     (∃ k d, mds (op_state o).2 !! k = Some d ∧ x = generator_path env d ∧ has_md_finalizer d = true)) ∧
  (∀ k p, pms (op_state o).2 !! k = Some p → DeletionTimestamp (pm_Meta p) = None → ready_now p →
     files (op_state o).1 !! target_path env p = Some (target_data p)).
Proof.
  intros Hvol Hone Hp Hd Hm Hf Hr. pose proof (device_steps_safe mdh env Hvol) as Hsafe.
  destruct (operator_reached pms dcrs mds pmh dcrh mdh env watched Hvol Hone _ _
    (idle_inv pms pmh dcrh mdh env watched Hone s0 Hp Hd Hm) Hr) as (Hrp & Hrd & Hrm).
  cbn [idle op_pm op_dcr op_md op_state] in *.
  destruct (measurement_reached pms pmh env watched Hone s0 (op_pm o, op_state o) Hp Hrp) as [Hmeas Hrt].
  split.
  - intros x [(p & Hpl & ->)|[(d & Hpl & ->)|(d & Hpl & ->)]] Hin.
    + left. eapply (threaded_owned pms) in Hrt as [_ Ho]; [|apply _..|done|by intros p' Hp'; apply Hf; left; exists p'].
      destruct (Ho p Hpl Hin) as (q & Hq & _ & E & Hfin). by exists (object_key q), q.
    + right. left. eapply (threaded_owned dcrs) in Hrd as [_ Ho];
        [|apply _..|done|by intros d' Hd'; apply Hf; right; left; exists d'].
      destruct (Ho d Hpl Hin) as (q & Hq & _ & E & Hfin). by exists (object_key q), q.
    + right. right. eapply (threaded_owned mds) in Hrm as [_ Ho];
        [|apply _..|done|by intros d' Hd'; apply Hf; right; right; exists d'].
      destruct (Ho d Hpl Hin) as (q & Hq & _ & E & Hfin). by exists (object_key q), q.
  - destruct Hmeas as (_ & Hv & _). apply (inv_published _ _ _ (vs_inv _ _ _ _ _ Hv)).
Qed.
End InterleavingProperties.

(** ** A run: the three workers take turns step by step and read with a lag, a
    measurement that is published is edited, published again for what it was, and
    after a crash published as it is *)
Module InterleavingSample.
Import WholeSample.
Import SimpleHelpers SimpleOs SimpleSort SimpleYaml SampleDcr JobSample.

(** The server of [WholeSystem], and the versions the caches have yet to take in. *)
Record lagging := mkLagging {
  lg_now : server;
  lg_pms : list (gmap (string * string) PhysicalMeasurement);
  lg_dcrs : list (gmap (string * string) DataCenterResource);
  lg_mds : list (gmap (string * string) MeasurementDevice)
}.
Implicit Types (a : lagging).
Definition pms a := sv_pms (lg_now a).
Definition dcrs a := sv_dcrs (lg_now a).
Definition mds a := sv_mds (lg_now a).
Definition pmh a := lg_pms a ++ [pms a].
Definition dcrh a := lg_dcrs a ++ [dcrs a].
Definition mdh a := lg_mds a ++ [mds a].
Definition oldest {M} (past : list M) (now : M) : M := match past with m :: _ => m | [] => now end.

(** Writes. *)
Definition set_pms m a := mkLagging (mkServer m (dcrs a) (mds a) (sv_jobs (lg_now a)) (sv_exporter (lg_now a)))
  (pmh a) (lg_dcrs a) (lg_mds a).
Definition set_dcrs m a := mkLagging (mkServer (pms a) m (mds a) (sv_jobs (lg_now a)) (sv_exporter (lg_now a)))
  (lg_pms a) (dcrh a) (lg_mds a).
Definition set_mds m a := mkLagging (mkServer (pms a) (dcrs a) m (sv_jobs (lg_now a)) (sv_exporter (lg_now a)))
  (lg_pms a) (lg_dcrs a) (mdh a).
Definition on_now {X} (op : server → X * server) a : X * lagging :=
  let '(r, s) := op (lg_now a) in (r, mkLagging s (lg_pms a) (lg_dcrs a) (lg_mds a)).
Definition patch_with {Obj} `{Conditioned Obj, Lineage Obj} (o o' : Obj) (m : gmap (string * string) Obj)
    (set : gmap (string * string) Obj → lagging → lagging) a : option error * lagging :=
  match merge_patch o o' m with (Some e, _) => (Some e, a) | (None, m') => (None, set m' a) end.

#[export] Instance lg_pm_getter : Getter lagging PhysicalMeasurement := {| Get a := merge_get (oldest (lg_pms a) (pms a)) |}.
#[export] Instance lg_dcr_getter : Getter lagging DataCenterResource := {| Get a := merge_get (oldest (lg_dcrs a) (dcrs a)) |}.
#[export] Instance lg_md_getter : Getter lagging MeasurementDevice := {| Get a := merge_get (oldest (lg_mds a) (mds a)) |}.
#[export] Instance lg_pm_patcher : Patcher lagging PhysicalMeasurement :=
  {| helper := PhysicalMeasurement; NewHelper _ p := inr p; Patch p p' a := patch_with p p' (pms a) set_pms a |}.
#[export] Instance lg_dcr_patcher : Patcher lagging DataCenterResource :=
  {| helper := DataCenterResource; NewHelper _ d := inr d; Patch d d' a := patch_with d d' (dcrs a) set_dcrs a |}.
#[export] Instance lg_md_patcher : Patcher lagging MeasurementDevice :=
  {| helper := MeasurementDevice; NewHelper _ d := inr d; Patch d d' a := patch_with d d' (mds a) set_mds a |}.
#[export] Instance lg_post : HttpPost lagging := {| http_Post url fs := on_now (http_Post url fs) |}.
#[export] Instance lg_selector : SelectorClient lagging :=
  {| Get_ConfigMap a := Get_ConfigMap (lg_now a); Get_Secret a := Get_Secret (lg_now a) |}.
#[export] Instance lg_lister : DcrLister lagging :=
  {| List_DCR a ns _ := (snd <$> filter (λ kv, kv.1.1 = ns) (map_to_list (oldest (lg_dcrs a) (dcrs a))), None) |}.
#[export] Instance lg_job_client : JobClient lagging :=
  {| List_Jobs a := List_Jobs (lg_now a); Create_Job j := on_now (Create_Job j); Delete_Job j := on_now (Delete_Job j) |}.
#[export] Instance lg_deployments : DeploymentClient lagging :=
  {| Get_Deployment a := Get_Deployment (lg_now a); Patch_Deployment d d' := on_now (Patch_Deployment d d') |}.

(** *** The laws *)
Lemma oldest_head {M} (past : list M) (now : M) : ∃ l, past ++ [now] = oldest past now :: l.
Proof. destruct past as [|m past]; [by exists []|by exists (past ++ [now])]. Qed.
Lemma merge_patch_patches {Obj} `{ConditionedLaws Obj, Lineage Obj, Succession Obj, !LineageLaws Obj}
    (o o' : Obj) (m m' : gmap (string * string) Obj) :
  merge_patch o o' m = (None, m') → patches o o' m m'.
Proof.
  unfold merge_patch. destruct (m !! object_key o) as [o0|] eqn:E; intros [= <-].
  exists o0, (merged o0 o o'). split_and!; [done|apply merged_patched|done].
Qed.
Lemma writes_once {M} (R : relation M) l m m' : R m m' → evolves R (l ++ [m]) ((l ++ [m]) ++ [m']).
Proof. intros HR. apply rtc_once. eapply writes; [apply last_snoc|done]. Qed.

#[export] Instance lg_pm_server : CachedServer pms pmh.
Proof.
  split; [intros a; apply last_snoc| |].
  - intros a ns n p Hp%merge_get_stored. destruct (oldest_head (lg_pms a) (pms a)) as [l El]. by eexists _, l.
  - intros a0 a p p' h r a' [= <-] _. simpl. unfold patch_with.
    destruct (merge_patch p p' (pms a)) as [[e|] m'] eqn:Em; intros [= _ <-]; [apply rtc_refl|].
    by apply writes_once, merge_patch_patches.
Qed.
#[export] Instance lg_dcr_server : CachedServer dcrs dcrh.
Proof.
  split; [intros a; apply last_snoc| |].
  - intros a ns n d Hd%merge_get_stored. destruct (oldest_head (lg_dcrs a) (dcrs a)) as [l El]. by eexists _, l.
  - intros a0 a d d' h r a' [= <-] _. simpl. unfold patch_with.
    destruct (merge_patch d d' (dcrs a)) as [[e|] m'] eqn:Em; intros [= _ <-]; [apply rtc_refl|].
    by apply writes_once, merge_patch_patches.
Qed.
#[export] Instance lg_md_server : CachedServer mds mdh.
Proof.
  split; [intros a; apply last_snoc| |].
  - intros a ns n d Hd%merge_get_stored. destruct (oldest_head (lg_mds a) (mds a)) as [l El]. by eexists _, l.
  - intros a0 a d d' h r a' [= <-] _. simpl. unfold patch_with.
    destruct (merge_patch d d' (mds a)) as [[e|] m'] eqn:Em; intros [= _ <-]; [apply rtc_refl|].
    by apply writes_once, merge_patch_patches.
Qed.
#[export] Instance lg_patch_keeps : PatchKeeps lagging pmh.
Proof.
  intros a0 a p p' h r a' [= <-] _. simpl. unfold patch_with.
  destruct (merge_patch p p' (pms a)) as [[e|] m'] eqn:Em; intros [= _ <-]; [apply rtc_refl|].
  apply writes_once. split; [by apply merge_patch_patches|].
  intros q0 q Hq0. unfold merge_patch in Em. change (pms a !! object_key p = Some q0) in Hq0. rewrite Hq0 in Em.
  injection Em as <-.
  unfold pms at 1. cbn [lg_now set_pms sv_pms]. rewrite lookup_partial_alter_eq. unfold merged. case_decide; [done|]. intros [= <-].
  split; [split; [done|by destruct (pm_Meta q0)]|]. unfold ready_condition. cbn. case_decide; auto.
Qed.
#[export] Instance lg_reload : ReloadLaws lagging dcrh.
Proof. split. by intros url fs a r a' [= _ <-]. Qed.
#[export] Instance lg_kinds : OtherKinds lagging mdh.
Proof. by split. Qed.
#[export] Instance lg_apart : KindsApart pmh dcrh mdh.
Proof.
  split; try (by split); try (by intros ? ? ?); intros h o a; simpl; unfold patch_with; by repeat case_match.
Qed.

(** *** The run *)
Abbreviation pm_steps := (PhysicalMeasurementController.reconcile_steps sample_env).
Abbreviation dcr_steps := (DataCenterResourceController.reconcile_steps sample_env).
Abbreviation md_steps := (MeasurementDeviceController.reconcile_steps
  (H10 := VolumeFileStore_store (VolumeLocation sample_env)) sample_env).
Abbreviation lag_operator := (operator (A := lagging)).
Definition turn_pm (o : lag_operator) : lag_operator :=
  let '(t, s) := advance (λ p, p) pm_steps "dc" "rack1" (op_pm o) (op_state o) in mkOperator t (op_dcr o) (op_md o) s.
Definition turn_dcr (o : lag_operator) : lag_operator :=
  let '(d, s) := advance normalizeDataCenterResource dcr_steps (Namespace (dcr_Meta pdu)) "pdu1"
                   (op_dcr o) (op_state o) in mkOperator (op_pm o) d (op_md o) s.
Definition turn_md (o : lag_operator) : lag_operator :=
  let '(m, s) := advance (λ d, d) md_steps "dc" "tno" (op_md o) (op_state o) in mkOperator (op_pm o) (op_dcr o) m s.
Definition turns (n : nat) (o : lag_operator) : lag_operator :=
  Nat.iter n (λ o, turn_dcr (turn_md (turn_pm o))) o.
Definition on_api (f : lagging → lagging) (o : lag_operator) : lag_operator :=
  mkOperator (op_pm o) (op_dcr o) (op_md o) ((op_state o).1, f (op_state o).2).
(** The caches catch up. *)
Definition sync_pms a := mkLagging (lg_now a) [] (lg_dcrs a) (lg_mds a).
Definition sync_dcrs a := mkLagging (lg_now a) (lg_pms a) [] (lg_mds a).
Definition sync_mds a := mkLagging (lg_now a) (lg_pms a) (lg_dcrs a) [].
Definition sync (o : lag_operator) : lag_operator := on_api sync_mds (on_api sync_dcrs (on_api sync_pms o)).
Definition crash (o : lag_operator) : lag_operator := idle (op_state o).
Definition put_pm p a := set_pms (<[key p := p]> (pms a)) a.
Definition put_dcr d a := set_dcrs (<[object_key d := d]> (dcrs a)) a.
Definition put_md d a := set_mds (<[object_key d := d]> (mds a)) a.
(** The measurement moves to another address. *)
Definition moved (p : PhysicalMeasurement) : PhysicalMeasurement :=
  {| pm_Meta := mkObjectMeta (Name (pm_Meta p)) (Namespace (pm_Meta p)) (UID (pm_Meta p))
       (Generation (pm_Meta p) + 1) (DeletionTimestamp (pm_Meta p)) (Finalizers (pm_Meta p));
     pm_Spec := mkPhysicalMeasurementSpec "snmp" "10.0.0.9" "tno" None;
     pm_Status := pm_Status p |}.
Definition edit_pm a := match pms a !! ("dc", "rack1") with Some p => put_pm (moved p) a | None => a end.

Definition begin : Fs * lagging := (empty_fs, mkLagging WholeSample.begin.2 [] [] []).
Definition created : lag_operator := on_api (put_dcr pdu) (on_api (put_pm measurement) (on_api (put_md WholeSample.device) (idle begin))).
Definition adopted : lag_operator := sync (turns 10 (sync created)).
Definition published : lag_operator := sync (turns 12 adopted).
(** Edited, and published again as it was. *)
Definition outdated : lag_operator := turns 14 (on_api edit_pm published).
Definition caught_up : lag_operator := turns 9 (sync (crash outdated)).

Abbreviation target o := (files (op_state o).1 !! target_path sample_env measurement).
Abbreviation ready_at o := (match pms (op_state o).2 !! ("dc", "rack1") with
  | Some p => Some (Generation (pm_Meta p), option_map (λ c, (cond_Status c, cond_ObservedGeneration c)) (ready_condition p)) | None => None end).
(** Edited, it is published from a cache that does not show the edit, with the old
    generation on its condition; after the crash the caches have caught up. *)
Example published_with_a_lag :
  (ready_at published, ready_at outdated, ready_at caught_up) =
    (Some (1%Z, Some (ConditionTrue, 1%Z)), Some (2%Z, Some (ConditionTrue, 1%Z)),
     Some (2%Z, Some (ConditionTrue, 2%Z))) ∧
  (target published, target outdated, target caught_up) =
    (Some (target_data measurement), Some (target_data measurement), Some (target_data (moved measurement))) ∧
  (length (pmh (op_state outdated).2), option_map (λ k, length (wk_rest k)) (op_pm outdated)) = (4, Some 3).
Proof. split_and!; vm_compute; reflexivity. Qed.

Abbreviation one := (λ ns : string, ns = "dc").
Abbreviation op_step := (operator_step pmh dcrh mdh sample_env one).
Lemma turn_pm_step o : op_step o (turn_pm o).
Proof.
  unfold turn_pm. destruct o as [t d m s]. cbn [op_pm op_dcr op_md op_state].
  destruct (advance _ _ _ _ _ _) as [t' s'] eqn:E. apply worker_pm. rewrite <-E. apply thread_advance.
Qed.
Lemma turn_dcr_step o : op_step o (turn_dcr o).
Proof.
  unfold turn_dcr. destruct o as [t d m s]. cbn [op_pm op_dcr op_md op_state].
  destruct (advance _ _ _ _ _ _) as [d' s'] eqn:E. apply worker_dcr. rewrite <-E. apply thread_advance.
Qed.
Lemma turn_md_step o : op_step o (turn_md o).
Proof.
  unfold turn_md. destruct o as [t d m s]. cbn [op_pm op_dcr op_md op_state].
  destruct (advance _ _ _ _ _ _) as [m' s'] eqn:E. apply worker_md. rewrite <-E. apply thread_advance.
Qed.
Lemma turns_run n o : rtc op_step o (turns n o).
Proof.
  induction n as [|n IH]; [apply rtc_refl|]. etransitivity; [exact IH|].
  eapply rtc_l; [apply turn_pm_step|]. eapply rtc_l; [apply turn_md_step|]. apply rtc_once, turn_dcr_step.
Qed.
Lemma crash_run o : rtc op_step o (crash o).
Proof.
  destruct o as [t d m s]. eapply rtc_l; [apply worker_pm, thread_crash|].
  eapply rtc_l; [apply worker_dcr, thread_crash|]. apply rtc_once, worker_md, thread_crash.
Qed.
Lemma all_caught_up {M} (R : relation M) past now : evolves R (past ++ [now]) [now].
Proof.
  induction past as [|m past IH]; [apply rtc_refl|]. eapply rtc_l; [|exact IH]. apply catches_up.
  by destruct past.
Qed.
Lemma sync_run o : rtc op_step o (sync o).
Proof.
  destruct o as [t d m [fs a]]. unfold sync, on_api. cbn [op_pm op_dcr op_md op_state fst snd].
  eapply rtc_l; [apply (users_pm _ _ _ _ _ _ _ _ fs a (sync_pms a)); [apply all_caught_up|done..]|].
  eapply rtc_l; [apply (users_dcr _ _ _ _ _ _ _ _ fs _ (sync_dcrs (sync_pms a))); [apply all_caught_up|done..]|].
  apply rtc_once, users_md; [apply all_caught_up|done..].
Qed.

Lemma lagging_created : rtc op_step (idle begin) created.
Proof.
  unfold created, on_api. cbn [op_pm op_dcr op_md op_state idle fst snd].
  eapply rtc_l; [apply (users_md _ _ _ _ _ _ _ _ _ begin.2 (put_md WholeSample.device begin.2)); [|done..]|].
  { apply (writes_once _ (lg_mds begin.2) (mds begin.2)). split; [apply user_creates; try done|].
    - apply (bool_decide_unpack _). vm_compute. exact I.
    - intros k d _ Hd.
      change (<[object_key WholeSample.device := WholeSample.device]> (∅ : gmap (string * string) MeasurementDevice)
        !! k = Some d) in Hd.
      apply lookup_insert_Some in Hd as [[_ <-]|[_ Hd]]; [done|by rewrite lookup_empty in Hd]. }
  eapply rtc_l; [apply (users_pm _ _ _ _ _ _ _ _ _ _ (put_pm measurement (put_md WholeSample.device begin.2))); [|done..]|].
  { apply (writes_once _ (lg_pms begin.2) (pms begin.2)). change (object_key measurement) with (key measurement).
    apply user_create; try done. apply (bool_decide_unpack _). vm_compute. exact I. }
  apply rtc_once. apply users_dcr; [|done..].
  apply (writes_once _ (lg_dcrs begin.2) (dcrs begin.2)). split; [apply user_creates; try done|].
  - apply (bool_decide_unpack _). vm_compute. exact I.
  - intros k d _ Hd.
    change (<[object_key pdu := pdu]> (∅ : gmap (string * string) DataCenterResource) !! k = Some d) in Hd.
    apply lookup_insert_Some in Hd as [[_ <-]|[_ Hd]]; [done|by rewrite lookup_empty in Hd].
Qed.

Lemma edit_step : op_step published (on_api edit_pm published).
Proof.
  unfold edit_pm, on_api. destruct (pms (op_state published).2 !! ("dc", "rack1")) as [p|] eqn:E;
    [|vm_compute in E; discriminate E].
  assert (key p = ("dc", "rack1") ∧ pm_Type (pm_Spec p) = "snmp") as [Hk Ht]
    by (vm_compute in E; by injection E as <-).
  destruct published as [t d m [fs a]]. cbn [op_pm op_dcr op_md op_state fst snd] in *.
  apply users_pm; [|done..]. apply (writes_once _ (lg_pms a) (pms a)).
  rewrite <-Hk in E. apply (user_edit _ _ (key p) p (moved p)); try done. cbn. lia.
Qed.

Lemma caught_up_reached : rtc op_step (idle begin) caught_up.
Proof.
  transitivity created; [exact lagging_created|]. transitivity (sync created); [apply sync_run|].
  transitivity (turns 10 (sync created)); [apply turns_run|]. transitivity adopted; [apply sync_run|].
  transitivity (turns 12 adopted); [apply turns_run|]. transitivity published; [apply sync_run|].
  apply rtc_l with (on_api edit_pm published); [exact edit_step|].
  transitivity outdated; [apply turns_run|]. transitivity (crash outdated); [apply crash_run|].
  transitivity (sync (crash outdated)); [apply sync_run|apply turns_run].
Qed.
End InterleavingSample.
Import WholeSample InterleavingSample.
Import SimpleHelpers SimpleOs SimpleSort SimpleYaml SampleDcr JobSample.

Lemma operator_interleaved_owned_witness :
  (∀ x, operator_file sample_env x → is_Some (files (op_state caught_up).1 !! x) →
     (∃ k p, pms (op_state caught_up).2 !! k = Some p ∧ x = target_path sample_env p ∧ has_pm_finalizer p = true) ∨
     (∃ k d, dcrs (op_state caught_up).2 !! k = Some d ∧ x = rule_path sample_env d ∧ has_dcr_finalizer d = true) ∨
     (∃ k d, mds (op_state caught_up).2 !! k = Some d ∧ x = generator_path sample_env d ∧ has_md_finalizer d = true)) ∧
  (∀ k p, pms (op_state caught_up).2 !! k = Some p → DeletionTimestamp (pm_Meta p) = None → ready_now p →
     files (op_state caught_up).1 !! target_path sample_env p = Some (target_data p)).
Proof.
  apply (operator_interleaved_owned pms dcrs mds pmh dcrh mdh sample_env (λ ns, ns = "dc") InterleavingSample.begin caught_up).
  - discriminate.
  - by intros ns ns' -> ->.
  - reflexivity.
  - reflexivity.
  - reflexivity.
  - intros x _. apply lookup_empty.
  - apply caught_up_reached.
Defined.
