(* ===== verification/Webapp.v ===== *)
(** [internal/webapp]: the page that draws the resources of a cluster as a
    graph, and its configuration. *)
From S2P Require Import Prelude GoStd Errors Paths FileStore Configuration ApiTypes Cluster.

(** ** The graph ([graph/graph.go]) *)
Inductive Node := mkNode (node_Name : string) (node_Parents : list Node).
Definition node_Name (n : Node) : string := let 'mkNode name _ := n in name.
Definition node_Parents (n : Node) : list Node := let 'mkNode _ parents := n in parents.

(** The lines one node gives: itself, or one edge per parent. *)
Definition node_lines (node : Node) : list string :=
  if decide (length (node_Parents node) = 0) then [node_Name node]
  else (λ parent, node_Name node +:+ "-->" +:+ node_Name parent) <$> node_Parents node.

Definition GenerateMermaidString (nodes : list Node) : string :=
  if decide (length nodes = 0) then ""
  else strings.Join ("flowchart TB" :: (nodes ≫= node_lines)) newline.

(** ** The cluster ([kubernetes/kubernetes.go]) *)

(** The list of every resource, of all namespaces. *)
Class DcrListAll (A : Type) := { ListAll_DCR : A → error + list DataCenterResource }.

Definition resource_node (dcr : DataCenterResource) : Node :=
  let ns := Namespace (dcr_Meta dcr) in
  mkNode (ns +:+ "-" +:+ dcr_Name dcr)
    ((λ parent, mkNode (ns +:+ "-" +:+ parent) []) <$> ParentNames (dcr_Spec dcr)).

Definition GetDataCenterResources {A} `{DcrListAll A} (k : A) : error + list Node :=
  match ListAll_DCR k with
  | inl err => inl (wrapError "failed to list DataCenterResources: " err)
  | inr items => inr (resource_node <$> items)
  end.

(** ** The page ([html/html.go], [http/http.go])

    A page is the template that is executed and its data; what [html/template]
    makes of them, and the error it may give, is not looked at. *)
Record PageData := mkPageData { pd_Text : string; pd_Host : string; pd_CurrentContext : string }.
Inductive Page := RenderHomePage (d : PageData) | RenderErrorPage (d : PageData).
Record Response := mkResponse { resp_Status : Z; resp_Page : Page }.

Record KubernetesClient (A : Type) := mkKubernetesClient {
  kc_client : A;
  kc_CurrentContext : string;
  kc_Host : string
}.
Arguments kc_client {A}.
Arguments kc_CurrentContext {A}.
Arguments kc_Host {A}.

Definition HomePage {A} `{UnicodeTables, DcrListAll A} (h : KubernetesClient A) : Response :=
  match GetDataCenterResources (kc_client h) with
  | inl err =>
      mkResponse 500 (RenderErrorPage (mkPageData (Error err) (kc_Host h) (kc_CurrentContext h)))
  | inr nodes =>
      let m := GenerateMermaidString nodes in
      mkResponse 200 (RenderHomePage (mkPageData m (kc_Host h) (kc_CurrentContext h)))
  end.

(** ** Configuration ([webapp.go]) *)
Record config := mkConfig { Port : Z; KubeconfigPath : string }.

Definition DefaultPort : Z := 8080.
Definition DefaultKubeconfigPath : string := "~/.kube/config".

(** [os.Stat] without an error, and [os.UserHomeDir], empty when it is not known. *)
Class HomeOs := { pathExists : string → bool; UserHomeDir : string }.

Definition drop_bytes (n : nat) (s : string) : string := string_of_chars (drop n (chars s)).

Section Config.
Context `{HomeOs}.

(** A variable that is not set is the empty string. *)
Definition envGetter : Type := string → string.
Implicit Types (get : envGetter).

Definition loadPortConfig get : error + Z :=
  let portStr := get "PORT" in
  if decide (portStr ≠ "") then
    match strconv.Atoi portStr with
    | (_, Some _) => inl (errorString "PORT must be a valid integer")
    | (port, None) =>
        if decide (port < 1 ∨ port > 65535)%Z
        then inl (errorString "PORT must be between 1 and 65535")
        else inr port
    end
  else inr DefaultPort.

Definition expandPath (path : string) : string :=
  if strings.HasPrefix path "~/" then filepath.Join [UserHomeDir; drop_bytes 2 path] else path.

Definition loadKubeconfigPath get : error + string :=
  let kubeconfigPath := get "KUBECONFIG" in
  if decide (kubeconfigPath ≠ "") then
    if negb (pathExists kubeconfigPath)
    then inl (errorString ("kubeconfig not found at " +:+ kubeconfigPath))
    else inr kubeconfigPath
  else if decide (get "KUBERNETES_SERVICE_HOST" ≠ "") then inr ""
  else inr (expandPath DefaultKubeconfigPath).

Definition loadConfig get : error + config :=
  match loadPortConfig get, loadKubeconfigPath get with
  | inr port, inr kubeconfigPath => inr (mkConfig port kubeconfigPath)
  | inl portErr, inl kubeconfigErr => inl (joinError portErr kubeconfigErr)
  | inl err, inr _ | inr _, inl err => inl (wrapError "" err)
  end.
End Config.

(** * Theorems *)

(** ** The drawing *)
Lemma node_lines_resource d line :
  line ∈ node_lines (resource_node d) ↔
  (ParentNames (dcr_Spec d) = [] ∧ line = Namespace (dcr_Meta d) +:+ "-" +:+ dcr_Name d) ∨
  (∃ parent, parent ∈ ParentNames (dcr_Spec d) ∧
     line = Namespace (dcr_Meta d) +:+ "-" +:+ dcr_Name d +:+ "-->" +:+
            Namespace (dcr_Meta d) +:+ "-" +:+ parent).
Proof.
  unfold node_lines, resource_node. cbn [node_Name node_Parents]. rewrite length_fmap.
  case_decide as Hl.
  - apply nil_length_inv in Hl. rewrite Hl, list_elem_of_singleton. split; [by left|].
    intros [[_ ?]|(? & ?%not_elem_of_nil & _)]; done.
  - rewrite <-list_fmap_compose, list_elem_of_fmap. split.
    + intros (parent & -> & Hp). right. exists parent. split; [done|].
      simpl. by rewrite !str_app_assoc.
    + intros [[Hn _]|(parent & Hp & ->)]; [by rewrite Hn in Hl|].
      exists parent. split; [|done]. simpl. by rewrite !str_app_assoc.
Qed.

(** The page of a cluster: without resources nothing is drawn; otherwise there
    is a line for every reference to a parent and one for every resource
    without parents, and no other. *)
Definition drawn (items : list DataCenterResource) (line : string) : Prop :=
  ∃ d, d ∈ items ∧
    let name := Namespace (dcr_Meta d) +:+ "-" +:+ dcr_Name d in
    (ParentNames (dcr_Spec d) = [] ∧ line = name) ∨
    (∃ parent, parent ∈ ParentNames (dcr_Spec d) ∧
       line = name +:+ "-->" +:+ Namespace (dcr_Meta d) +:+ "-" +:+ parent).

Lemma node_lines_length d :
  length (node_lines (resource_node d)) = max 1 (length (ParentNames (dcr_Spec d))).
Proof.
  unfold node_lines, resource_node. cbn [node_Parents]. rewrite length_fmap.
  case_decide as Hl; rewrite ?length_fmap; simpl; lia.
Qed.

Lemma drawn_lines items line :
  line ∈ (resource_node <$> items) ≫= node_lines ↔ drawn items line.
Proof.
  rewrite list_elem_of_bind. unfold drawn. split.
  - intros (n & Hl & (d & -> & Hd)%list_elem_of_fmap). exists d. split; [done|].
    apply node_lines_resource in Hl as [?|(parent & ? & ->)]; [by left|right].
    exists parent. by rewrite !str_app_assoc.
  - intros (d & Hd & Hl). exists (resource_node d).
    split; [|by apply list_elem_of_fmap_2]. apply node_lines_resource.
    destruct Hl as [?|(parent & ? & ->)]; [by left|right].
    exists parent. by rewrite !str_app_assoc.
Qed.

(** C33: the page draws exactly the graph of the listed resources: on a list that
    the API answers it is served with status 200, the lines of the diagram below
    its header are the references to parents and the resources without parents,
    a resource having one line per parent and at least one; an API that refuses
    the list gives the error page with status 500 and the error's text. *)
Theorem HomePage_spec {A} `{UnicodeTables, DcrListAll A} (h : KubernetesClient A) :
  match ListAll_DCR (kc_client h) with
  | inl err =>
      HomePage h = mkResponse 500 (RenderErrorPage
        (mkPageData ("failed to list DataCenterResources: " +:+ Error err)
           (kc_Host h) (kc_CurrentContext h)))
  | inr items => ∃ lines,
      HomePage h = mkResponse 200 (RenderHomePage
        (mkPageData (if decide (items = []) then ""
                     else strings.Join ("flowchart TB" :: lines) newline)
           (kc_Host h) (kc_CurrentContext h))) ∧
      (∀ line, line ∈ lines ↔ drawn items line) ∧
      length lines = sum_list ((λ d, max 1 (length (ParentNames (dcr_Spec d)))) <$> items)
  end.
Proof.
  unfold HomePage, GetDataCenterResources.
  destruct (ListAll_DCR (kc_client h)) as [err|items]; [done|].
  exists ((resource_node <$> items) ≫= node_lines). split; [|split].
  - unfold GenerateMermaidString. rewrite length_fmap. by destruct items.
  - apply drawn_lines.
  - induction items as [|d items IH]; [done|].
    cbn [fmap list_fmap mbind list_bind sum_list]. rewrite length_app, node_lines_length.
    by f_equal.
Qed.

(** ** The configuration *)

(** A number that [strconv.Atoi] reads may have a sign. *)
Definition unsigned (s : string) : string :=
  if strings.HasPrefix s "+" then drop_bytes 1 s else s.

Lemma ParseUint_spec s (b v : Z) :
  (0 ≤ b)%Z →
  strconv.ParseUint s b = inr v ↔
  s ≠ "" ∧ Forall is_digit (chars s) ∧ decimal 0 (chars s) = v ∧ (v < 2 ^ b)%Z.
Proof.
  intros Hb. assert (0 < 2 ^ b)%Z by (apply Z.pow_pos_nonneg; lia).
  destruct s as [|c s]; [split; [done|by intros []]|].
  unfold strconv.ParseUint. rewrite parse_digits_spec by lia. intuition (done || lia).
Qed.

Lemma unsigned_spec c s :
  unsigned (String c s) = if decide (c = "+"%char) then s else String c s.
Proof.
  unfold unsigned, drop_bytes. cbn [strings.HasPrefix].
  destruct (decide ("+"%char = c)) as [<-|]; destruct (decide _); try congruence.
  cbn [chars drop]. apply string_of_chars_chars.
Qed.

(** A positive number: digits, perhaps after a plus. *)
Lemma Atoi_positive s (v : Z) :
  (0 < v < 2 ^ 63)%Z →
  strconv.Atoi s = (v, None) ↔
  unsigned s ≠ "" ∧ Forall is_digit (chars (unsigned s)) ∧ decimal 0 (chars (unsigned s)) = v.
Proof.
  intros Hv. destruct s as [|c s]; [split; [done|by intros []]|].
  rewrite unsigned_spec. unfold strconv.Atoi, strconv.ParseInt.
  destruct (decide (c = "-"%char)) as [->|Hm].
  - rewrite !bool_decide_eq_true_2 by auto.
    rewrite decide_False by done. split; [|by intros (_ & [? _]%Forall_cons & _)].
    destruct (strconv.ParseUint s 64) as [[]|u] eqn:Hu; [done|done|].
    apply strconv_facts.ParseUint_bounds in Hu; [|done].
    cbn [negb andb]. case_match; intros [= ?]; lia.
  - rewrite (bool_decide_eq_false_2 (c = "-"%char)) by done.
    set (body := if bool_decide _ then s else String c s).
    replace (if decide (c = "+"%char) then s else String c s) with body; last first.
    { unfold body. destruct (decide (c = "+"%char)).
      - by rewrite bool_decide_eq_true_2 by auto.
      - by rewrite bool_decide_eq_false_2 by tauto. }
    pose proof (ParseUint_spec body 64 v ltac:(lia)) as Hspec. clearbody body.
    transitivity (strconv.ParseUint body 64 = inr v); [|rewrite Hspec; intuition lia].
    destruct (strconv.ParseUint body 64) as [[]|u]; [done|done|]. cbn [negb andb].
    destruct (Z.leb_spec (2 ^ 63) u); split; intros [= ?]; try congruence; lia.
Qed.

Section ConfigSpec.
Context `{HomeOs}.
Implicit Types (get : envGetter).

Definition port_chosen get (port : Z) : Prop :=
  (get "PORT" = "" ∧ port = 8080%Z) ∨
  (unsigned (get "PORT") ≠ "" ∧ Forall is_digit (chars (unsigned (get "PORT"))) ∧
   decimal 0 (chars (unsigned (get "PORT"))) = port ∧ (1 ≤ port ≤ 65535)%Z).

Definition kubeconfig_chosen get (path : string) : Prop :=
  (get "KUBECONFIG" ≠ "" ∧ path = get "KUBECONFIG" ∧ pathExists path = true) ∨
  (get "KUBECONFIG" = "" ∧ get "KUBERNETES_SERVICE_HOST" ≠ "" ∧ path = "") ∨
  (get "KUBECONFIG" = "" ∧ get "KUBERNETES_SERVICE_HOST" = "" ∧
   path = filepath.Join [UserHomeDir; ".kube/config"]).

Lemma loadPortConfig_spec get port : loadPortConfig get = inr port ↔ port_chosen get port.
Proof.
  unfold loadPortConfig, port_chosen, DefaultPort. case_decide as Hs; last first.
  { rewrite Hs. split; [intros [= <-]; by left|].
    by intros [[_ ->]|([] & _)]. }
  split.
  - destruct (strconv.Atoi (get "PORT")) as [v [e|]] eqn:Hp; [done|].
    case_decide; [done|]. intros [= <-]. right.
    apply Atoi_positive in Hp; [|lia]. intuition lia.
  - intros [[]|(? & ? & ? & ?)]; [done|].
    rewrite (proj2 (Atoi_positive (get "PORT") port ltac:(lia))) by done.
    by rewrite decide_False by lia.
Qed.

Lemma loadKubeconfigPath_spec get path :
  loadKubeconfigPath get = inr path ↔ kubeconfig_chosen get path.
Proof.
  unfold loadKubeconfigPath, kubeconfig_chosen.
  change (expandPath DefaultKubeconfigPath) with (filepath.Join [UserHomeDir; ".kube/config"]).
  generalize (filepath.Join [UserHomeDir; ".kube/config"]) as default_path. intros default_path.
  destruct (pathExists (get "KUBECONFIG")) eqn:Hex;
    repeat case_decide; cbn [negb]; split; intros; destruct_or?; destruct_and?; simplify_eq; intuition congruence.
Qed.

(** The web application starts exactly with a port and a kubeconfig it can use:
    the port is 8080 or the number of [PORT], written in digits and between 1 and
    65535; the kubeconfig is the file of [KUBECONFIG], which exists, or that of
    the pod, or the one in the home directory. *)
Theorem loadConfig_accepts_iff get c :
  loadConfig get = inr c ↔ port_chosen get (Port c) ∧ kubeconfig_chosen get (KubeconfigPath c).
Proof.
  rewrite <-loadPortConfig_spec, <-loadKubeconfigPath_spec. unfold loadConfig.
  destruct (loadPortConfig get), (loadKubeconfigPath get), c; naive_solver.
Qed.
End ConfigSpec.

(** ** Samples: a page and a configuration, computed *)
Module WebappSample.
#[export] Instance list_all : DcrListAll (list DataCenterResource) := {| ListAll_DCR := inr |}.
#[export] Instance home_os : HomeOs :=
  {| pathExists := λ p, bool_decide (p = "/etc/kube"); UserHomeDir := "/root" |}.

Definition resource (ns name : string) (parents : list string) : DataCenterResource :=
  {| dcr_Meta := mkObjectMeta name ns name 1 None [];
     dcr_Spec := mkDataCenterResourceSpec "vm" []
                   ((λ p, mkParentRef p "1" None) <$> parents) "" None None;
     dcr_Status := mkDataCenterResourceStatus 0 "" [] |}.

Example diagram_computed :
  GetDataCenterResources [resource "dc" "pdu" []; resource "dc" "vm" ["bm"; "pdu"]]
    = inr [mkNode "dc-pdu" []; mkNode "dc-vm" [mkNode "dc-bm" []; mkNode "dc-pdu" []]] ∧
  GenerateMermaidString [mkNode "dc-pdu" []; mkNode "dc-vm" [mkNode "dc-bm" []; mkNode "dc-pdu" []]]
    = "flowchart TB" +:+ newline +:+ "dc-pdu" +:+ newline +:+
      "dc-vm-->dc-bm" +:+ newline +:+ "dc-vm-->dc-pdu".
Proof. split; vm_compute; reflexivity. Qed.

(** Two resources of different namespaces may be drawn as one node. *)
Example node_names_collide :
  node_Name (resource_node (resource "a-b" "c" [])) = node_Name (resource_node (resource "a" "b-c" [])).
Proof. vm_compute. reflexivity. Qed.

Definition env_of (port kube : string) : envGetter := λ name,
  if decide (name = "PORT") then port else if decide (name = "KUBECONFIG") then kube else "".

Example config_computed :
  loadConfig (env_of "" "") = inr (mkConfig 8080 "/root/.kube/config") ∧
  loadConfig (env_of "+65535" "/etc/kube") = inr (mkConfig 65535 "/etc/kube") ∧
  loadConfig (env_of "0" "/etc/none") = inl (joinError
    (errorString "PORT must be between 1 and 65535")
    (errorString "kubeconfig not found at /etc/none")).
Proof. split_and!; vm_compute; reflexivity. Qed.
End WebappSample.
