(* ===== verification/WebappServer.v ===== *)
(** [internal/webapp] and [cmd/webapp]: the connection to the cluster, the HTTP
    server and the application from its start to its end. *)
From S2P Require Import Prelude GoStd Errors Paths FileStore Configuration ApiTypes Cluster Webapp.

(** ** The connection ([kubernetes/kubernetes.go]) *)

(** The Kubernetes libraries: configurations, of which the host is read, schemes
    and clients. *)
Class KubeLibrary (A : Type) := {
  rest_Config : Type;
  config_Host : rest_Config → string;
  InClusterConfig : error + rest_Config;
  BuildConfigFromFlags : string → error + rest_Config;
  (** The current context of the file. *)
  LoadFromFile : string → error + string;
  corev1_AddToScheme : option error;
  v1alpha1_AddToScheme : option error;
  client_New : rest_Config → error + A
}.

Section Connection.
Context {A : Type} `{KubeLibrary A}.

Definition loadKubeconfig (kubeconfigPath : string) : error + rest_Config * string :=
  match BuildConfigFromFlags kubeconfigPath with
  | inl err => inl err
  | inr config =>
      match LoadFromFile kubeconfigPath with
      | inl err => inl err
      | inr currentContext => inr (config, currentContext)
      end
  end.

Definition loadRESTConfig (kubeconfigPath : string) : error + rest_Config * string :=
  if decide (kubeconfigPath = "") then
    match InClusterConfig with
    | inl err => inl err
    | inr config => inr (config, "in-cluster")
    end
  else loadKubeconfig kubeconfigPath.

Definition newScheme : option error :=
  match corev1_AddToScheme with Some err => Some err | None => v1alpha1_AddToScheme end.

Definition kubernetes_New (kubeconfigPath : string) : error + KubernetesClient A :=
  match loadRESTConfig kubeconfigPath with
  | inl err => inl err
  | inr (config, currentContext) =>
      match newScheme with
      | Some err => inl err
      | None =>
          match client_New config with
          | inl err => inl err
          | inr k => inr (mkKubernetesClient A k currentContext (config_Host config))
          end
      end
  end.
End Connection.

(** ** The server ([http/http.go]) *)

(** [path.Clean] as the multiplexer uses it: the slash at the end is kept. *)
Definition cleanPath (p : string) : string :=
  if decide (p = "") then "/"
  else
    let p := if strings.HasPrefix p "/" then p else "/" +:+ p in
    let np := filepath.Clean p in
    if decide (last (chars p) = Some filepath.slash ∧ np ≠ "/") then np +:+ "/" else np.

(** What the multiplexer answers to a method and a path: it redirects to the
    cleaned path, and a handler of GET serves HEAD, too. *)
Inductive MuxAnswer := Handled (r : Response) | Redirected (location : string) | MethodNotAllowed.

Record HTTPServer := mkHTTPServer {
  Addr : string;
  Handler : string → string → MuxAnswer;
  ReadHeaderTimeout : Z;
  server_port : Z
}.

(** The timeout in nanoseconds. *)
Record HTTPServerConfig := mkHTTPServerConfig { hc_Port : Z; hc_ReadHeaderTimeout : Z }.

Section Server.
Context {A : Type} `{UnicodeTables, DcrListAll A}.

(** The pattern "GET /", which is every path. *)
Definition mux (h : KubernetesClient A) (method path : string) : MuxAnswer :=
  if decide (method ≠ "CONNECT" ∧ cleanPath path ≠ path) then Redirected (cleanPath path)
  else if decide (method = "GET" ∨ method = "HEAD") then Handled (HomePage h)
  else MethodNotAllowed.

Definition http_New (h : KubernetesClient A) (config : HTTPServerConfig) : HTTPServer :=
  mkHTTPServer (":" +:+ strconv.FormatInt (hc_Port config)) (mux h) (hc_ReadHeaderTimeout config) (hc_Port config).
End Server.

(** [ListenAndServe] returns an error, of which the one of a server that was shut
    down is not sent. *)
Definition HTTPServer_Run (is_ErrServerClosed : error → bool) (returned : option error) : option error :=
  match returned with
  | Some err => if is_ErrServerClosed err then None else Some err
  | None => None
  end.

(** ** The application ([webapp.go], [cmd/webapp/main.go]) *)

(** What [select] finds: an interrupt, or what the server sent. *)
Inductive Event := Interrupted | Sent (err : error).

(** The events there may be, the server having returned so. *)
Inductive may_find (is_ErrServerClosed : error → bool) (returned : option error) : Event → Prop :=
| find_interrupt : may_find is_ErrServerClosed returned Interrupted
| find_error err :
    HTTPServer_Run is_ErrServerClosed returned = Some err → may_find is_ErrServerClosed returned (Sent err).

Section App.
Context {A : Type} `{UnicodeTables, DcrListAll A, KubeLibrary A, HomeOs}.
(** The parsing of the embedded templates, what happens to a server that is
    started, and what its shutdown within a time in nanoseconds answers. *)
Context (html_New : option error) (happens : HTTPServer → Event) (Shutdown : Z → HTTPServer → option error).

Definition HTTPServer_Stop (timeout : Z) (s : HTTPServer) : option error := Shutdown timeout s.

(** [errors.Join] of one or two errors. *)
Definition Join_checks (errs : list error) : option error :=
  match errs with
  | [] => None
  | [err] => Some (wrapError "" err)
  | err1 :: err2 :: _ => Some (joinError err1 err2)
  end.

(** The server that is started, if one is, and the answer of [Run]. *)
Definition Run (cfg : config) : option HTTPServer * option error :=
  let k := kubernetes_New (KubeconfigPath cfg) in
  let errs := match k with inl err => [err] | inr _ => [] end in
  let errs := match html_New with Some err => errs ++ [err] | None => errs end in
  if decide (0 < length errs) then (None, Join_checks errs)
  else
    match k with
    | inl err => (None, Some err)
    | inr client =>
        let httpServer := http_New client (mkHTTPServerConfig (Port cfg) 10000000000) in
        (Some httpServer,
         match happens httpServer with
         | Interrupted => HTTPServer_Stop 30000000000 httpServer
         | Sent err => Some err
         end)
    end.

Definition newWithGetter (get : envGetter) : error + config := loadConfig get.
Definition New (os_Getenv : envGetter) : error + config := newWithGetter os_Getenv.

(** [main]: an error of the configuration is a panic, one of the run is printed. *)
Definition main (os_Getenv : envGetter) : outcome (option HTTPServer) :=
  match New os_Getenv with
  | inl _ => Panicked
  | inr cfg => Done (Run cfg).1
  end.
End App.

(** * Theorems *)
Section AppFacts.
Context {A : Type} `{UnicodeTables, DcrListAll A, KubeLibrary A, HomeOs}.
Context (html_New : option error) (happens : HTTPServer → Event) (Shutdown : Z → HTTPServer → option error).

(** The client of a configuration: from the file it names, or from the cluster the
    program runs in when it names none. *)
Definition connected (path : string) (k : KubernetesClient A) : Prop :=
  ∃ config, client_New config = inr (kc_client k) ∧ kc_Host k = config_Host config ∧
    corev1_AddToScheme = None ∧ v1alpha1_AddToScheme = None ∧
    if decide (path = "") then InClusterConfig = inr config ∧ kc_CurrentContext k = "in-cluster"
    else BuildConfigFromFlags path = inr config ∧ LoadFromFile path = inr (kc_CurrentContext k).

Lemma kubernetes_New_spec path k : kubernetes_New path = inr k ↔ connected path k.
Proof.
  unfold kubernetes_New, loadRESTConfig, loadKubeconfig, newScheme, connected. destruct k as [k ctx host]. simpl.
  split.
  - intros Hk. case_decide.
    + destruct InClusterConfig as [?|config]; [done|].
      destruct corev1_AddToScheme; [done|]. destruct v1alpha1_AddToScheme; [done|].
      destruct (client_New config) eqn:E; [done|]. injection Hk as <- <- <-. by exists config.
    + destruct (BuildConfigFromFlags path) as [?|config]; [done|]. destruct (LoadFromFile path); [done|].
      destruct corev1_AddToScheme; [done|]. destruct v1alpha1_AddToScheme; [done|].
      destruct (client_New config) eqn:E; [done|]. injection Hk as <- <- <-. by exists config.
  - intros (config & Hc & -> & -> & -> & Hpath).
    case_decide; destruct Hpath as [-> Hctx]; [by rewrite Hc, Hctx|by rewrite Hctx, Hc].
Qed.

Lemma Run_spec cfg :
  (∃ k, kubernetes_New (KubeconfigPath cfg) = inr k ∧ html_New = None ∧
     (Run html_New happens Shutdown cfg).1 = Some (http_New k (mkHTTPServerConfig (Port cfg) 10000000000))) ∨
  ((Run html_New happens Shutdown cfg).1 = None ∧ (Run html_New happens Shutdown cfg).2 ≠ None ∧
     ¬ ((∃ k, kubernetes_New (KubeconfigPath cfg) = inr k) ∧ html_New = None)).
Proof.
  unfold Run. destruct (kubernetes_New (KubeconfigPath cfg)) as [e|k], html_New as [e'|]; cbn.
  1,2,3: right; split_and!; [done|done|naive_solver].
  left. by exists k.
Qed.

(** C32: the web application serves exactly when it can: with its environment, its
    templates and its connection to the cluster in order, the process starts a
    server on the configured port, which answers GET and HEAD of every path with
    the page of that cluster (or a redirection to the cleaned path) and refuses the
    other methods; otherwise it starts none, and a refused environment is a panic. *)
Theorem webapp_serves_iff (get : envGetter) :
  match loadConfig get with
  | inl _ => main html_New happens Shutdown get = Panicked
  | inr cfg =>
      ∃ started, main html_New happens Shutdown get = Done started ∧
        (is_Some started ↔ (∃ k, connected (KubeconfigPath cfg) k) ∧ html_New = None) ∧
        ∀ server, started = Some server →
          Addr server = ":" +:+ strconv.FormatInt (Port cfg) ∧
          ∃ k, connected (KubeconfigPath cfg) k ∧
            ∀ method path, Handler server method path =
              if decide (cleanPath path = path ∨ method = "CONNECT") then
                if decide (method ∈ ["GET"; "HEAD"]) then Handled (HomePage k) else MethodNotAllowed
              else Redirected (cleanPath path)
  end.
Proof.
  unfold main, New, newWithGetter. destruct (loadConfig get) as [e|cfg]; [done|].
  exists (Run html_New happens Shutdown cfg).1. split; [done|].
  assert (∀ k, connected (KubeconfigPath cfg) k ↔ kubernetes_New (KubeconfigPath cfg) = inr k) as Hk
    by (intros k; by rewrite kubernetes_New_spec).
  setoid_rewrite Hk.
  destruct (Run_spec cfg) as [(k & Hnew & Ht & ->)|(-> & _ & Hno)].
  - split; [split; [by eauto|done]|]. intros server [= <-]. split; [done|].
    exists k. split; [done|]. intros method path. cbn [Handler http_New]. unfold mux.
    destruct (decide (cleanPath path = path ∨ method = "CONNECT")) as [Hc|Hc].
    + rewrite decide_False by tauto. apply decide_ext. set_solver.
    + by rewrite decide_True by tauto.
  - split; [|done]. split; [by intros []|done].
Qed.
End AppFacts.

(** ** A run: a cluster of one resource behind a file *)
Module ServerSample.
Import WebappSample SimpleApi.
#[export] Instance one_cluster : KubeLibrary (list DataCenterResource) :=
  {| rest_Config := string; config_Host := λ c, c;
     InClusterConfig := inl (errorString "not in a cluster");
     BuildConfigFromFlags p := if decide (p = "/etc/kube") then inr "https://k8s" else inl (errorString "no file");
     LoadFromFile _ := inr "dev"; corev1_AddToScheme := None; v1alpha1_AddToScheme := None;
     client_New _ := inr [resource "dc" "pdu" []] |}.

Definition served (get : envGetter) (method path : string) : outcome (option (string * MuxAnswer)) :=
  match main None (λ _, Interrupted) (λ _ _, None) get with
  | Done (Some server) => Done (Some (Addr server, Handler server method path))
  | Done None => Done None
  | Panicked => Panicked
  end.
Definition page : MuxAnswer := Handled (mkResponse 200 (RenderHomePage
  (mkPageData ("flowchart TB" +:+ newline +:+ "dc-pdu") "https://k8s" "dev"))).
Example served_computed :
  served (env_of "" "/etc/kube") "GET" "/" = Done (Some (":8080", page)) ∧
  served (env_of "" "/etc/kube") "HEAD" "/any/page/" = Done (Some (":8080", page)) ∧
  served (env_of "" "/etc/kube") "GET" "//a/../b/" = Done (Some (":8080", Redirected "/b/")) ∧
  served (env_of "" "/etc/kube") "POST" "/" = Done (Some (":8080", MethodNotAllowed)) ∧
  served (env_of "" "") "GET" "/" = Done None ∧
  served (env_of "http" "/etc/kube") "GET" "/" = Panicked.
Proof. split_and!; vm_compute; reflexivity. Qed.
End ServerSample.
