(* ===== verification/Operator.v ===== *)
(** [cmd/operator/main.go]: from the flags and the environment to a running
    manager, and what the three [SetupWithManager] register with it. *)
From S2P Require Import Prelude GoStd Errors Configuration Selector ApiTypes Cluster.
From S2P Require Import DataCenterResourceController.

(** * Options *)

(** The values of the flags. *)
Record flags := mkFlags {
  metricsAddr : string;
  probeAddr : string;
  enableLeaderElection : bool;
  secureMetrics : bool;
  enableHTTP2 : bool
}.
Definition default_flags : flags := mkFlags "0" ":8081" false true false.

(** [crypto/tls.Config], as far as the program sets it. *)
Record tls_Config := mkTlsConfig { NextProtos : list string }.
Definition disableHTTP2 (c : tls_Config) : tls_Config := mkTlsConfig ["http/1.1"].
Definition tlsOpts (f : flags) : list (tls_Config → tls_Config) :=
  if negb (enableHTTP2 f) then [disableHTTP2] else [].
(** A server applies its options in their order. *)
Definition configured (opts : list (tls_Config → tls_Config)) (c : tls_Config) : tls_Config :=
  foldl (λ c opt, opt c) c opts.

Inductive filter := WithAuthenticationAndAuthorization.

(** The options of controller-runtime that the program sets. *)
Record metricsserver_Options := mkMetricsServerOptions {
  BindAddress : string;
  SecureServing : bool;
  metrics_TLSOpts : list (tls_Config → tls_Config);
  FilterProvider : option filter
}.
Record ctrl_Options := mkCtrlOptions {
  Metrics : metricsserver_Options;
  webhook_TLSOpts : list (tls_Config → tls_Config);
  HealthProbeBindAddress : string;
  LeaderElection : bool;
  LeaderElectionID : string;
  Cache_DefaultNamespaces : option (gset string)
}.

Definition metricsServerOptions (f : flags) : metricsserver_Options :=
  mkMetricsServerOptions (metricsAddr f) (secureMetrics f) (tlsOpts f)
    (if secureMetrics f then Some WithAuthenticationAndAuthorization else None).
Definition manager_options (f : flags) (ValidatedEnv : validatedEnv) : ctrl_Options :=
  mkCtrlOptions (metricsServerOptions f) (tlsOpts f) (probeAddr f) (enableLeaderElection f)
    "c8b0fb2f.chantico-project.github.io" (configureWatchNamespace ValidatedEnv).

(** * Controllers *)
Inductive kind := KindMeasurementDevice | KindPhysicalMeasurement | KindDataCenterResource
  | KindJob | KindConfigMapObject.
#[export] Instance kind_eq_dec : EqDecision kind.
Proof. solve_decision. Defined.

Section Operator.
Context {A : Type} `{DcrLister A}.

(** What a controller is told: the kind it reconciles, those it owns, those it
    watches with the requests a change makes, and how many at a time. *)
Record registration := mkRegistration {
  For : kind;
  Owns : list kind;
  Watches : list (kind * (A → string → string → list (string * string)));
  MaxConcurrentReconciles : option Z
}.

Inductive reconciler :=
| MeasurementDeviceReconciler (Filestore_Root : string)
| PhysicalMeasurementReconciler
| DataCenterResourceReconciler.

Definition MeasurementDevice_setup : registration :=
  mkRegistration KindMeasurementDevice [KindJob] [] (Some 1%Z).
Definition PhysicalMeasurement_setup : registration :=
  mkRegistration KindPhysicalMeasurement [] [] None.
Definition DataCenterResource_setup : registration :=
  mkRegistration KindDataCenterResource [KindJob]
    [(KindConfigMapObject, dataCenterResourcesForConfigMap)] (Some 1%Z).

Definition SetupWithManager (r : reconciler) : registration :=
  match r with
  | MeasurementDeviceReconciler _ => MeasurementDevice_setup
  | PhysicalMeasurementReconciler => PhysicalMeasurement_setup
  | DataCenterResourceReconciler => DataCenterResource_setup
  end.

(** * The program *)

(** Its calls into the libraries, each of which may fail. *)
Inductive call :=
| AddToScheme (group : string)
| GetConfig
| NewManager (o : ctrl_Options)
| Complete (r : reconciler) (reg : registration)
| AddHealthzCheck (name : string)
| AddReadyzCheck (name : string)
| Start.

Class Manager (M : Type) := { perform : call → M → option error * M }.

Context {M : Type} `{Manager M, EnvWorld}.

(** The libraries, and the calls they have had. *)
Record process := mkProcess { libraries : M; calls : list call }.
Definition do_call (c : call) : Go process (option error) :=
  action (λ p, let '(err, m) := perform c (libraries p) in (err, mkProcess m (calls p ++ [c]))).

(** [utilruntime.Must] panics with an error. *)
Definition Must (err : option error) : Go process unit :=
  match err with Some _ => panic | None => mret tt end.
Definition init : Go process unit :=
  err ← do_call (AddToScheme "client-go");
  Must err;;
  err ← do_call (AddToScheme "chantico-project.github.io");
  Must err.

(** [os.Exit(1)] when a call fails; the answer is the status of the process. *)
Definition or_exit (c : call) (rest : Go process Z) : Go process Z :=
  err ← do_call c;
  match err with Some _ => mret 1%Z | None => rest end.

Definition main (f : flags) (env : environ) : Go process Z :=
  let '(ValidatedEnv, errs) := ValidateEnv env in
  if decide (errs ≠ []) then mret 1%Z
  else
    or_exit GetConfig
    (or_exit (NewManager (manager_options f ValidatedEnv))
    (let measurementDevice := MeasurementDeviceReconciler (VolumeLocation ValidatedEnv) in
     or_exit (Complete measurementDevice (SetupWithManager measurementDevice))
    (or_exit (Complete PhysicalMeasurementReconciler (SetupWithManager PhysicalMeasurementReconciler))
    (or_exit (Complete DataCenterResourceReconciler (SetupWithManager DataCenterResourceReconciler))
    (or_exit (AddHealthzCheck "healthz")
    (or_exit (AddReadyzCheck "readyz")
    (or_exit Start
    (mret 0%Z)))))))).

(** A process: the initialisation of the package, and its main function. *)
Definition run_process (f : flags) (env : environ) (m : M) : outcome Z * process :=
  (init;; main f env) (mkProcess m []).
End Operator.
Arguments registration : clear implicits.
Arguments call : clear implicits.
Arguments process : clear implicits.

(** * Theorems *)
Section OperatorFacts.
Context {A : Type} `{DcrLister A} {M : Type} `{Manager (A := A) M, EnvWorld}.
Implicit Types (p : process A M) (cs : list (call A)).

(** The calls of the program, in their order. *)
Definition schemes : list (call A) := [AddToScheme "client-go"; AddToScheme "chantico-project.github.io"].
Definition startup (f : flags) (env : validatedEnv) : list (call A) :=
  [GetConfig; NewManager (manager_options f env);
   Complete (MeasurementDeviceReconciler (VolumeLocation env)) MeasurementDevice_setup;
   Complete PhysicalMeasurementReconciler PhysicalMeasurement_setup;
   Complete DataCenterResourceReconciler DataCenterResource_setup;
   AddHealthzCheck "healthz"; AddReadyzCheck "readyz"; Start].

Lemma main_startup f env :
  main f env =
  let '(ret, errs) := ValidateEnv env in
  if decide (errs ≠ []) then mret 1%Z else foldr or_exit (mret 0%Z) (startup f ret).
Proof. reflexivity. Qed.

(** A chain of calls stops at the first that fails; the status says whether one did. *)
Lemma chain_stops cs : ∀ p,
  ∃ code made m', foldr or_exit (mret 0%Z) cs p = (Done code, mkProcess m' (calls p ++ made)) ∧
    ((code = 0%Z ∧ made = cs) ∨ (code = 1%Z ∧ made ≠ [] ∧ made `prefix_of` cs)).
Proof.
  induction cs as [|c cs IH]; intros p.
  { exists 0%Z, [], (libraries p). rewrite app_nil_r. split; [by destruct p|by left]. }
  cbn [foldr]. unfold or_exit at 1. rewrite run_bind. unfold do_call, action.
  destruct (perform c (libraries p)) as [[err|] m'].
  - exists 1%Z, [c], m'. split; [done|]. right. split_and!; [done..|]. by exists cs.
  - destruct (IH (mkProcess m' (calls p ++ [c]))) as (code & made & m2 & Hrun & Hcase).
    exists code, (c :: made), m2. cbn [calls] in Hrun. rewrite Hrun, <-app_assoc. split; [done|].
    destruct Hcase as [[-> ->]|(-> & _ & Hp)]; [by left|]. right. split_and!; [done..|].
    by apply prefix_cons.
Qed.

(** The cache covers the operator's own namespace and what it watches. *)
Definition covers (env : validatedEnv) (namespaces : option (gset string)) : Prop :=
  match namespaces with
  | None => WatchNamespace env = AllNamespaces
  | Some l => WatchNamespace env ≠ AllNamespaces ∧ PodNamespace env ∈ l ∧ WatchNamespace env ∈ l
  end.
Lemma configureWatchNamespace_both env : covers env (configureWatchNamespace env).
Proof.
  unfold configureWatchNamespace, covers.
  destruct (decide (WatchNamespace env ≠ AllNamespaces)) as [Hw|Hw]; [|by apply dec_stable].
  case_decide as Hn; set_solver.
Qed.

(** What the manager is made with: no HTTP/2 unless it is asked for, on either of
    its servers, authentication wherever the metrics are served securely, and a
    cache that covers the namespaces. *)
Definition well_configured (f : flags) (env : validatedEnv) (o : ctrl_Options) : Prop :=
  (∀ opts c, opts = webhook_TLSOpts o ∨ opts = metrics_TLSOpts (Metrics o) →
     configured opts c = if enableHTTP2 f then c else mkTlsConfig ["http/1.1"]) ∧
  (SecureServing (Metrics o) = true ↔ FilterProvider (Metrics o) = Some WithAuthenticationAndAuthorization) ∧
  covers env (Cache_DefaultNamespaces o).

Lemma manager_well_configured f env : well_configured f env (manager_options f env).
Proof.
  split; [|split; [|apply configureWatchNamespace_both]].
  - intros opts c Hopts. assert (opts = tlsOpts f) as -> by (by destruct Hopts).
    unfold tlsOpts. by destruct (enableHTTP2 f).
  - cbn. by destruct (secureMetrics f).
Qed.

Lemma run_init m :
  ∃ p, (init (mkProcess m []) = (Panicked, p) ∧ calls p `prefix_of` schemes) ∨
       (init (mkProcess m []) = (Done tt, p) ∧ calls p = schemes).
Proof.
  unfold init, do_call, action, Must, mbind, Go_bind. cbn [libraries calls app].
  destruct (perform (AddToScheme "client-go") m) as [[e|] m1]; cbn.
  { eexists. left. split; [done|]. by eexists [_]. }
  destruct (perform (AddToScheme "chantico-project.github.io") m1) as [[e|] m2]; cbn;
    eexists; [left|right]; split; [done| |done|done].
  by eexists [].
Qed.

(** C31: the operator runs only when all of it is set up: a process that starts its
    manager has an accepted environment, a manager made with the options of its
    flags and environment and all three controllers and both probes registered
    before it; whatever the libraries answer, the calls are made in one order up to
    the first that fails, nothing is called with an environment that is refused,
    and the status is 0 exactly when every call succeeded. *)
Theorem operator_starts_complete (f : flags) (env : environ) (m : M) :
  let '(out, p) := run_process f env m in
  let '(ret, errs) := ValidateEnv env in
  (out = Panicked ∧ calls p `prefix_of` schemes) ∨
  (∃ code made, out = Done code ∧ calls p = schemes ++ made ∧
    (errs ≠ [] → code = 1%Z ∧ made = []) ∧
    (errs = [] → made `prefix_of` startup f ret ∧ well_configured f ret (manager_options f ret) ∧
      ((code = 0%Z ∧ made = startup f ret) ∨ code = 1%Z) ∧
      (Start ∈ made → made = startup f ret))).
Proof.
  destruct (run_process f env m) as [out p] eqn:Hrun. destruct (ValidateEnv env) as [ret errs] eqn:Henv.
  unfold run_process in Hrun. rewrite run_bind in Hrun.
  destruct (run_init m) as (p1 & [[Hi Hc]|[Hi Hc]]); rewrite Hi in Hrun.
  { injection Hrun as <- <-. by left. }
  right. destruct p1 as [m2 cs]. cbn [calls] in Hc. subst cs.
  rewrite main_startup, Henv in Hrun. destruct (decide (errs ≠ [])) as [He|He%dec_stable].
  { injection Hrun as <- <-. exists 1%Z, []. by rewrite app_nil_r. }
  destruct (chain_stops (startup f ret) (mkProcess m2 schemes)) as (code & made & m' & Hc & Hcase).
  rewrite Hc in Hrun. injection Hrun as <- <-. exists code, made. split; [done|]. split; [done|].
  split; [done|]. intros _.
  assert (made `prefix_of` startup f ret) as Hp by (by destruct Hcase as [[_ ->]|(_ & _ & ?)]).
  split; [done|]. split; [apply manager_well_configured|]. split; [tauto|].
  intros Hin. destruct Hp as [rest Hrest]. destruct (decide (rest = [])) as [->|Hne];
    [by rewrite Hrest, app_nil_r|]. exfalso.
  assert (∀ l : list (call A), startup f ret = l ++ rest → l `prefix_of` take 7 (startup f ret)) as Hshort.
  { intros l E. exists (take (7 - length l) rest). rewrite E, take_app.
    rewrite take_ge; [done|]. apply (f_equal length) in E. rewrite length_app in E.
    destruct rest; [done|]. simpl in E. lia. }
  apply Hshort in Hrest as [rest' Hr].
  assert (Start ∈ take 7 (startup f ret)) as Hstart by (rewrite Hr; set_solver).
  cbn in Hstart. repeat (apply elem_of_cons in Hstart as [?|Hstart]; [done|]).
  by apply not_elem_of_nil in Hstart.
Qed.
End OperatorFacts.

(** ** A run: every library answers, in a cluster that is watched in one namespace *)
Module OperatorSample.
Import SampleDcr SimpleApi.
#[local] Existing Instance friendly_world.
(** Libraries that fail at their [n]-th call. *)
#[export] Instance failing_at : Manager (A := api) nat :=
  {| perform _ n := match n with 1 => (Some (errorString "refused"), 0) | _ => (None, Nat.pred n) end |}.
Definition run (n : nat) : outcome Z * process api nat := run_process default_flags sample_environ n.

Example all_started :
  (run 0).1 = Done 0%Z ∧ calls (run 0).2 = schemes ++ startup default_flags sample_env.
Proof. by vm_compute. Qed.
Example controller_refused :
  (run 6).1 = Done 1%Z ∧ length (calls (run 6).2) = 6.
Proof. by vm_compute. Qed.
End OperatorSample.
