(* ===== verification/Simulation.v ===== *)
(** [dev/mocks]: the random walks that stand for measured values
    (internal/simulation), the SNMP agent and the exporter of attributions that
    serve them (cmd/snmp, cmd/vm-attribution). *)
From Stdlib Require Import SpecFloat.
From S2P Require Import Prelude GoStd GoFloat Errors FileStore Configuration.

(** * Walks ([internal/simulation]) *)

(** [math/rand/v2]: the state of the generator is outside the program. *)
Class RandV2 (R : Type) := { Float64 : R → float64 * R }.
(** Documented: a number of the half-open interval from 0 to 1. *)
Class RandV2Laws R `{RandV2 R} : Prop := {
  Float64_number r : float64_facts.number (Float64 r).1;
  Float64_nonneg r : float64.le (float64.of_int 0) (Float64 r).1 = true;
  Float64_below_one r : float64.lt (Float64 r).1 (float64.of_int 1) = true
}.

Record Bounds := mkBounds { Min : float64; Max : float64; Start : float64; Variance : float64 }.
Record Walk := mkWalk { bounds : Bounds; values : gmap string float64 }.

Definition NewWalk (b : Bounds) : Walk := mkWalk b ∅.
Definition set_values (f : gmap string float64 → gmap string float64) (w : Walk) : Walk :=
  mkWalk (bounds w) (f (values w)).

Definition rand_Float64 {R} `{RandV2 R} : Go (Walk * R) float64 :=
  action (λ '(w, r), let '(f, r') := Float64 r in (f, (w, r'))).

(** One step of the walk of a key.  The mutex makes calls follow one another; the
    product is rounded before it is added, as on amd64. *)
Definition Next {R} `{RandV2 R} (key : string) : Go (Walk * R) float64 :=
  w ← gets fst;
  let value := default (Start (bounds w)) (values w !! key) in
  f ← rand_Float64;
  let value := float64.add value
    (float64.mul (float64.sub (float64.mul f (float64.of_int 2)) (float64.of_int 1))
       (Variance (bounds w))) in
  let value := float64.max (Min (bounds w)) (float64.min (Max (bounds w)) value) in
  modify (λ '(w, r), (set_values <[key := value]> w, r));;
  mret value.

(** ** Configuration from the environment: a variable that is not set is empty *)
Section Env.
Context (Getenv : string → string).

Definition EnvString (name defaultValue : string) : string :=
  let value := Getenv name in
  if decide (value ≠ "") then value else defaultValue.

Definition EnvFloat (name : string) (defaultValue : float64) : float64 :=
  let raw := Getenv name in
  if decide (raw = "") then defaultValue
  else match ParseFloat raw with
       | inl _ => defaultValue
       | inr value => value
       end.

(** The loop over the fields: the first that is no number, or a negative one,
    gives the defaults. *)
Fixpoint read_ints (values : list Z) (fields : list string) : option (list Z) :=
  match fields with
  | [] => Some values
  | field :: rest =>
      match strconv.Atoi field with
      | (_, Some _) => None
      | (value, None) => if decide (value < 0)%Z then None else read_ints (values ++ [value]) rest
      end
  end.

Definition EnvInts (name : string) (defaultValues : list Z) : list Z :=
  let raw := Getenv name in
  if decide (raw = "") then defaultValues
  else
    let fields := strings.Fields (strings.ReplaceByte raw ","%char " "%char) in
    if decide (length fields = 0) then defaultValues
    else default defaultValues (read_ints [] fields).

Definition BoundsFromEnv (prefix : string) (defaults : Bounds) : Bounds :=
  mkBounds (EnvFloat (prefix +:+ "_MIN") (Min defaults)) (EnvFloat (prefix +:+ "_MAX") (Max defaults))
    (EnvFloat (prefix +:+ "_START") (Start defaults))
    (EnvFloat (prefix +:+ "_VARIANCE") (Variance defaults)).
End Env.

(** * The SNMP agent ([cmd/snmp/main.go])

    The library gosnmp decodes and encodes packets; of a packet, the fields the
    program reads or sets. *)
Module SnmpMock.
Class Gosnmp := {
  Asn1BER : Type;
  Integer : Asn1BER;
  PDUType : Type;
  pdutype_eq_dec :: EqDecision PDUType;
  GetRequest : PDUType;
  GetResponse : PDUType
}.

(** A value is an [int] of the program, or what the library made of a request. *)
Inductive Value {L : Type} := IntValue (z : Z) | LibraryValue (v : L).
Arguments Value : clear implicits.

Section Agent.
Context {L : Type} `{Gosnmp}.

Record SnmpPDU := mkSnmpPDU { pdu_Name : string; pdu_Type : Asn1BER; pdu_Value : Value L }.
Record SnmpPacket := mkSnmpPacket {
  Version : Z;
  Community : string;
  packet_PDUType : PDUType;
  RequestID : Z;
  Variables : list SnmpPDU
}.

Class SnmpCodec := {
  SnmpDecodePacket : string → error + SnmpPacket;
  MarshalMsg : SnmpPacket → error + string
}.

Context {R : Type} `{RandV2 R, FloatToInt, SnmpCodec}.

(** The walk's default bounds. *)
Definition defaults : Bounds :=
  mkBounds (float64.of_int 200) (float64.of_int 800) (float64.of_int 500) (float64.of_int 10).
Definition walk (Getenv : string → string) : Walk :=
  NewWalk (BoundsFromEnv Getenv "MOCK_SNMP_VALUE" defaults).

Definition read_variable (v : SnmpPDU) : Go (Walk * R) SnmpPDU :=
  f ← Next (pdu_Name v);
  mret (mkSnmpPDU (pdu_Name v) Integer (IntValue (int_of_float f))).

Definition respond (packet : SnmpPacket) : Go (Walk * R) SnmpPacket :=
  variables ← mapM read_variable (Variables packet);
  mret (mkSnmpPacket (Version packet) (Community packet) GetResponse (RequestID packet) variables).

(** One turn of the loop of [main]: a datagram is answered by at most one. *)
Definition serve (datagram : error + string) : Go (Walk * R) (option string) :=
  match datagram with
  | inl _ => mret None
  | inr buf =>
      match SnmpDecodePacket buf with
      | inl _ => mret None
      | inr packet =>
          if decide (packet_PDUType packet = GetRequest) then
            response ← respond packet;
            match MarshalMsg response with
            | inl _ => mret None
            | inr out => mret (Some out)
            end
          else mret None
      end
  end.

Definition address (Getenv : string → string) : string := EnvString Getenv "MOCK_SNMP_ADDRESS" ":1161".

(** [conn.ReadFrom] into the buffer: what does not fit is lost. *)
Definition ReadFrom (datagram : error + string) : error + string :=
  match datagram with inl err => inl err | inr data => inr (take_bytes 2048 data) end.

(** [main]: fatal without a socket; then the loop, which does not end, here over the
    datagrams that have come so far. *)
Definition main (Getenv : string → string) (ListenPacket : string → string → option error)
    (datagrams : list (error + string)) (r : R) : error + outcome (list (option string)) * (Walk * R) :=
  match ListenPacket "udp" (address Getenv) with
  | Some err => inl (wrapError "Error starting SNMP listener: " err)
  | None => inr (mapM (λ d, serve (ReadFrom d)) datagrams (walk Getenv, r))
  end.
End Agent.
End SnmpMock.

(** * The exporter of attributions ([cmd/vm-attribution/main.go]) *)
Module VmAttribution.
Definition vmAttributionBase : string :=
  "# HELP vm_attribution_coefficient Fraction of total system usage attributed to this VM." +:+ newline +:+
  "# TYPE vm_attribution_coefficient gauge" +:+ newline.

(** The package variables, from the environment. *)
Record vars := mkVars { hostName : string; vmIDs : list Z; port : string }.
(** A decimal constant of the source. *)
Definition decimal_constant (m places : Z) : float64 := float_of_scaled false m 10 (- places).
Definition defaults : Bounds :=
  mkBounds (decimal_constant 2 1) (decimal_constant 10 1) (decimal_constant 6 1) (decimal_constant 2 2).

Definition package_vars (Getenv : string → string) : vars :=
  mkVars (EnvString Getenv "MOCK_VM_ATTR_HOST_NAME" "prometheus-mock-bm-1")
    (EnvInts Getenv "MOCK_VM_ATTR_VM_IDS" [120; 121]%Z)
    (EnvString Getenv "MOCK_VM_ATTR_PORT" "9090").
Definition weights (Getenv : string → string) : Walk :=
  NewWalk (BoundsFromEnv Getenv "MOCK_VM_ATTR_WEIGHT" defaults).

(** What a handler writes: the status line, the headers, the body. *)
Record ResponseWriter := mkResponseWriter {
  rw_Status : Z;
  rw_Header : gmap string string;
  rw_Body : string
}.

Section Exporter.
Context {R : Type} `{RandV2 R} (v : vars).

(** The first loop: the weights and their total, of which a part is left over. *)
Fixpoint draw_weights (ids : list Z) (vmWeights : list float64) (totalWeight : float64) :
    Go (Walk * R) (list float64 * float64) :=
  match ids with
  | [] => mret (vmWeights, totalWeight)
  | vmID :: rest =>
      weight ← Next (strconv.FormatInt vmID);
      draw_weights rest (vmWeights ++ [weight]) (float64.add totalWeight weight)
  end.

Definition attribution_line (vmID : Z) (coefficient : float64) : string :=
  "vm_attribution_coefficient{name=" +:+ dquote +:+ hostName v +:+ dquote +:+
  ",resource_consumer_id=" +:+ dquote +:+ "/qemu.slice/" +:+ strconv.FormatInt vmID +:+ ".scope" +:+
  dquote +:+ "} " +:+ format_fixed6 coefficient +:+ newline.

(** The second loop indexes the weights: out of range would be a panic. *)
Fixpoint write_lines (ids : list Z) (index : nat) (vmWeights : list float64)
    (totalWeight : float64) : outcome string :=
  match ids with
  | [] => Done ""
  | vmID :: rest =>
      match vmWeights !! index with
      | None => Panicked
      | Some weight =>
          match write_lines rest (S index) vmWeights totalWeight with
          | Done s => Done (attribution_line vmID (float64.div weight totalWeight) +:+ s)
          | Panicked => Panicked
          end
      end
  end.

Definition simulateVMAttribution : Go (Walk * R) string :=
  '(vmWeights, totalWeight) ← draw_weights (vmIDs v) [] (float64.of_int 1);
  lift_outcome (write_lines (vmIDs v) 0 vmWeights totalWeight).

(** [http.Error] for the other methods. *)
Definition metrics (method : string) : Go (Walk * R) ResponseWriter :=
  if decide (method ≠ "GET") then
    mret (mkResponseWriter 405
      (<["Content-Type" := "text/plain; charset=utf-8"]> {["X-Content-Type-Options" := "nosniff"]})
      ("Method not allowed" +:+ newline))
  else
    lines ← simulateVMAttribution;
    mret (mkResponseWriter 200 {["Content-Type" := "text/plain; version=0.0.4; charset=utf-8"]}
        (vmAttributionBase +:+ lines)).

(** [main]: the pattern is of one path and every method, the other paths are the
    multiplexer's to answer.  [ListenAndServe] only returns with an error, which is
    fatal. *)
Definition handler (path : string) : option (string → Go (Walk * R) ResponseWriter) :=
  if decide (path = "/metrics") then Some metrics else None.
Definition exporter_main (ListenAndServe : string → (string → option (string → Go (Walk * R) ResponseWriter)) → error) :
    error :=
  ListenAndServe ("0.0.0.0:" +:+ port v) handler.
End Exporter.
End VmAttribution.

(** * Theorems *)
Import float64_facts.

(** ** Walks stay within their bounds *)

(** Bounds that make sense: numbers, in order. *)
Definition proper (b : Bounds) : Prop :=
  (number (Min b) ∧ number (Max b) ∧ number (Start b) ∧ number (Variance b)) ∧
  (float64.finite (Min b) = true ∧ float64.finite (Max b) = true ∧
   float64.finite (Start b) = true ∧ float64.finite (Variance b) = true) ∧
  float64.le (Min b) (Max b) = true.

Definition within (b : Bounds) (v : float64) : Prop :=
  number v ∧ float64.finite v = true ∧ float64.le (Min b) v = true ∧ float64.le v (Max b) = true.

Definition walk_within (w : Walk) : Prop := map_Forall (λ _, within (bounds w)) (values w).

Section Walks.
Context {R : Type} `{RandV2Laws R}.
Implicit Types (w : Walk) (r : R).

(** A step is one draw, and moves the walk of its key only. *)
Lemma Next_step key w r :
  proper (bounds w) → walk_within w →
  ∃ v, Next key (w, r) = (Done v, (set_values <[key := v]> w, (Float64 r).2)) ∧ within (bounds w) v.
Proof.
  intros ((HMin & HMax & HStart & HVar) & (FMin & FMax & FStart & FVar) & Hle) Hw.
  unfold Next, rand_Float64. rewrite run_bind, run_gets. cbn [fst].
  set (value := default _ _).
  assert (number value ∧ float64.finite value = true) as [Hv Fv].
  { unfold value. destruct (values w !! key) as [v|] eqn:E; [|done].
    destruct (Hw _ _ E) as (? & ? & _). done. }
  rewrite run_bind. unfold action.
  pose proof (Float64_number r) as Hf. pose proof (Float64_nonneg r) as Hf0.
  pose proof (Float64_below_one r) as Hf1. destruct (Float64 r) as [f r']. cbn [fst snd] in *.
  destruct (centred_finite f Hf Hf0 Hf1) as [Hc Fc].
  set (moved := float64.add _ _).
  assert (number moved) as [Hm Hmn] by (apply add_number; [done|by apply mul_number|done]).
  destruct (clamp_bounds (Min (bounds w)) (Max (bounds w)) moved Hle Hmn) as (Hlo & Hhi & Hcase).
  set (v := float64.max _ _) in *. exists v. split; [done|].
  assert (number v) as Hvn by (by destruct Hcase as [-> | [-> | ->]]).
  split; [done|]. split; [|done].
  exact (le_between_finite _ _ _ FMin FMax Hlo Hhi).
Qed.

Lemma set_values_within key v w :
  walk_within w → within (bounds w) v → walk_within (set_values <[key := v]> w).
Proof. intros Hw Hv. by apply map_Forall_insert_2. Qed.

(** A computation that calls [Next]: it answers within the bounds and leaves the
    walk so, whatever the draws. *)
Lemma Nexts_within keys : ∀ w r,
  proper (bounds w) → walk_within w →
  ∃ vs w' r', mapM Next keys (w, r) = (Done vs, (w', r')) ∧ length vs = length keys ∧
    Forall (within (bounds w)) vs ∧ bounds w' = bounds w ∧ walk_within w'.
Proof.
  induction keys as [|key keys IH]; intros w r Hb Hw; [by exists [], w, r|].
  destruct (Next_step key w r Hb Hw) as (v & Hn & Hv).
  destruct (IH (set_values <[key := v]> w) (Float64 r).2) as (vs & w' & r' & Hm & Hl & Hvs & Hbw & Hw');
    [done|by apply set_values_within|].
  exists (v :: vs), w', r'. cbn [mapM]. rewrite run_bind, Hn, run_bind, Hm.
  split; [done|]. split; [simpl; lia|]. by split; [constructor|].
Qed.

(** C34: a walk whose bounds are numbers in order never leaves them: any sequence of
    readings, of whatever keys and draws, is answered, and every value it returns
    and every value it keeps is a finite number between the least and the greatest. *)
Theorem Walk_stays_within (b : Bounds) (keys : list string) (r : R) :
  proper b →
  ∃ vs w' r', mapM Next keys (NewWalk b, r) = (Done vs, (w', r')) ∧
    length vs = length keys ∧ Forall (within b) vs ∧
    bounds w' = b ∧ map_Forall (λ _, within b) (values w').
Proof.
  intros Hb. destruct (Nexts_within keys (NewWalk b) r Hb) as (vs & w' & r' & ? & ? & ? & Hbw & Hw').
  { apply map_Forall_empty. }
  exists vs, w', r'. unfold walk_within in Hw'. rewrite Hbw in Hw'. done.
Qed.
End Walks.

(** ** The SNMP agent answers with readings of the walk *)
Section AgentFacts.
Import SnmpMock.
Context {L : Type} `{Gosnmp, !SnmpCodec (L := L)} {R : Type} `{RandV2Laws R, FloatToInt}.
Implicit Types (w : Walk) (r : R).

(** The bounds can be told as an [int]. *)
Definition int_bounds (b : Bounds) : Prop :=
  (- 2 ^ 63 ≤ float64.trunc (Min b) ∧ float64.trunc (Max b) < 2 ^ 63)%Z.

(** A variable and its reading. *)
Definition reading (b : Bounds) (asked answered : SnmpPDU (L := L)) : Prop :=
  pdu_Name answered = pdu_Name asked ∧ pdu_Type answered = Integer ∧
  ∃ z, pdu_Value answered = IntValue z ∧ (float64.trunc (Min b) ≤ z ≤ float64.trunc (Max b))%Z.

Lemma int_of_within b v :
  proper b → int_bounds b → within b v →
  (float64.trunc (Min b) ≤ int_of_float v ≤ float64.trunc (Max b))%Z.
Proof.
  intros (((HMin & _) & (HMax & _) & _) & (FMin & FMax & _) & _) Hi ((Hv & _) & Fv & Hlo & Hhi).
  pose proof (trunc_le _ _ HMin Hv FMin Fv Hlo). pose proof (trunc_le _ _ Hv HMax Fv FMax Hhi).
  unfold int_bounds in Hi. unfold int_of_float. rewrite Fv.
  rewrite (proj2 (Z.leb_le _ _)), (proj2 (Z.ltb_lt _ _)) by lia. done.
Qed.

Lemma respond_variables b vars : ∀ w r,
  proper b → int_bounds b → bounds w = b → walk_within w →
  ∃ answered w' r', mapM read_variable vars (w, r) = (Done answered, (w', r')) ∧
    Forall2 (reading b) vars answered ∧ bounds w' = b ∧ walk_within w'.
Proof.
  induction vars as [|v vars IH]; intros w r Hb Hi Hbw Hw; [by exists [], w, r|].
  destruct (Next_step (pdu_Name v) w r) as (f & Hn & Hf); [by rewrite Hbw|done|].
  destruct (IH (set_values <[pdu_Name v := f]> w) (Float64 r).2) as (answered & w' & r' & Hm & Hvs & ? & ?);
    [done..|by apply set_values_within|].
  eexists (_ :: answered), w', r'. cbn [mapM]. rewrite run_bind. unfold read_variable at 1.
  rewrite run_bind, Hn, run_ret, run_bind, Hm. split; [done|]. split; [|done].
  constructor; [|done]. split; [done|]. split; [done|]. eexists. split; [done|].
  apply int_of_within; [done..|by rewrite <-Hbw].
Qed.

(** What an answer to a datagram is: a response to its request, of readings. *)
Definition answers (b : Bounds) (datagram : error + string) (answer : option string) : Prop :=
  match answer with
  | Some out => ∃ buf packet response,
      datagram = inr buf ∧ SnmpDecodePacket buf = inr packet ∧ packet_PDUType packet = GetRequest ∧
      MarshalMsg response = inr out ∧ packet_PDUType response = GetResponse ∧
      RequestID response = RequestID packet ∧ Community response = Community packet ∧
      Version response = Version packet ∧ Forall2 (reading b) (Variables packet) (Variables response)
  | None => ∀ buf packet,
      datagram = inr buf → SnmpDecodePacket buf = inr packet → packet_PDUType packet = GetRequest →
      ∃ response err, MarshalMsg response = inl err ∧
        Forall2 (reading b) (Variables packet) (Variables response)
  end.

Lemma serve_answers b datagram w r :
  proper b → int_bounds b → bounds w = b → walk_within w →
  ∃ answer w' r', serve (L := L) datagram (w, r) = (Done answer, (w', r')) ∧
    answers b datagram answer ∧ bounds w' = b ∧ walk_within w'.
Proof.
  intros Hb Hi Hbw Hw. unfold serve. destruct datagram as [e|buf]; [by eexists None, w, r|].
  destruct (SnmpDecodePacket buf) as [e|packet] eqn:Hd;
    [exists None, w, r; split; [done|]; split; [|done]; intros ? ? [= <-] ?; congruence|].
  destruct (decide _) as [Hreq|Hreq];
    [|exists None, w, r; split; [done|]; split; [|done]; intros ? ? [= <-] ?; congruence].
  destruct (respond_variables b (Variables packet) w r Hb Hi Hbw Hw)
    as (answered & w' & r' & Hm & Hvs & ? & ?).
  rewrite run_bind. unfold respond. rewrite run_bind, Hm, run_ret.
  destruct (MarshalMsg _) as [err|out] eqn:Ho; eexists _, w', r'; (split; [done|]); (split; [|done]).
  - intros buf' packet' [= <-] Hd' _. rewrite Hd in Hd'. injection Hd' as <-.
    by eexists _, err.
  - eexists buf, packet, _. by split_and!.
Qed.

(** C35: the simulated device answers every request it can decode and encode, and
    nothing else: once it has its socket, to a session of datagrams, whatever was
    decoded and drawn, each answer is a response to its request (of which it reads
    2048 bytes) with the same identifier, community and version, giving for each
    variable asked, in order, an integer between the integral parts of the bounds
    that are configured. *)
Theorem agent_answers_in_range (Getenv : string → string) ListenPacket (datagrams : list (error + string)) (r : R) :
  let b := BoundsFromEnv Getenv "MOCK_SNMP_VALUE" defaults in
  proper b → int_bounds b → ListenPacket "udp" (EnvString Getenv "MOCK_SNMP_ADDRESS" ":1161") = None →
  ∃ sent s', main (L := L) Getenv ListenPacket datagrams r = inr (Done sent, s') ∧
    Forall2 (answers b) (ReadFrom <$> datagrams) sent.
Proof.
  intros b Hb Hi Hl. unfold main, address. rewrite Hl. change (walk Getenv) with (NewWalk b).
  assert (walk_within (NewWalk b)) as Hw by apply map_Forall_empty.
  assert (bounds (NewWalk b) = b) as Hbw by done. revert Hw Hbw. generalize (NewWalk b) as w. revert r.
  induction datagrams as [|d datagrams IH]; intros r w Hw Hbw; [by eexists [], _|].
  destruct (serve_answers b (ReadFrom d) w r Hb Hi Hbw Hw) as (answer & w' & r' & Hs & Ha & Hbw' & Hw').
  destruct (IH r' w' Hw' Hbw') as (sent & s' & Hm & Hall). injection Hm as Hm.
  exists (answer :: sent), s'. cbn [mapM fmap list_fmap]. rewrite run_bind, Hs, run_bind, Hm.
  split; [done|by constructor].
Qed.
End AgentFacts.

(** ** Lists of numbers in the environment *)

(** What separates: white space of one byte. *)
Definition space_byte (c : ascii) : Prop := is_ascii c ∧ IsSpace (byte_val c) = true.
Definition field_byte (c : ascii) : Prop := is_ascii c ∧ IsSpace (byte_val c) = false.

Lemma fields_word word : ∀ keep cur rest,
  Forall field_byte (chars word) →
  strings.fields_from 0 keep cur (word +:+ rest) =
  strings.fields_from 0 (if decide (word = "") then keep else true) (reverse (chars word) ++ cur) rest.
Proof.
  induction word as [|c word IH]; intros keep cur rest Hw; [done|].
  cbn [chars] in Hw. apply Forall_cons in Hw as [[Ha Hs] Hw].
  rewrite str_app_cons. cbn [strings.fields_from]. rewrite DecodeRune_ascii by done.
  rewrite Hs. cbn [Nat.sub]. rewrite IH by done. cbn [chars].
  rewrite reverse_cons, <-app_assoc. rewrite (decide_False (P := String c word = "")) by done.
  by destruct (decide (word = "")).
Qed.

Lemma fields_space sep : ∀ keep rest,
  Forall space_byte (chars sep) →
  strings.fields_from 0 keep [] (sep +:+ rest) =
  strings.fields_from 0 (if decide (sep = "") then keep else false) [] rest.
Proof.
  induction sep as [|c sep IH]; intros keep rest Hs; [done|].
  cbn [chars] in Hs. apply Forall_cons in Hs as [[Ha Hc] Hs].
  rewrite str_app_cons. cbn [strings.fields_from]. rewrite DecodeRune_ascii by done.
  rewrite Hc. cbn [strings.end_field Nat.sub]. change (strings.end_field [] ++ ?l) with l.
  rewrite IH by done. rewrite (decide_False (P := String c sep = "")) by done.
  by destruct (decide (sep = "")).
Qed.

(** [keep] is looked at within a rune only. *)
Lemma fields_keep keep keep' cur s :
  strings.fields_from 0 keep cur s = strings.fields_from 0 keep' cur s.
Proof. by destruct s. Qed.

Lemma fields_end word sep rest :
  Forall field_byte (chars word) → word ≠ "" → Forall space_byte (chars sep) → sep ≠ "" →
  strings.Fields (word +:+ sep +:+ rest) = word :: strings.Fields rest.
Proof.
  intros Hw Hne Hs Hse. unfold strings.Fields. rewrite fields_word by done.
  destruct sep as [|c sep]; [done|]. cbn [chars] in Hs. apply Forall_cons in Hs as [[Ha Hc] Hs].
  rewrite str_app_cons. cbn [strings.fields_from]. rewrite DecodeRune_ascii, Hc by done.
  cbn [Nat.sub]. rewrite fields_space by done. rewrite app_nil_r. unfold strings.end_field.
  rewrite decide_False.
  - rewrite reverse_involutive, string_of_chars_chars. simpl. f_equal. apply fields_keep.
  - intros E. apply (f_equal reverse) in E. rewrite reverse_involutive in E. by destruct word.
Qed.

Lemma fields_last word :
  Forall field_byte (chars word) → word ≠ "" → strings.Fields word = [word].
Proof.
  intros Hw Hne. unfold strings.Fields. rewrite <-(str_app_nil_r word) at 1.
  rewrite fields_word by done. cbn [strings.fields_from]. rewrite app_nil_r.
  unfold strings.end_field. rewrite decide_False; [by rewrite reverse_involutive, string_of_chars_chars|].
  intros E. apply (f_equal reverse) in E. rewrite reverse_involutive in E. by destruct word.
Qed.

Lemma fields_join words sep :
  Forall (λ w, Forall field_byte (chars w) ∧ w ≠ "") words →
  Forall space_byte (chars sep) → sep ≠ "" →
  strings.Fields (strings.Join words sep) = words.
Proof.
  intros Hw Hs Hse. induction Hw as [|w words [Hw Hne] Hws IH]; [done|].
  destruct words as [|w' words]; [by apply fields_last|].
  change (strings.Join (w :: w' :: words) sep) with (w +:+ sep +:+ strings.Join (w' :: words) sep).
  by rewrite fields_end, IH.
Qed.

(** Replacing the commas. *)
Lemma ReplaceByte_app s t old new :
  strings.ReplaceByte (s +:+ t) old new = strings.ReplaceByte s old new +:+ strings.ReplaceByte t old new.
Proof.
  apply (inj chars). unfold strings.ReplaceByte.
  by rewrite !chars_app, !chars_string_of_chars, fmap_app.
Qed.

Lemma ReplaceByte_join words sep old new :
  strings.ReplaceByte (strings.Join words sep) old new =
  strings.Join ((λ w, strings.ReplaceByte w old new) <$> words) (strings.ReplaceByte sep old new).
Proof.
  induction words as [|w words IH]; [done|]. destruct words as [|w' words]; [done|].
  change (strings.Join (w :: w' :: words) sep) with (w +:+ sep +:+ strings.Join (w' :: words) sep).
  by rewrite !ReplaceByte_app, IH.
Qed.

Lemma ReplaceByte_absent w old new : old ∉ chars w → strings.ReplaceByte w old new = w.
Proof.
  intros Hw. unfold strings.ReplaceByte. rewrite <-(string_of_chars_chars w) at 2. f_equal.
  induction (chars w) as [|c l IH]; [done|]. apply not_elem_of_cons in Hw as [Hc Hl].
  rewrite fmap_cons, IH by done. by rewrite decide_False by done.
Qed.

Lemma digit_field_byte c : is_digit c → field_byte c ∧ c ≠ ","%char.
Proof.
  unfold is_digit, field_byte, is_ascii, in_range. intros [?%Z.leb_le ?%Z.leb_le]%andb_prop.
  split; [|intros ->; change (byte_val ",") with 44%Z in *; lia]. split; [lia|]. unfold IsSpace, in_range.
  repeat rewrite (proj2 (Z.eqb_neq (byte_val c) _)) by lia.
  repeat match goal with
  | |- context [(?a <=? byte_val c)%Z] => destruct (Z.leb_spec a (byte_val c)); try lia
  | |- context [(byte_val c <=? ?b)%Z] => destruct (Z.leb_spec (byte_val c) b); try lia
  end; done.
Qed.

Lemma read_ints_format zs : ∀ acc,
  Forall (λ z, 0 ≤ z < 2 ^ 63)%Z zs → read_ints acc (strconv.FormatInt <$> zs) = Some (acc ++ zs).
Proof.
  induction zs as [|z zs IH]; intros acc Hz; [by rewrite app_nil_r|].
  apply Forall_cons in Hz as [Hz Hzs]. rewrite fmap_cons. cbn [read_ints].
  unfold strconv.Atoi. rewrite strconv_facts.ParseInt_FormatInt by lia.
  rewrite decide_False by lia. rewrite IH by done. by rewrite <-app_assoc.
Qed.

Lemma read_ints_nonneg fields : ∀ acc zs,
  Forall (λ z, 0 ≤ z)%Z acc → read_ints acc fields = Some zs →
  Forall (λ z, 0 ≤ z)%Z zs ∧ length zs = length acc + length fields.
Proof.
  induction fields as [|f fields IH]; intros acc zs Ha H; simpl in H; [injection H as <-; simpl; split; [done|lia]|].
  destruct (strconv.Atoi f) as [v [?|]]; [done|]. case_decide; [done|].
  apply IH in H as [? Hl]; [|apply Forall_app; split; [done|repeat constructor; lia]].
  rewrite length_app in Hl. simpl in *. split; [done|lia].
Qed.

(** A list of numbers written into the environment is read back: any list of
    non-negative [int]s that is not empty, written in decimal and joined by any
    separator of commas and white space, gives that list whatever the defaults. *)
Theorem EnvInts_reads_back (Getenv : string → string) name defaults zs sep :
  Forall (λ z, 0 ≤ z < 2 ^ 63)%Z zs → zs ≠ [] →
  Forall (λ c, c = ","%char ∨ space_byte c) (chars sep) → sep ≠ "" →
  Getenv name = strings.Join (strconv.FormatInt <$> zs) sep →
  EnvInts Getenv name defaults = zs.
Proof.
  intros Hz Hne Hs Hse Hget. unfold EnvInts. rewrite Hget.
  assert (Forall (λ w, Forall field_byte (chars w) ∧ w ≠ "" ∧ ","%char ∉ chars w)
    (strconv.FormatInt <$> zs)) as Hw.
  { apply Forall_fmap. eapply Forall_impl; [exact Hz|]. intros z [Hb _]. cbn [compose].
    destruct (digits_FormatInt z) as [Hd ?]; [lia|]. split_and!; [|done|].
    - eapply Forall_impl; [exact Hd|]. intros c Hc. by apply digit_field_byte.
    - intros Hc. rewrite Forall_forall in Hd. by destruct (digit_field_byte _ (Hd _ Hc)). }
  rewrite decide_False.
  2: { destruct zs as [|z [|z' zs]]; [done| |]; apply Forall_cons in Hw as [(_ & Hw & _) _].
       - done.
       - simpl. destruct (strconv.FormatInt z); done. }
  rewrite ReplaceByte_join.
  assert (((λ w, strings.ReplaceByte w ","%char " "%char) <$> (strconv.FormatInt <$> zs))
    = strconv.FormatInt <$> zs) as ->.
  { rewrite <-(list_fmap_id (strconv.FormatInt <$> zs)) at 2. apply list_fmap_ext.
    intros i w Hi. rewrite Forall_lookup in Hw. destruct (Hw i w Hi) as (_ & _ & ?).
    by apply ReplaceByte_absent. }
  rewrite fields_join.
  - rewrite length_fmap. rewrite decide_False by (by destruct zs). by rewrite read_ints_format.
  - eapply Forall_impl; [exact Hw|]. naive_solver.
  - unfold strings.ReplaceByte. rewrite chars_string_of_chars. apply Forall_fmap.
    eapply Forall_impl; [exact Hs|]. intros c Hc. simpl. case_decide; [by vm_compute|by destruct Hc].
  - unfold strings.ReplaceByte. by destruct sep.
Qed.

(** The list is one of non-negative numbers, when the defaults are. *)
Lemma EnvInts_nonneg Getenv name defaults :
  Forall (λ z, 0 ≤ z)%Z defaults → Forall (λ z, 0 ≤ z)%Z (EnvInts Getenv name defaults).
Proof.
  intros Hd. unfold EnvInts. repeat case_decide; [done..|].
  destruct (read_ints [] _) as [zs|] eqn:E; [|done].
  by apply read_ints_nonneg in E as [? _].
Qed.

(** ** The exporter *)
Section ExporterFacts.
Import VmAttribution.
Context {R : Type} `{RandV2Laws R} (v : vars).
Implicit Types (w : Walk) (r : R).

Lemma draw_weights_within ids : ∀ w r acc total,
  proper (bounds w) → walk_within w →
  ∃ ws w' r', draw_weights ids acc total (w, r) =
      (Done (acc ++ ws, foldl float64.add total ws), (w', r')) ∧
    length ws = length ids ∧ Forall (within (bounds w)) ws ∧ bounds w' = bounds w ∧ walk_within w'.
Proof.
  induction ids as [|id ids IH]; intros w r acc total Hb Hw.
  { exists [], w, r. rewrite app_nil_r. by split_and!. }
  destruct (Next_step (strconv.FormatInt id) w r Hb Hw) as (f & Hn & Hf).
  cbn [draw_weights]. rewrite run_bind, Hn.
  destruct (IH (set_values <[strconv.FormatInt id := f]> w) (Float64 r).2 (acc ++ [f])
    (float64.add total f)) as (ws & w' & r' & Hd & Hl & Hws & ? & ?);
    [done|by apply set_values_within|].
  exists (f :: ws), w', r'. rewrite Hd, <-app_assoc. split; [done|].
  split; [simpl; lia|]. by split; [constructor|].
Qed.

(** The second loop: one line per machine, and no index out of range. *)
Definition attribution (total : float64) (id : Z) (weight : float64) : string :=
  attribution_line v id (float64.div weight total).
Lemma write_lines_zip ids total : ∀ index ws rest,
  length rest = length ids → drop index ws = rest →
  write_lines v ids index ws total = Done (foldr String.append "" (zip_with (attribution total) ids rest)).
Proof.
  induction ids as [|id ids IH]; intros index ws rest Hl Hd; [by destruct rest|].
  destruct rest as [|f rest]; [done|]. cbn [write_lines].
  assert (ws !! index = Some f) as Hf.
  { rewrite <-(Nat.add_0_r index), <-lookup_drop. by rewrite Hd. }
  rewrite Hf, (IH (S index) ws rest); [done|simpl in Hl; lia|].
  rewrite <-Nat.add_1_r, <-drop_drop, Hd. done.
Qed.

(** The exporter of attributions serves every GET, and does not panic: a line
    for each machine in order, whose coefficient is its weight divided by one and
    the weights of all, each weight within its bounds; another method is refused
    and leaves the walks as they are. *)
Theorem metrics_spec method w r :
  proper (bounds w) → walk_within w →
  if decide (method = "GET") then
    ∃ ws s', metrics v method (w, r) =
      (Done (mkResponseWriter 200 {["Content-Type" := "text/plain; version=0.0.4; charset=utf-8"]}
         (vmAttributionBase +:+ foldr String.append ""
            (zip_with (attribution (foldl float64.add (float64.of_int 1) ws)) (vmIDs v) ws))), s') ∧
      length ws = length (vmIDs v) ∧ Forall (within (bounds w)) ws ∧
      bounds s'.1 = bounds w ∧ walk_within s'.1
  else ∃ refused, metrics v method (w, r) = (Done refused, (w, r)) ∧ rw_Status refused = 405%Z.
Proof.
  intros Hb Hw. unfold metrics. destruct (decide (method = "GET")) as [->|Hm].
  - rewrite decide_False by (intros []; done). rewrite run_bind. unfold simulateVMAttribution.
    destruct (draw_weights_within (vmIDs v) w r [] (float64.of_int 1) Hb Hw)
      as (ws & w' & r' & Hd & Hl & Hws & ? & ?).
    rewrite run_bind, Hd. cbn [app]. unfold lift_outcome.
    rewrite (write_lines_zip _ _ 0 ws ws) by done. by exists ws, (w', r').
  - rewrite decide_True by done. by eexists.
Qed.
End ExporterFacts.

(** * Witnesses: a generator that alternates between a quarter and three quarters *)
Module SimulationSample.
Import SnmpMock.

#[export] Instance alternating : RandV2 nat :=
  {| Float64 n := (if Nat.even n then VmAttribution.decimal_constant 25 2
                   else VmAttribution.decimal_constant 75 2, S n) |}.
#[export] Instance alternating_laws : RandV2Laws nat.
Proof. split; intros n; unfold Float64, alternating; by destruct (Nat.even n). Qed.

#[export] Instance zero_conversion : FloatToInt := {| int_unrepresentable _ := 0%Z |}.

(** Packets of two kinds; a datagram is the name of the one variable it asks. *)
#[export] Instance two_types : Gosnmp :=
  {| Asn1BER := unit; Integer := tt; PDUType := bool; GetRequest := true; GetResponse := false |}.
Definition ask (name : string) : SnmpPacket (L := unit) :=
  mkSnmpPacket 1 "public" true 7 [mkSnmpPDU name tt (LibraryValue tt)].
Definition print_value (v : SnmpPDU (L := unit)) : string :=
  match pdu_Value v with
  | IntValue z => pdu_Name v +:+ "=" +:+ strconv.FormatInt z
  | LibraryValue _ => pdu_Name v
  end.
#[export] Instance one_variable : SnmpCodec (L := unit) :=
  {| SnmpDecodePacket buf := if decide (buf = "") then inl (errorString "truncated packet") else inr (ask buf);
     MarshalMsg p := inr (strings.Join (print_value <$> Variables p) ";") |}.

Definition no_env : string → string := λ _, "".
Lemma defaults_proper : proper (BoundsFromEnv no_env "MOCK_SNMP_VALUE" defaults).
Proof. by vm_compute. Qed.

Definition session : list (error + string) :=
  [inr ".1.3.6"; inr ""; inl (errorString "closed"); inr ".1.3.6"].
Example session_computed :
  (mapM (serve (L := unit)) session (walk no_env, 0)).1 =
  Done [Some ".1.3.6=495"; None; None; Some ".1.3.6=500"].
Proof. vm_compute. reflexivity. Qed.

(** A bound that is no number is accepted, and every value is none then. *)
Definition nan_min : string → string := λ name, if decide (name = "MOCK_SNMP_VALUE_MIN") then "NaN" else "".
Example nan_bound :
  (mapM Next ["a"; "b"] (walk nan_min, 0)).1 = Done [S754_nan; S754_nan].
Proof. vm_compute. reflexivity. Qed.

Definition one_machine : VmAttribution.vars := VmAttribution.mkVars "bm" [7; 8]%Z "9090".
Definition lines (o : outcome VmAttribution.ResponseWriter) : string :=
  match o with Done w => VmAttribution.rw_Body w | Panicked => "" end.
Example exporter_computed :
  lines (VmAttribution.metrics one_machine "GET" (VmAttribution.weights no_env, 0)).1 =
  VmAttribution.vmAttributionBase +:+
  "vm_attribution_coefficient{name=" +:+ dquote +:+ "bm" +:+ dquote +:+ ",resource_consumer_id=" +:+
  dquote +:+ "/qemu.slice/7.scope" +:+ dquote +:+ "} 0.268182" +:+ newline +:+
  "vm_attribution_coefficient{name=" +:+ dquote +:+ "bm" +:+ dquote +:+ ",resource_consumer_id=" +:+
  dquote +:+ "/qemu.slice/8.scope" +:+ dquote +:+ "} 0.277273" +:+ newline.
Proof. vm_compute. reflexivity. Qed.
End SimulationSample.
Import SimulationSample.

Lemma Walk_stays_within_witness :
  ∃ vs w' r', mapM Next ["a"; "b"; "a"] (NewWalk SnmpMock.defaults, 0) = (Done vs, (w', r')) ∧
    length vs = 3 ∧ Forall (within SnmpMock.defaults) vs.
Proof.
  destruct (Walk_stays_within SnmpMock.defaults ["a"; "b"; "a"] 0 defaults_proper)
    as (vs & w' & r' & ? & ? & ? & _).
  by exists vs, w', r'.
Defined.

Lemma agent_answers_in_range_witness :
  ∃ sent s', SnmpMock.main (L := unit) no_env (λ _ _, None) session 0 = inr (Done sent, s') ∧
    Forall2 (answers (BoundsFromEnv no_env "MOCK_SNMP_VALUE" SnmpMock.defaults)) (SnmpMock.ReadFrom <$> session) sent.
Proof.
  apply (agent_answers_in_range no_env (λ _ _, None) session 0); [exact defaults_proper| |reflexivity].
  split; vm_compute; congruence.
Defined.

Lemma EnvInts_reads_back_witness :
  EnvInts (λ _, "120, 121, 9223372036854775807") "MOCK_VM_ATTR_VM_IDS" [] =
  [120; 121; 9223372036854775807]%Z.
Proof.
  apply (EnvInts_reads_back _ _ _ _ ", ").
  - repeat constructor; vm_compute; congruence.
  - done.
  - apply Forall_cons; split; [by left|]. apply Forall_cons; split; [|apply Forall_nil; exact I].
    right. split; vm_compute; reflexivity.
  - done.
  - vm_compute. reflexivity.
Defined.

Lemma metrics_spec_witness :
  ∃ ws s', VmAttribution.metrics one_machine "GET" (VmAttribution.weights no_env, 0) =
    (Done (VmAttribution.mkResponseWriter 200
      {["Content-Type" := "text/plain; version=0.0.4; charset=utf-8"]}
      (VmAttribution.vmAttributionBase +:+ foldr String.append ""
         (zip_with (attribution one_machine (foldl float64.add (float64.of_int 1) ws)) [7; 8]%Z ws))), s') ∧
    length ws = 2.
Proof.
  destruct (metrics_spec one_machine "GET" (VmAttribution.weights no_env) 0) as (ws & s' & ? & ? & _).
  - by vm_compute.
  - apply map_Forall_empty.
  - by exists ws, s'.
Defined.
