(* ===== verification/StressTest.v ===== *)
(** [dev/stresstest]: the devices, measurements and resources of a stress test,
    made up at random from the names of a MIB file, their creation in a cluster
    and their removal. *)
From stdpp Require Import pretty.
From S2P Require Import Prelude GoStd GoFloat Regex Errors Paths FileStore Configuration.
From S2P Require Import Selector ApiTypes Validate.

(** * The host: [math/rand], and the clock in seconds *)
Class Host (R : Type) := {
  Intn : Z → R → Z * R;
  Perm : nat → R → list nat * R;
  Now_Unix : R → Z * R
}.
(** Documented: a number below [n], and a permutation of the numbers below [n]. *)
Class HostLaws R `{Host R} : Prop := {
  Intn_range n r : (0 < n)%Z → (0 ≤ (Intn n r).1 < n)%Z;
  Perm_permutation n r : (Perm n r).1 ≡ₚ seq 0 n
}.

(** [log.Fatalf] ends the program; nothing that would still run is deferred. *)
Definition log_Fatalf {S A} : Go S A := panic.

Section Draws.
Context {R : Type} `{Host R}.
Definition rand_Intn (n : Z) : Go R Z :=
  if decide (n ≤ 0)%Z then panic else action (Intn n).
Definition rand_Perm (n : nat) : Go R (list nat) := action (Perm n).
Definition time_Now_Unix : Go R Z := action Now_Unix.

(** An index out of range is a panic. *)
Definition index {A} (l : list A) (i : Z) : Go R A :=
  match (if decide (i < 0)%Z then None else l !! Z.to_nat i) with
  | Some a => mret a
  | None => panic
  end.
End Draws.

(** * Walks of a MIB file ([measurementdevice.go]) *)

(** [\s], and the letters of an identifier. *)
Definition is_blank (c : ascii) : bool :=
  bool_decide (byte_val c ∈ [9; 10; 12; 13; 32]%Z).
Definition is_identifier (c : ascii) : bool :=
  in_range 65 90 (byte_val c) || in_range 97 122 (byte_val c) || in_range 48 57 (byte_val c) ||
  (byte_val c =? 95)%Z || (byte_val c =? 45)%Z.

(** The bytes of a line up to the first that is not of a class, and the rest. *)
Fixpoint span (p : ascii → bool) (s : string) : string * string :=
  match s with
  | EmptyString => ("", "")
  | String c s' => if p c then let '(a, b) := span p s' in (String c a, b) else ("", s)
  end.

(** ^([A-Za-z0-9_\-]+)\s+OBJECT-TYPE, and its first group: no byte of an
    identifier is a blank, so that the greedy match is the only one. *)
Definition FindStringSubmatch (line : string) : option string :=
  let '(name, rest) := span is_identifier line in
  let '(blanks, rest) := span is_blank rest in
  if decide (name ≠ "" ∧ blanks ≠ "") then
    if strings.HasPrefix rest "OBJECT-TYPE" then Some name else None
  else None.

(** [bufio.ScanLines]: the lines without their ends, a carriage return before
    the end dropped; nothing after the last end is no line. *)
Definition dropCR (line : list ascii) : string :=
  string_of_chars (reverse (match line with
                            | c :: line' => if decide (byte_val c = 13%Z) then line' else line
                            | [] => []
                            end)).
(** [cur] is the line so far, last byte first, with its length.  The scanner's
    buffer holds 64 KiB: a line that fills it is an error. *)
Definition maxTokenSize : Z := 65536.
Fixpoint scan_lines (len : Z) (cur : list ascii) (s : string) : option (list string) :=
  if decide (maxTokenSize ≤ len)%Z then None
  else match s with
       | EmptyString => Some (if decide (cur = []) then [] else [dropCR cur])
       | String c s' =>
           if decide (byte_val c = 10%Z) then (dropCR cur ::.) <$> scan_lines 0 [] s'
           else scan_lines (len + 1) (c :: cur) s'
       end.

Definition parseMIB `{Os} (path : string) (fs : Fs) : (error + list string) * Fs :=
  match ReadFile path fs with
  | (inl err, fs') => (inl err, fs')
  | (inr data, fs') =>
      match scan_lines 0 [] data with
      | None => (inl (errorString "bufio.Scanner: token too long"), fs')
      | Some ls => (inr (omap FindStringSubmatch ls), fs')
      end
  end.

Section Generate.
Context {R : Type} `{Host R}.

(** [rand.Intn(n) + 1] of the walks, for more than one, the first of a permutation. *)
Definition subset_size (n : nat) : Go R Z :=
  if decide (1 < n) then (i ← rand_Intn (Z.of_nat n); mret (i + 1)%Z) else mret 1%Z.

(** The loop that picks the walks: [left] are still to be picked from index [i]. *)
Fixpoint pick_walks (allWalks : list string) (perm : list nat) (i left : nat) : Go R (list string) :=
  match left with
  | O => mret []
  | S left' =>
      j ← index perm (Z.of_nat i);
      walk ← index allWalks (Z.of_nat j);
      walks ← pick_walks allWalks perm (S i) left';
      mret (walk :: walks)
  end.

Definition stress_name (kind : string) (idx : Z) : Go R string :=
  t ← time_Now_Unix;
  mret ("stresstest-" +:+ kind +:+ "-" +:+ strconv.FormatInt t +:+ "-" +:+ strconv.FormatInt idx).

Definition new_meta (name namespace : string) : ObjectMeta := mkObjectMeta name namespace "" 0 None [].

Definition generateMeasurementDevice (namespace : string) (allWalks : list string) (idx : Z) :
    Go R MeasurementDevice :=
  let n := length allWalks in
  subCount ← subset_size n;
  perm ← rand_Perm n;
  walks ← pick_walks allWalks perm 0 (Z.to_nat subCount);
  name ← stress_name "md" idx;
  mret {| md_Meta := new_meta name namespace;
          md_Spec := mkMeasurementDeviceSpec walks
            (Some (mkSelector ("community: public" +:+ newline +:+ "version: 2") None));
          md_Status := mkMeasurementDeviceStatus 0 "" [] |}.

(** [for i := range n]: none for a negative [n]. *)
Definition range (n : Z) : list Z := Z.of_nat <$> seq 0 (Z.to_nat n).

(** [make([]T, 0, n)] panics for a negative capacity. *)
Definition make_capacity (n : Z) : Go R unit := if decide (n < 0)%Z then panic else mret tt.

Definition generateMeasurementDevices (namespace : string) (parsed : error + list string) (n : Z) :
    Go R (list MeasurementDevice) :=
  make_capacity n;;
  match parsed with
  | inr ((_ :: _) as allWalks) => mapM (generateMeasurementDevice namespace allWalks) (range n)
  | _ => log_Fatalf
  end.

(** * Measurements ([physicalmesurement.go]) *)
Definition ips : list string := ["chantico-snmp-mock:1161"; "chantico-snmp-mock-2:1161"].

Definition generatePhysicalMeasurement (namespace : string) (measurementDevice : MeasurementDevice)
    (idx : Z) (ips : list string) : Go R PhysicalMeasurement :=
  if decide (length ips = 0) then log_Fatalf
  else
    name ← stress_name "pm" idx;
    i ← rand_Intn (Z.of_nat (length ips));
    ip ← index ips i;
    mret {| pm_Meta := new_meta name namespace;
            pm_Spec := mkPhysicalMeasurementSpec "snmp" ip (Name (md_Meta measurementDevice)) None;
            pm_Status := mkPhysicalMeasurementStatus 0 [] |}.

Record Combination := mkCombination {
  c_MeasurementDevice : MeasurementDevice;
  c_PhysicalMeasurements : PhysicalMeasurement
}.

(** The inner loop: [times] more measurements of one device. *)
Fixpoint measure_device (namespace : string) (md : MeasurementDevice) (times : nat) (idx : Z) :
    Go R (Z * list Combination) :=
  match times with
  | O => mret (idx, [])
  | S times' =>
      pm ← generatePhysicalMeasurement namespace md idx ips;
      '(idx', cs) ← measure_device namespace md times' (idx + 1)%Z;
      mret (idx', mkCombination md pm :: cs)
  end.

(** The outer loop: the index counts on from device to device. *)
Fixpoint measure_devices (namespace : string) (times : nat) (idx : Z) (devices : list MeasurementDevice) :
    Go R (list Combination) :=
  match devices with
  | [] => mret []
  | md :: rest =>
      '(idx', cs) ← measure_device namespace md times idx;
      cs' ← measure_devices namespace times idx' rest;
      mret (cs ++ cs')
  end.

Definition generatePhysicalMeasurements (namespace : string)
    (measurementDevices : list MeasurementDevice) (nbMeasurementPerPhysicalMeasurement : Z) :
    Go R (list PhysicalMeasurement * list Combination) :=
  if decide ((nbMeasurementPerPhysicalMeasurement ≤ 0)%Z ∨ length measurementDevices = 0)
  then mret ([], [])
  else
    outCombinations ← measure_devices namespace (Z.to_nat nbMeasurementPerPhysicalMeasurement) 0%Z
      measurementDevices;
    mret (c_PhysicalMeasurements <$> outCombinations, outCombinations).

(** * Resources ([datacenterresource.go]) *)
Record DataCenterResourceBuilder := mkBuilder {
  b_Parents : list ParentRef;
  b_EnergyMetric : string;
  b_Physicalmeasurement : string;
  b_Name : string;
  b_Type : string;
  b_Namespace : string
}.

Definition NewDataCenterResourceBuilder : DataCenterResourceBuilder := mkBuilder [] "" "" "" "" "".
Definition AddEnergyMetric (energyMetric physicalMeasurement : string) (d : DataCenterResourceBuilder) :=
  mkBuilder (b_Parents d) energyMetric physicalMeasurement (b_Name d) (b_Type d) (b_Namespace d).
Definition AddParent (parent : ParentRef) (d : DataCenterResourceBuilder) :=
  mkBuilder (b_Parents d ++ [parent]) (b_EnergyMetric d) (b_Physicalmeasurement d) (b_Name d)
    (b_Type d) (b_Namespace d).
Definition SetName (idx : Z) (d : DataCenterResourceBuilder) : Go R DataCenterResourceBuilder :=
  name ← stress_name "dcr" idx;
  mret (mkBuilder (b_Parents d) (b_EnergyMetric d) (b_Physicalmeasurement d) name (b_Type d) (b_Namespace d)).
Definition SetType (typ : string) (d : DataCenterResourceBuilder) :=
  mkBuilder (b_Parents d) (b_EnergyMetric d) (b_Physicalmeasurement d) (b_Name d) typ (b_Namespace d).
Definition SetNamespace (namespace : string) (d : DataCenterResourceBuilder) :=
  mkBuilder (b_Parents d) (b_EnergyMetric d) (b_Physicalmeasurement d) (b_Name d) (b_Type d) namespace.

Definition Build (d : DataCenterResourceBuilder) : DataCenterResource :=
  {| dcr_Meta := new_meta (b_Name d) (b_Namespace d);
     dcr_Spec := mkDataCenterResourceSpec (b_Type d) [b_Physicalmeasurement d] (b_Parents d)
                   (b_EnergyMetric d) None None;
     dcr_Status := mkDataCenterResourceStatus 0 "" [] |}.

(** One root: a walk of its device, drawn before the clock is read. *)
Definition root_resource (namespace : string) (idx : Z) (mdPm : Combination) : Go R DataCenterResource :=
  let walks := md_Walks (md_Spec (c_MeasurementDevice mdPm)) in
  i ← rand_Intn (Z.of_nat (length walks));
  walk ← index walks i;
  d ← SetName idx (AddEnergyMetric walk (pm_Name (c_PhysicalMeasurements mdPm))
                     NewDataCenterResourceBuilder);
  mret (Build (SetNamespace namespace (SetType "pdu" d))).

Fixpoint root_layer (namespace : string) (idx : Z) (mdPmCombination : list Combination) :
    Go R (list DataCenterResource) :=
  match mdPmCombination with
  | [] => mret []
  | mdPm :: rest =>
      dcr ← root_resource namespace idx mdPm;
      dcrs ← root_layer namespace (idx + 1)%Z rest;
      mret (dcr :: dcrs)
  end.
Definition generateDcRootLayer (namespace : string) (mdPmCombination : list Combination) :
    Go R (list DataCenterResource) := root_layer namespace 0%Z mdPmCombination.

Definition child_builder (namespace : string) (idx : Z) : Go R DataCenterResourceBuilder :=
  d ← SetName idx NewDataCenterResourceBuilder;
  mret (SetType "baremetal" (SetNamespace namespace d)).

(** The inner loop of the assignment: [times] more children of one parent. *)
Fixpoint assign_children (m : Z) (pref : ParentRef) (times : nat) (childId : Z)
    (dcrBuilders : list DataCenterResourceBuilder) : Go R (Z * list DataCenterResourceBuilder) :=
  match times with
  | O => mret (childId, dcrBuilders)
  | S times' =>
      d ← index dcrBuilders childId;
      assign_children m pref times' ((childId + 1) `rem` m)%Z
        (<[Z.to_nat childId := AddParent pref d]> dcrBuilders)
  end.

Definition parent_ref (expansionRate : Z) (dcr : DataCenterResource) : ParentRef :=
  mkParentRef (dcr_Name dcr)
    (format_fixed6 (float64.div (float64.of_int 1) (float64.of_int (expansionRate - 1)))) None.

Fixpoint assign_parents (m expansionRate : Z) (rootDCRS : list DataCenterResource) (childId : Z)
    (dcrBuilders : list DataCenterResourceBuilder) : Go R (list DataCenterResourceBuilder) :=
  match rootDCRS with
  | [] => mret dcrBuilders
  | dcr :: rest =>
      '(childId, dcrBuilders) ←
        assign_children m (parent_ref expansionRate dcr) (Z.to_nat expansionRate) childId dcrBuilders;
      assign_parents m expansionRate rest childId dcrBuilders
  end.

Definition generateDcFirstLayer (namespace : string) (rootDCRS : list DataCenterResource)
    (expansionRate : Z) : Go R (list DataCenterResource) :=
  let n := Z.of_nat (length rootDCRS) in
  let m := (n * (expansionRate - 1))%Z in
  make_capacity m;;
  dcrBuilders ← mapM (λ i, child_builder namespace (i + n)%Z) (range m);
  dcrBuilders ← assign_parents m expansionRate rootDCRS 0 dcrBuilders;
  mret (Build <$> dcrBuilders).

Definition generateDataCenterResources (namespace : string) (mdPmCombinations : list Combination)
    (expansionRate : Z) : Go R (list DataCenterResource) :=
  rootDCRS ← generateDcRootLayer namespace mdPmCombinations;
  dcrs ← generateDcFirstLayer namespace rootDCRS expansionRate;
  mret (rootDCRS ++ dcrs).
End Generate.

(** * The program ([main.go])

    The Kubernetes client, for each kind of object.  The delays between the
    requests leave nothing behind. *)
Class ResourceClient (A Obj : Type) := {
  List : A → string → error + list Obj;
  Create : Obj → A → option error * A;
  Delete : Obj → A → option error * A
}.
Class Named (Obj : Type) := { GetName : Obj → string }.
#[export] Instance named_md : Named MeasurementDevice := {| GetName d := Name (md_Meta d) |}.
#[export] Instance named_pm : Named PhysicalMeasurement := {| GetName p := pm_Name p |}.
#[export] Instance named_dcr : Named DataCenterResource := {| GetName d := dcr_Name d |}.

Section Requests.
Context {A Obj : Type} `{ResourceClient A Obj, Named Obj}.

(** A request that fails is logged, and the loop goes on. *)
Definition send (op : Obj → A → option error * A) (obj : Obj) (a : A) : A := (op obj a).2.

Definition deleteResourcesByPattern (namespace pattern : string) (a : A) : option error * A :=
  match List a namespace with
  | inl err => (Some err, a)
  | inr items =>
      (None, foldl (λ a item, if strings.HasPrefix (GetName item) pattern
                              then send Delete item a else a) a items)
  end.

Definition create_all (objs : list Obj) (a : A) : A := foldl (λ a obj, send Create obj a) a objs.
End Requests.

Record stressTestFlags := mkFlags {
  mibPath : string;
  f_namespace : string;
  nbMeasurementDevices : Z;
  nbPhysicalMeasurementPerMeasurementDevices : Z;
  nbDataCenterResourcePerMeasurement : Z;
  delay : Z;
  cleanup : bool
}.
Definition default_flags : stressTestFlags :=
  mkFlags "./dev/mibs/TNO-PDU-MIB.txt" "chantico" 2 4 3 100000000 false.

(** What the calls that make up the client answer, and the word the user types. *)
Record connection := mkConnection {
  AddToScheme_answer : option error;
  GetConfig_answer : option error;
  New_answer : option error;
  RawConfig_answer : option error;
  typed : string
}.
Definition createKubernetesClient (c : connection) : outcome unit :=
  if AddToScheme_answer c then Panicked
  else if GetConfig_answer c then Panicked
  else if New_answer c then Panicked
  else if RawConfig_answer c then Panicked
  else if decide (typed c ≠ "y" ∧ typed c ≠ "Y") then Panicked
  else Done tt.

Section Main.
Context {R : Type} `{Host R, Os} {A : Type}.
Context `{ResourceClient A MeasurementDevice, ResourceClient A PhysicalMeasurement}.
Context `{ResourceClient A DataCenterResource}.

Definition cleanup_all (namespace : string) (a : A) : A :=
  let a := (deleteResourcesByPattern (Obj := MeasurementDevice) namespace "stresstest-md" a).2 in
  let a := (deleteResourcesByPattern (Obj := PhysicalMeasurement) namespace "stresstest-pm" a).2 in
  (deleteResourcesByPattern (Obj := DataCenterResource) namespace "stresstest-dcr" a).2.

(** What is generated; the file is read once the capacity is known to be one. *)
Definition generate (cfg : stressTestFlags) (fs : Fs) :
    Go R (list MeasurementDevice * list PhysicalMeasurement * list DataCenterResource) :=
  mds ← generateMeasurementDevices (f_namespace cfg) (parseMIB (mibPath cfg) fs).1
          (nbMeasurementDevices cfg);
  '(pms, mdpms) ← generatePhysicalMeasurements (f_namespace cfg) mds
                    (nbPhysicalMeasurementPerMeasurementDevices cfg);
  dcrs ← generateDataCenterResources (f_namespace cfg) mdpms (nbDataCenterResourcePerMeasurement cfg);
  mret (mds, pms, dcrs).

(** [main]: nothing is created unless everything was generated. *)
Definition main (c : connection) (cfg : stressTestFlags) (fs : Fs) (r : R) (a : A) : outcome unit * A :=
  match createKubernetesClient c with
  | Panicked => (Panicked, a)
  | Done _ =>
      if cleanup cfg then (Done tt, cleanup_all (f_namespace cfg) a)
      else match (generate cfg fs r).1 with
           | Panicked => (Panicked, a)
           | Done (mds, pms, dcrs) => (Done tt, create_all dcrs (create_all pms (create_all mds a)))
           end
  end.
End Main.

(** * Theorems *)

(** ** The lines of the MIB file *)

Lemma span_app p s : (span p s).1 +:+ (span p s).2 = s.
Proof.
  induction s as [|c s IH]; [done|]. cbn [span]. destruct (p c); [|done].
  destruct (span p s) as [a b]. cbn [fst snd] in *. by rewrite str_app_cons, IH.
Qed.

Lemma span_all p s : Forall (λ c, p c = true) (chars (span p s).1).
Proof.
  induction s as [|c s IH]; [constructor|]. cbn [span]. destruct (p c) eqn:E; [|constructor].
  destruct (span p s) as [a b]. by constructor.
Qed.

(** Bytes of the class before one that is not. *)
Lemma span_exact p s t :
  Forall (λ c, p c = true) (chars s) → (∀ c t', t = String c t' → p c = false) → span p (s +:+ t) = (s, t).
Proof.
  intros Hs Ht. induction s as [|c s IH].
  - change ("" +:+ t) with t. destruct t as [|c t]; [done|]. cbn [span]. by rewrite (Ht c t eq_refl).
  - cbn [chars] in Hs. apply Forall_cons in Hs as [Hc Hs]. rewrite str_app_cons. cbn [span].
    by rewrite Hc, IH.
Qed.

Lemma HasPrefix_app s t : strings.HasPrefix (s +:+ t) s = true.
Proof. induction s as [|c s IH]; [by destruct t|]. rewrite str_app_cons. cbn [strings.HasPrefix]. by rewrite decide_True. Qed.
Lemma HasPrefix_inv p : ∀ s, strings.HasPrefix s p = true → ∃ t, s = p +:+ t.
Proof.
  induction p as [|c p IH]; intros s H; [by exists s|]. destruct s as [|c' s]; [done|].
  cbn [strings.HasPrefix] in H. case_decide; [|done]. subst.
  destruct (IH s H) as [t ->]. by exists t.
Qed.

(** The pattern of the program, up to its first group and the rest of it. *)
Definition identifier_regex : regex := re_plus (re_class is_identifier).
Definition blanks_regex : regex := re_plus (re_class is_blank).

Lemma lang_plus_class p l :
  re_lang (re_plus (re_class p)) l ↔ Forall (λ c, p c = true) l ∧ l ≠ [].
Proof.
  split.
  - inversion 1 as [| |? ? s1 s2 H1 H2| | | |]; subst. inversion H1 as [|? c Hc| | | | |]; subst.
    apply lang_star_class in H2. split; [by constructor|done].
  - intros [Hl Hne]. destruct l as [|c l]; [done|]. apply Forall_cons in Hl as [Hc Hl].
    apply (lang_seq _ _ [c] l); [by constructor|by apply lang_star_class].
Qed.

Lemma blank_not_identifier c : is_blank c = true → is_identifier c = false.
Proof.
  unfold is_blank, is_identifier, in_range. intros H%bool_decide_eq_true.
  repeat (apply elem_of_cons in H as [->|H]; [reflexivity|]). by apply not_elem_of_nil in H.
Qed.

(** A line gives a name exactly when the pattern matches, and the name is the
    pattern's group: the match is unique. *)
Lemma FindStringSubmatch_spec line name :
  FindStringSubmatch line = Some name ↔
  ∃ blanks rest, line = name +:+ blanks +:+ "OBJECT-TYPE" +:+ rest ∧
    re_lang identifier_regex (chars name) ∧ re_lang blanks_regex (chars blanks).
Proof.
  unfold identifier_regex, blanks_regex. setoid_rewrite lang_plus_class. unfold FindStringSubmatch. split.
  - pose proof (span_app is_identifier line) as H1. pose proof (span_all is_identifier line) as H2.
    destruct (span is_identifier line) as [a b]. cbn [fst snd] in *.
    pose proof (span_app is_blank b) as H3. pose proof (span_all is_blank b) as H4.
    destruct (span is_blank b) as [bl b']. cbn [fst snd] in *.
    case_decide as Hne; [|done]. destruct (strings.HasPrefix b' _) eqn:Hp; [|done]. intros [= ->].
    apply HasPrefix_inv in Hp as [rest ->]. exists bl, rest. subst b line. split; [done|].
    destruct Hne. split; (split; [done|]); intros E; by destruct name, bl.
  - intros (blanks & rest & -> & [Hn Hne] & [Hb Hbe]).
    rewrite span_exact; [|done|].
    2:{ intros c t' E. destruct blanks as [|c' b']; [done|]. rewrite str_app_cons in E. injection E as -> _.
        apply blank_not_identifier. by apply Forall_cons in Hb as [? _]. }
    rewrite span_exact; [|done|by intros c t' [= <- _]].
    rewrite decide_True by (split; intros ->; done). by rewrite HasPrefix_app.
Qed.

(** A line as a file holds it: without a line feed, within the scanner's buffer,
    ended by a line feed or by a carriage return and a line feed. *)
Definition cr : ascii := Ascii.ascii_of_nat 13.
Definition lf : ascii := Ascii.ascii_of_nat 10.
Record text_line := mkLine { line_text : string; line_crlf : bool }.
Definition written (l : text_line) : string :=
  line_text l +:+ (if line_crlf l then String cr "" else "") +:+ newline.
Definition fitting (l : text_line) : Prop :=
  lf ∉ chars (line_text l) ∧ (Z.of_nat (length (chars (line_text l))) < maxTokenSize - 1)%Z ∧
  (line_crlf l = false → last (chars (line_text l)) ≠ Some cr).

Lemma byte_val_lf c : byte_val c = 10%Z ↔ c = lf.
Proof.
  split; [|by intros ->]. intros H. rewrite <-(ascii_of_byte_val c), H. reflexivity.
Qed.

Lemma scan_lines_line cs : ∀ len cur rest,
  lf ∉ cs → (0 ≤ len)%Z → (len + Z.of_nat (length cs) < maxTokenSize)%Z →
  scan_lines len cur (string_of_chars cs +:+ rest) =
  scan_lines (len + Z.of_nat (length cs)) (reverse cs ++ cur) rest.
Proof.
  induction cs as [|c cs IH]; intros len cur rest Hlf Hl Hlen.
  - simpl. by rewrite Z.add_0_r.
  - apply not_elem_of_cons in Hlf as [Hc Hlf]. cbn [string_of_chars length] in *. rewrite str_app_cons.
    cbn [scan_lines]. rewrite decide_False by lia.
    rewrite decide_False by (rewrite byte_val_lf; congruence).
    rewrite IH by (done || lia). rewrite reverse_cons, <-app_assoc. f_equal. lia.
Qed.

Lemma dropCR_crlf cs : dropCR (cr :: reverse cs) = string_of_chars cs.
Proof. unfold dropCR. rewrite decide_True by done. by rewrite reverse_involutive. Qed.
Lemma dropCR_lf cs : last cs ≠ Some cr → dropCR (reverse cs) = string_of_chars cs.
Proof.
  intros Hl. unfold dropCR. rewrite <-(reverse_involutive cs) in Hl |- * at 2.
  destruct (reverse cs) as [|c l]; [done|]. rewrite decide_False; [done|].
  intros E. apply Hl. rewrite reverse_cons, last_snoc. f_equal.
  rewrite <-(ascii_of_byte_val c), E. reflexivity.
Qed.

Lemma scan_lines_cons l rest :
  fitting l → scan_lines 0 [] (written l +:+ rest) = (line_text l ::.) <$> scan_lines 0 [] rest.
Proof.
  intros (Hlf & Hlen & Hcr). unfold written.
  set (cs := chars (line_text l)) in *. set (e := if line_crlf l then [cr] else []).
  assert ((line_text l +:+ (if line_crlf l then String cr "" else "") +:+ newline) +:+ rest
    = string_of_chars (cs ++ e) +:+ String lf rest) as ->.
  { apply (inj chars). unfold cs, e. rewrite !chars_app, !chars_string_of_chars, <-!app_assoc.
    by destruct (line_crlf l). }
  assert (length e ≤ 1) by (unfold e; by destruct (line_crlf l); simpl; lia).
  rewrite scan_lines_line; [|..].
  - rewrite app_nil_r. cbn [scan_lines]. rewrite length_app in *.
    rewrite decide_False by lia. rewrite decide_True by done. do 2 f_equal.
    rewrite <-(string_of_chars_chars (line_text l)). fold cs. rewrite reverse_app. unfold e.
    destruct (line_crlf l); [apply dropCR_crlf|by apply dropCR_lf, Hcr].
  - rewrite not_elem_of_app. split; [done|]. unfold e. destruct (line_crlf l); [|apply not_elem_of_nil].
    by intros ?%list_elem_of_singleton.
  - done.
  - rewrite length_app. lia.
Qed.

Lemma scan_lines_text ls :
  Forall fitting ls → scan_lines 0 [] (foldr String.append "" (written <$> ls)) = Some (line_text <$> ls).
Proof.
  induction 1 as [|l ls Hl _ IH]; [done|]. rewrite fmap_cons. cbn [foldr].
  change (String.append (written l) ?r) with (written l +:+ r). by rewrite scan_lines_cons, IH.
Qed.

(** The names a text defines, by the pattern of the program. *)
Definition line_name (line name : string) : Prop :=
  ∃ blanks rest, line = name +:+ blanks +:+ "OBJECT-TYPE" +:+ rest ∧
    re_lang identifier_regex (chars name) ∧ re_lang blanks_regex (chars blanks).
Inductive names_of : list string → list string → Prop :=
| names_nil : names_of [] []
| names_hit line name lines names :
    line_name line name → names_of lines names → names_of (line :: lines) (name :: names)
| names_miss line lines names :
    (∀ name, ¬ line_name line name) → names_of lines names → names_of (line :: lines) names.

(** The walks of a device are the names its MIB file defines: of a file of
    lines that fit the scanner's buffer, ended either way, [parseMIB] answers in
    order the names of the lines that match its pattern, each the one way the
    pattern matches, and skips the others. *)
Theorem parseMIB_spec `{Os} path fs fs' ls :
  ReadFile path fs = (inr (foldr String.append "" (written <$> ls)), fs') → Forall fitting ls →
  ∃ names, parseMIB path fs = (inr names, fs') ∧ names_of (line_text <$> ls) names.
Proof.
  intros Hr Hls. unfold parseMIB. rewrite Hr, scan_lines_text by done. eexists. split; [done|].
  generalize (line_text <$> ls) as lines. intros lines.
  induction lines as [|line lines IH]; [constructor|]. cbn [omap list_omap].
  destruct (FindStringSubmatch line) as [name|] eqn:E.
  - constructor; [by apply FindStringSubmatch_spec|done].
  - constructor; [|done]. intros name Hn%FindStringSubmatch_spec. congruence.
Qed.

(** ** What the program asks of the cluster *)
Section Requested.
Context {R : Type} `{Host R, Os} {A : Type}.
Context `{ResourceClient A MeasurementDevice, ResourceClient A PhysicalMeasurement}.
Context `{ResourceClient A DataCenterResource}.

(** A property of the cluster that deletions of objects named so leave alone. *)
Definition spares {Obj} `{ResourceClient A Obj, Named Obj} (pattern : string) (P : A → Prop) : Prop :=
  ∀ obj a, strings.HasPrefix (GetName obj) pattern = true → P a → P (Delete obj a).2.

Lemma deleteResourcesByPattern_spares {Obj} `{ResourceClient A Obj, Named Obj} ns pattern P a :
  spares (Obj := Obj) pattern P → P a → P (deleteResourcesByPattern (Obj := Obj) ns pattern a).2.
Proof.
  intros HP. unfold deleteResourcesByPattern. destruct (List a ns) as [err|items]; [done|].
  cbn [snd]. revert a. induction items as [|item items IH]; intros a Ha; [done|].
  simpl. apply IH. destruct (strings.HasPrefix (GetName item) pattern) eqn:E; [|done]. by apply HP.
Qed.

(** C38: the program asks nothing of a cluster its user did not agree to, and its
    cleanup deletes nothing but its own: without a y the cluster is as it was; a
    cleanup ends, and what deletions of objects with the names of a stress test
    leave alone is left alone; otherwise nothing is created unless everything was
    generated. *)
Theorem main_asks_its_own (c : connection) (cfg : stressTestFlags) fs (r : R) (a : A) (P : A → Prop) :
  spares (Obj := MeasurementDevice) "stresstest-md" P →
  spares (Obj := PhysicalMeasurement) "stresstest-pm" P →
  spares (Obj := DataCenterResource) "stresstest-dcr" P → P a →
  (typed c ≠ "y" → typed c ≠ "Y" → main c cfg fs r a = (Panicked, a)) ∧
  (cleanup cfg = true → P (main c cfg fs r a).2) ∧
  (cleanup cfg = false → (generate cfg fs r).1 = Panicked → main c cfg fs r a = (Panicked, a)).
Proof.
  intros Hmd Hpm Hdcr Ha. split_and!.
  - intros Hy HY. unfold main, createKubernetesClient. rewrite decide_True by done.
    by destruct (AddToScheme_answer c), (GetConfig_answer c), (New_answer c), (RawConfig_answer c).
  - intros Hc. unfold main. rewrite Hc. destruct (createKubernetesClient c); [|done].
    cbn [snd]. unfold cleanup_all. by repeat apply deleteResourcesByPattern_spares.
  - intros Hc Hg. unfold main. rewrite Hc, Hg. by destruct (createKubernetesClient c).
Qed.
End Requested.
