(* ===== verification/StressTestResources.v ===== *)
(** What [dev/stresstest] generates: the names are distinct and those its cleanup
    looks for, the parents of each resource, and that the validation of the
    operator accepts every resource; when the generation panics. *)
From stdpp Require Import pretty.
From S2P Require Import Prelude GoStd GoFloat Regex Errors Paths FileStore Configuration.
From S2P Require Import Selector ApiTypes Validate StressTest.

(** ** Names *)
Definition stress_named (kind : string) (idx : nat) (name : string) : Prop :=
  ∃ t, name = "stresstest-" +:+ kind +:+ "-" +:+ strconv.FormatInt t +:+ "-" +:+
              strconv.FormatInt (Z.of_nat idx).

Lemma digits_no_dash n : "-"%char ∉ chars (strconv.FormatInt (Z.of_nat n)).
Proof.
  destruct (digits_FormatInt (Z.of_nat n)) as [Hd _]; [lia|]. intros Hin.
  rewrite Forall_forall in Hd. specialize (Hd _ Hin). by vm_compute in Hd.
Qed.

(** The index can be told from the name, whatever the time. *)
Lemma stress_named_inj kind i j name :
  stress_named kind i name → stress_named kind j name → i = j.
Proof.
  intros [t ->] [u E].
  assert (∀ v k, chars ("stresstest-" +:+ kind +:+ "-" +:+ strconv.FormatInt v +:+ "-" +:+
      strconv.FormatInt (Z.of_nat k)) =
    chars ("stresstest-" +:+ kind +:+ "-" +:+ strconv.FormatInt v) ++
      "-"%char :: chars (strconv.FormatInt (Z.of_nat k))) as Hsplit.
  { intros v k. rewrite !chars_app, <-!app_assoc. reflexivity. }
  apply (f_equal chars) in E. rewrite !Hsplit in E.
  apply not_elem_of_app_cons_inv_r in E as (_ & _ & E); [|apply digits_no_dash..].
  apply (inj chars) in E. unfold strconv.FormatInt in E. apply (inj pretty) in E. lia.
Qed.

Lemma stress_named_prefix kind idx name :
  stress_named kind idx name → strings.HasPrefix name ("stresstest-" +:+ kind) = true.
Proof. intros [t ->]. rewrite <-str_app_assoc. apply HasPrefix_app. Qed.

(** A list whose elements are named by their positions. *)
Definition named_by_position {Obj} `{Named Obj} (kind : string) (l : list Obj) : Prop :=
  ∀ k d, l !! k = Some d → stress_named kind k (GetName d).

Lemma named_NoDup {Obj} `{Named Obj} kind (l : list Obj) :
  named_by_position kind l → NoDup (GetName <$> l).
Proof.
  intros Hl. apply NoDup_alt. intros i j name Hi Hj.
  apply list_lookup_fmap_Some in Hi as (di & -> & Hi), Hj as (dj & E & Hj).
  apply (stress_named_inj kind i j (GetName di)); [by apply Hl|]. rewrite E. by apply Hl.
Qed.

(** ** Computations that draw *)
Section Generated.
Context {R : Type} `{HostLaws R}.
Implicit Types (r : R).

Lemma index_ok {A} (l : list A) i a r :
  (0 ≤ i)%Z → l !! Z.to_nat i = Some a → index l i r = (Done a, r).
Proof. intros Hi Ha. unfold index. rewrite decide_False by lia. by rewrite Ha. Qed.

Lemma rand_Intn_ok n r : (0 < n)%Z → ∃ i r', rand_Intn n r = (Done i, r') ∧ (0 ≤ i < n)%Z.
Proof.
  intros Hn. unfold rand_Intn, action. rewrite decide_False by lia.
  pose proof (Intn_range n r Hn). destruct (Intn n r) as [i r']. by exists i, r'.
Qed.

(** A draw from a list that is not empty. *)
Lemma draw_ok {A B} (l : list A) r (f : A → Go R B) :
  l ≠ [] → ∃ a r', a ∈ l ∧
    (i ← rand_Intn (Z.of_nat (length l)); a ← index l i; f a) r = f a r'.
Proof.
  intros Hl. destruct (rand_Intn_ok (Z.of_nat (length l)) r) as (i & r' & Hi & Hr).
  { destruct l; [done|simpl; lia]. }
  destruct (lookup_lt_is_Some_2 l (Z.to_nat i)) as [a Ha]; [lia|].
  exists a, r'. split; [by eapply list_elem_of_lookup_2|].
  rewrite run_bind, Hi, run_bind, (index_ok _ _ a) by (done || lia). done.
Qed.

Lemma stress_name_ok kind idx r :
  ∃ name r', stress_name kind (Z.of_nat idx) r = (Done name, r') ∧ stress_named kind idx name.
Proof.
  unfold stress_name, time_Now_Unix, action. rewrite run_bind. destruct (Now_Unix r) as [t r'].
  eexists _, r'. split; [done|]. by exists t.
Qed.

(** ** The roots *)
Definition root_of (ns : string) (c : Combination) (d : DataCenterResource) : Prop :=
  Namespace (dcr_Meta d) = ns ∧ DeletionTimestamp (dcr_Meta d) = None ∧
  dcr_Type (dcr_Spec d) = "pdu" ∧ dcr_Parents (dcr_Spec d) = [] ∧
  dcr_EnergyMetric (dcr_Spec d) ∈ md_Walks (md_Spec (c_MeasurementDevice c)) ∧
  dcr_PhysicalMeasurements (dcr_Spec d) = [pm_Name (c_PhysicalMeasurements c)] ∧
  dcr_AdditionalLabels (dcr_Spec d) = None.

Definition has_walks (c : Combination) : Prop := md_Walks (md_Spec (c_MeasurementDevice c)) ≠ [].

Lemma root_resource_ok ns idx c r :
  has_walks c →
  ∃ d r', root_resource ns (Z.of_nat idx) c r = (Done d, r') ∧ root_of ns c d ∧
    stress_named "dcr" idx (dcr_Name d).
Proof.
  intros Hc. unfold root_resource. cbv zeta.
  match goal with |- context [rand_Intn _ ≫= (λ i, index _ i ≫= ?f)] =>
    destruct (draw_ok _ r f Hc) as (walk & r1 & Hw & ->) end.
  rewrite run_bind. unfold SetName. rewrite run_bind.
  destruct (stress_name_ok "dcr" idx r1) as (name & r2 & -> & Hn).
  eexists _, r2. split; [done|]. split; [|done]. by split_and!.
Qed.

Lemma root_layer_ok ns combos : ∀ idx r,
  Forall has_walks combos →
  ∃ roots r', root_layer ns (Z.of_nat idx) combos r = (Done roots, r') ∧
    Forall2 (root_of ns) combos roots ∧
    ∀ k d, roots !! k = Some d → stress_named "dcr" (idx + k) (dcr_Name d).
Proof.
  induction combos as [|c combos IH]; intros idx r Hc; [by exists [], r|].
  apply Forall_cons in Hc as [Hc Hcs]. cbn [root_layer]. rewrite run_bind.
  destruct (root_resource_ok ns idx c r Hc) as (d & r1 & -> & Hd & Hn). rewrite run_bind.
  replace (Z.of_nat idx + 1)%Z with (Z.of_nat (S idx)) by lia.
  destruct (IH (S idx) r1 Hcs) as (roots & r2 & -> & Hr & Hns).
  exists (d :: roots), r2. split; [done|]. split; [by constructor|].
  intros [|k] d' Hk; simpl in Hk; [injection Hk as <-; by rewrite Nat.add_0_r|].
  replace (idx + S k) with (S idx + k) by lia. by apply Hns.
Qed.

(** ** The children, before they have parents *)
Definition child_of (ns : string) (b : DataCenterResourceBuilder) : Prop :=
  b_Namespace b = ns ∧ b_Type b = "baremetal" ∧ b_Parents b = [].

Lemma child_builders_ok ns (n : nat) idxs : ∀ r,
  ∃ bs r', mapM (λ i, child_builder ns (i + Z.of_nat n)%Z) (Z.of_nat <$> idxs) r = (Done bs, r') ∧
    Forall2 (λ i b, child_of ns b ∧ stress_named "dcr" (n + i) (b_Name b)) idxs bs.
Proof.
  induction idxs as [|i idxs IH]; intros r; [by exists [], r|].
  rewrite fmap_cons. cbn [mapM]. rewrite run_bind. unfold child_builder at 1, SetName.
  rewrite !run_bind. replace (Z.of_nat i + Z.of_nat n)%Z with (Z.of_nat (n + i)) by lia.
  destruct (stress_name_ok "dcr" (n + i) r) as (name & r1 & -> & Hn).
  rewrite !run_ret, run_bind. destruct (IH r1) as (bs & r2 & -> & Hbs).
  eexists (_ :: bs), r2. split; [done|]. constructor; [by split_and!|done].
Qed.

(** ** The assignment of parents *)

(** Of a sequence of references dealt out in turn to [m] children from turn [j]
    on, those child [c] gets. *)
Fixpoint dealt (m c j : nat) (refs : list ParentRef) : list ParentRef :=
  match refs with
  | [] => []
  | p :: rest => (if decide (j `mod` m = c) then [p] else []) ++ dealt m c (S j) rest
  end.

Definition add_parents (ps : list ParentRef) (b : DataCenterResourceBuilder) :=
  mkBuilder (b_Parents b ++ ps) (b_EnergyMetric b) (b_Physicalmeasurement b) (b_Name b)
    (b_Type b) (b_Namespace b).

Lemma add_parents_nil b : add_parents [] b = b.
Proof. destruct b. unfold add_parents. simpl. by rewrite app_nil_r. Qed.
Lemma add_parents_app ps qs b : add_parents (ps ++ qs) b = add_parents qs (add_parents ps b).
Proof. unfold add_parents. simpl. by rewrite app_assoc. Qed.

Definition deal (m j : nat) (refs : list ParentRef) (bs : list DataCenterResourceBuilder) :=
  imap (λ c, add_parents (dealt m c j refs)) bs.

Lemma dealt_app m c a : ∀ j b, dealt m c j (a ++ b) = dealt m c j a ++ dealt m c (j + length a) b.
Proof.
  induction a as [|p a IH]; intros j b; simpl; [by rewrite Nat.add_0_r|].
  rewrite IH, app_assoc. by replace (S j + length a) with (j + S (length a)) by lia.
Qed.

Lemma deal_nil m j bs : deal m j [] bs = bs.
Proof.
  unfold deal. apply list_eq. intros i. rewrite list_lookup_imap.
  destruct (bs !! i); simpl; [by rewrite add_parents_nil|done].
Qed.

Lemma deal_app m j a b bs : deal m j (a ++ b) bs = deal m (j + length a) b (deal m j a bs).
Proof.
  unfold deal. apply list_eq. intros i. rewrite !list_lookup_imap.
  destruct (bs !! i); simpl; [by rewrite dealt_app, add_parents_app|done].
Qed.

Lemma length_deal m j refs bs : length (deal m j refs bs) = length bs.
Proof. apply length_imap. Qed.

(** One reference goes to the child whose turn it is. *)
Lemma deal_one m j p bs b :
  bs !! (j `mod` m) = Some b → deal m j [p] bs = <[j `mod` m := AddParent p b]> bs.
Proof.
  intros Hb. pose proof (lookup_lt_Some _ _ _ Hb) as Hlt. unfold deal.
  apply list_eq. intros i. rewrite list_lookup_imap. simpl. rewrite app_nil_r.
  destruct (decide (j `mod` m = i)) as [<-|Hne].
  - by rewrite Hb, list_lookup_insert_eq.
  - rewrite list_lookup_insert_ne by done. destruct (bs !! i); simpl; [by rewrite add_parents_nil|done].
Qed.

Lemma assign_children_ok m pref times : ∀ j bs r,
  0 < m → length bs = m →
  assign_children (R := R) (Z.of_nat m) pref times (Z.of_nat (j `mod` m)) bs r =
  (Done (Z.of_nat ((j + times) `mod` m), deal m j (replicate times pref) bs), r).
Proof.
  induction times as [|times IH]; intros j bs r Hm Hl; cbn [assign_children replicate].
  { by rewrite deal_nil, Nat.add_0_r. }
  pose proof (Nat.mod_upper_bound j m ltac:(lia)) as Hj.
  destruct (lookup_lt_is_Some_2 bs (j `mod` m)) as [b Hb]; [lia|].
  rewrite run_bind, (index_ok bs _ b) by (rewrite ?Nat2Z.id; done || lia).
  rewrite Nat2Z.id.
  assert ((Z.of_nat (j `mod` m) + 1) `rem` Z.of_nat m = Z.of_nat (S j `mod` m))%Z as ->.
  { rewrite Z.rem_mod_nonneg by lia. rewrite !Nat2Z.inj_mod, Nat2Z.inj_succ.
    rewrite Z.add_mod_idemp_l by lia. done. }
  rewrite IH by (rewrite ?length_insert; done).
  change (pref :: replicate times pref) with ([pref] ++ replicate times pref).
  rewrite deal_app, (deal_one m j pref bs b) by done. cbn [length].
  by rewrite Nat.add_1_r, Nat.add_succ_comm.
Qed.

Lemma assign_parents_ok m (er : nat) roots : ∀ j bs r,
  0 < m → length bs = m →
  assign_parents (R := R) (Z.of_nat m) (Z.of_nat er) roots (Z.of_nat (j `mod` m)) bs r =
  (Done (deal m j (roots ≫= λ d, replicate er (parent_ref (Z.of_nat er) d)) bs), r).
Proof.
  induction roots as [|d roots IH]; intros j bs r Hm Hl; cbn [assign_parents].
  { by rewrite deal_nil. }
  rewrite run_bind, Nat2Z.id, assign_children_ok by done. cbn beta iota.
  rewrite IH by (rewrite ?length_deal; done). cbn [mbind list_bind].
  by rewrite deal_app, length_replicate.
Qed.

(** ** Who gets whom *)
Lemma dealt_round m c refs : ∀ j,
  c < m → j `mod` m + length refs ≤ m →
  dealt m c j refs =
    if decide (j `mod` m ≤ c) then option_list (refs !! (c - j `mod` m)) else [].
Proof.
  induction refs as [|p refs IH]; intros j Hc Hl; simpl in *; [by case_decide|].
  destruct (decide (refs = [])) as [->|Hne].
  { simpl. rewrite app_nil_r. repeat case_decide; try lia; [|..].
    - by replace (c - j `mod` m) with 0 by lia.
    - by destruct (c - j `mod` m) eqn:?; [lia|].
    - done. }
  assert (S j `mod` m = S (j `mod` m)) as HS.
  { destruct refs; [done|]. simpl in Hl. rewrite <-(Nat.add_1_r j), <-(Nat.Div0.add_mod_idemp_l j 1 m).
    rewrite Nat.mod_small; lia. }
  rewrite IH by (rewrite ?HS; lia). rewrite HS. repeat case_decide; try lia; try done.
  - subst. by replace (j `mod` m - j `mod` m) with 0 by lia.
  - by replace (c - j `mod` m) with (S (c - S (j `mod` m))) by lia.
Qed.

Lemma dealt_twice m c refs :
  c < m → length refs ≤ m + m →
  dealt m c 0 refs = option_list (refs !! c) ++ option_list (refs !! (m + c)).
Proof.
  intros Hc Hl. rewrite <-(take_drop m refs) at 1. rewrite dealt_app.
  destruct (decide (length refs ≤ m)) as [Hle|Hgt].
  - rewrite drop_ge, take_ge by lia. simpl. rewrite app_nil_r.
    rewrite dealt_round by (rewrite ?Nat.Div0.mod_0_l; lia). rewrite Nat.Div0.mod_0_l.
    rewrite decide_True, Nat.sub_0_r by lia.
    by rewrite (lookup_ge_None_2 refs (m + c)), app_nil_r by lia.
  - rewrite !dealt_round.
    + rewrite length_take, Nat.min_l, Nat.add_0_l, Nat.Div0.mod_same, Nat.Div0.mod_0_l by lia.
      rewrite !decide_True, Nat.sub_0_r by lia. by rewrite lookup_take_lt, lookup_drop by lia.
    + done.
    + rewrite length_take, Nat.min_l, Nat.add_0_l, Nat.Div0.mod_same, length_drop by lia. lia.
    + done.
    + rewrite Nat.Div0.mod_0_l, length_take. lia.
Qed.

Lemma lookup_replicated {A B} (f : A → B) n l : ∀ k,
  0 < n → (l ≫= λ a, replicate n (f a)) !! k = f <$> l !! (k / n).
Proof.
  induction l as [|a l IH]; intros k Hn; [by rewrite lookup_nil|]. cbn [mbind list_bind].
  destruct (decide (k < n)) as [Hk|Hk].
  - rewrite lookup_app_l by (by rewrite length_replicate).
    rewrite Nat.div_small by done. by apply lookup_replicate_2.
  - rewrite lookup_app_r, length_replicate by (rewrite length_replicate; lia). rewrite IH by done.
    replace (k / n) with (S ((k - n) / n)); [done|].
    replace k with ((k - n) + 1 * n) at 2 by lia. rewrite Nat.div_add by lia. lia.
Qed.

Lemma length_replicated {A B} (f : A → B) n (l : list A) :
  length (l ≫= λ a, replicate n (f a)) = length l * n.
Proof. induction l as [|a l IH]; [done|]. cbn [mbind list_bind]. rewrite length_app, length_replicate, IH. simpl. lia. Qed.

(** ** The layers *)

(** The [c]-th child of a layer: it has the parent its first turn brings, and
    another if the turns come round to it. *)
Definition layer_child (ns : string) (roots : list DataCenterResource) (er c : nat)
    (d : DataCenterResource) : Prop :=
  stress_named "dcr" (length roots + c) (dcr_Name d) ∧
  Namespace (dcr_Meta d) = ns ∧ DeletionTimestamp (dcr_Meta d) = None ∧
  dcr_Type (dcr_Spec d) = "baremetal" ∧ dcr_AdditionalLabels (dcr_Spec d) = None ∧
  dcr_Parents (dcr_Spec d) = parent_ref (Z.of_nat er) <$>
    option_list (roots !! (c / er)) ++ option_list (roots !! ((length roots * (er - 1) + c) / er)).

Lemma option_list_fmap {X Y} (f : X → Y) (o : option X) :
  option_list (f <$> o) = f <$> option_list o.
Proof. by destruct o. Qed.

Lemma first_layer_ok ns roots (er : nat) r :
  2 ≤ er →
  ∃ dcrs r', generateDcFirstLayer ns roots (Z.of_nat er) r = (Done dcrs, r') ∧
    length dcrs = length roots * (er - 1) ∧
    ∀ c d, dcrs !! c = Some d → layer_child ns roots er c d.
Proof.
  intros Her. unfold generateDcFirstLayer. set (m := length roots * (er - 1)).
  replace (Z.of_nat (length roots) * (Z.of_nat er - 1))%Z with (Z.of_nat m) by (unfold m; lia).
  rewrite run_bind. unfold make_capacity. rewrite decide_False by lia. rewrite run_ret, run_bind.
  unfold range. rewrite Nat2Z.id.
  destruct (child_builders_ok ns (length roots) (seq 0 m) r) as (bs & r1 & -> & Hbs).
  pose proof (Forall2_length _ _ _ Hbs) as Hlen. rewrite length_seq in Hlen.
  destruct (decide (m = 0)) as [Hm0|Hm0].
  { assert (roots = []) as -> by (destruct roots; [done|unfold m in Hm0; simpl in Hm0; nia]).
    destruct bs; [|simpl in Hlen; lia]. exists [], r1. split_and!; [done|simpl; lia|done]. }
  pose proof (assign_parents_ok m er roots 0 bs r1 ltac:(lia) ltac:(done)) as Ha.
  rewrite Nat.Div0.mod_0_l in Ha. rewrite run_bind. change 0%Z with (Z.of_nat 0). rewrite Ha, run_ret.
  eexists _, r1. split; [done|]. split; [by rewrite length_fmap, length_deal|].
  intros c d Hd. apply list_lookup_fmap_Some in Hd as (b' & -> & Hb').
  unfold deal in Hb'. rewrite list_lookup_imap in Hb'. apply fmap_Some in Hb' as (b & Hb & ->).
  pose proof (lookup_lt_Some _ _ _ Hb) as Hc.
  destruct (Forall2_lookup_r _ _ _ _ _ Hbs Hb) as (i & Hi & (Hns & Ht & Hp) & Hn).
  apply lookup_seq in Hi as [-> _]. unfold layer_child. cbn. rewrite Hp. cbn [app].
  split_and!; [done..|].
  rewrite dealt_twice; [|lia|rewrite length_replicated; unfold m; nia].
  by rewrite !lookup_replicated, !option_list_fmap, fmap_app by lia.
Qed.

Lemma generated_ok ns combos (er : nat) r :
  2 ≤ er → Forall has_walks combos →
  ∃ roots children r',
    generateDataCenterResources ns combos (Z.of_nat er) r = (Done (roots ++ children), r') ∧
    Forall2 (root_of ns) combos roots ∧ length children = length roots * (er - 1) ∧
    (∀ c d, children !! c = Some d → layer_child ns roots er c d) ∧
    named_by_position "dcr" (roots ++ children).
Proof.
  intros Her Hc. unfold generateDataCenterResources, generateDcRootLayer. rewrite run_bind.
  destruct (root_layer_ok ns combos 0 r Hc) as (roots & r1 & Hr & Hroots & Hn).
  change 0%Z with (Z.of_nat 0). rewrite Hr, run_bind.
  destruct (first_layer_ok ns roots er r1 Her) as (children & r2 & -> & Hl & Hch).
  exists roots, children, r2. split; [done|]. split; [done|]. split; [done|]. split; [done|].
  intros k d Hk. apply lookup_app_Some in Hk as [Hk|[Hk1 Hk2]]; [by apply (Hn k d)|].
  apply Hch in Hk2 as [Hk2 _]. by replace (length roots + (k - length roots)) with k in Hk2 by lia.
Qed.

(** A parent of a resource of the graph is a root. *)
Lemma parent_is_root ns combos roots children (er : nat) d p :
  Forall2 (root_of ns) combos roots →
  (∀ c d, children !! c = Some d → layer_child ns roots er c d) →
  d ∈ roots ++ children → p ∈ ParentNames (dcr_Spec d) →
  ∃ root, root ∈ roots ∧ dcr_Name root = p ∧ ParentNames (dcr_Spec root) = [] ∧
    DeletionTimestamp (dcr_Meta root) = None.
Proof.
  intros Hroots Hch Hd Hp.
  assert (∀ root, root ∈ roots → ParentNames (dcr_Spec root) = [] ∧
    DeletionTimestamp (dcr_Meta root) = None) as Hroot.
  { intros root [k Hk]%list_elem_of_lookup.
    destruct (Forall2_lookup_r _ _ _ _ _ Hroots Hk) as (? & _ & (_ & ? & _ & Hnil & _)).
    unfold ParentNames. by rewrite Hnil. }
  apply elem_of_app in Hd as [Hd|[c Hc]%list_elem_of_lookup].
  { apply Hroot in Hd as [Hd _]. rewrite Hd in Hp. by apply not_elem_of_nil in Hp. }
  destruct (Hch c d Hc) as (_ & _ & _ & _ & _ & Hpar). unfold ParentNames in Hp. rewrite Hpar in Hp.
  rewrite <-list_fmap_compose in Hp. apply list_elem_of_fmap in Hp as (root & -> & Hin).
  assert (root ∈ roots) as Hr.
  { apply elem_of_app in Hin as [Hin|Hin]; destruct (roots !! _) as [x|] eqn:E;
      try (by apply not_elem_of_nil in Hin); apply list_elem_of_singleton in Hin as ->;
      by eapply list_elem_of_lookup_2. }
  exists root. by destruct (Hroot root Hr).
Qed.
End Generated.

(** ** The operator accepts what is generated *)
Section Accepted.
Context {R : Type} `{HostLaws R, LabelValidation, MapOrderLaws}.
Implicit Types (r : R).

(** A graph of two layers is valid. *)
Lemma two_layers_accepted ds d :
  NoDup (dcr_Name <$> ds) →
  (∀ d p, d ∈ ds → p ∈ ParentNames (dcr_Spec d) →
     ∃ root, root ∈ ds ∧ dcr_Name root = p ∧ ParentNames (dcr_Spec root) = [] ∧
       DeletionTimestamp (dcr_Meta root) = None) →
  d ∈ ds → ∃ V s, validateGraph d ds = Some (V, s, None).
Proof.
  intros Hnd Hroots Hd. apply validateGraph_accepts.
  assert (∀ n, ancestor (live_map ds) (ParentNames (dcr_Spec d)) n → n ∈ ParentNames (dcr_Spec d)) as Hanc.
  { induction 1 as [n Hn|n r p _ IH Hr Hp]; [done|].
    destruct (Hroots d n Hd IH) as (root & Hroot & <- & Hnil & Hlive).
    rewrite (live_map_complete ds root) in Hr by done. injection Hr as <-.
    rewrite Hnil in Hp. by apply not_elem_of_nil in Hp. }
  intros n Hn%Hanc. destruct (Hroots d n Hd Hn) as (root & Hroot & <- & Hnil & Hlive).
  exists root. split; [by apply live_map_complete|]. rewrite Hnil. apply not_elem_of_nil.
Qed.

Lemma accepted_when ds d :
  (∃ V s, validateGraph d ds = Some (V, s, None)) →
  known_type (dcr_Type (dcr_Spec d)) → dcr_AdditionalLabels (dcr_Spec d) = None →
  ∃ V, Validate d ds = Some (V, "", None).
Proof.
  intros (V & s & Hv) Ht Hl. exists V. unfold Validate. rewrite Hv. do 2 f_equal.
  unfold validators, run_validators, validateResourceType. rewrite decide_True by done.
  assert (validateAdditionalLabelNames d = None) as ->; [|done].
  apply validateAdditionalLabelNames_None. rewrite Hl. intros k v. cbn [default from_option]. by rewrite lookup_empty.
Qed.

(** Whatever is drawn, the resources of a stress test are ones the operator
    works on: there is one root per measurement and as many children as the rate
    says, their names are distinct and those the cleanup looks for, they live in
    the namespace, they keep the cluster's rule that a resource has a parent or an
    energy metric, and the operator's validation accepts each among them all. *)
Lemma generated_resources_accepted ns combos (er : Z) r :
  (2 ≤ er)%Z → Forall has_walks combos →
  Forall (λ c, "" ∉ md_Walks (md_Spec (c_MeasurementDevice c))) combos →
  ∃ dcrs r', generateDataCenterResources ns combos er r = (Done dcrs, r') ∧
    Z.of_nat (length dcrs) = (Z.of_nat (length combos) * er)%Z ∧
    NoDup (dcr_Name <$> dcrs) ∧
    Forall (λ d, strings.HasPrefix (dcr_Name d) "stresstest-dcr" = true ∧
      Namespace (dcr_Meta d) = ns ∧
      (dcr_Parents (dcr_Spec d) ≠ [] ∨ dcr_EnergyMetric (dcr_Spec d) ≠ "") ∧
      ∃ V, Validate d dcrs = Some (V, "", None)) dcrs.
Proof.
  intros Her Hw Hne. rewrite <-(Z2Nat.id er) by lia. set (e := Z.to_nat er).
  destruct (generated_ok ns combos e r ltac:(lia) Hw)
    as (roots & children & r' & Hg & Hroots & Hl & Hch & Hn).
  pose proof (named_NoDup "dcr" _ Hn) as Hnd. change (GetName <$> ?l) with (dcr_Name <$> l) in Hnd.
  pose proof (Forall2_length _ _ _ Hroots) as Hlr.
  exists (roots ++ children), r'. split; [done|]. split; [rewrite length_app, Hl; nia|].
  split; [done|]. apply Forall_lookup. intros k d Hk.
  split; [by apply stress_named_prefix with (idx := k), Hn|].
  assert (d ∈ roots ++ children) as Hin by (by eapply list_elem_of_lookup_2).
  assert (∃ V s, validateGraph d (roots ++ children) = Some (V, s, None)) as Hgraph.
  { apply two_layers_accepted; [done| |done]. intros d' p Hd' Hp.
    destruct (parent_is_root ns combos roots children e d' p Hroots Hch Hd' Hp) as (root & ? & ?).
    exists root. split; [|done]. apply elem_of_app. by left. }
  apply lookup_app_Some in Hk as [Hk|[Hk1 Hk]].
  - destruct (Forall2_lookup_r _ _ _ _ _ Hroots Hk) as (c & Hc & (Hns & _ & Ht & _ & Hm & _ & Hlab)).
    split; [done|]. split.
    + right. intros E. rewrite E in Hm. rewrite Forall_lookup in Hne. by apply (Hne _ _ Hc).
    + apply accepted_when; [done| |done]. rewrite Ht. unfold known_type. set_solver.
  - destruct (Hch _ _ Hk) as (_ & Hns & _ & Ht & Hlab & Hp). split; [done|]. split.
    + left. rewrite Hp. pose proof (lookup_lt_Some _ _ _ Hk) as Hlt. rewrite Hl in Hlt.
      destruct (lookup_lt_is_Some_2 roots ((k - length roots) / e)) as [root Hroot].
      { apply Nat.Div0.div_lt_upper_bound. nia. }
      rewrite Hroot. done.
    + apply accepted_when; [done| |done]. rewrite Ht. unfold known_type. set_solver.
Qed.

(** C37: the shape of the generated graph: below the roots, which have no parents,
    the [c]-th child refers to the root its turn brings, [c / er], and, when the
    references come round to it a second time, to the root of that turn; each
    reference carries the share one over [er - 1] in six decimals. *)
Theorem generated_parents ns combos (er : nat) r :
  2 ≤ er → Forall has_walks combos →
  ∃ roots children r',
    generateDataCenterResources ns combos (Z.of_nat er) r = (Done (roots ++ children), r') ∧
    Forall2 (root_of ns) combos roots ∧ length children = length roots * (er - 1) ∧
    ∀ c d, children !! c = Some d → layer_child ns roots er c d.
Proof.
  intros Her Hc. destruct (generated_ok ns combos er r Her Hc) as (roots & children & r' & ? & ? & ? & ? & _).
  by exists roots, children, r'.
Qed.

(** A rate below two is not refused but ends the program: with measurements to
    generate resources for, the generation panics exactly then. *)
Theorem generateDataCenterResources_panics ns combos (er : Z) r :
  Forall has_walks combos →
  (generateDataCenterResources ns combos er r).1 = Panicked ↔ combos ≠ [] ∧ (er < 2)%Z.
Proof.
  intros Hw. split.
  - intros Hp. destruct (decide (2 ≤ er)%Z) as [Her|Her].
    + destruct (generated_ok ns combos (Z.to_nat er) r ltac:(lia) Hw) as (? & ? & ? & Hg & _).
      rewrite Z2Nat.id in Hg by lia. by rewrite Hg in Hp.
    + split; [|lia]. intros ->. by vm_compute in Hp.
  - intros [Hne Her]. unfold generateDataCenterResources, generateDcRootLayer. rewrite run_bind.
    destruct (root_layer_ok ns combos 0 r Hw) as (roots & r1 & Hr & Hroots & _).
    change 0%Z with (Z.of_nat 0). rewrite Hr, run_bind. unfold generateDcFirstLayer.
    pose proof (Forall2_length _ _ _ Hroots) as Hl. destruct combos as [|c combos]; [done|].
    destruct roots as [|root roots]; [done|]. rewrite run_bind. unfold make_capacity.
    case_decide as Hm; [done|]. cbn [length] in Hm. assert (er = 1%Z) as -> by nia. rewrite run_ret.
    replace (Z.of_nat (length (root :: roots)) * (1 - 1))%Z with 0%Z by lia. done.
Qed.

(** ** The devices and the measurements *)

Lemma pick_walks_ok allWalks perm left : ∀ i r,
  i + left ≤ length perm → Forall (λ j, j < length allWalks) perm →
  ∃ walks, pick_walks allWalks perm i left r = (Done walks, r) ∧ length walks = left ∧ walks ⊆ allWalks.
Proof.
  induction left as [|left IH]; intros i r Hl Hp; cbn [pick_walks]; [exists []; split_and!; [done..|set_solver]|].
  destruct (lookup_lt_is_Some_2 perm i) as [j Hj]; [lia|].
  rewrite run_bind, (index_ok perm _ j), run_bind by (rewrite ?Nat2Z.id; done || lia).
  destruct (lookup_lt_is_Some_2 allWalks j) as [walk Hwalk]; [exact (Forall_lookup_1 _ _ _ _ Hp Hj)|].
  rewrite (index_ok allWalks _ walk), run_bind by (rewrite ?Nat2Z.id; done || lia).
  destruct (IH (S i) r ltac:(lia) Hp) as (walks & -> & Hlen & Hsub).
  exists (walk :: walks). split; [done|]. split; [simpl; lia|].
  pose proof (list_elem_of_lookup_2 _ _ _ Hwalk). set_solver.
Qed.

Definition device_of (ns : string) (allWalks : list string) (d : MeasurementDevice) : Prop :=
  Namespace (md_Meta d) = ns ∧ md_Walks (md_Spec d) ≠ [] ∧ md_Walks (md_Spec d) ⊆ allWalks.

Lemma generateMeasurementDevice_ok ns allWalks idx r :
  allWalks ≠ [] →
  ∃ d r', generateMeasurementDevice ns allWalks (Z.of_nat idx) r = (Done d, r') ∧
    device_of ns allWalks d ∧ stress_named "md" idx (GetName d).
Proof.
  intros Hne. set (n := length allWalks). assert (0 < n) by (by destruct allWalks; simpl in *; [|lia]).
  assert (∃ k r1, subset_size (Z.to_nat (Z.of_nat n)) r = (Done k, r1) ∧ (1 ≤ k ≤ Z.of_nat n)%Z)
    as (k & r1 & Hk & Hkr).
  { rewrite Nat2Z.id. unfold subset_size. case_decide; [|exists 1%Z, r; split; [done|lia]].
    destruct (rand_Intn_ok (Z.of_nat n) r ltac:(lia)) as (i & r1 & Hi & ?).
    exists (i + 1)%Z, r1. rewrite run_bind, Hi. split; [done|lia]. }
  rewrite Nat2Z.id in Hk. unfold generateMeasurementDevice. fold n. rewrite run_bind, Hk, run_bind.
  unfold rand_Perm, action. pose proof (Perm_permutation n r1) as Hperm.
  destruct (Perm n r1) as [perm r2]. cbn [fst] in Hperm. rewrite run_bind.
  destruct (pick_walks_ok allWalks perm (Z.to_nat k) 0 r2) as (walks & Hw & Hlen & Hsub).
  { rewrite (Permutation_length Hperm), length_seq. lia. }
  { rewrite Hperm. apply Forall_seq. fold n. lia. }
  rewrite Hw, run_bind. destruct (stress_name_ok "md" idx r2) as (name & r3 & -> & Hn).
  eexists _, r3. split; [done|]. split; [|done]. split; [done|]. cbn. split; [|done].
  intros ->. simpl in Hlen. lia.
Qed.

(** A loop over the indices from [i] on. *)
Lemma mapM_named {Obj} `{Named Obj} (kind : string) (P : Obj → Prop) (f : Z → Go R Obj) idxs : ∀ r,
  (∀ idx r, ∃ d r', f (Z.of_nat idx) r = (Done d, r') ∧ P d ∧ stress_named kind idx (GetName d)) →
  ∃ ds r', mapM f (Z.of_nat <$> idxs) r = (Done ds, r') ∧
    Forall2 (λ i d, P d ∧ stress_named kind i (GetName d)) idxs ds.
Proof.
  induction idxs as [|i idxs IH]; intros r Hf; [by exists [], r|].
  rewrite fmap_cons. cbn [mapM]. rewrite run_bind. destruct (Hf i r) as (d & r1 & -> & Hd).
  rewrite run_bind. destruct (IH r1 Hf) as (ds & r2 & -> & Hds).
  exists (d :: ds), r2. split; [done|by constructor].
Qed.

Lemma generateMeasurementDevices_ok ns allWalks (n : nat) r :
  allWalks ≠ [] →
  ∃ mds r', generateMeasurementDevices ns (inr allWalks) (Z.of_nat n) r = (Done mds, r') ∧
    length mds = n ∧ Forall (device_of ns allWalks) mds ∧ named_by_position "md" mds.
Proof.
  intros Hne. unfold generateMeasurementDevices, make_capacity. rewrite run_bind.
  rewrite decide_False by lia. rewrite run_ret. destruct allWalks as [|w ws]; [done|].
  unfold range. rewrite Nat2Z.id.
  destruct (mapM_named "md" (device_of ns (w :: ws)) (generateMeasurementDevice ns (w :: ws)) (seq 0 n) r)
    as (mds & r' & Hm & Hf); [intros; by apply generateMeasurementDevice_ok|].
  exists mds, r'. split; [done|]. split; [by rewrite <-(Forall2_length _ _ _ Hf), length_seq|]. split.
  - apply Forall_lookup. intros i d Hd. by destruct (Forall2_lookup_r _ _ _ _ _ Hf Hd) as (? & _ & ? & _).
  - intros i d Hd. destruct (Forall2_lookup_r _ _ _ _ _ Hf Hd) as (j & Hj & _ & Hn).
    by apply lookup_seq in Hj as [-> _].
Qed.

(** A measurement is of a device, and knows it by its name. *)
Definition measured (ns : string) (c : Combination) : Prop :=
  let pm := c_PhysicalMeasurements c in
  Namespace (pm_Meta pm) = ns ∧ pm_Type (pm_Spec pm) = PhysicalMeasurementTypeSNMP ∧
  pm_Ip (pm_Spec pm) ∈ ips ∧
  pm_MeasurementDevice (pm_Spec pm) = Name (md_Meta (c_MeasurementDevice c)).

Lemma generatePhysicalMeasurement_ok ns md idx r :
  ∃ pm r', generatePhysicalMeasurement ns md (Z.of_nat idx) ips r = (Done pm, r') ∧
    measured ns (mkCombination md pm) ∧ stress_named "pm" idx (GetName pm).
Proof.
  unfold generatePhysicalMeasurement. rewrite decide_False by done. rewrite run_bind.
  destruct (stress_name_ok "pm" idx r) as (name & r1 & -> & Hn).
  match goal with |- context [rand_Intn _ ≫= (λ i, index _ i ≫= ?f)] =>
    destruct (draw_ok ips r1 f ltac:(done)) as (ip & r2 & Hip & ->) end.
  eexists _, r2. split; [done|]. by split_and!.
Qed.

Definition combinations_from (ns : string) (idx : nat) (cs : list Combination) : Prop :=
  Forall (measured ns) cs ∧
  ∀ k c, cs !! k = Some c → stress_named "pm" (idx + k) (GetName (c_PhysicalMeasurements c)).

Lemma combinations_app ns idx cs cs' :
  combinations_from ns idx cs → combinations_from ns (idx + length cs) cs' →
  combinations_from ns idx (cs ++ cs').
Proof.
  intros [Hf Hn] [Hf' Hn']. split; [by apply Forall_app|].
  intros k c [Hk|[Hk1 Hk2]]%lookup_app_Some; [by apply Hn|].
  replace (idx + k) with (idx + length cs + (k - length cs)) by lia. by apply Hn'.
Qed.

Lemma measure_device_ok ns md times : ∀ idx r,
  ∃ cs r', measure_device ns md times (Z.of_nat idx) r = (Done (Z.of_nat (idx + times), cs), r') ∧
    combinations_from ns idx cs ∧ length cs = times ∧ Forall (λ c, c_MeasurementDevice c = md) cs.
Proof.
  induction times as [|times IH]; intros idx r; cbn [measure_device].
  { exists [], r. rewrite Nat.add_0_r. split; [done|]. by split_and!. }
  rewrite run_bind. destruct (generatePhysicalMeasurement_ok ns md idx r) as (pm & r1 & -> & Hm & Hn).
  replace (Z.of_nat idx + 1)%Z with (Z.of_nat (S idx)) by lia. rewrite run_bind.
  destruct (IH (S idx) r1) as (cs & r2 & -> & Hcs & Hl & Hmd).
  exists (mkCombination md pm :: cs), r2. split; [by rewrite Nat.add_succ_comm|]. split.
  - apply (combinations_app ns idx [_] cs); [|by rewrite Nat.add_1_r].
    split; [by constructor|]. intros [|k] c Hk; [|done]. injection Hk as <-. by rewrite Nat.add_0_r.
  - split; [simpl; lia|by constructor].
Qed.

Lemma measure_devices_ok ns times mds : ∀ idx r,
  ∃ cs r', measure_devices ns times (Z.of_nat idx) mds r = (Done cs, r') ∧
    combinations_from ns idx cs ∧ length cs = length mds * times ∧
    Forall (λ c, c_MeasurementDevice c ∈ mds) cs.
Proof.
  induction mds as [|md mds IH]; intros idx r; cbn [measure_devices]; [by exists [], r|].
  rewrite run_bind. destruct (measure_device_ok ns md times idx r) as (cs & r1 & -> & Hcs & Hl & Hmd).
  rewrite run_bind. destruct (IH (idx + times) r1) as (cs' & r2 & -> & Hcs' & Hl' & Hmds).
  exists (cs ++ cs'), r2. split; [done|]. split; [|split].
  - apply combinations_app; [done|]. by rewrite Hl.
  - rewrite length_app, Hl, Hl'. simpl. lia.
  - apply Forall_app. split; eapply Forall_impl; try done; simpl; set_solver.
Qed.

(** The file's names are not empty. *)
Lemma parseMIB_names `{Os} path fs names : (parseMIB path fs).1 = inr names → "" ∉ names.
Proof.
  unfold parseMIB. destruct (ReadFile path fs) as [[?|data] fs']; [done|].
  destruct (scan_lines 0 [] data) as [ls|]; [|done]. intros [= <-] Hin.
  apply list_elem_of_omap in Hin as (line & _ & (? & ? & _ & Hl & _)%FindStringSubmatch_spec).
  by apply lang_plus_class in Hl as [_ ?].
Qed.

(** C36: a stress test is generated whole and in order: with a MIB file that names
    at least one walk, devices and measurements per device to make and a rate of at
    least two, the program makes as many of each as it was asked, with distinct
    names its cleanup recognises; every device has walks of the file, every
    measurement is an SNMP one of a device made, and every resource is one the
    operator's validation accepts. *)
Theorem stress_test_generates `{Os} (cfg : stressTestFlags) (fs : Fs) (r : R) names :
  (parseMIB (mibPath cfg) fs).1 = inr names → names ≠ [] →
  (0 < nbMeasurementDevices cfg)%Z → (0 < nbPhysicalMeasurementPerMeasurementDevices cfg)%Z →
  (2 ≤ nbDataCenterResourcePerMeasurement cfg)%Z →
  ∃ mds pms dcrs r', generate cfg fs r = (Done (mds, pms, dcrs), r') ∧
    Z.of_nat (length mds) = nbMeasurementDevices cfg ∧
    Z.of_nat (length pms) =
      (nbMeasurementDevices cfg * nbPhysicalMeasurementPerMeasurementDevices cfg)%Z ∧
    Z.of_nat (length dcrs) = (Z.of_nat (length pms) * nbDataCenterResourcePerMeasurement cfg)%Z ∧
    named_by_position "md" mds ∧ named_by_position "pm" pms ∧ NoDup (dcr_Name <$> dcrs) ∧
    Forall (device_of (f_namespace cfg) names) mds ∧
    Forall (λ pm, Namespace (pm_Meta pm) = f_namespace cfg ∧
      pm_Type (pm_Spec pm) = PhysicalMeasurementTypeSNMP ∧
      ∃ md, md ∈ mds ∧ pm_MeasurementDevice (pm_Spec pm) = Name (md_Meta md)) pms ∧
    Forall (λ d, strings.HasPrefix (dcr_Name d) "stresstest-dcr" = true ∧
      Namespace (dcr_Meta d) = f_namespace cfg ∧
      ∃ V, Validate d dcrs = Some (V, "", None)) dcrs.
Proof.
  intros Hparse Hne Hmd Hpm Her. pose proof (parseMIB_names _ _ _ Hparse) as Hempty.
  unfold generate. rewrite Hparse. destruct cfg as [path ns n times er dl cl]; cbn in *.
  rewrite <-(Z2Nat.id n) by lia. rewrite run_bind.
  destruct (generateMeasurementDevices_ok ns names (Z.to_nat n) r Hne) as (mds & r1 & -> & Hl & Hd & Hn).
  rewrite run_bind. unfold generatePhysicalMeasurements.
  rewrite decide_False by (destruct mds; simpl in *; lia).
  rewrite run_bind. change 0%Z with (Z.of_nat 0).
  destruct (measure_devices_ok ns (Z.to_nat times) mds 0 r1) as (cs & r2 & -> & [Hm Hcn] & Hcl & Hcm).
  rewrite run_ret, run_bind. rewrite Forall_forall in Hd. rewrite Forall_forall in Hcm.
  destruct (generated_resources_accepted ns cs er r2 Her) as (dcrs & r3 & -> & Hdl & Hnd & Hdcr).
  { apply Forall_forall. intros c Hc%Hcm%Hd. by destruct Hc as (_ & ? & _). }
  { apply Forall_forall. intros c Hc%Hcm%Hd Hin. destruct Hc as (_ & _ & Hsub). by apply Hempty, Hsub. }
  exists mds, (c_PhysicalMeasurements <$> cs), dcrs, r3. split; [done|].
  rewrite length_fmap, Hcl, Hl. split; [done|]. split; [lia|]. split; [lia|]. split; [done|].
  split; [|split; [done|split; [by apply Forall_forall|split]]].
  - intros k pm Hk. apply list_lookup_fmap_Some in Hk as (c & -> & Hc). by apply (Hcn k c).
  - apply Forall_fmap, Forall_forall. intros c Hc. rewrite Forall_forall in Hm.
    destruct (Hm c Hc) as (? & ? & _ & ?). split; [done|]. split; [done|].
    exists (c_MeasurementDevice c). split; [by apply Hcm|done].
  - eapply Forall_impl; [exact Hdcr|]. intros d (? & ? & _ & ?). by split_and!.
Qed.
End Accepted.

(** ** Witnesses: a host that counts *)
Module StressSample.
Export SimpleOs.
#[export] Instance counting : Host nat :=
  {| Intn n r := ((Z.of_nat r `mod` n)%Z, S r); Perm n r := (seq 0 n, S r);
     Now_Unix r := ((1700000000 + Z.of_nat r)%Z, S r) |}.
#[export] Instance counting_laws : HostLaws nat.
Proof. split; [|done]. intros n r Hn. by apply Z.mod_pos_bound. Qed.
#[export] Instance any_label : LabelValidation := {| IsValidLabelName _ := true |}.
#[export] Instance list_order : MapOrder := {| range_map V := map_to_list |}.
#[export] Instance list_order_laws : MapOrderLaws.
Proof. split. done. Qed.

Definition mib_lines : list text_line :=
  [mkLine "    OBJECT-TYPE FROM SNMPv2-SMI;" false; mkLine "tnoPduEnergyValue OBJECT-TYPE" false;
   mkLine "tnoPduPowerValue   OBJECT-TYPE" true; mkLine "" false].
Definition mib_fs : Fs :=
  mkFs {["dev/mibs/TNO-PDU-MIB.txt" := foldr String.append "" (written <$> mib_lines)]} ∅ 0.
Definition two_devices : stressTestFlags := default_flags.

Definition a_device : MeasurementDevice :=
  {| md_Meta := new_meta "md" "dc"; md_Spec := mkMeasurementDeviceSpec ["w"] None;
     md_Status := mkMeasurementDeviceStatus 0 "" [] |}.
Definition a_measurement : PhysicalMeasurement :=
  {| pm_Meta := new_meta "pm" "dc"; pm_Spec := mkPhysicalMeasurementSpec "snmp" "" "md" None;
     pm_Status := mkPhysicalMeasurementStatus 0 [] |}.
Definition one_combination : list Combination := [mkCombination a_device a_measurement].

(** A single root deals its references out to two children: the first gets two. *)
Definition parents_of (o : outcome (list DataCenterResource)) : list (list (string * string)) :=
  match o with
  | Done ds => (λ d, (λ p, (pr_Name p, pr_Coefficient p)) <$> dcr_Parents (dcr_Spec d)) <$> ds
  | Panicked => []
  end.
Example same_parent_twice :
  parents_of (generateDataCenterResources "dc" one_combination 3 0).1 =
  [[]; [("stresstest-dcr-1700000001-0", "0.500000"); ("stresstest-dcr-1700000001-0", "0.500000")];
   [("stresstest-dcr-1700000001-0", "0.500000")]].
Proof. vm_compute. reflexivity. Qed.

#[export] Instance fitting_dec l : Decision (fitting l).
Proof. unfold fitting. apply _. Defined.

(** A cluster of devices alone, which deletes by name. *)
#[export] Instance devices_client : ResourceClient (list MeasurementDevice) MeasurementDevice :=
  {| List a _ := inr a; Create d a := (None, a ++ [d]);
     Delete d a := (None, filter (λ d', GetName d' ≠ GetName d) a) |}.
#[export] Instance no_measurements : ResourceClient (list MeasurementDevice) PhysicalMeasurement :=
  {| List _ _ := inr []; Create _ a := (None, a); Delete _ a := (None, a) |}.
#[export] Instance no_resources : ResourceClient (list MeasurementDevice) DataCenterResource :=
  {| List _ _ := inl (errorString "forbidden"); Create _ a := (None, a); Delete _ a := (None, a) |}.
Definition named_device (name : string) : MeasurementDevice :=
  {| md_Meta := new_meta name "dc"; md_Spec := mkMeasurementDeviceSpec ["w"] None;
     md_Status := mkMeasurementDeviceStatus 0 "" [] |}.
Definition two_kinds : list MeasurementDevice :=
  [named_device "pdu-1"; named_device "stresstest-md-1700000000-0"].
Definition answered (word : string) : connection := mkConnection None None None None word.
Definition cleaning : stressTestFlags := mkFlags "" "dc" 2 4 3 0 true.
Example cleaned :
  main (answered "y") cleaning mib_fs 0 two_kinds = (Done tt, [named_device "pdu-1"]).
Proof. vm_compute. reflexivity. Qed.

Lemma one_has_walks : Forall has_walks one_combination.
Proof. repeat constructor. discriminate. Qed.
End StressSample.
Import StressSample.

Lemma parseMIB_spec_witness :
  ∃ names, parseMIB "./dev/mibs/TNO-PDU-MIB.txt" mib_fs = (inr names, tick mib_fs) ∧
    names_of (line_text <$> mib_lines) names.
Proof.
  apply (parseMIB_spec _ _ _ mib_lines); [vm_compute; reflexivity|].
  unfold mib_lines. repeat (apply Forall_cons; split); [apply (bool_decide_unpack _); vm_compute; exact I..|].
  by apply Forall_nil.
Defined.

Lemma generated_parents_witness :
  ∃ roots children r',
    generateDataCenterResources "dc" one_combination 3 0 = (Done (roots ++ children), r') ∧
    length children = length roots * 2.
Proof.
  destruct (generated_parents "dc" one_combination 3 0 ltac:(lia) one_has_walks)
    as (roots & children & r' & ? & _ & ? & _).
  by exists roots, children, r'.
Defined.

Lemma generateDataCenterResources_panics_witness :
  (generateDataCenterResources "dc" one_combination 1 0).1 = Panicked ∧ one_combination ≠ [].
Proof.
  split; [|discriminate].
  apply (generateDataCenterResources_panics "dc" one_combination 1 0 one_has_walks).
  split; [discriminate|lia].
Defined.

Lemma stress_test_generates_witness :
  ∃ mds pms dcrs r', generate two_devices mib_fs 0 = (Done (mds, pms, dcrs), r') ∧
    Z.of_nat (length dcrs) = (Z.of_nat (length pms) * 3)%Z.
Proof.
  destruct (stress_test_generates two_devices mib_fs 0 ["tnoPduEnergyValue"; "tnoPduPowerValue"])
    as (mds & pms & dcrs & r' & Hg & _ & _ & Hl & _);
    [vm_compute; reflexivity|discriminate|vm_compute; congruence..|].
  exists mds, pms, dcrs, r'. split; [exact Hg|exact Hl].
Defined.

Lemma main_asks_its_own_witness :
  main (answered "n") cleaning mib_fs 0 two_kinds = (Panicked, two_kinds) ∧
  named_device "pdu-1" ∈ (main (answered "y") cleaning mib_fs 0 two_kinds).2.
Proof.
  assert (∀ word, (typed (answered word) ≠ "y" → typed (answered word) ≠ "Y" →
      main (answered word) cleaning mib_fs 0 two_kinds = (Panicked, two_kinds)) ∧
    (cleanup cleaning = true →
      named_device "pdu-1" ∈ (main (answered word) cleaning mib_fs 0 two_kinds).2) ∧
    (cleanup cleaning = false → (generate cleaning mib_fs 0).1 = Panicked →
      main (answered word) cleaning mib_fs 0 two_kinds = (Panicked, two_kinds))) as Hmain.
  { intros word. apply (main_asks_its_own (answered word) cleaning mib_fs 0 two_kinds
      (λ a, named_device "pdu-1" ∈ a));
      [|intros ? ? ? Ha; exact Ha..|by left].
    intros d a Hd Ha. apply list_elem_of_filter. split; [|done].
    intros E. rewrite <-E in Hd. discriminate Hd. }
  split; [by apply (proj1 (Hmain "n"))|by apply (proj1 (proj2 (Hmain "y")))].
Defined.
