(* ===== verification/Observability.v ===== *)
(** [dev/stresstest-observability]: the loop that counts, for the three kinds of
    resource, those that are there and those that are reconciled, and the start of
    the program. *)
From S2P Require Import Prelude GoStd GoFloat Errors Selector ApiTypes.

(** ** What is looked at

    The program finds the fields by name, by reflection; every kind has them. *)
Class Observed (Obj : Type) := {
  o_Meta : Obj → ObjectMeta;
  o_ObservedGeneration : Obj → Z;
  o_Conditions : Obj → list Condition
}.
#[export] Instance observed_md : Observed MeasurementDevice :=
  {| o_Meta := md_Meta; o_ObservedGeneration d := md_ObservedGeneration (md_Status d);
     o_Conditions d := md_Conditions (md_Status d) |}.
#[export] Instance observed_pm : Observed PhysicalMeasurement :=
  {| o_Meta := pm_Meta; o_ObservedGeneration p := pm_ObservedGeneration (pm_Status p);
     o_Conditions p := pm_Conditions (pm_Status p) |}.
#[export] Instance observed_dcr : Observed DataCenterResource :=
  {| o_Meta := dcr_Meta; o_ObservedGeneration d := dcr_ObservedGeneration (dcr_Status d);
     o_Conditions d := dcr_Conditions (dcr_Status d) |}.

(** The gauges of the program. *)
Record metrics := mkMetrics {
  mdCreated : float64;
  mdReconciled : float64;
  pmCreated : float64;
  pmReconciled : float64;
  dcrCreated : float64;
  dcrReconciled : float64;
  latency : float64
}.
(** The two gauges of a kind, and how they are set. *)
Record gauges := mkGauges {
  created_of : metrics → float64;
  reconciled_of : metrics → float64;
  set_gauges : float64 → float64 → metrics → metrics
}.
Definition md_gauges : gauges := mkGauges mdCreated mdReconciled (λ c r m,
  mkMetrics c r (pmCreated m) (pmReconciled m) (dcrCreated m) (dcrReconciled m) (latency m)).
Definition pm_gauges : gauges := mkGauges pmCreated pmReconciled (λ c r m,
  mkMetrics (mdCreated m) (mdReconciled m) c r (dcrCreated m) (dcrReconciled m) (latency m)).
Definition dcr_gauges : gauges := mkGauges dcrCreated dcrReconciled (λ c r m,
  mkMetrics (mdCreated m) (mdReconciled m) (pmCreated m) (pmReconciled m) c r (latency m)).
Definition set_latency (l : float64) (m : metrics) : metrics :=
  mkMetrics (mdCreated m) (mdReconciled m) (pmCreated m) (pmReconciled m) (dcrCreated m)
    (dcrReconciled m) l.

(** [prometheus.NewGauge]: a gauge starts at zero. *)
Definition newMetrics : metrics :=
  let zero := float64.of_int 0 in mkMetrics zero zero zero zero zero zero zero.

(** The answer of the client to a list of a namespace, and the time it took. *)
Definition listing (Obj : Type) : Type := (error + list Obj) * float64.

(** ** One observation *)
Section Observe.
Context {Obj : Type} `{Observed Obj}.

(** The loop over the conditions: it ends at a Ready one that is true. *)
Fixpoint condition_ready (cs : list Condition) : bool :=
  match cs with
  | [] => false
  | c :: rest =>
      if decide (cond_Type c = "Ready") then
        if decide (cond_Status c = ConditionTrue) then true else condition_ready rest
      else condition_ready rest
  end.

(** The loop over the items. *)
Fixpoint count_reconciled (items : list Obj) (reconciled : Z) : Z :=
  match items with
  | [] => reconciled
  | item :: rest =>
      if decide (o_ObservedGeneration item ≠ Generation (o_Meta item)) then count_reconciled rest reconciled
      else if condition_ready (o_Conditions item) then count_reconciled rest (reconciled + 1)%Z
      else count_reconciled rest reconciled
  end.

Definition observeResource (g : gauges) (answer : listing Obj) : Go metrics (option error) :=
  match answer with
  | (inl err, _) => mret (Some err)
  | (inr items, elapsed) =>
      modify (set_latency elapsed);;
      let created := Z.of_nat (length items) in
      let reconciled := count_reconciled items 0 in
      modify (set_gauges g (float64.of_int created) (float64.of_int reconciled));;
      mret None
  end.
End Observe.

(** What a turn of the loop hears of the cluster. *)
Record answers := mkAnswers {
  a_md : listing MeasurementDevice;
  a_pm : listing PhysicalMeasurement;
  a_dcr : listing DataCenterResource
}.

(** One turn of [observe]: an error is logged, and the next kind is looked at. *)
Definition observe_turn (a : answers) : Go metrics unit :=
  _ ← observeResource md_gauges (a_md a);
  _ ← observeResource pm_gauges (a_pm a);
  _ ← observeResource dcr_gauges (a_dcr a);
  mret tt.

(** The loop, for as many turns as there are answers. *)
Fixpoint observe (turns : list answers) : Go metrics unit :=
  match turns with
  | [] => mret tt
  | a :: rest => observe_turn a;; observe rest
  end.

(** ** The start of the program *)

(** Its calls into the libraries, each of which may fail. *)
Inductive call :=
| BuildConfigFromFlags (kubeconfig : string)
| AddToScheme (group : string)
| NewClient
| Register (gauge help : string)
| Handle (path : string)
| Serve (addr : string).
Class Libraries (L : Type) := { perform : call → L → option error * L }.

Section Start.
Context {L : Type} `{Libraries L}.

(** The libraries, and the calls they have had. *)
Record process := mkProcess { libraries : L; calls : list call }.
Definition do_call (c : call) : Go process (option error) :=
  action (λ p, let '(err, l) := perform c (libraries p) in (err, mkProcess l (calls p ++ [c]))).

(** [log.Fatal] ends the process: the answer is whether it lives. *)
Definition or_fatal (c : call) (rest : Go process bool) : Go process bool :=
  err ← do_call c;
  match err with Some _ => mret false | None => rest end.
Definition createKubernetesClient (kubeconfig : string) : Go process bool :=
  or_fatal (BuildConfigFromFlags kubeconfig)
    (or_fatal (AddToScheme "client-go")
       (or_fatal (AddToScheme "chantico-project.github.io")
          (or_fatal NewClient (mret true)))).

(** The names of the gauges and what is said of them. *)
Definition gauge_opts : list (string * string) :=
  [("measurement_device_created", "Observed number of measurement devices created");
   ("measurement_device_reconciled", "Observed number of measurement devices reconciled");
   ("physical_measurement_created", "Observed number of physical measurements created");
   ("physical_measurement_reconciled", "Observed number of physical measurements reconciled");
   ("datacenter_resources_created", "Observed number of datacenter resources created");
   ("datacenter_resources_reconciled", "Observed number of datacenter resources reconciled");
   ("latency_seconds", "Kubernetes API query latency")].

(** [reg.MustRegister] panics at the first gauge that is refused. *)
Fixpoint MustRegister (opts : list (string * string)) : Go process unit :=
  match opts with
  | [] => mret tt
  | (name, help) :: rest =>
      err ← do_call (Register name help);
      match err with Some _ => panic | None => MustRegister rest end
  end.

(** The server runs beside the rest, and ends the process when it fails. *)
Definition startMetricsServer (addr : string) : Go process unit :=
  _ ← do_call (Handle "/metrics");
  _ ← do_call (Serve addr);
  mret tt.

Definition main : Go process bool :=
  alive ← createKubernetesClient "/kubeconfig";
  if alive : bool then
    MustRegister gauge_opts;;
    startMetricsServer ":2112";;
    mret true
  else mret false.
End Start.
Arguments process : clear implicits.

(** * Theorems *)

(** What the program counts as reconciled. *)
Definition reconciled {Obj} `{Observed Obj} (item : Obj) : Prop :=
  o_ObservedGeneration item = Generation (o_Meta item) ∧
  ∃ c, c ∈ o_Conditions item ∧ cond_Type c = ConditionType_string ConditionReady ∧
       cond_Status c = ConditionTrue.

Lemma condition_ready_spec cs :
  condition_ready cs = true ↔
  ∃ c, c ∈ cs ∧ cond_Type c = ConditionType_string ConditionReady ∧ cond_Status c = ConditionTrue.
Proof.
  change (ConditionType_string ConditionReady) with "Ready".
  induction cs as [|c cs IH]; simpl; [set_solver|].
  repeat case_decide; rewrite ?IH; set_solver.
Qed.

Lemma reconciled_spec {Obj} `{Observed Obj} (item : Obj) :
  reconciled item ↔
  o_ObservedGeneration item = Generation (o_Meta item) ∧ condition_ready (o_Conditions item) = true.
Proof. unfold reconciled. by rewrite condition_ready_spec. Qed.

#[export] Instance reconciled_dec {Obj} `{Observed Obj} (item : Obj) : Decision (reconciled item).
Proof.
  refine (cast_if (decide (o_ObservedGeneration item = Generation (o_Meta item) ∧
    condition_ready (o_Conditions item) = true))); by rewrite reconciled_spec.
Defined.

Lemma count_reconciled_filter {Obj} `{Observed Obj} (items : list Obj) : ∀ k,
  count_reconciled items k = (k + Z.of_nat (length (filter reconciled items)))%Z.
Proof.
  induction items as [|item items IH]; intros k; [simpl; lia|]. cbn [count_reconciled].
  rewrite filter_cons.
  destruct (decide (reconciled item)) as [Hr|Hr]; rewrite reconciled_spec in Hr; rewrite !IH.
  - destruct Hr as [-> ->]. rewrite decide_False by auto. simpl. lia.
  - case_decide as Hg; [done|].
    by destruct (condition_ready (o_Conditions item)); [destruct Hr|].
Qed.

(** The gauges of a kind after a turn: of its listing, if there is one. *)
Definition shows {Obj} `{Observed Obj} (g : gauges) (answer : listing Obj) (m m' : metrics) : Prop :=
  match answer.1 with
  | inl _ => created_of g m' = created_of g m ∧ reconciled_of g m' = reconciled_of g m
  | inr items =>
      created_of g m' = float64.of_int (Z.of_nat (length items)) ∧
      reconciled_of g m' = float64.of_int (Z.of_nat (length (filter reconciled items)))
  end.

(** C39: a turn of the observation always ends, and its gauges are truthful: for each
    kind whose list the cluster answers, created is the number of objects listed and
    reconciled the number of those whose observed generation is their generation
    and that have a Ready condition that is true; a kind whose list fails keeps the
    gauges it had and does not keep the others from being shown. *)
Theorem observe_turn_spec (a : answers) (m : metrics) :
  ∃ m', observe_turn a m = (Done tt, m') ∧
    shows md_gauges (a_md a) m m' ∧ shows pm_gauges (a_pm a) m m' ∧ shows dcr_gauges (a_dcr a) m m'.
Proof.
  assert (∀ Obj (H : Observed Obj) g (answer : listing Obj) m, ∃ e, observeResource g answer m =
    (Done e, match answer.1 with
             | inl _ => m
             | inr items => set_gauges g (float64.of_int (Z.of_nat (length items)))
                 (float64.of_int (Z.of_nat (length (filter reconciled items)))) (set_latency answer.2 m)
             end)) as Hstep.
  { intros Obj H g [[err|items] elapsed] m0; eexists; [done|].
    unfold observeResource. rewrite run_bind, run_modify, run_bind, run_modify, run_ret.
    by rewrite count_reconciled_filter, Z.add_0_l. }
  unfold observe_turn. rewrite run_bind.
  destruct (Hstep _ _ md_gauges (a_md a) m) as [e1 ->]. rewrite run_bind.
  match goal with |- context [observeResource pm_gauges _ ?m1] =>
    destruct (Hstep _ _ pm_gauges (a_pm a) m1) as [e2 ->] end. rewrite run_bind.
  match goal with |- context [observeResource dcr_gauges _ ?m2] =>
    destruct (Hstep _ _ dcr_gauges (a_dcr a) m2) as [e3 ->] end.
  eexists. split; [done|]. unfold shows.
  by destruct (a_md a).1, (a_pm a).1, (a_dcr a).1.
Qed.

(** A resource just created is not counted, and one that is ready is. *)
Example settled_counted :
  let pm (gen obs : Z) cs := mkPhysicalMeasurement (mkObjectMeta "pm" "dc" "" gen None [])
    (mkPhysicalMeasurementSpec "snmp" "" "md" None) (mkPhysicalMeasurementStatus obs cs) in
  let ready := mkCondition "Ready" ConditionTrue "Reconciled" "" 1 in
  let applied := mkCondition "Applied" ConditionTrue "Reconciled" "" 1 in
  count_reconciled [pm 1%Z 0%Z []; pm 2%Z 1%Z [ready]; pm 1%Z 1%Z [applied; ready];
                    pm 1%Z 1%Z [applied]] 0%Z = 1%Z.
Proof. vm_compute. reflexivity. Qed.

(** ** The start *)
Section StartFacts.
Context {L : Type} `{Libraries L}.
Implicit Types (p : process L).

Definition connecting : list call :=
  [BuildConfigFromFlags "/kubeconfig"; AddToScheme "client-go"; AddToScheme "chantico-project.github.io";
   NewClient].
Definition registering : list call := (λ kv, Register kv.1 kv.2) <$> gauge_opts.

Lemma run_do_call c p :
  do_call c p = (Done (perform c (libraries p)).1,
                 mkProcess (perform c (libraries p)).2 (calls p ++ [c])).
Proof. unfold do_call, action. by destruct (perform c (libraries p)). Qed.

(** A part of the start: what it has called is the beginning of what it would. *)
Definition called {X} (plan : list call) (m : Go (process L) X) (finished : X → bool) : Prop :=
  ∀ p, ∃ k, calls (m p).2 = calls p ++ take k plan ∧
    match (m p).1 with
    | Done x => if finished x then k = length plan else k ≤ length plan
    | Panicked => k ≤ length plan
    end.

Lemma called_or_fatal c plan rest : called plan rest id → called (c :: plan) (or_fatal c rest) id.
Proof.
  intros Hrest p. unfold or_fatal. rewrite run_bind, run_do_call.
  destruct (perform c (libraries p)).1 as [err|].
  - exists 1. split; [done|]. cbn. lia.
  - destruct (Hrest (mkProcess (perform c (libraries p)).2 (calls p ++ [c]))) as (k & Hk & Hout).
    exists (S k). split; [rewrite Hk; cbn [calls take]; by rewrite <- (assoc_L (++))|].
    destruct (rest _) as [[x|] p']; cbn [fst length] in *; [destruct (id x)|]; lia.
Qed.

Lemma called_connect : called connecting (createKubernetesClient "/kubeconfig") id.
Proof.
  unfold connecting, createKubernetesClient. do 4 apply called_or_fatal.
  intros p. exists 0. cbn. by rewrite app_nil_r.
Qed.

Lemma called_register opts :
  called ((λ kv, Register kv.1 kv.2) <$> opts) (MustRegister opts) (λ _, true).
Proof.
  induction opts as [|[name help] opts IH]; intros p.
  - exists 0. cbn. by rewrite app_nil_r.
  - cbn [MustRegister fmap list_fmap fst snd]. rewrite run_bind, run_do_call.
    destruct (perform (Register name help) (libraries p)).1 as [err|].
    + exists 1. split; [done|]. cbn. lia.
    + destruct (IH (mkProcess (perform (Register name help) (libraries p)).2
                     (calls p ++ [Register name help]))) as (k & Hk & Hout).
      exists (S k). split; [rewrite Hk; cbn [calls take]; by rewrite <- (assoc_L (++))|].
      destruct (MustRegister opts _) as [[x|] p']; cbn [fst length] in *; lia.
Qed.

(** The program observes only when it is connected, has registered each gauge once
    and serves the metrics; else it has ended, and serves nothing. *)
Lemma main_starts p :
  let '(out, p') := main p in
  match out with
  | Done true => calls p' = calls p ++ connecting ++ registering ++ [Handle "/metrics"; Serve ":2112"]
  | _ => ∃ k, calls p' = calls p ++ take k (connecting ++ registering)
  end.
Proof.
  unfold main. rewrite run_bind. destruct (called_connect p) as (k & Hk & Hout).
  destruct (createKubernetesClient "/kubeconfig" p) as [[[]|] p1]; cbn [fst snd id] in *.
  - subst k. rewrite firstn_all in Hk. rewrite run_bind. destruct (called_register gauge_opts p1) as (k & Hk2 & Hout).
    fold registering in Hk2, Hout. destruct (MustRegister gauge_opts p1) as [[u|] p2]; cbn [fst snd] in *.
    + subst k. rewrite firstn_all in Hk2. unfold startMetricsServer.
      rewrite !run_bind, run_do_call, run_bind, run_do_call. cbn [calls]. by rewrite Hk2, Hk, <- !(assoc_L (++)).
    + exists (length connecting + k). rewrite Hk2, Hk, firstn_app_2. by rewrite (assoc_L (++)).
  - exists k. rewrite take_app_le by done. done.
  - exists k. rewrite take_app_le by done. done.
Qed.

Lemma gauges_named_apart : NoDup gauge_opts.*1.
Proof. apply (bool_decide_unpack _). by vm_compute. Qed.
End StartFacts.
