(* ===== verification/PostMortem.v ===== *)
(** [internal/postmortem]: the report of a failure, with what the program and the
    cluster were doing, and the file it is saved to before the program ends. *)
From stdpp Require Import pretty.
From S2P Require Import Prelude GoStd Errors Paths FileStore Configuration Selector ApiTypes.

(** ** What the report is made of *)

(** A value of any type, as far as it is told apart here; a slice may be nil. *)
Inductive any (X : Type) :=
| AnyString (s : string)
| AnyDevices (items : option (list MeasurementDevice))
| AnyOther (x : X).
Arguments AnyString {X}.
Arguments AnyDevices {X}.
Arguments AnyOther {X}.

(** The verb [%#v] of package fmt on a slice of such values, by reflection. *)
Class GoSyntax (X : Type) := { go_syntax : list (any X) → string }.

Section PostMortem.
Context {X : Type} `{GoSyntax X, UnicodeTables}.

Definition fence : string := "```".
Definition unlines (l : list string) : string := foldr (λ s t, s +:+ newline +:+ t) "" l.

Record ClusterState := mkClusterState { CRDStates : list (any X) }.
Definition ClusterState_Markdown (cs : ClusterState) : string :=
  unlines [""; "- CRDs state:"; fence; go_syntax (CRDStates cs); fence].

Record ChanticoState := mkChanticoState {
  cs_Error : option error;
  File : string;
  Line : Z;
  FunctionName : string;
  Stack : string;
  LoggedVariables : list (any X)
}.

(** The verb [%s] on an error, which may be nil. *)
Definition print_error (e : option error) : string :=
  match e with Some err => Error err | None => "%!s(<nil>)" end.

Definition ChanticoState_Markdown (cs : ChanticoState) : string :=
  unlines [""; "- File: " +:+ File cs; "- Line: " +:+ strconv.FormatInt (Line cs);
    "- FunctionName: " +:+ FunctionName cs; "- Error:"; fence; print_error (cs_Error cs); fence;
    "- Stack:"; fence; Stack cs; fence; "- Logged variables:"; fence; go_syntax (LoggedVariables cs); fence].

(** A time is the microseconds since 1970 it stands for. *)
Record PostMortem := mkPostMortem {
  Timestamp : Z;
  pm_ClusterState : ClusterState;
  pm_ChanticoState : ChanticoState
}.

(** [time.Time]'s zero value is the first of January of the year one. *)
Definition zero_time : Z := (-62135596800000000)%Z.

(** What package runtime knows of the caller, and the cluster: its configuration
    (the program ends without one), the client and the list of the devices. *)
Record surroundings := mkSurroundings {
  debug_Stack : string;
  runtime_Caller : option (string * Z);
  runtime_FuncForPC : option string;
  config_there : bool;
  client_New : option error;
  List_devices : error + list MeasurementDevice
}.

(** The result is a pointer that may be nil. *)
Definition NewPostMortem (s : surroundings) (err : option error) (args : list (any X)) :
    outcome (option PostMortem) :=
  match runtime_Caller s with
  | None => Done None
  | Some (file, line) =>
      let chanticoState := mkChanticoState err file line (default "" (runtime_FuncForPC s))
                             (debug_Stack s) args in
      if config_there s then
        match client_New s with
        | Some _ => Done None
        | None =>
            let states :=
              match List_devices s with
              | inl _ => [AnyString "Could not find any measurementDevices"; AnyDevices None]
              | inr items => [AnyDevices (Some items)]
              end in
            Done (Some (mkPostMortem zero_time (mkClusterState states) chanticoState))
        end
      else Panicked
  end.

Definition Markdown (pm : PostMortem) : string :=
  unlines [""; "---"; "name: 🐛 Bug Report";
    "about: Report a problem or unexpected behavior in the system"; "title: '[BUG] '"; "labels: bug";
    "assignees: ''"; ""; "---"; ""; "## 🐞 Description"; "";
    "A clear and concise description of what the bug is, where it happens, and what the expected behavior should be.";
    ""; "---"; ""; "## 🔁 How to Reproduce"; ""; "### Cluster state"; "";
    ClusterState_Markdown (pm_ClusterState pm); ""; "### Chantico state"; "";
    ChanticoState_Markdown (pm_ChanticoState pm); ""; "---"; ""; "## 🧪 Suggested Testing or Validation"; "";
    "Explain how the fix can be verified. Mention test cases, test environments, or steps to revalidate.";
    ""; "---"; ""; "## 📂 Logs, Screenshots, or Code Snippets"; "";
    "Include logs, screenshots, or relevant code snippets to support the bug report."; ""; "---"].

Context `{Os, Renameio} (env : validatedEnv).

Definition bug_file (pm : PostMortem) : string :=
  VolumeLocation env +:+ "/bugs/bug" +:+ strconv.FormatInt (Timestamp pm) +:+ ".md".

(** The store has no root: the name is a path by itself.  Either way the program
    panics, and a nil receiver is dereferenced first. *)
Definition SaveAndQuit (pm : option PostMortem) : Go Fs unit :=
  match pm with
  | None => panic
  | Some pm =>
      _ ← action (VolumeFileStore_Write "" (bug_file pm) (Markdown pm));
      panic
  end.
End PostMortem.

(** * Theorems *)
Section Reports.
Context {X : Type} `{GoSyntax X, UnicodeTables, Os, RenameioLaws} (env : validatedEnv).

(** Where every report goes. *)
Definition report_path : string :=
  filepath.Clean (VolumeLocation env +:+ "/bugs/bug-62135596800000000.md").

(** The time of a new report is never set. *)
Lemma NewPostMortem_time s err (args : list (any X)) pm :
  NewPostMortem s err args = Done (Some pm) → Timestamp pm = zero_time.
Proof.
  unfold NewPostMortem. intros Hn. destruct (runtime_Caller s) as [[file line]|]; [|done].
  destruct (config_there s); [|done]. destruct (client_New s); [done|]. by injection Hn as <-.
Qed.

(** A save ends in a panic, with the report in its file or every file as it was. *)
Lemma SaveAndQuit_files (pm : PostMortem (X := X)) fs :
  Timestamp pm = zero_time →
  (SaveAndQuit env (Some pm) fs).1 = Panicked ∧
  (files (SaveAndQuit env (Some pm) fs).2 = files fs ∨
   files (SaveAndQuit env (Some pm) fs).2 = <[report_path := Markdown pm]> (files fs)).
Proof.
  intros Ht. assert (bug_file env pm = VolumeLocation env +:+ "/bugs/bug-62135596800000000.md") as Hb.
  { unfold bug_file. rewrite Ht. reflexivity. }
  assert (VolumeFileStore_Resolve "" [bug_file env pm] = report_path) as Hres.
  { unfold report_path. rewrite <-Hb. change (filepath.Join [bug_file env pm] = filepath.Clean (bug_file env pm)).
    apply Join_single. rewrite Hb. by destruct (VolumeLocation env). }
  unfold SaveAndQuit. rewrite run_bind. unfold action.
  destruct (VolumeFileStore_Write "" (bug_file env pm) (Markdown pm) fs) as [r fs'] eqn:Hw.
  apply Write_clean_inv in Hw; [|rewrite Hres; apply Clean_idemp]. rewrite Hres in Hw.
  split; [done|]. destruct r; cbn [snd]; auto.
Qed.

(** C40: reports replace one another: their time is not set, so that every report of
    the program goes to one and the same file, and of two failures that were saved
    at most one report is left; saving always ends in a panic. *)
Theorem reports_overwrite s1 s2 e1 e2 (args1 args2 : list (any X)) pm1 pm2 fs fs1 fs2 o1 o2 :
  NewPostMortem s1 e1 args1 = Done (Some pm1) → NewPostMortem s2 e2 args2 = Done (Some pm2) →
  SaveAndQuit env (Some pm1) fs = (o1, fs1) → SaveAndQuit env (Some pm2) fs1 = (o2, fs2) →
  o1 = Panicked ∧ o2 = Panicked ∧
  (files fs2 = files fs ∨ files fs2 = <[report_path := Markdown pm1]> (files fs) ∨
   files fs2 = <[report_path := Markdown pm2]> (files fs)).
Proof.
  intros Ht1%NewPostMortem_time Ht2%NewPostMortem_time Hs1 Hs2.
  destruct (SaveAndQuit_files pm1 fs Ht1) as [Hp1 Hf1], (SaveAndQuit_files pm2 fs1 Ht2) as [Hp2 Hf2].
  rewrite Hs1 in Hp1, Hf1. rewrite Hs2 in Hp2, Hf2. cbn [fst snd] in *.
  split; [done|]. split; [done|]. destruct Hf2 as [->| ->], Hf1 as [->| ->]; auto.
  right. right. by rewrite insert_insert_eq.
Qed.
End Reports.

(** ** Witness: two reports of one program *)
Module PostMortemSample.
Export SimpleOs.
#[export] Instance no_printable : UnicodeTables := {| IsPrint _ := false |}.
#[export] Instance count_values : GoSyntax unit :=
  {| go_syntax l := "[]any of " +:+ pretty (length l) |}.
Definition here : surroundings :=
  mkSurroundings "goroutine 1" (Some ("main.go", 7%Z)) (Some "main.main") true None (inr []).
Definition report (msg : string) : PostMortem (X := unit) :=
  mkPostMortem zero_time (mkClusterState [AnyDevices (Some [])])
    (mkChanticoState (Some (errorString msg)) "main.go" 7 "main.main" "goroutine 1" []).
Definition volume : validatedEnv := set_VolumeLocation "/data" zero_env.
Definition saved (pm : PostMortem (X := unit)) (fs : Fs) : Fs := (SaveAndQuit volume (Some pm) fs).2.

Lemma saved_eq pm fs : SaveAndQuit volume (Some pm) fs = (Panicked, saved pm fs).
Proof.
  unfold saved, SaveAndQuit. rewrite run_bind. unfold action.
  by destruct (VolumeFileStore_Write "" (bug_file volume pm) (Markdown pm) fs).
Qed.

Example one_file_left :
  dom (files (saved (report "second") (saved (report "first") empty_fs))) =
  {["/data/bugs/bug-62135596800000000.md"]}.
Proof. apply (bool_decide_unpack _). vm_compute. exact I. Qed.
End PostMortemSample.
Import PostMortemSample.

Lemma reports_overwrite_witness :
  let fs1 := saved (report "first") empty_fs in
  let fs2 := saved (report "second") fs1 in
  files fs2 = files empty_fs ∨
  files fs2 = <[report_path volume := Markdown (report "first")]> (files empty_fs) ∨
  files fs2 = <[report_path volume := Markdown (report "second")]> (files empty_fs).
Proof.
  intros fs1 fs2.
  apply (reports_overwrite volume here here (Some (errorString "first")) (Some (errorString "second")) [] []
    (report "first") (report "second") empty_fs fs1 fs2 Panicked Panicked);
    [reflexivity|reflexivity|apply saved_eq|apply saved_eq].
Defined.
